(* ===== verification/_CoqProject ===== *)
-Q . S2P
Prelude.v
Effects.v
Goroutines.v
Rely.v
GoStrings.v
AssetData.v
DeployData.v
Manifests.v
Json.v
Filepath.v
Errors.v
Wait.v
Objects.v
Csi.v
Util.v
ClientAPI.v
Bindata.v
Assets.v
Fixtures.v
Mounter.v
Controller.v
Node.v
NodeHost.v
NodeData.v
Volumes.v
MockClient.v
Attach.v
Attachments.v
DataPath.v
Snapshots.v
Clientsets.v
Generated.v
Labels.v
SnapshotClass.v
KubeClient.v
ApiServer.v
Memo.v
Fakes.v
Ownership.v
Creates.v
ClassChoice.v
RealClient.v
InfraAttach.v
Progress.v
Lifecycle.v
RestConfig.v
ObjectTracker.v
FakeClientset.v
FakeStore.v
Schemes.v
Rbac.v
Driver.v
InfraClients.v
Flags.v
Deployments.v
Server.v
