(* ===== verification/Prelude.v ===== *)
(** * KubeVirt CSI driver: verification library

    The driver gives the pods of a tenant Kubernetes cluster, whose nodes are
    KubeVirt VMs of an infra cluster, volumes of the infra cluster.  A volume is a
    CDI DataVolume of the infra cluster, hot-plugged into the VM of the node that
    uses it.  The program is one Go binary with two roles: the controller (create,
    attach, expand, snapshot) and the node (format, mount, resize), each a gRPC
    service of the Container Storage Interface.

    ** How the program is modelled

    A function that calls out (to a cluster, to the kernel, to the clock) is a
    [prog E A] (Effects.v): a finite tree of calls to operations of a signature
    [E], whose branches are the answers.  It may return or panic.  Three layers
    meet at two interfaces, each a signature:

    - the RPC handlers of the controller call the Go interface [Client]
      ([clientE], ClientAPI.v), which KubeClient.v implements by requests to the
      API servers ([kubeE], Clientsets.v): [implementation];
    - the RPC handlers of the node call the interfaces of [NodeService] ([nodeE],
      Node.v), which NodeHost.v and Mounter.v implement by commands and system
      calls ([hostE], Mounter.v): [node_implementation].

    Beside them the command line and the assembly of the driver call client-go
    ([configE], RestConfig.v), the server calls the gRPC library and the Go
    runtime ([serverE], Server.v), the fake clients of the tests call an object
    tracker ([fakeE], Fakes.v), which FakeClientset.v implements, the mock calls
    its controller ([gomockE], MockClient.v), and the asset library calls package
    os ([osE], Bindata.v).  Several programs at once are goroutines
    (Goroutines.v): lists of [prog]s that take turns, call by call, over a shared
    state or an environment that answers as it is allowed to; Rely.v proves each
    of them alone, against what the others may do.

    [interp] composes a handler with the implementation of its calls, and the rule
    [wp_interp] carries a theorem proved against the interface to the composition.
    What a client may expect of the interface is a class ([ClientContract],
    ClientAPI.v; [DataVolumeStore], Volumes.v; [HotplugClient], Attachments.v), so handlers are proved against any
    answer the class allows.  The environment is never assumed to do anything: a
    theorem quantifies over all answers, or states as a hypothesis the answers it
    needs ([Healthy], Lifecycle.v, is the strongest such hypothesis).  [wp] reasons
    over all answers, [leads] (Progress.v) also shows that a run returns; [exec] runs
    against a concrete world, which the witnesses do.

    Theorems of the kind "every call is allowed" ([...Allowed] predicates) say of
    each call of a run that what the code must have seen before it had been seen,
    and that its arguments are those of the request; theorems on success say what
    the answer is evidence of.

    ** Files and source

    - Prelude, Effects, Goroutines, Rely: notation, machine integers, lists; the
      monad, its weakest preconditions, execution and interpretation; environments
      as relations, and interleaved programs with their invariants; rely and
      guarantee.
    - GoStrings, Filepath, Json, Errors, Wait, Objects, Csi: what the code uses of
      package strings, strconv, path/filepath, encoding/json, errors; of
      k8s.io/apimachinery (IsNotFound,
      backoff, polling, quantities); the fields it reads or writes of Kubernetes
      objects and of CSI messages.
    - Util: pkg/util/util.go.  ClientAPI: the [Client] interface of
      pkg/kubevirt/client.go.
    - Controller, Volumes, Attach, Snapshots: pkg/service/controller.go, one
      definition per function, its retried closures and loops named.
    - Clientsets, Generated, Fakes: the typed clients of pkg/generated that the
      driver calls, the other ones with the getters of the groups, and the fake
      ones: client-gen makes one file per resource from one template, so each
      client is an instance of [typed_client] or [fake_client].  ObjectTracker,
      FakeClientset: the fake clientsets (fake/clientset_generated.go) over the
      object tracker of client-go's testing package; FakeStore: the fake clients
      over them.  Schemes: scheme/register.go and fake/register.go, over the
      registration of types of k8s.io/apimachinery.
    - MockClient: pkg/kubevirt/mocked_client.go, one definition per method of the
      mock and of its recorder.
    - AssetData, Bindata: pkg/generated/bindata.go, the embedded texts and the
      functions around them.  DeployData: four manifests of deploy/ as they are
      now.  Manifests: what is read off such a text.
    - Labels, SnapshotClass, KubeClient: pkg/kubevirt/client.go.
    - Node, NodeHost: pkg/service/node.go.  Mounter: pkg/mounter/mount.go.
    - RestConfig: clientset.go, core_client.go and volumesnapshot_client.go of
      pkg/generated.  Driver: cmd/kubevirt-csi-driver/config.go and
      kubevirt-csi-driver.go, pkg/service/driver.go, and NewClient of
      pkg/kubevirt/client.go.  Flags: parseConfig and main, over package flag.
      Server: pkg/service/server.go and identity.go.
    - Attachments, DataPath, InfraAttach, Creates, NodeData, Memo, Ownership,
      ClassChoice, RealClient, InfraClients, Rbac, Deployments, Assets, Lifecycle:
      abstract specifications and theorems on the compositions.  Progress: total
      correctness against an environment, for Lifecycle.
      Fixtures, ApiServer: the small worlds that the witnesses run against.

    ** What is proved

    - Attachments (Attachments, InfraAttach): publish and unpublish refine an
      abstract set of (volume, VM) pairs over every client that keeps to its
      contract; the real client keeps to it over every API server that behaves like
      KubeVirt's, so that through any sequence of calls a volume that is not shared
      is in the spec of one VM at most; and how two concurrent publishes, or a
      status that lags, break that.
    - Progress (Lifecycle): on an infra cluster in good health the RPCs do succeed:
      through the real client a volume is created, published, unpublished and
      deleted, each call twice, with the same answer both times, and the cluster is
      left as it was, though VMI statuses follow the specs in their own time.
    - The data path (DataPath): what the node formats and mounts is a disk that the
      controller hot-plugged for that same volume, the serial number being the link.
    - Attach and detach (Attach, RealClient): a hot-plug or unplug is asked for
      only when allowed; success is evidence that the disk is attached or gone, at
      the interface and through the real client; the effort is bounded; a second
      node is refused; repeating is harmless; no panic under the contract, and the
      one panic of the detach path that the real client provokes.
    - Volumes and snapshots (Volumes, Snapshots): what is created and when, the
      response on every branch, idempotence, paging of the listing with its
      off-by-one and its panics.
    - Ownership and policy (Ownership, Labels, ClassChoice): the real client only
      changes objects that carry the driver's labels and prefix; selectors agree
      with the label check; the snapshot class chosen is one the policy permits.
    - Concurrency (Creates, NodeData, Memo, Server): concurrent creates of one name
      that succeed answer one volume; no RPCs of the node, however they interleave
      and wherever they are cut, replace a file system, as long as no two stages of
      one volume are in flight (two can); the snapshot class mapping is built once and its
      callers return, however the goroutines interleave; the goroutine that runs
      the server never ends.
    - Node (Node, NodeHost, Mounter): only a blank device with the volume's serial
      is formatted; only the volume is mounted on the target; the target is removed
      only after it was unmounted; statistics are exact in 64-bit arithmetic; the
      lookup of a device in the JSON of lsblk; what a missing serial does.
    - Configuration (Driver, InfraClients, Flags): labels and node IDs are read
      back; service and client are configured alike; the clients of the infra
      cluster are made of one configuration, by calls that are well formed;
      parseConfig accepts exactly the command lines of a grammar, and main runs what
      they ask for.
    - Deployment (Rbac, Deployments): the roles of the manifests permit all that
      the RPCs ask of the servers but the listing of snapshots and the hot-unplug at
      the VMI, which are refused (so that ListSnapshots succeeds only for one
      snapshot, asked for by its ID, which is a get); the arguments in the manifests start
      the services they are meant to, and an embedded older copy starts none.
    - Generated code (Generated, Fakes, FakeClientset, FakeStore, MockClient,
      Assets): every client stays with its own resource; a fake clientset keeps a
      store of objects, but for collections that it does not delete, and every fake
      client reads from it what it wrote and lists what its selector selects; a
      program runs against the mock as against the client that the mock was told to
      play; the schemes of the clientsets are filled without a panic
      and can be put together in any order; the tree and the table of the assets
      agree, and RestoreAssets writes each asset once and ends.

    ** Bounds and fuel

    Retry loops are structural in the backoff's list of pauses, shown equal to the
    fuelled loop of the library ([backoff_loop], whose fuel is the number of
    steps).  A polling loop runs for as many ticks as the environment grants before
    its timeout ([Window]).  [dec_digits] is given one step per bit of the number.
    The JSON reader has two steps of fuel per byte of the text, which
    [Parse_print] shows to be enough for every text that [print] writes; the
    nesting bound is Go's.  RestoreAssets is given one step per level of the tree,
    six, which [restore_assets_restores] shows to be enough.  Integers are [Z] with the wrap-around of the width
    written where the code computes on it.

    ** What is not modelled

    Log lines; the text of error messages beyond their format and arguments; the
    HTTP and gRPC transports; parsing of YAML and what klog's flags accept
    (parameters), and of URLs; the libraries that apply a patch for a fake clientset
    (parameters) and its discovery client; the controller of gomock, which matches
    calls against expectations (the environment); the conversions, defaults and codecs
    of a scheme; the mount table and the resizer of k8s.io/mount-utils, which are
    operations answered by anything; contexts, except for the timeouts of polling;
    the namespaces of role bindings.  The blank imports of pkg/dependencymgmt, the
    tests themselves, and the shell scripts and manifests beside the ones of
    DeployData hold nothing to execute in the driver. *)

From stdpp Require Export base tactics option list numbers strings gmap.
From Stdlib Require Export Ascii ZArith Lia.

(** Definitions below compute with [vm_compute]; strings are byte strings, Go
    integers are [Z] with their width written out. *)

#[global] Set Default Goal Selector "!".
#[global] Open Scope Z_scope.

(** ** Notation scope of the development *)

Declare Scope go_scope.
Delimit Scope go_scope with go.

(** Go's [s == ""] and [len(s) == 0]. *)
Definition is_empty (s : string) : bool :=
  match s with EmptyString => true | String _ _ => false end.

(** Go's [==] on strings. *)
Definition streq (a b : string) : bool := bool_decide (a = b).

Infix "=s?" := streq (at level 70, no associativity) : go_scope.
#[global] Open Scope go_scope.

Lemma streq_spec a b : streq a b = true <-> a = b.
Proof. apply bool_decide_eq_true. Qed.

Lemma streq_refl a : streq a a = true.
Proof. by apply streq_spec. Qed.

Lemma streq_false a b : streq a b = false <-> a <> b.
Proof. apply bool_decide_eq_false. Qed.

Lemma is_empty_spec s : is_empty s = true <-> s = ""%string.
Proof. by destruct s. Qed.

Lemma is_empty_false s : is_empty s = false <-> s <> ""%string.
Proof. by destruct s. Qed.

(** ** Machine integers *)

Definition maxInt64 : Z := 2 ^ 63 - 1.
Definition minInt64 : Z := - 2 ^ 63.
Definition maxUint64 : Z := 2 ^ 64 - 1.
Definition maxUint32 : Z := 2 ^ 32 - 1.

(** Conversion to [uint64] and [int64] in Go keeps the low 64 bits. *)
Definition uint64 (x : Z) : Z := x mod 2 ^ 64.
Definition int64 (x : Z) : Z := (x + 2 ^ 63) mod 2 ^ 64 - 2 ^ 63.

Definition is_int64 (x : Z) : Prop := minInt64 <= x <= maxInt64.
Definition is_uint64 (x : Z) : Prop := 0 <= x <= maxUint64.

Lemma int64_id x : is_int64 x -> int64 x = x.
Proof.
  unfold is_int64, int64, minInt64, maxInt64; intros [H1 H2].
  rewrite Z.mod_small; lia.
Qed.

Lemma uint64_id x : is_uint64 x -> uint64 x = x.
Proof. unfold is_uint64, uint64, maxUint64; intros [H1 H2]. apply Z.mod_small. lia. Qed.

Lemma int64_range x : is_int64 (int64 x).
Proof.
  unfold is_int64, int64, minInt64, maxInt64.
  pose proof (Z.mod_pos_bound (x + 2 ^ 63) (2 ^ 64)). lia.
Qed.

Lemma uint64_range x : is_uint64 (uint64 x).
Proof. unfold is_uint64, uint64, maxUint64. pose proof (Z.mod_pos_bound x (2 ^ 64)). lia. Qed.

(** ** Go maps and slices *)

(** [m[k]] on a [map[string]string]: the zero value when the key is absent. *)
Definition mapget (m : gmap string string) (k : string) : string := default ""%string (m !! k).

(** The slice expression [l[lo:hi]] for indices in range. *)
Definition subslice {A} (lo hi : nat) (l : list A) : list A := take (hi - lo) (drop lo l).

Lemma subslice_app {A} (l : list A) (i j k : nat) :
  (i <= j)%nat -> (j <= k)%nat -> subslice i j l ++ subslice j k l = subslice i k l.
Proof.
  intros Hij Hjk. unfold subslice.
  replace (drop j l) with (drop (j - i) (drop i l)) by (rewrite drop_drop; f_equal; lia).
  generalize (drop i l); intros m.
  rewrite <- (take_drop (j - i) (take (k - i) m)), take_take, take_drop_commute.
  replace ((j - i) `min` (k - i))%nat with (j - i)%nat by lia.
  by replace (j - i + (k - j))%nat with (k - i)%nat by lia.
Qed.

Lemma subslice_0 {A} (l : list A) (k : nat) : subslice 0 k l = take k l.
Proof. unfold subslice. by rewrite drop_0, Nat.sub_0_r. Qed.

Lemma elem_of_subslice {A} (x : A) (i j : nat) (l : list A) : x ∈ subslice i j l -> x ∈ l.
Proof.
  unfold subslice. intros (k & Hk & _)%elem_of_take. rewrite lookup_drop in Hk.
  by eapply list_elem_of_lookup_2.
Qed.

(** ** Automation shared by the development *)

(** [existsb]-style tests over a list that the code writes as a loop with an
    early return. *)
Lemma existsb_In {A} (f : A -> bool) (l : list A) :
  existsb f l = true <-> exists x, x ∈ l /\ f x = true.
Proof.
  rewrite existsb_exists. split; intros (x & Hx & Hf); exists x; split; auto;
    by apply list_elem_of_In.
Qed.

Lemma existsb_none {A} (f : A -> bool) (l : list A) :
  existsb f l = false <-> forall x, x ∈ l -> f x = false.
Proof.
  split.
  - intros H x Hx. destruct (f x) eqn:E; [|done].
    assert (existsb f l = true) by (apply existsb_In; eauto). congruence.
  - intros H. destruct (existsb f l) eqn:E; [|done].
    apply existsb_In in E as (x & Hx & Hf). rewrite H in Hf; [done|auto].
Qed.

(** Turn the boolean tests of the code into propositions. *)
Ltac reflect_bools :=
  repeat match goal with
  | H : streq _ _ = true |- _ => apply streq_spec in H
  | H : streq _ _ = false |- _ => apply streq_false in H
  | H : is_empty _ = true |- _ => apply is_empty_spec in H
  | H : is_empty _ = false |- _ => apply is_empty_false in H
  | H : andb _ _ = true |- _ => apply andb_true_iff in H as [? ?]
  | H : orb _ _ = false |- _ => apply orb_false_iff in H as [? ?]
  | H : negb _ = true |- _ => apply negb_true_iff in H
  | H : negb _ = false |- _ => apply negb_false_iff in H
  | H : (_ <? _) = true |- _ => apply Z.ltb_lt in H
  | H : (_ <? _) = false |- _ => apply Z.ltb_ge in H
  | H : (_ <=? _) = true |- _ => apply Z.leb_le in H
  | H : (_ <=? _) = false |- _ => apply Z.leb_gt in H
  | H : (_ =? _) = true |- _ => apply Z.eqb_eq in H
  | H : (_ =? _) = false |- _ => apply Z.eqb_neq in H
  | H : bool_decide _ = true |- _ => apply bool_decide_eq_true in H
  | H : bool_decide _ = false |- _ => apply bool_decide_eq_false in H
  end.

Create HintDb go discriminated.
Create Rewrite HintDb go.
#[export] Hint Resolve streq_refl int64_range uint64_range : go.
#[export] Hint Rewrite streq_refl @subslice_0 : go.
