(* ===== verification/Effects.v ===== *)
(** * Effects: programs that talk to an environment

    Handlers of the driver call out: to the infra cluster's API server, to the
    kernel, to the clock.  A handler is a finite tree [prog E A] over a
    signature [E] of operations; what the environment answers is the branching
    of the tree.  This file holds the monad, the weakest-precondition calculus
    over traces of calls, the execution of a program against a concrete world,
    and the interpretation of one signature by programs over another (how the
    [Client] interface is implemented by REST requests). *)

From S2P Require Import Prelude.

(** A signature: the operations and the type of the answer to each. *)
Record signature := Signature { op :> Type; resp : op -> Type }.
Arguments resp {_} _.

(** [Ret]: the function returned; [Panic]: a Go run-time panic (nil
    dereference, slice bounds, division by zero); [Vis]: a call to the
    environment and the rest of the function. *)
Inductive prog (E : signature) (A : Type) : Type :=
| Ret (a : A)
| Panic (why : string)
| Vis (o : op E) (k : resp o -> prog E A).
Arguments Ret {E A} a.
Arguments Panic {E A} why.
Arguments Vis {E A} o k.

Fixpoint bind {E A B} (p : prog E A) (f : A -> prog E B) : prog E B :=
  match p with
  | Ret a => f a
  | Panic m => Panic m
  | Vis o k => Vis o (fun r => bind (k r) f)
  end.

(** The result type is known first, then the program bound, then the rest. *)
Arguments bind {E A B} & p f.

Notation "p ≫= f" := (bind p f) : go_scope.
Notation "x ← y ; z" := (bind y (fun x => z)) : go_scope.
Notation "' x ← y ; z" := (bind y (fun x => z)) : go_scope.

Definition call {E : signature} (o : op E) : prog E (resp o) := Vis o Ret.

(** Dereference of a Go pointer: panics on [nil]. *)
Definition deref {E A} (what : string) (p : option A) : prog E A :=
  match p with Some a => Ret a | None => Panic what end.

(** A loop over a slice whose body may return from the function: the body
    answers [Some r] to return [r]. *)
Fixpoint for_return {E A R} (l : list A) (body : A -> prog E (option R)) : prog E (option R) :=
  match l with
  | [] => Ret None
  | x :: l' => r ← body x; match r with Some v => Ret (Some v) | None => for_return l' body end
  end.

(** A loop over a slice that appends one element per iteration. *)
Fixpoint for_append {E A B} (l : list A) (body : A -> prog E B) : prog E (list B) :=
  match l with
  | [] => Ret []
  | x :: l' => y ← body x; ys ← for_append l' body; Ret (y :: ys)
  end.

(** How a function ends. *)
Inductive outcome (A : Type) : Type := Val (a : A) | Panicked (why : string).
Arguments Val {A} a.
Arguments Panicked {A} why.

(** One call and the answer the environment gave. *)
Record event (E : signature) := Ev { ev_op : op E; ev_resp : resp ev_op }.
Arguments Ev {E} ev_op ev_resp.
Arguments ev_op {E} _.
Arguments ev_resp {E} _.

Abbreviation trace E := (list (event E)).

(** What a client may call and what the environment may answer, given the calls
    made so far. *)
Record protocol (E : signature) := Protocol {
  pre : trace E -> op E -> Prop;
  post : trace E -> forall o : op E, resp o -> Prop;
}.
Arguments Protocol {E} _ _.
Arguments pre {E} _ _ _.
Arguments post {E} _ _ _ _.

(** The environment may answer anything and every call is allowed. *)
Definition any {E} : protocol E := Protocol (fun _ _ => True) (fun _ _ _ => True).

(** Same obligations and answers as [P], with the further obligation [Q] on
    calls. *)
Definition guard {E} (P : trace E -> op E -> Prop) : protocol E := Protocol P (fun _ _ _ => True).

(** Weakest precondition: every call of [p] made after the calls [t] is allowed
    by [P], and for all the answers allowed by [P], [Q] holds of the calls made
    and of the way [p] ends. *)
Fixpoint wp {E A} (P : protocol E) (p : prog E A) (t : trace E)
    (Q : trace E -> outcome A -> Prop) : Prop :=
  match p with
  | Ret a => Q t (Val a)
  | Panic m => Q t (Panicked m)
  | Vis o k => pre P t o /\ forall r, post P t o r -> wp P (k r) (t ++ [Ev o r]) Q
  end.

Section WP.
Context {E : signature}.
Implicit Types P : protocol E.

Lemma wp_mono {A} P (p : prog E A) t (Q Q' : trace E -> outcome A -> Prop) :
  (forall t o, Q t o -> Q' t o) -> wp P p t Q -> wp P p t Q'.
Proof.
  intros HQ. revert t. induction p as [a|m|o k IH]; intros t; simpl; [eauto..|].
  intros [Hp Hk]. split; [done|]. intros r Hr. by apply IH, Hk.
Qed.

(** Weakening of the protocol: fewer obligations, fewer answers. *)
Lemma wp_protocol_mono {A} P P' (p : prog E A) t Q :
  (forall t o, pre P t o -> pre P' t o) ->
  (forall t o r, post P' t o r -> post P t o r) ->
  wp P p t Q -> wp P' p t Q.
Proof.
  intros H1 H2. revert t. induction p as [a|m|o k IH]; intros t; simpl; [done..|].
  intros [Hp Hk]. split; [by apply H1|]. intros r Hr. by apply IH, Hk, H2.
Qed.

Lemma wp_conj {A} P (p : prog E A) t Q Q' :
  wp P p t Q -> wp P p t Q' -> wp P p t (fun t o => Q t o /\ Q' t o).
Proof.
  revert t. induction p as [a|m|o k IH]; intros t; simpl; [done..|].
  intros [? Hk] [? Hk']. split; [done|]. intros r Hr. by apply IH; [apply Hk|apply Hk'].
Qed.

Definition wp_then {A B} P (f : A -> prog E B) (Q : trace E -> outcome B -> Prop)
    (t : trace E) (o : outcome A) : Prop :=
  match o with Val a => wp P (f a) t Q | Panicked m => Q t (Panicked m) end.

Lemma wp_bind {A B} P (p : prog E A) (f : A -> prog E B) t Q :
  wp P (p ≫= f) t Q <-> wp P p t (wp_then P f Q).
Proof.
  revert t. induction p as [a|m|o k IH]; intros t; [done..|].
  simpl. split; intros [Hp Hk]; (split; [done|]); intros r Hr; apply IH; by apply Hk.
Qed.

Lemma wp_any_true {A} (p : prog E A) t : wp any p t (fun _ _ => True).
Proof.
  revert t. induction p as [a|w|o k IH]; intros t; simpl; [done..|]. split; [done|]. intros r _. apply IH.
Qed.

(** The trace only grows. *)
Lemma wp_prefix {A} P (p : prog E A) t Q :
  wp P p t Q -> wp P p t (fun t' o => t `prefix_of` t' /\ Q t' o).
Proof.
  revert t. induction p as [a|m|o k IH]; intros t; simpl; [by intros ?..|].
  intros [Hp Hk]. split; [done|]. intros r Hr.
  eapply wp_mono; [|apply IH, Hk, Hr]. intros t' o' [Hpre HQ]. split; [|done].
  etrans; [|done]. by apply prefix_app_r.
Qed.
End WP.

(** Extensional equality of programs: same calls, same answers. *)
Inductive prog_equiv {E A} : Equiv (prog E A) :=
| equiv_Ret a : Ret a ≡ Ret a
| equiv_Panic m : Panic m ≡ Panic m
| equiv_Vis o k k' : (forall r, k r ≡ k' r) -> Vis o k ≡ Vis o k'.
#[global] Existing Instance prog_equiv.

#[global] Instance prog_equivalence {E A} : Equivalence (≡@{prog E A}).
Proof.
  split.
  - intros p. induction p; constructor; auto.
  - intros p q H. induction H; constructor; auto.
  - intros p q r H. revert r. induction H as [| |o k k' _ IH]; intros r Hr; [done..|].
    remember (Vis o k') as q eqn:Hq. destruct Hr as [| |o' k1 k2 H2]; try discriminate.
    assert (Vis o k ≡ Vis o' k2); [|done].
    revert k k' IH Hq. intros k k' IH Hq.
    change (match Vis o' k1 with Vis a b => Vis o k ≡ Vis o' k2 | _ => True end).
    pose (F := fun (q : prog E A) => match q with
      | Vis a b => forall c, (forall r, b r ≡ c r) -> Vis o k ≡ Vis a c | _ => True end).
    assert (HF : F (Vis o k')).
    { simpl. intros c Hc. constructor. intros r. by apply IH. }
    rewrite <- Hq in HF. by apply HF.
Qed.

#[global] Instance bind_proper {E A B} :
  Proper ((≡) ==> pointwise_relation A (≡) ==> (≡)) (@bind E A B).
Proof.
  intros p q Hpq f g Hfg. induction Hpq as [a|m|o k k' _ IH]; simpl; [apply Hfg|constructor|].
  constructor. intros r. apply IH.
Qed.

Lemma bind_ret_r {E A} (p : prog E A) : (p ≫= Ret) ≡ p.
Proof. induction p; constructor; auto. Qed.

Lemma bind_assoc {E A B C} (p : prog E A) (f : A -> prog E B) (g : B -> prog E C) :
  ((p ≫= f) ≫= g) ≡ (p ≫= fun x => f x ≫= g).
Proof. induction p as [a|m|o k IH]; simpl; [done|constructor|]. constructor. intros r. apply IH. Qed.

#[global] Instance wp_proper {E A} (P : protocol E) :
  Proper ((≡) ==> eq ==> pointwise_relation _ (pointwise_relation _ iff) ==> iff) (@wp E A P).
Proof.
  intros p q Hpq t ? <- Q Q' HQ. revert t.
  induction Hpq as [a|m|o k k' _ IH]; intros t; simpl; [apply HQ..|].
  split; intros [Hp Hk]; (split; [done|]); intros r Hr; by apply IH, Hk.
Qed.

(** ** Execution against a concrete world *)

Definition handler (E : signature) (W : Type) := forall o : op E, W -> resp o * W.

Record run_result (E : signature) (W A : Type) := Run {
  run_out : outcome A; run_world : W; run_trace : trace E }.
Arguments Run {E W A} _ _ _.
Arguments run_out {E W A} _.
Arguments run_world {E W A} _.
Arguments run_trace {E W A} _.

Fixpoint exec {E W A} (h : handler E W) (p : prog E A) (w : W) (t : trace E) : run_result E W A :=
  match p with
  | Ret a => Run (Val a) w t
  | Panic m => Run (Panicked m) w t
  | Vis o k => let rw := h o w in exec h (k rw.1) rw.2 (t ++ [Ev o rw.1])
  end.

(** Equal programs run alike. *)
Lemma exec_proper {E W A} (h : handler E W) (p q : prog E A) w t : p ≡ q -> exec h p w t = exec h q w t.
Proof. intros H. revert w t. induction H as [a|m|o k k' _ IH]; intros w t; simpl; [done..|]. apply IH. Qed.

(** A world that keeps to the protocol produces the runs the calculus speaks
    of. *)
Lemma wp_exec {E W A} (P : protocol E) (h : handler E W) (I : W -> trace E -> Prop)
    (p : prog E A) w t Q :
  (forall w t o, I w t -> pre P t o ->
     post P t o (h o w).1 /\ I (h o w).2 (t ++ [Ev o (h o w).1])) ->
  I w t -> wp P p t Q ->
  Q (run_trace (exec h p w t)) (run_out (exec h p w t)) /\
  I (run_world (exec h p w t)) (run_trace (exec h p w t)).
Proof.
  intros Hh. revert w t. induction p as [a|m|o k IH]; intros w t HI; simpl; [done..|].
  intros [Hp Hk]. destruct (Hh w t o HI Hp) as [Hpost HI'].
  apply IH; [done|]. by apply Hk.
Qed.

Lemma wp_exec_any {E W A} (h : handler E W) (p : prog E A) w t Q :
  wp any p t Q -> Q (run_trace (exec h p w t)) (run_out (exec h p w t)).
Proof. intros H. by apply (wp_exec any h (fun _ _ => True)) with (w := w) in H as [? _]. Qed.

Lemma exec_prefix {E W A} (h : handler E W) (p : prog E A) w t :
  exists l, run_trace (exec h p w t) = t ++ l.
Proof.
  revert w t. induction p as [a|m|o k IH]; intros w t; simpl; [exists []; by rewrite app_nil_r..|].
  destruct (IH (h o w).1 (h o w).2 (t ++ [Ev o (h o w).1])) as [l ->].
  exists (Ev o (h o w).1 :: l). by rewrite <- app_assoc.
Qed.

(** The calls made before a run are only a prefix of its trace. *)
Lemma exec_from {E W A} (h : handler E W) (p : prog E A) w t :
  exec h p w t = let r := exec h p w [] in Run (run_out r) (run_world r) (t ++ run_trace r).
Proof.
  revert w t. induction p as [a|m|o k IH]; intros w t; simpl; [by rewrite app_nil_r..|].
  rewrite IH, (IH _ _ [_]). simpl. by rewrite <- app_assoc.
Qed.

Lemma exec_bind {E W A B} (h : handler E W) (p : prog E A) (f : A -> prog E B) w t :
  exec h (p ≫= f) w t = let r := exec h p w t in
    match run_out r with
    | Val a => exec h (f a) (run_world r) (run_trace r)
    | Panicked m => Run (Panicked m) (run_world r) (run_trace r)
    end.
Proof. revert w t. induction p as [a|m|o k IH]; intros w t; simpl; [done..|]. apply IH. Qed.

(** Along a run, every call after the first ones [t] was allowed by the guard
    when it was made. *)
Lemma wp_exec_guard {E W A} (G : trace E -> op E -> Prop) (h : handler E W) (p : prog E A) w t Q :
  wp (guard G) p t Q ->
  Q (run_trace (exec h p w t)) (run_out (exec h p w t)) /\
  forall t1 e t2, run_trace (exec h p w t) = t1 ++ e :: t2 -> (length t <= length t1)%nat ->
    G t1 (ev_op e).
Proof.
  revert w t. induction p as [a|m|o k IH]; intros w t; simpl.
  1,2: intros HQ; split; [done|]; intros t1 e t2 -> Hlen; rewrite length_app in Hlen; simpl in Hlen; lia.
  intros [Hp Hk]. destruct (IH (h o w).1 (h o w).2 _ (Hk (h o w).1 I)) as [HQ Hg].
  split; [done|]. intros t1 e t2 Htr Hlen.
  destruct (decide (length t = length t1)) as [Heq|Hne].
  - destruct (exec_prefix h (k (h o w).1) (h o w).2 (t ++ [Ev o (h o w).1])) as [l Hl].
    rewrite Hl, <- app_assoc in Htr. apply app_inj_1 in Htr as [-> Htr]; [|done]. by simplify_eq/=.
  - apply (Hg t1 e t2 Htr). rewrite length_app. simpl. lia.
Qed.

(** ** Interpretation of a signature by programs over another *)

Fixpoint interp {E F A} (h : forall o : op E, prog F (resp o)) (p : prog E A) : prog F A :=
  match p with
  | Ret a => Ret a
  | Panic m => Panic m
  | Vis o k => r ← h o; interp h (k r)
  end.

Lemma interp_bind {E F A B} (h : forall o : op E, prog F (resp o)) (p : prog E A) (f : A -> prog E B) :
  interp h (p ≫= f) ≡ interp h p ≫= fun a => interp h (f a).
Proof.
  induction p as [a|m|o k IH]; simpl; [done|constructor|].
  rewrite bind_assoc. apply bind_proper; [done|]. intros r. apply IH.
Qed.

#[global] Instance interp_proper {E F A} (h : forall o : op E, prog F (resp o)) :
  Proper ((≡) ==> (≡)) (@interp E F A h).
Proof.
  intros p q H. induction H as [a|m|o k k' _ IH]; simpl; [done..|].
  apply bind_proper; [done|]. intros r. apply IH.
Qed.

(** The interface rule.  [R t1 t0] relates the calls at the interface to the
    requests that implement them.  When each implementation meets the contract
    [P1] of its operation, what is proved against the interface holds of the
    composition; [crash] says what remains when an implementation panics. *)
Lemma wp_interp {E F A} (P1 : protocol E) (P0 : protocol F)
    (R : trace E -> trace F -> Prop) (crash : string -> Prop)
    (h : forall o : op E, prog F (resp o)) (p : prog E A) t1 t0 Q :
  (forall o t1 t0, R t1 t0 -> pre P1 t1 o ->
     wp P0 (h o) t0 (fun t0' out => match out with
       | Val r => post P1 t1 o r /\ R (t1 ++ [Ev o r]) t0'
       | Panicked m => crash m end)) ->
  R t1 t0 -> wp P1 p t1 Q ->
  wp P0 (interp h p) t0 (fun t0' out => match out with
    | Val a => exists t1', R t1' t0' /\ Q t1' (Val a)
    | Panicked m => crash m \/ exists t1', R t1' t0' /\ Q t1' (Panicked m) end).
Proof.
  intros Hh. revert t1 t0. induction p as [a|m|o k IH]; intros t1 t0 HR; simpl; [eauto..|].
  intros [Hp Hk]. apply wp_bind. eapply wp_mono; [|by apply (Hh o t1 t0)].
  intros t0' [r|m]; simpl; [|eauto]. intros [Hr HR']. by apply (IH r _ _ HR'), Hk.
Qed.

(** ** Automation *)

(** Symbolic execution of a program of known shape: take the next answer,
    split on what the code tests. *)
Ltac wp_step :=
  match goal with
  | |- wp _ (Vis _ _) _ _ => simpl; split; [|intros ?r ?Hr; simpl]
  | |- wp _ (Ret _) _ _ => simpl
  | |- wp _ (Panic _) _ _ => simpl
  | |- wp _ (match ?x with _ => _ end) _ _ => destruct x eqn:?; simpl
  | |- wp _ (_ ≫= _) _ _ => apply wp_bind; simpl
  | _ => progress simpl
  end.
