(* ===== verification/Goroutines.v ===== *)
(** * Environments with a state, and goroutines

    Effects.v runs a program against a function.  Here the environment is a
    relation on a state of its own: it may answer an operation in several ways
    and change for reasons of its own.  A run of one program is a trace that the
    program produces and a path of the environment along it, so what [wp] proves
    of traces can be read as facts about the states.  Several programs that share
    the environment, goroutines, interleave operation by operation. *)

From S2P Require Import Prelude Effects.

(** What the environment may do at one operation. *)
Definition environment (E : signature) (W : Type) := forall o : op E, W -> resp o -> W -> Prop.

(** A function as an environment. *)
Definition of_handler {E W} (h : handler E W) : environment E W := fun o w r w' => h o w = (r, w').

(** ** One program *)

(** The traces of a program and how it ends, whatever the answers. *)
Inductive produces {E : signature} {A : Type} : prog E A -> trace E -> outcome A -> Prop :=
| produces_ret a : produces (Ret a) [] (Val a)
| produces_panic m : produces (Panic m) [] (Panicked m)
| produces_vis o k r t out : produces (k r) t out -> produces (Vis o k) (Ev o r :: t) out.

(** The traces of a program that may be cut anywhere: the process can die between
    any two operations. *)
Inductive begins {E : signature} {A : Type} : prog E A -> trace E -> Prop :=
| begins_nil p : begins p []
| begins_vis o k r t : begins (k r) t -> begins (Vis o k) (Ev o r :: t).

(** The environment goes from one state to another along a trace. *)
Fixpoint path {E W} (env : environment E W) (w : W) (t : trace E) (w' : W) : Prop :=
  match t with
  | [] => w = w'
  | e :: t' => exists w1, env (ev_op e) w (ev_resp e) w1 /\ path env w1 t' w'
  end.

(** A run to completion. *)
Definition runs {E W A} (env : environment E W) (p : prog E A) (w : W) (t : trace E) (w' : W) (out : outcome A) : Prop :=
  produces p t out /\ path env w t w'.

Section Runs.
Context {E : signature} {W : Type} (env : environment E W).

Lemma path_app w t1 t2 w' : path env w (t1 ++ t2) w' <-> exists w1, path env w t1 w1 /\ path env w1 t2 w'.
Proof.
  revert w. induction t1 as [|e t1 IH]; intros w; simpl.
  - split; [by exists w|by intros (? & <- & ?)].
  - split.
    + intros (w1 & He & (w2 & H1 & H2)%IH). eauto.
    + intros (w2 & (w1 & He & H1) & H2). exists w1. split; [done|]. apply IH. eauto.
Qed.

Lemma path_snoc w t e w' : path env w (t ++ [e]) w' <-> exists w1, path env w t w1 /\ env (ev_op e) w1 (ev_resp e) w'.
Proof.
  rewrite path_app. split; intros (w1 & H1 & H2); exists w1; (split; [done|]); simpl in *; [|eauto].
  by destruct H2 as (? & ? & <-).
Qed.

Lemma produces_begins {A} (p : prog E A) t out : produces p t out -> begins p t.
Proof. intros H. induction H; by constructor. Qed.

Lemma produces_inv {A} (p : prog E A) t out :
  produces p t out -> match p with
    | Ret a => t = [] /\ out = Val a
    | Panic m => t = [] /\ out = Panicked m
    | Vis o k => exists r t', t = Ev o r :: t' /\ produces (k r) t' out
    end.
Proof. intros [a|m|o k r t' out' H]; eauto. Qed.

(** What [wp] proves under a guard holds of every trace the program produces. *)
Lemma produces_guard {A} (G : trace E -> op E -> Prop) (p : prog E A) t0 t out Q :
  wp (guard G) p t0 Q -> produces p t out ->
  Q (t0 ++ t) out /\ forall t1 e t2, t = t1 ++ e :: t2 -> G (t0 ++ t1) (ev_op e).
Proof.
  intros Hwp Hp. revert t0 Hwp. induction Hp as [a|m|o k r t out Hp IH]; intros t0 Hwp; simpl in Hwp.
  1,2: rewrite app_nil_r; split; [done|]; intros t1 e t2 Ht; by destruct t1.
  destruct Hwp as [Hpre Hk]. destruct (IH _ (Hk r I)) as [HQ HG]. rewrite <- app_assoc in HQ.
  split; [done|]. intros [|e1 t1] e t2 Ht; simplify_eq/=; [by rewrite app_nil_r|].
  specialize (HG t1 e t2 eq_refl). by rewrite <- app_assoc in HG.
Qed.

Lemma produces_any {A} (p : prog E A) t out Q : wp any p [] Q -> produces p t out -> Q t out.
Proof. intros Hwp Hp. by apply (produces_guard _ _ [] _ _ _ Hwp Hp). Qed.

Lemma begins_guard {A} (G : trace E -> op E -> Prop) (p : prog E A) t0 t Q :
  wp (guard G) p t0 Q -> begins p t -> forall t1 e t2, t = t1 ++ e :: t2 -> G (t0 ++ t1) (ev_op e).
Proof.
  intros Hwp Hp. revert t0 Hwp. induction Hp as [p|o k r t Hp IH]; intros t0 Hwp t1 e t2 Ht; [by destruct t1|].
  destruct Hwp as [Hpre Hk]. destruct t1 as [|e1 t1]; simplify_eq/=; [by rewrite app_nil_r|].
  pose proof (IH _ (Hk r I) t1 e t2 eq_refl) as HG. by rewrite <- app_assoc in HG.
Qed.

(** All the operations that a program may ask for. *)
Fixpoint only {A} (P : op E -> Prop) (p : prog E A) : Prop :=
  match p with
  | Ret _ | Panic _ => True
  | Vis o k => P o /\ forall r, only P (k r)
  end.

Lemma only_bind {A B} P (p : prog E A) (f : A -> prog E B) :
  only P p -> (forall a, only P (f a)) -> only P (p ≫= f).
Proof. intros Hp Hf. induction p as [a|m|o k IH]; simpl in *; naive_solver. Qed.

Lemma only_begins {A} P (p : prog E A) t : only P p -> begins p t -> Forall (fun e => P (ev_op e)) t.
Proof. intros Hp Hb. induction Hb as [|o k r t _ IH]; constructor; simpl in *; naive_solver. Qed.

(** What holds after the next operation of a program. *)
Definition steps_to {A} (w : W) (p : prog E A) (R : prog E A -> W -> Prop) : Prop :=
  match p with
  | Vis o k => forall r w', env o w r w' -> R (k r) w'
  | _ => True
  end.

(** Induction along a path: [R] relates the trace so far to the state. *)
Lemma path_ind (R : trace E -> W -> Prop) w t w' :
  R [] w -> path env w t w' ->
  (forall t1 e t2 w1 w2, t = t1 ++ e :: t2 -> R t1 w1 -> env (ev_op e) w1 (ev_resp e) w2 -> R (t1 ++ [e]) w2) ->
  R t w'.
Proof.
  intros H0 Hp Hstep. revert w' Hp Hstep. induction t as [|e t IH] using rev_ind; intros w' Hp Hstep.
  - by simpl in Hp; subst.
  - apply path_snoc in Hp as (w1 & Hp & He). apply (Hstep t e [] w1 w'); [done| |done].
    apply IH; [done|]. intros t1 e' t2 w2 w3 ->. apply (Hstep t1 e' (t2 ++ [e])). by rewrite <- app_assoc.
Qed.

(** A run against a function is a run against every relation that allows it; [I]
    is kept by the function. *)
Lemma exec_runs {A} (h : handler E W) (I : W -> Prop) (p : prog E A) w :
  (forall o w, I w -> env o w (h o w).1 (h o w).2 /\ I (h o w).2) -> I w ->
  let r := exec h p w [] in runs env p w (run_trace r) (run_world r) (run_out r).
Proof.
  intros Hh. cbv zeta. revert w. induction p as [a|m|o k IH]; intros w HI; cbn [exec].
  - split; [constructor|done].
  - split; [constructor|done].
  - cbv zeta. rewrite exec_from. cbv zeta. cbn [run_trace run_world run_out app].
    destruct (Hh o w HI) as [He HI']. destruct (IH (h o w).1 (h o w).2 HI') as [Hp Hw].
    split; [by constructor|]. exists (h o w).2. done.
Qed.
End Runs.

Lemma only_interp {E F A} (P : op E -> Prop) (P' : op F -> Prop) (h : forall o : op E, prog F (resp o)) (p : prog E A) :
  (forall o, P o -> only P' (h o)) -> only P p -> only P' (interp h p).
Proof.
  intros Hh. induction p as [a|m|o k IH]; simpl; [done..|]. intros [Ho Hk]. apply only_bind; [by apply Hh|]. auto.
Qed.

(** ** An interface and its implementation *)

(** The environment that the implementation of an interface makes of the one it
    runs in: an operation is a complete run of its implementation. *)
Definition implemented {E F W} (h : forall o : op E, prog F (resp o)) (env : environment F W) : environment E W :=
  fun o w r w' => exists t, runs env (h o) w t w' (Val r).

(** One operation implemented by one. *)
Lemma runs_call {F W} (env : environment F W) (o : op F) t w r w' : runs env (call o) w t w' (Val r) -> env o w r w'.
Proof.
  intros [Hp Hw]. apply produces_inv in Hp as (r' & t' & -> & Hp). apply produces_inv in Hp as [-> [= ->]].
  by destruct Hw as (w1 & He & <-).
Qed.

Lemma begins_inv {F A} (p : prog F A) t :
  begins p t -> t = [] \/ match p with
    | Vis o k => exists r t', t = Ev o r :: t' /\ begins (k r) t'
    | _ => False
    end.
Proof. intros [|o k r t' H]; [by left|right; eauto]. Qed.

Lemma begins_bind {F A B} (p : prog F A) (f : A -> prog F B) t :
  begins (p ≫= f) t ->
  begins p t \/ exists a t1 t2, t = t1 ++ t2 /\ produces p t1 (Val a) /\ begins (f a) t2.
Proof.
  revert t. induction p as [a|m|o k IH]; intros t H.
  - right. exists a, [], t. split; [done|]. split; [constructor|done].
  - apply begins_inv in H as [->|[]]. left. constructor.
  - apply begins_inv in H as [->|(r & t' & -> & H')]; [left; constructor|].
    destruct (IH r t' H') as [Hb|(a & t1 & t2 & -> & Hp & Hb)]; [left; by constructor|].
    right. exists a, (Ev o r :: t1), t2. split; [done|]. split; [by constructor|done].
Qed.

Section Interp.
Context {E F : signature} {W : Type} (h : forall o : op E, prog F (resp o)) (env : environment F W).

(** What a cut implementation of an operation does goes unnoticed, or it was
    complete. *)
Variable same : W -> W -> Prop.
Context `{!Reflexive same}.
Hypothesis cut : forall o t w w', begins (h o) t -> path env w t w' -> same w w' \/ exists r, produces (h o) t (Val r).

(** A run of the interpreted program, cut anywhere, is a cut run of the program
    against the implemented interface. *)
Lemma interp_begins {A} (p : prog E A) t w w' :
  begins (interp h p) t -> path env w t w' ->
  exists t1 w1, begins p t1 /\ path (implemented h env) w t1 w1 /\ same w1 w'.
Proof using All.
  revert t w. induction p as [a|m|o k IH]; intros t w Hb Hp.
  1,2: apply begins_inv in Hb as [->|[]]; simpl in Hp; subst; exists [], w'; by split; [constructor|].
  - simpl in Hb. apply begins_bind in Hb as [Hb|(r & t1 & t2 & -> & Hr & Hb)].
    + destruct (cut o t w w' Hb Hp) as [Hs|[r Hr]]; [exists [], w; split; [constructor|done]|].
      exists [Ev o r], w'. split; [constructor; constructor|]. split; [|done].
      exists w'. split; [by exists t|done].
    + apply path_app in Hp as (w1 & Hp1 & Hp2). destruct (IH r t2 w1 Hb Hp2) as (t3 & w3 & Hb3 & Hp3 & Hs).
      exists (Ev o r :: t3), w3. split; [by constructor|]. split; [|done]. exists w1. split; [by exists t1|done].
Qed.
End Interp.

(** ** Several programs *)

Section Interleaving.
Context {E : signature} {W A : Type}.

(** What the environment may do at an operation of goroutine [i]. *)
Variable env : nat -> environment E W.

Abbreviation threads := (list (prog E A)).

Inductive step : W * threads -> W * threads -> Prop :=
| step_run i (o : op E) (k : resp o -> prog E A) a w w' (ths : threads) :
    ths !! i = Some (Vis o k) -> env i o w a w' -> step (w, ths) (w', <[i := k a]> ths).

Abbreviation steps := (rtc step).

Lemma step_inv w ths st' : step (w, ths) st' ->
  exists i o k a, ths !! i = Some (Vis o k) /\ env i o w a st'.1 /\ st'.2 = <[i := k a]> ths.
Proof. intros H. inversion H. eauto 8. Qed.

(** Rule induction. *)
Lemma steps_invariant (I : W * threads -> Prop) st st' :
  I st -> (forall st st', I st -> step st st' -> I st') -> steps st st' -> I st'.
Proof. intros H Hstep Hs. induction Hs; eauto. Qed.

(** ** Schedules *)

(** An executable environment, and a schedule: the goroutine that moves at each
    step. *)
Variable run_op : nat -> forall o : op E, W -> option (resp o * W).

Fixpoint run_schedule (l : list nat) (st : W * threads) : option (W * threads) :=
  match l with
  | [] => Some st
  | i :: l' =>
      match st.2 !! i with
      | Some (Vis o k) =>
          match run_op i o st.1 with
          | Some (a, w') => run_schedule l' (w', <[i := k a]> st.2)
          | None => None
          end
      | _ => None
      end
  end.

Lemma run_schedule_steps l st st' :
  (forall i o w a w', run_op i o w = Some (a, w') -> env i o w a w') ->
  run_schedule l st = Some st' -> steps st st'.
Proof.
  intros Hop. revert st. induction l as [|i l IH]; intros [w ths] H; simpl in H; [by simplify_eq|].
  destruct (ths !! i) as [[a|m|o k]|] eqn:Hi; try done.
  destruct (run_op i o w) as [[a w1]|] eqn:Ho; [|done].
  eapply rtc_l; [|by apply IH]. eapply step_run; [done|by apply Hop].
Qed.
End Interleaving.

Arguments step {E W A} env _ _.
Arguments run_schedule {E W A} run_op l st.
