(* ===== verification/Rely.v ===== *)
(** * Rely and guarantee

    A calculus for one goroutine among others.  What the others do to the shared
    state between two of its operations is within a preorder [R], on which it
    relies; what its own operations do is within [G], which it guarantees.  [wpc]
    is the weakest precondition of a program in that company.  Goroutines that
    guarantee each other what each relies on keep theirs however they interleave
    ([interleaved]). *)

From S2P Require Import Prelude Effects Goroutines.

Section Rely.
Context {W : Type}.
Implicit Types (R G T : W -> W -> Prop).

(** Before each operation, and before the result is looked at, the others may have
    moved; a program that panics ends there. *)
Fixpoint wpc {E : signature} {A} R G (env : environment E W) (p : prog E A) (Q : outcome A -> W -> Prop) (w : W) : Prop :=
  match p with
  | Ret a => forall w', R w w' -> Q (Val a) w'
  | Panic m => forall w', R w w' -> Q (Panicked m) w'
  | Vis o k => forall w1 r w2, R w w1 -> env o w1 r w2 -> G w1 w2 /\ wpc R G env (k r) Q w2
  end.

Section Rules.
Context {E : signature} (env : environment E W) R G `{!PreOrder R}.

(** Others move: the precondition stays. *)
Lemma wpc_stable {A} (p : prog E A) Q w w' : R w w' -> wpc R G env p Q w -> wpc R G env p Q w'.
Proof using All.
  intros Ht. destruct p as [a|m|o k]; simpl; intros H w1; [intros H1; apply H; by trans w'..|].
  intros r w2 H1. apply H. by trans w'.
Qed.

Lemma wpc_mono {A} (p : prog E A) (Q Q' : outcome A -> W -> Prop) w :
  (forall o w', Q o w' -> Q' o w') -> wpc R G env p Q w -> wpc R G env p Q' w.
Proof.
  intros HQ. revert w. induction p as [a|m|o k IH]; intros w; simpl; [by eauto..|].
  intros H w1 r w2 H1 He. destruct (H w1 r w2 H1 He) as [Hg Hk]. split; [done|]. by apply IH.
Qed.

(** What the goroutine does is within [R] too: so is the whole run. *)
Lemma wpc_run {A} (p : prog E A) Q w :
  (forall w w', G w w' -> R w w') -> wpc R G env p Q w -> wpc R G env p (fun o w' => R w w' /\ Q o w') w.
Proof using All.
  intros HG. enough (H : forall w0, R w0 w -> wpc R G env p Q w -> wpc R G env p (fun o w' => R w0 w' /\ Q o w') w) by by apply H.
  revert w. induction p as [a|m|o k IH]; intros w w0 H0; simpl; [by intros H w' H'; split; [trans w|apply H]..|].
  intros H w1 r w2 H1 He. destruct (H w1 r w2 H1 He) as [Hg Hk]. split; [done|]. apply IH; [|done].
  trans w; [done|]. trans w1; [done|]. by apply HG.
Qed.

Lemma wpc_bind {A B} (p : prog E A) (f : A -> prog E B) Q w :
  wpc R G env p (fun o w' => match o with Val a => wpc R G env (f a) Q w' | Panicked m => Q (Panicked m) w' end) w ->
  wpc R G env (p ≫= f) Q w.
Proof using All.
  revert w. induction p as [a|m|o k IH]; intros w; simpl; [|done|].
  - intros H. by apply H.
  - intros H w1 r w2 H1 He. destruct (H w1 r w2 H1 He). split; [done|]. by apply IH.
Qed.

(** A program that only makes calls which guarantee [G]. *)
Lemma wpc_only {A} (P : op E -> Prop) (p : prog E A) w :
  (forall o w r w', P o -> env o w r w' -> G w w') -> only P p -> wpc R G env p (fun _ _ => True) w.
Proof.
  intros HT. revert w. induction p as [a|m|o k IH]; intros w; simpl; [done..|].
  intros [Ho Hk] w1 r w2 _ He. split; [by eapply HT|]. by apply IH.
Qed.
End Rules.

(** Goroutines in each other's company. *)
Section Company.
Context {E : signature} {A : Type} (env : environment E W) (R G : nat -> W -> W -> Prop).
Hypothesis preorders : forall i, PreOrder (R i).
Hypothesis company : forall i j w w', i <> j -> G i w w' -> R j w w'.
Variable Q : nat -> outcome A -> W -> Prop.

(** What goroutine [i] can still do is as it was meant. *)
Definition accompanied (w : W) (ths : list (prog E A)) : Prop :=
  forall i p, ths !! i = Some p -> wpc (R i) (G i) env p (Q i) w.

Lemma interleaved w ths w' ths' :
  accompanied w ths -> rtc (step (fun _ => env)) (w, ths) (w', ths') ->
  rtc (fun w w' => exists i, G i w w') w w' /\ accompanied w' ths'.
Proof using All.
  intros H Hs. destruct (steps_invariant (fun _ => env)
    (fun st => rtc (fun w w' => exists i, G i w w') w st.1 /\ accompanied st.1 st.2) (w, ths) (w', ths')); [by split; [|exact H]| |done|done].
  clear H Hs. intros [w1 ths1] [w2 ths2] [HG H] (i & o & k & a & Hi & He & Hths)%step_inv. simpl in *. subst.
  pose proof (preorders i). destruct (H i _ Hi w1 a w2 ltac:(done) He) as [Hg Hk].
  split; [by eapply rtc_r; [|exists i]|].
  intros j p Hj. apply list_lookup_insert_Some in Hj as [(<- & <- & _)|[Hne Hj]]; [done|].
  pose proof (preorders j). apply (wpc_stable env (R j) (G j) p (Q j) w1 w2); [by apply (company i j)|by apply H].
Qed.

(** The results hold. *)
Lemma accompanied_result w ths i a : accompanied w ths -> ths !! i = Some (Ret a) -> Q i (Val a) w.
Proof using preorders. intros H Hi. pose proof (preorders i). by apply (H i _ Hi). Qed.
End Company.

(** An interface under interference: what each of its operations promises is the
    environment of the client, and the implementation keeps the promises. *)
Section Interface.
Context {E F : signature} (env : environment F W) (h : forall o : op E, prog F (resp o)) T `{!PreOrder T}.
Variable promise : forall o : op E, resp o -> W -> Prop.
Variable P : op E -> Prop.

Definition promised : environment E W := fun o w r w' => T w w' /\ promise o r w'.

Hypothesis kept : forall o w, P o ->
  wpc T T env (h o) (fun out w' => match out with Val r => promise o r w' | Panicked _ => True end) w.

Lemma wpc_interp {A} (p : prog E A) (Q : outcome A -> W -> Prop) w :
  only P p -> (forall m w, Q (Panicked m) w) -> wpc T T promised p Q w -> wpc T T env (interp h p) Q w.
Proof using All.
  intros Hp Hm. revert w Hp. induction p as [a|m|o k IH]; intros w; simpl; [done..|].
  intros [Ho Hk] H. apply wpc_bind; [done|]. eapply wpc_mono; [|apply wpc_run, kept; by eauto].
  intros [r|m] w' [Hw Hr]; [|apply Hm]. apply IH; [done|]. by apply (H w r w').
Qed.
End Interface.
End Rely.
