(* ===== verification/GoStrings.v ===== *)
(** * Go's [strings] and [strconv] as the driver uses them

    Strings are byte strings.  [Split] and [SplitN] are given for separators of
    one byte, the only ones in the source; [ParseUint], [ParseInt] and
    [FormatInt] are in base 10. *)

From S2P Require Import Prelude.

Local Open Scope string_scope.
Local Open Scope Z_scope.

(** ** strings *)

Definition HasPrefix (s p : string) : bool := String.prefix p s.

Fixpoint string_drop (n : nat) (s : string) : string :=
  match n, s with
  | O, _ => s
  | S n', String _ s' => string_drop n' s'
  | S _, EmptyString => ""
  end.

Definition TrimPrefix (s p : string) : string :=
  if HasPrefix s p then string_drop (String.length p) s else s.

Fixpoint Split (s : string) (sep : ascii) : list string :=
  match s with
  | EmptyString => [""]
  | String a s' =>
      if Ascii.eqb a sep then "" :: Split s' sep
      else match Split s' sep with
           | x :: xs => String a x :: xs
           | [] => [String a ""]
           end
  end.

(** [strings.SplitN(s, sep, 2)]. *)
Fixpoint SplitN2 (s : string) (sep : ascii) : list string :=
  match s with
  | EmptyString => [""]
  | String a s' =>
      if Ascii.eqb a sep then [""; s']
      else match SplitN2 s' sep with
           | x :: xs => String a x :: xs
           | [] => [String a ""]
           end
  end.

Fixpoint Join (l : list string) (sep : ascii) : string :=
  match l with
  | [] => ""
  | [x] => x
  | x :: l' => x +:+ String sep (Join l' sep)
  end.

(** Does the byte [c] occur in [s]? *)
Fixpoint has_byte (c : ascii) (s : string) : bool :=
  match s with EmptyString => false | String a s' => Ascii.eqb a c || has_byte c s' end.

(** White space that [strings.TrimSpace] removes (the ASCII part of it). *)
Definition is_space (c : ascii) : bool :=
  match c with
  | "009" | "010" | "011" | "012" | "013" | " " => true
  | _ => false
  end%char.

Fixpoint trim_left (s : string) : string :=
  match s with String c s' => if is_space c then trim_left s' else s | EmptyString => "" end.

Fixpoint trim_right (s : string) : string :=
  match s with
  | EmptyString => ""
  | String c s' =>
      match trim_right s' with
      | EmptyString => if is_space c then "" else String c ""
      | t => String c t
      end
  end.

Definition TrimSpace (s : string) : string := trim_right (trim_left s).

(** [filepath.IsAbs] on Unix. *)
Definition IsAbs (path : string) : bool := HasPrefix path "/".

(** ** strconv *)

Inductive num_error := ErrSyntax | ErrRange.

Definition digit_val (c : ascii) : option Z :=
  let n := Z.of_N (N_of_ascii c) in
  if (48 <=? n) && (n <=? 57) then Some (n - 48) else None.

Fixpoint parse_digits (maxVal n : Z) (s : string) : Z + num_error :=
  match s with
  | EmptyString => inl n
  | String c s' =>
      match digit_val c with
      | None => inr ErrSyntax
      | Some d =>
          let n1 := n * 10 + d in
          if maxVal <? n1 then inr ErrRange else parse_digits maxVal n1 s'
      end
  end.

(** [strconv.ParseUint(s, 10, bitSize)]. *)
Definition ParseUint (s : string) (bitSize : Z) : Z + num_error :=
  if is_empty s then inr ErrSyntax else parse_digits (2 ^ bitSize - 1) 0 s.

(** [strconv.ParseInt(s, 10, 64)]: the sign is stripped, the rest goes through
    [ParseUint] and the magnitude is checked against the cutoff [1<<63]. *)
Definition ParseInt64 (s : string) : Z + num_error :=
  match s with
  | EmptyString => inr ErrSyntax
  | String c s' =>
      let '(neg, body) :=
        if Ascii.eqb c "+" then (false, s')
        else if Ascii.eqb c "-" then (true, s')
        else (false, s) in
      match ParseUint body 64 with
      | inr e => inr e
      | inl un =>
          if negb neg && (2 ^ 63 <=? un) then inr ErrRange
          else if neg && (2 ^ 63 <? un) then inr ErrRange
          else inl (if neg then - un else un)
      end
  end.

Definition digit_char (d : Z) : ascii := ascii_of_N (Z.to_N (48 + d)).

Fixpoint dec_digits (fuel : nat) (n : Z) (acc : string) : string :=
  match fuel with
  | O => acc
  | S f =>
      let acc' := String (digit_char (n mod 10)) acc in
      if n <? 10 then acc' else dec_digits f (n / 10) acc'
  end.

(** [strconv.FormatInt(n, 10)], and what [%d] prints. *)
Definition FormatInt (n : Z) : string :=
  if n <? 0 then String "-" (dec_digits (S (Z.to_nat (Z.log2 (- n)))) (- n) "")
  else dec_digits (S (Z.to_nat (Z.log2 n))) n "".

(** ** Lemmas *)

Lemma append_nil_r s : s +:+ "" = s.
Proof. induction s as [|c s IH]; [done|]. change (String c (s +:+ "") = String c s). by rewrite IH. Qed.

Lemma append_cons c s t : String c s +:+ t = String c (s +:+ t).
Proof. done. Qed.

Lemma append_assoc (a b c : string) : (a +:+ b) +:+ c = a +:+ (b +:+ c).
Proof. induction a as [|x a IH]; [done|]. rewrite !append_cons. by rewrite IH. Qed.

Lemma append_one c s : String c EmptyString +:+ s = String c s.
Proof. reflexivity. Qed.

Lemma length_append (a b : string) : String.length (a +:+ b) = (String.length a + String.length b)%nat.
Proof. induction a as [|x a IH]; [done|]. rewrite append_cons. simpl. by rewrite IH. Qed.

Lemma append_inj_r (a b s : string) : a +:+ s = b +:+ s -> a = b.
Proof.
  revert b. induction a as [|x a IH]; intros [|y b] H; [done|..].
  - apply (f_equal String.length) in H. rewrite !length_append in H. simpl in H. lia.
  - apply (f_equal String.length) in H. rewrite !length_append in H. simpl in H. lia.
  - rewrite !append_cons in H. injection H as -> H. by rewrite (IH b H).
Qed.

Lemma HasPrefix_app p s : HasPrefix (p +:+ s) p = true.
Proof.
  unfold HasPrefix. induction p as [|c p IH]; [by destruct s|].
  rewrite append_cons. simpl. by destruct (ascii_dec c c).
Qed.

Lemma HasPrefix_inv s p : HasPrefix s p = true -> exists r, s = p +:+ r.
Proof.
  unfold HasPrefix. revert s. induction p as [|c p IH]; intros s H; [by exists s|].
  destruct s as [|a s]; [done|]. simpl in H. destruct (ascii_dec c a) as [->|]; [|done].
  apply IH in H as [r ->]. by exists r.
Qed.

Lemma string_drop_app p s : string_drop (String.length p) (p +:+ s) = s.
Proof. induction p as [|c p IH]; [done|]. apply IH. Qed.

Lemma TrimPrefix_app p s : TrimPrefix (p +:+ s) p = s.
Proof. unfold TrimPrefix. rewrite HasPrefix_app. apply string_drop_app. Qed.

Lemma has_byte_app c s t : has_byte c (s +:+ t) = has_byte c s || has_byte c t.
Proof.
  induction s as [|a s IH]; [done|]. rewrite append_cons. simpl. by rewrite IH, orb_assoc.
Qed.

Lemma Split_nonempty s sep : Split s sep <> [].
Proof.
  induction s as [|a s IH]; simpl; [done|]. destruct (Ascii.eqb a sep); [done|].
  by destruct (Split s sep).
Qed.

Lemma Split_no_sep s sep : has_byte sep s = false -> Split s sep = [s].
Proof.
  induction s as [|a s IH]; simpl; [done|]. intros H. apply orb_false_iff in H as [-> H].
  by rewrite (IH H).
Qed.

Lemma Split_app s t sep :
  has_byte sep s = false -> Split (s +:+ String sep t) sep = s :: Split t sep.
Proof.
  induction s as [|a s IH]; intros H.
  - simpl. by rewrite Ascii.eqb_refl.
  - simpl in H. apply orb_false_iff in H as [Ha H]. rewrite append_cons. simpl.
    by rewrite Ha, (IH H).
Qed.

Lemma Split_sep a b sep : Split (a +:+ String sep b) sep = (Split a sep ++ Split b sep)%list.
Proof.
  induction a as [|c a IH]; [simpl; by rewrite Ascii.eqb_refl|].
  rewrite append_cons. simpl. rewrite IH. destruct (Ascii.eqb c sep); [done|].
  pose proof (Split_nonempty a sep). by destruct (Split a sep).
Qed.

Lemma Split_has_byte s sep : has_byte sep s = true -> (2 <= length (Split s sep))%nat.
Proof.
  induction s as [|c s IH]; simpl; [done|]. pose proof (Split_nonempty s sep).
  destruct (Ascii.eqb c sep); simpl.
  - intros _. destruct (Split s sep); simpl; [done|lia].
  - intros Hs. specialize (IH Hs). by destruct (Split s sep).
Qed.

(** [Split] undoes [Join] when no part holds the separator. *)
Lemma Split_Join l sep :
  l <> [] -> Forall (fun s => has_byte sep s = false) l -> Split (Join l sep) sep = l.
Proof.
  intros Hne H. induction H as [|x l Hx Hl IH]; [done|].
  destruct l as [|y l]; [by apply Split_no_sep|].
  change (Split (x +:+ String sep (Join (y :: l) sep)) sep = x :: y :: l).
  rewrite Split_app by done. by rewrite IH.
Qed.

Lemma SplitN2_no_sep s sep : has_byte sep s = false -> SplitN2 s sep = [s].
Proof.
  induction s as [|a s IH]; simpl; [done|]. intros H. apply orb_false_iff in H as [-> H].
  by rewrite (IH H).
Qed.

Lemma SplitN2_app s t sep :
  has_byte sep s = false -> SplitN2 (s +:+ String sep t) sep = [s; t].
Proof.
  induction s as [|a s IH]; intros H.
  - simpl. by rewrite Ascii.eqb_refl.
  - simpl in H. apply orb_false_iff in H as [Ha H]. rewrite append_cons. simpl.
    by rewrite Ha, (IH H).
Qed.

Lemma SplitN2_inv s sep : match SplitN2 s sep with
  | [x; y] => s = x +:+ String sep y /\ has_byte sep x = false
  | l => l = [s] /\ has_byte sep s = false
  end.
Proof.
  induction s as [|a s IH]; [done|]. cbn [SplitN2 has_byte]. destruct (Ascii.eqb a sep) eqn:E.
  - apply Ascii.eqb_eq in E as ->. by split.
  - destruct (SplitN2 s sep) as [|x [|y [|z l]]]; cbn [orb has_byte]; destruct IH as [IH1 IH2]; try done.
    + injection IH1 as ->. done.
    + subst. rewrite E. by rewrite append_cons.
Qed.

Lemma digit_val_char d : 0 <= d < 10 -> digit_val (digit_char d) = Some d.
Proof.
  intros H. assert (d = 0 \/ d = 1 \/ d = 2 \/ d = 3 \/ d = 4 \/ d = 5 \/ d = 6 \/ d = 7 \/ d = 8 \/ d = 9)
    as Hd by lia.
  repeat destruct Hd as [->|Hd]; try reflexivity. by subst.
Qed.

Lemma parse_dec_digits maxVal fuel n acc :
  0 <= n <= maxVal -> n < 10 ^ Z.of_nat fuel ->
  parse_digits maxVal 0 (dec_digits fuel n acc) = parse_digits maxVal n acc.
Proof.
  revert n acc. induction fuel as [|f IH]; intros n acc Hn Hf.
  - simpl in *. by replace n with 0 by lia.
  - pose proof (Z.mod_pos_bound n 10). cbn [dec_digits].
    destruct (n <? 10) eqn:E; reflect_bools.
    + cbn [parse_digits]. rewrite digit_val_char by lia. cbn zeta. rewrite Z.mod_small by lia.
      rewrite Z.mul_0_l, Z.add_0_l.
      destruct (maxVal <? n) eqn:E'; [reflect_bools; lia|done].
    + pose proof (Z.div_mod n 10). rewrite Nat2Z.inj_succ, Z.pow_succ_r in Hf by lia.
      rewrite IH; [|lia|apply Z.div_lt_upper_bound; lia].
      cbn [parse_digits]. rewrite digit_val_char by lia. cbn zeta.
      replace (n / 10 * 10 + n mod 10) with n by lia.
      destruct (maxVal <? n) eqn:E'; [reflect_bools; lia|done].
Qed.

Lemma dec_digits_fuel n : 0 <= n -> n < 10 ^ Z.of_nat (S (Z.to_nat (Z.log2 n))).
Proof.
  intros Hn. destruct (decide (n = 0)) as [->|]; [simpl; lia|].
  pose proof (Z.log2_spec n ltac:(lia)) as [_ H].
  rewrite Nat2Z.inj_succ, Z2Nat.id by apply Z.log2_nonneg.
  eapply Z.lt_le_trans; [exact H|]. apply Z.pow_le_mono_l.
  pose proof (Z.log2_nonneg n). lia.
Qed.

Lemma dec_digits_nonempty f n acc : is_empty (dec_digits (S f) n acc) = false.
Proof.
  revert n acc. induction f as [|f IH]; intros n acc; cbn [dec_digits].
  - destruct (n <? 10); reflexivity.
  - destruct (n <? 10); [reflexivity|]. apply IH.
Qed.

(** Printing then parsing a number that fits gives it back. *)
Lemma ParseUint_FormatInt n bitSize :
  0 <= n < 2 ^ bitSize -> ParseUint (FormatInt n) bitSize = inl n.
Proof.
  intros Hn. unfold ParseUint, FormatInt.
  destruct (n <? 0) eqn:E; reflect_bools; [lia|].
  rewrite dec_digits_nonempty. rewrite parse_dec_digits; [done|lia|].
  apply dec_digits_fuel. lia.
Qed.

Lemma ParseUint_range s bitSize n : 0 <= bitSize -> ParseUint s bitSize = inl n -> 0 <= n < 2 ^ bitSize.
Proof.
  intros Hb. unfold ParseUint. destruct (is_empty s); [done|].
  assert (H : forall s m, 0 <= m < 2 ^ bitSize -> parse_digits (2 ^ bitSize - 1) m s = inl n ->
     0 <= n < 2 ^ bitSize).
  { clear s. intros s. induction s as [|c s IH]; simpl; intros m Hm; [by intros [= ->]|].
    unfold digit_val. destruct (_ && _) eqn:E; [|done]. reflect_bools.
    set (m1 := m * 10 + _). destruct (_ <? m1) eqn:E'; [done|]. reflect_bools.
    apply IH. subst m1. lia. }
  apply H. split; [lia|]. by apply Z.pow_pos_nonneg.
Qed.

#[export] Hint Resolve HasPrefix_app : go.
#[export] Hint Rewrite HasPrefix_app TrimPrefix_app append_nil_r : go.
