(* ===== verification/DeployData.v ===== *)
(** * The deployed manifests

    Four manifests of deploy/ as they are in the repository, three of which the
    assets of AssetData.v are older versions of.  As there, a backquote in a
    literal stands for the double quote. *)

From S2P Require Import Prelude GoStrings AssetData.

Local Open Scope string_scope.

Definition deployed_infra_cluster_service_account : string :=
  raw "apiVersion: v1
kind: ServiceAccount
metadata:
  name: kubevirt-csi
---
apiVersion: rbac.authorization.k8s.io/v1
kind: Role
metadata:
  name: kubevirt-csi
rules:
- apiGroups: [`cdi.kubevirt.io`]
  resources: [`datavolumes`]
  verbs: [`get`, `create`, `delete`]
- apiGroups: [`kubevirt.io`]
  resources: [`virtualmachineinstances`, `virtualmachines`]
  verbs: [`list`, `get`]
- apiGroups: [`subresources.kubevirt.io`]
  resources: [`virtualmachines/addvolume`, `virtualmachines/removevolume`]
  verbs: [`update`]
- apiGroups: [`snapshot.storage.k8s.io`]
  resources: [`volumesnapshots`]
  verbs: [`get`, `create`, `delete`]
- apiGroups: [``]
  resources: [`persistentvolumeclaims`]
  verbs: [`get`, `patch`]
---
apiVersion: rbac.authorization.k8s.io/v1
kind: RoleBinding
metadata:
  name: kubevirt-csi
roleRef:
  apiGroup: rbac.authorization.k8s.io
  kind: Role
  name: kubevirt-csi
subjects:
- kind: ServiceAccount
  name: kubevirt-csi
---
apiVersion: rbac.authorization.k8s.io/v1
kind: ClusterRole
metadata:
  name: kubevirt-csi-cluster
rules:
- apiGroups: [``]
  resources: [`persistentvolumes`]
  verbs: [`get`]
---
kind: ClusterRoleBinding
apiVersion: rbac.authorization.k8s.io/v1
metadata:
  name: kubevirt-csi-cluster-binding
roleRef:
  kind: ClusterRole
  name: kubevirt-csi-cluster
  apiGroup: rbac.authorization.k8s.io
subjects:
- kind: ServiceAccount
  name: kubevirt-csi
  namespace: kvcluster
".

Definition deployed_controller_infra : string :=
  raw "kind: Deployment
apiVersion: apps/v1
metadata:
  name: kubevirt-csi-controller
  namespace: kubevirt-csi-driver
  labels:
    app: kubevirt-csi-driver
spec:
  replicas: 1
  selector:
    matchLabels:
      app: kubevirt-csi-driver
  template:
    metadata:
      labels:
        app: kubevirt-csi-driver
    spec:
      enableServiceLinks: false
      serviceAccount: kubevirt-csi
      priorityClassName: system-cluster-critical
      nodeSelector:
        node-role.kubernetes.io/control-plane: ``
      tolerations:
        - key: CriticalAddonsOnly
          operator: Exists
        - key: node-role.kubernetes.io/master
          operator: Exists
          effect: `NoSchedule`
      containers:
        - name: csi-driver
          imagePullPolicy: Always
          image: quay.io/kubevirt/kubevirt-csi-driver:latest
          args:
            - `--endpoint=$(CSI_ENDPOINT)`
            - `--infra-cluster-namespace=$(INFRACLUSTER_NAMESPACE)`
            - `--infra-cluster-labels=$(INFRACLUSTER_LABELS)`
            - `--tenant-cluster-kubeconfig=/var/run/secrets/tenantcluster/value`
            - `--run-node-service=false`
            - `--run-controller-service=true`
            - `--v=5`
          ports:
            - name: healthz
              containerPort: 10301
              protocol: TCP
          env:
            - name: CSI_ENDPOINT
              value: unix:///var/lib/csi/sockets/pluginproxy/csi.sock
            - name: KUBE_NODE_NAME
              valueFrom:
                fieldRef:
                  fieldPath: spec.nodeName
            - name: INFRACLUSTER_NAMESPACE
              valueFrom:
                configMapKeyRef:
                  name: driver-config
                  key: infraClusterNamespace
            - name: INFRACLUSTER_LABELS
              valueFrom:
                configMapKeyRef:
                  name: driver-config
                  key: infraClusterLabels
            - name: INFRA_STORAGE_CLASS_ENFORCEMENT
              valueFrom:
                configMapKeyRef:
                  name: driver-config
                  key: infraStorageClassEnforcement
                  optional: true
          volumeMounts:
            - name: socket-dir
              mountPath: /var/lib/csi/sockets/pluginproxy/
            - name: tenantcluster
              mountPath: `/var/run/secrets/tenantcluster`
          resources:
            requests:
              memory: 50Mi
              cpu: 10m
        - name: csi-provisioner
          image: quay.io/openshift/origin-csi-external-provisioner:latest
          args:
            - `--csi-address=$(ADDRESS)`
            - `--default-fstype=ext4`
            - `--kubeconfig=/var/run/secrets/tenantcluster/value`
            - `--v=5`
            - `--timeout=3m`
            - `--retry-interval-max=1m`
          env:
            - name: ADDRESS
              value: /var/lib/csi/sockets/pluginproxy/csi.sock
          volumeMounts:
            - name: socket-dir
              mountPath: /var/lib/csi/sockets/pluginproxy/
            - name: tenantcluster
              mountPath: `/var/run/secrets/tenantcluster`
        - name: csi-attacher
          image: quay.io/openshift/origin-csi-external-attacher:latest
          args:
            - `--csi-address=$(ADDRESS)`
            - `--kubeconfig=/var/run/secrets/tenantcluster/value`
            - `--v=5`
            - `--timeout=3m`
            - `--retry-interval-max=1m`
          env:
            - name: ADDRESS
              value: /var/lib/csi/sockets/pluginproxy/csi.sock
          volumeMounts:
            - name: socket-dir
              mountPath: /var/lib/csi/sockets/pluginproxy/
            - name: tenantcluster
              mountPath: `/var/run/secrets/tenantcluster`
          resources:
            requests:
              memory: 50Mi
              cpu: 10m
        - name: csi-liveness-probe
          image: quay.io/openshift/origin-csi-livenessprobe:latest
          args:
            - `--csi-address=/csi/csi.sock`
            - `--probe-timeout=3s`
            - `--health-port=10301`
          volumeMounts:
            - name: socket-dir
              mountPath: /csi
            - name: tenantcluster
              mountPath: `/var/run/secrets/tenantcluster`
          resources:
            requests:
              memory: 50Mi
              cpu: 10m
        - name: csi-snapshotter
          args:
          - `--v=5`
          - `--csi-address=/csi/csi.sock`
          - `--kubeconfig=/var/run/secrets/tenantcluster/value`
          - `--timeout=3m`
          image: k8s.gcr.io/sig-storage/csi-snapshotter:v4.2.1
          imagePullPolicy: IfNotPresent
          terminationMessagePath: /dev/termination-log
          terminationMessagePolicy: File
          volumeMounts:
          - mountPath: /csi
            name: socket-dir
          - name: tenantcluster
            mountPath: `/var/run/secrets/tenantcluster`
          resources:
            requests:
              memory: 20Mi
              cpu: 10m
        - name: csi-resizer
          image: registry.k8s.io/sig-storage/csi-resizer:v1.13.1
          args:
            - `-csi-address=/csi/csi.sock`
            - `-kubeconfig=/var/run/secrets/tenantcluster/value`
            - `-v=5`
            - `-timeout=3m`
            - '-handle-volume-inuse-error=false'
          volumeMounts:
            - name: socket-dir
              mountPath: /csi
            - name: tenantcluster
              mountPath: `/var/run/secrets/tenantcluster`
          resources:
            requests:
              cpu: 10m
              memory: 20Mi
          securityContext:
            capabilities:
              drop:
                - ALL
      volumes:
        - name: socket-dir
          emptyDir: {}
        - name: tenantcluster
          secret:
            secretName: kvcluster-kubeconfig
".

Definition deployed_controller_tenant : string :=
  raw "---
kind: Deployment
apiVersion: apps/v1
metadata:
  name: kubevirt-csi-controller
  namespace: kubevirt-csi-driver
spec:
  replicas: 1
  selector:
    matchLabels:
      app: kubevirt-csi-driver
  template:
    metadata:
      labels:
        app: kubevirt-csi-driver
    spec:
      enableServiceLinks: false
      serviceAccount: kubevirt-csi-controller-sa
      priorityClassName: system-cluster-critical
      nodeSelector:
        node-role.kubernetes.io/control-plane: ``
      tolerations:
        - key: CriticalAddonsOnly
          operator: Exists
        - key: node-role.kubernetes.io/master
          operator: Exists
          effect: `NoSchedule`
        - key: node-role.kubernetes.io/control-plane
          operator: Exists
          effect: `NoSchedule`
      containers:
        - name: csi-driver
          imagePullPolicy: Always
          image: quay.io/kubevirt/kubevirt-csi-driver:latest
          args:
            - `--endpoint=$(CSI_ENDPOINT)`
            - `--infra-cluster-namespace=$(INFRACLUSTER_NAMESPACE)`
            - `--infra-cluster-kubeconfig=/var/run/secrets/infracluster/kubeconfig`
            - `--infra-cluster-labels=$(INFRACLUSTER_LABELS)`
            - `--run-node-service=false`
            - `--run-controller-service=true`
            - `--v=5`
          ports:
            - name: healthz
              containerPort: 10301
              protocol: TCP
          env:
            - name: CSI_ENDPOINT
              value: unix:///var/lib/csi/sockets/pluginproxy/csi.sock
            - name: KUBE_NODE_NAME
              valueFrom:
                fieldRef:
                  fieldPath: spec.nodeName
            - name: INFRACLUSTER_NAMESPACE
              valueFrom:
                configMapKeyRef:
                  name: driver-config
                  key: infraClusterNamespace
            - name: INFRACLUSTER_LABELS
              valueFrom:
                configMapKeyRef:
                  name: driver-config
                  key: infraClusterLabels
            - name: INFRA_STORAGE_CLASS_ENFORCEMENT
              valueFrom:
                configMapKeyRef:
                  name: driver-config
                  key: infraStorageClassEnforcement
                  optional: true
          volumeMounts:
            - name: socket-dir
              mountPath: /var/lib/csi/sockets/pluginproxy/
            - name: infracluster
              mountPath: `/var/run/secrets/infracluster`
          resources:
            requests:
              memory: 50Mi
              cpu: 10m
        - name: csi-provisioner
          image: quay.io/openshift/origin-csi-external-provisioner:latest
          args:
            - `--csi-address=$(ADDRESS)`
            - `--default-fstype=ext4`
            - `--v=5`
            - `--timeout=3m`
            - `--retry-interval-max=1m`
          env:
            - name: ADDRESS
              value: /var/lib/csi/sockets/pluginproxy/csi.sock
          volumeMounts:
            - name: socket-dir
              mountPath: /var/lib/csi/sockets/pluginproxy/
          resources:
            requests:
              memory: 50Mi
              cpu: 10m
        - name: csi-attacher
          image: quay.io/openshift/origin-csi-external-attacher:latest
          args:
            - `--csi-address=$(ADDRESS)`
            - `--v=5`
            - `--timeout=3m`
            - `--retry-interval-max=1m`
          env:
            - name: ADDRESS
              value: /var/lib/csi/sockets/pluginproxy/csi.sock
          volumeMounts:
            - name: socket-dir
              mountPath: /var/lib/csi/sockets/pluginproxy/
          resources:
            requests:
              memory: 50Mi
              cpu: 10m
        - name: csi-liveness-probe
          image: quay.io/openshift/origin-csi-livenessprobe:latest
          args:
            - `--csi-address=/csi/csi.sock`
            - `--probe-timeout=3s`
            - `--health-port=10301`
          volumeMounts:
            - name: socket-dir
              mountPath: /csi
          resources:
            requests:
              memory: 50Mi
              cpu: 10m
        - name: csi-snapshotter
          args:
          - `--v=3`
          - `--csi-address=/csi/csi.sock`
          - `--timeout=3m`
          image: k8s.gcr.io/sig-storage/csi-snapshotter:v4.2.1
          imagePullPolicy: IfNotPresent
          securityContext:
            privileged: true
          terminationMessagePath: /dev/termination-log
          terminationMessagePolicy: File
          volumeMounts:
          - mountPath: /csi
            name: socket-dir
          resources:
            requests:
              memory: 20Mi
              cpu: 10m
        - name: csi-resizer
          image: registry.k8s.io/sig-storage/csi-resizer:v1.13.1
          args:
            - `-csi-address=/csi/csi.sock`
            - `-v=5`
            - `-timeout=3m`
            - '-handle-volume-inuse-error=false'
          volumeMounts:
            - name: socket-dir
              mountPath: /csi
          resources:
            requests:
              cpu: 10m
              memory: 20Mi
          securityContext:
            capabilities:
              drop:
                - ALL
      volumes:
        - name: socket-dir
          emptyDir: {}
        - name: infracluster
          secret:
            secretName: infra-cluster-credentials
---
kind: ClusterRoleBinding
apiVersion: rbac.authorization.k8s.io/v1
metadata:
  name: csi-snapshotter-role
subjects:
  - kind: ServiceAccount
    name: kubevirt-csi-controller-sa
    namespace: kubevirt-csi-driver
roleRef:
  kind: ClusterRole
  name: external-snapshotter-runner
  apiGroup: rbac.authorization.k8s.io
".

Definition deployed_tenant : string :=
  raw "apiVersion: storage.k8s.io/v1
kind: CSIDriver
metadata:
  name: csi.kubevirt.io
spec:
  attachRequired: true
  podInfoOnMount: true
  fsGroupPolicy: ReadWriteOnceWithFSType
---
apiVersion: v1
kind: ServiceAccount
metadata:
  name: kubevirt-csi-controller-sa
  namespace: kubevirt-csi-driver
---
apiVersion: rbac.authorization.k8s.io/v1
kind: ClusterRole
metadata:
  name: kubevirt-csi-controller-cr
rules:
  - apiGroups: ['']
    resources: ['persistentvolumes']
    verbs: ['create', 'delete', 'get', 'list', 'watch', 'update', 'patch']
  - apiGroups: ['']
    resources: ['secrets']
    verbs: ['get', 'list']
  - apiGroups: ['']
    resources: ['persistentvolumeclaims']
    verbs: ['get', 'list', 'watch', 'update']
  - apiGroups: [``]
    resources: [`persistentvolumeclaims/status`]
    verbs: [`update`, `patch`]
  - apiGroups: ['']
    resources: ['nodes']
    verbs: ['get', 'list', 'watch']
  - apiGroups: ['storage.k8s.io']
    resources: ['volumeattachments']
    verbs: ['get', 'list', 'watch', 'update', 'patch']
  - apiGroups: ['storage.k8s.io']
    resources: ['storageclasses']
    verbs: ['get', 'list', 'watch']
  - apiGroups: ['csi.storage.k8s.io']
    resources: ['csidrivers']
    verbs: ['get', 'list', 'watch', 'update', 'create']
  - apiGroups: ['']
    resources: ['events']
    verbs: ['list', 'watch', 'create', 'update', 'patch']
  - apiGroups: [`snapshot.storage.k8s.io`]
    resources: [`volumesnapshotclasses`]
    verbs: [`get`, `list`, `watch`]
  - apiGroups: [`snapshot.storage.k8s.io`]
    resources: [`volumesnapshotcontents`]
    verbs: [`create`, `get`, `list`, `watch`, `update`, `delete`]
  - apiGroups: [`snapshot.storage.k8s.io`]
    resources: [`volumesnapshots`]
    verbs: [`get`, `list`, `watch`, `update`]
  - apiGroups: [`snapshot.storage.k8s.io`]
    resources: [`volumesnapshots/status`]
    verbs: [`update`]
  - apiGroups: [ `storage.k8s.io` ]
    resources: [ `volumeattachments/status` ]
    verbs: [ `get`, `list`, `watch`, `update`, `patch` ]
  - apiGroups: [`storage.k8s.io`]
    resources: [`csinodes`]
    verbs: [`get`, `list`, `watch`]
  - apiGroups: [`security.openshift.io`]
    resources: [`securitycontextconstraints`]
    verbs: [`use`]
    resourceNames: [`privileged`]
---
kind: ClusterRoleBinding
apiVersion: rbac.authorization.k8s.io/v1
metadata:
  name: kubevirt-csi-controller-binding
subjects:
  - kind: ServiceAccount
    name: kubevirt-csi-controller-sa
    namespace: kubevirt-csi-driver
roleRef:
  kind: ClusterRole
  name: kubevirt-csi-controller-cr
  apiGroup: rbac.authorization.k8s.io
---
apiVersion: v1
kind: ServiceAccount
metadata:
  name: kubevirt-csi-node-sa
  namespace: kubevirt-csi-driver
---
apiVersion: v1
kind: ServiceAccount
metadata:
  name: kubevirt-csi-snapshot-sa
  namespace: kubevirt-csi-driver
---
apiVersion: rbac.authorization.k8s.io/v1
kind: ClusterRole
metadata:
  name: kubevirt-csi-node-cr
rules:
  - apiGroups: [``]
    resources: [`persistentvolumes`]
    verbs: [`get`, `list`, `watch`, `update`, `create`, `delete`]
  - apiGroups: [``]
    resources: [`persistentvolumeclaims`]
    verbs: [`get`, `list`, `watch`, `update`]
  - apiGroups: [`storage.k8s.io`]
    resources: [`storageclasses`]
    verbs: [`get`, `list`, `watch`]
  - apiGroups: [``]
    resources: [`nodes`]
    verbs: [`get`, `list`, `watch`, `update`, `patch`]
  - apiGroups: [`csi.storage.k8s.io`]
    resources: [`csinodeinfos`]
    verbs: [`get`, `list`, `watch`]
  - apiGroups: [`storage.k8s.io`]
    resources: [`csinodes`]
    verbs: [`get`, `list`, `watch`]
  - apiGroups: [`storage.k8s.io`]
    resources: [`volumeattachments`]
    verbs: [`get`, `list`, `watch`, `update`]
  - apiGroups: [`storage.k8s.io`]
    resources: [`volumeattachments/status`]
    verbs: [`get`, `list`, `watch`, `update`, `patch`]
  - apiGroups: [``]
    resources: [`events`]
    verbs: [`list`, `watch`, `create`, `update`, `patch`]
  - apiGroups: [`security.openshift.io`]
    resources: [`securitycontextconstraints`]
    verbs: [`use`]
    resourceNames: [`privileged`]
  - apiGroups: [`snapshot.storage.k8s.io`]
    resources: [`volumesnapshotclasses`]
    verbs: [`list`]

---
kind: ClusterRole
apiVersion: rbac.authorization.k8s.io/v1
metadata:
  name: external-snapshotter-runner
rules:
  - apiGroups: [``]
    resources: [`events`]
    verbs: [`list`, `watch`, `create`, `update`, `patch`]
  - apiGroups: [`snapshot.storage.k8s.io`]
    resources: [`volumesnapshotclasses`]
    verbs: [`get`, `list`, `watch`]
  - apiGroups: [`snapshot.storage.k8s.io`]
    resources: [`volumesnapshotcontents`]
    verbs: [`create`, `get`, `list`, `watch`, `update`, `delete`, `patch`]
  - apiGroups: [`snapshot.storage.k8s.io`]
    resources: [`volumesnapshotcontents/status`]
    verbs: [`update`, `patch`]
---
kind: ClusterRoleBinding
apiVersion: rbac.authorization.k8s.io/v1
metadata:
  name: kubevirt-csi-node-binding
subjects:
  - kind: ServiceAccount
    name: kubevirt-csi-node-sa
    namespace: kubevirt-csi-driver
roleRef:
  kind: ClusterRole
  name: kubevirt-csi-node-cr
  apiGroup: rbac.authorization.k8s.io
---
kind: ClusterRoleBinding
apiVersion: rbac.authorization.k8s.io/v1
metadata:
  name: csi-snapshotter-role
subjects:
  - kind: ServiceAccount
    name: kubevirt-csi-snapshot-sa
    namespace: kubevirt-csi-driver
roleRef:
  kind: ClusterRole
  # change the name also here if the ClusterRole gets renamed
  name: external-snapshotter-runner
  apiGroup: rbac.authorization.k8s.io
---
kind: DaemonSet
apiVersion: apps/v1
metadata:
  name: kubevirt-csi-node
  namespace: kubevirt-csi-driver
spec:
  selector:
    matchLabels:
      app: kubevirt-csi-driver
  updateStrategy:
    type: RollingUpdate
  template:
    metadata:
      labels:
        app: kubevirt-csi-driver
    spec:
      serviceAccount: kubevirt-csi-node-sa
      priorityClassName: system-node-critical
      tolerations:
        - operator: Exists
      containers:
        - name: csi-driver
          securityContext:
            privileged: true
" +:+
  raw "            allowPrivilegeEscalation: true
          imagePullPolicy: Always
          image: quay.io/kubevirt/kubevirt-csi-driver:latest
          args:
            - `--endpoint=unix:/csi/csi.sock`
            - `--node-name=$(KUBE_NODE_NAME)`
            - `--run-node-service=true`
            - `--run-controller-service=false`
            - `--v=5`
          env:
            - name: KUBE_NODE_NAME
              valueFrom:
                fieldRef:
                  fieldPath: spec.nodeName
          volumeMounts:
            - name: kubelet-dir
              mountPath: /var/lib/kubelet
              mountPropagation: `Bidirectional`
            - name: plugin-dir
              mountPath: /csi
            - name: device-dir
              mountPath: /dev
            - name: udev
              mountPath: /run/udev
          ports:
            - name: healthz
              containerPort: 10300
              protocol: TCP
          livenessProbe:
            httpGet:
              path: /healthz
              port: healthz
            initialDelaySeconds: 10
            timeoutSeconds: 3
            periodSeconds: 10
            failureThreshold: 5
          resources:
            requests:
              memory: 50Mi
              cpu: 10m
        - name: csi-node-driver-registrar
          image: quay.io/openshift/origin-csi-node-driver-registrar:latest
          args:
            - `--csi-address=$(ADDRESS)`
            - `--kubelet-registration-path=$(DRIVER_REG_SOCK_PATH)`
            - `--v=5`
          lifecycle:
            preStop:
              exec:
                command: [`/bin/sh`, `-c`, `rm -rf /registration/csi.kubevirt.io-reg.sock /csi/csi.sock`]
          env:
            - name: ADDRESS
              value: /csi/csi.sock
            - name: DRIVER_REG_SOCK_PATH
              value: /var/lib/kubelet/plugins/csi.kubevirt.io/csi.sock
          volumeMounts:
            - name: plugin-dir
              mountPath: /csi
            - name: registration-dir
              mountPath: /registration
          resources:
            requests:
              memory: 20Mi
              cpu: 5m
        - name: csi-liveness-probe
          image: quay.io/openshift/origin-csi-livenessprobe:latest
          args:
            - `--csi-address=/csi/csi.sock`
            - `--probe-timeout=3s`
            - `--health-port=10300`
          volumeMounts:
            - name: plugin-dir
              mountPath: /csi
          resources:
            requests:
              memory: 20Mi
              cpu: 5m
      volumes:
        - name: kubelet-dir
          hostPath:
            path: /var/lib/kubelet
            type: Directory
        - name: plugin-dir
          hostPath:
            path: /var/lib/kubelet/plugins/csi.kubevirt.io/
            type: DirectoryOrCreate
        - name: registration-dir
          hostPath:
            path: /var/lib/kubelet/plugins_registry/
            type: Directory
        - name: device-dir
          hostPath:
            path: /dev
            type: Directory
        - name: udev
          hostPath:
            path: /run/udev
---
apiVersion: v1
kind: ConfigMap
metadata:
  name: driver-config
  namespace: kubevirt-csi-driver
data:
  infraClusterNamespace: 
  infraClusterLabels: csi-driver/cluster=tenant
---
apiVersion: storage.k8s.io/v1
kind: StorageClass
metadata:
  name: kubevirt
  annotations:
    storageclass.kubernetes.io/is-default-class: `true`
provisioner: csi.kubevirt.io
parameters:
  infraStorageClassName: standard
  bus: scsi
---
apiVersion: snapshot.storage.k8s.io/v1
kind: VolumeSnapshotClass
metadata:
  name: kubevirt-csi-snapclass
driver: csi.kubevirt.io
deletionPolicy: Delete
".
