(* ===== verification/Manifests.v ===== *)
(** * Reading the manifests

    What the development reads off the manifests of AssetData.v and DeployData.v,
    line by line: the rules of a role and the arguments of a container.  It knows
    the layout that these files have (one field to a line, flow sequences for the
    fields of a rule, an argument to a line), not YAML. *)

From S2P Require Import Prelude GoStrings.

Local Open Scope string_scope.

Definition lines (text : string) : list string := Split text "010".

(** The documents between lines of three dashes. *)
Fixpoint documents (ls : list string) : list (list string) :=
  match ls with
  | [] => [[]]
  | l :: ls' =>
      match documents ls' with
      | d :: ds => if l =s? "---" then [] :: d :: ds else (l :: d) :: ds
      | [] => []
      end
  end.

(** The value of [key: value], the entry of [- entry]. *)
Definition field (key line : string) : option string :=
  let l := TrimSpace line in
  if HasPrefix l (key +:+ ":") then Some (TrimSpace (string_drop (S (String.length key)) l)) else None.

Definition item (line : string) : option string :=
  let l := TrimSpace line in if HasPrefix l "- " then Some (TrimSpace (string_drop 2 l)) else None.

(** A scalar without its quotes. *)
Definition drop_last (s : string) : string := String.substring 0 (String.length s - 1) s.

Definition unquote (s : string) : string :=
  match s with
  | String c s' => if Ascii.eqb c "034" || Ascii.eqb c "'" then drop_last s' else s
  | EmptyString => EmptyString
  end.

(** [["a", "b"]] *)
Definition flow (s : string) : list string :=
  map (fun x => unquote (TrimSpace x)) (Split (drop_last (string_drop 1 s)) ",").

(** ** Roles *)

(** [PolicyRule] of the API group rbac.authorization.k8s.io. *)
Record PolicyRule := mkPolicyRule {
  APIGroups : list string; Resources : list string; Verbs : list string; ResourceNames : list string }.

Fixpoint rules_in (ls : list string) : list PolicyRule :=
  match ls with
  | [] => []
  | l :: ls' =>
      match item l ≫= field "apiGroups", ls' with
      | Some groups, l1 :: l2 :: after =>
          match field "resources" l1, field "verbs" l2 with
          | Some resources, Some verbs =>
              [mkPolicyRule (flow groups) (flow resources) (flow verbs)
                 (match after with l3 :: _ => default [] (flow <$> field "resourceNames" l3) | [] => [] end)]
          | _, _ => []
          end
      | _, _ => []
      end ++ rules_in ls'
  end%list.

(** The rules of the role with the name. *)
Definition rules_of (name text : string) : list PolicyRule :=
  flat_map (fun d => if existsb (fun l => bool_decide (field "name" l = Some name)) d then rules_in d else [])
    (documents (lines text)).

(** ** Containers *)

Fixpoint items (ls : list string) : list string :=
  match ls with
  | [] => []
  | l :: ls' => match item l with Some x => unquote x :: items ls' | None => [] end
  end.

Fixpoint after_line (line : string) (ls : list string) : list string :=
  match ls with
  | [] => []
  | l :: ls' => if TrimSpace l =s? line then ls' else after_line line ls'
  end.

(** The arguments of the container with the name. *)
Definition args_of (container text : string) : list string :=
  items (after_line "args:" (after_line ("- name: " +:+ container) (lines text))).
