(* ===== verification/Json.v ===== *)
(** * JSON texts

    What [json.Unmarshal] of Go's standard library accepts: RFC 8259 with
    Go's limits (at most 10000 nested values) and Go's reading of strings (bytes
    that are not UTF-8 and lone surrogates become U+FFFD).  [Parse] reads a
    text, [print] writes one, and [Parse_print] says that the second is undone
    by the first. *)

From S2P Require Import Prelude GoStrings.

Local Open Scope string_scope.
Local Open Scope Z_scope.

Unset Elimination Schemes.
Inductive json :=
| JNull
| JBool (b : bool)
| JNum (literal : string)
| JStr (s : string)
| JArr (l : list json)
| JObj (l : list (string * json)).
Set Elimination Schemes.

(** Induction with the hypothesis for every part of an array or an object. *)
Lemma json_ind (P : json -> Prop) :
  P JNull -> (forall b, P (JBool b)) -> (forall s, P (JNum s)) -> (forall s, P (JStr s)) ->
  (forall l, Forall P l -> P (JArr l)) -> (forall l, Forall (fun kv => P kv.2) l -> P (JObj l)) ->
  forall v, P v.
Proof.
  intros Hn Hb Hm Hs Ha Ho. fix IH 1.
  intros [|b|s|s|l|l]; [apply Hn|apply Hb|apply Hm|apply Hs|..].
  - apply Ha. induction l as [|v l IHl]; [done|]. by constructor.
  - apply Ho. induction l as [|[k v] l IHl]; [done|]. by constructor.
Qed.

(** ** Bytes and runes *)

Definition code_of (c : ascii) : Z := Z.of_N (N_of_ascii c).
Definition byte (n : Z) : ascii := ascii_of_N (Z.to_N n).

(** [utf8.EncodeRune]. *)
Definition encode_rune (r : Z) : string :=
  if r <? 0x80 then String (byte r) ""
  else if r <? 0x800 then String (byte (0xC0 + r / 64)) (String (byte (0x80 + r mod 64)) "")
  else if r <? 0x10000 then
    String (byte (0xE0 + r / 4096)) (String (byte (0x80 + r / 64 mod 64)) (String (byte (0x80 + r mod 64)) ""))
  else String (byte (0xF0 + r / 262144)) (String (byte (0x80 + r / 4096 mod 64))
    (String (byte (0x80 + r / 64 mod 64)) (String (byte (0x80 + r mod 64)) ""))).

Definition RuneError : string := encode_rune 0xFFFD.

Definition between (lo hi : Z) (c : ascii) : bool := (lo <=? code_of c) && (code_of c <=? hi).

(** The ranges of the bytes that follow the first byte [n >= 0x80] of a UTF-8
    sequence (the table of [unicode/utf8]). *)
Definition utf8_ranges (n : Z) : option (list (Z * Z)) :=
  let cont := (0x80, 0xBF) in
  if (0xC2 <=? n) && (n <=? 0xDF) then Some [cont]
  else if n =? 0xE0 then Some [(0xA0, 0xBF); cont]
  else if n =? 0xED then Some [(0x80, 0x9F); cont]
  else if (0xE1 <=? n) && (n <=? 0xEF) then Some [cont; cont]
  else if n =? 0xF0 then Some [(0x90, 0xBF); cont; cont]
  else if (0xF1 <=? n) && (n <=? 0xF3) then Some [cont; cont; cont]
  else if n =? 0xF4 then Some [(0x80, 0x8F); cont; cont]
  else None.

Fixpoint heads (ranges : list (Z * Z)) (s : string) : bool :=
  match ranges, s with
  | [], _ => true
  | (lo, hi) :: ranges', String c s' => between lo hi c && heads ranges' s'
  | _ :: _, EmptyString => false
  end.

(** The number of continuation bytes of a UTF-8 sequence that begins with the
    byte [n >= 0x80] and goes on as [s]; [None] when it is not one. *)
Definition utf8_tail (n : Z) (s : string) : option nat :=
  match utf8_ranges n with
  | Some ranges => if heads ranges s then Some (length ranges) else None
  | None => None
  end.

Definition hex_val (c : ascii) : option Z :=
  if between 48 57 c then Some (code_of c - 48)
  else if between 97 102 c then Some (code_of c - 87)
  else if between 65 70 c then Some (code_of c - 55)
  else None.

Definition hex4 (a b c d : ascii) : option Z :=
  match hex_val a, hex_val b, hex_val c, hex_val d with
  | Some a, Some b, Some c, Some d => Some (a * 4096 + b * 256 + c * 16 + d)
  | _, _, _, _ => None
  end.

(** [\uXXXX] at the head of a text, and what follows. *)
Definition getu4 (s : string) : option Z :=
  match s with
  | String b (String u (String h1 (String h2 (String h3 (String h4 _))))) =>
      if (code_of b =? 92) && (code_of u =? 117) then hex4 h1 h2 h3 h4 else None
  | _ => None
  end.

Definition IsSurrogate (r : Z) : bool := (0xD800 <=? r) && (r <? 0xE000).

(** [utf16.DecodeRune], [None] for the replacement character. *)
Definition DecodeRune (r1 r2 : Z) : option Z :=
  if (0xD800 <=? r1) && (r1 <? 0xDC00) && (0xDC00 <=? r2) && (r2 <? 0xE000)
  then Some ((r1 - 0xD800) * 1024 + (r2 - 0xDC00) + 0x10000) else None.

Definition simple_escape (e : ascii) : option ascii :=
  let n := code_of e in
  if (n =? 34) || (n =? 92) || (n =? 47) then Some e
  else if n =? 98 then Some (byte 8)
  else if n =? 102 then Some (byte 12)
  else if n =? 110 then Some (byte 10)
  else if n =? 114 then Some (byte 13)
  else if n =? 116 then Some (byte 9)
  else None.

(** ** Reading *)

Definition emit (s : string) (r : option (string * string)) : option (string * string) :=
  match r with Some (t, rest) => Some (s +:+ t, rest) | None => None end.

(** A string literal after its opening quote: its value and what follows its
    closing quote.  [pending] continuation bytes are copied as they are; [skip]
    bytes, those of a second surrogate, are passed over. *)
Fixpoint string_lit (pending skip : nat) (s : string) : option (string * string) :=
  match s with
  | EmptyString => None
  | String c s1 =>
      match skip, pending with
      | S k, _ => string_lit 0 k s1
      | O, S p => emit (String c "") (string_lit p 0 s1)
      | O, O =>
          let n := code_of c in
          if n =? 34 then Some ("", s1)
          else if n =? 92 then
            match s1 with
            | EmptyString => None
            | String e s2 =>
                match simple_escape e with
                | Some b => emit (String b "") (string_lit 0 0 s2)
                | None =>
                    match getu4 s with
                    | None => None
                    | Some r =>
                        match s2 with
                        | String _ (String _ (String _ (String _ s3))) =>
                            if IsSurrogate r then
                              match getu4 s3 with
                              | Some r2 =>
                                  match DecodeRune r r2 with
                                  | Some dec => emit (encode_rune dec) (string_lit 0 6 s3)
                                  | None => emit RuneError (string_lit 0 0 s3)
                                  end
                              | None => emit RuneError (string_lit 0 0 s3)
                              end
                            else emit (encode_rune r) (string_lit 0 0 s3)
                        | _ => None
                        end
                    end
                end
            end
          else if n <? 32 then None
          else if n <? 128 then emit (String c "") (string_lit 0 0 s1)
          else match utf8_tail n s1 with
               | Some p => emit (String c "") (string_lit p 0 s1)
               | None => emit RuneError (string_lit 0 0 s1)
               end
      end
  end.

Definition json_space (c : ascii) : bool :=
  let n := code_of c in (n =? 32) || (n =? 9) || (n =? 13) || (n =? 10).

Fixpoint skip_ws (s : string) : string :=
  match s with String c s' => if json_space c then skip_ws s' else s | EmptyString => "" end.

Definition is_digit : ascii -> bool := between 48 57.

Fixpoint digits (s : string) : string * string :=
  match s with
  | String c s' => if is_digit c then let '(ds, rest) := digits s' in (String c ds, rest) else ("", s)
  | EmptyString => ("", "")
  end.

(** One or more digits after the mark [m]. *)
Definition some_digits (m s : string) : option (string * string) :=
  let '(ds, rest) := digits s in if is_empty ds then None else Some (m +:+ ds, rest).

(** The optional parts of a number. *)
Definition fraction (s : string) : option (string * string) :=
  match s with
  | String c s' => if code_of c =? 46 then some_digits (String c "") s' else Some ("", s)
  | EmptyString => Some ("", "")
  end.

Definition exponent (s : string) : option (string * string) :=
  match s with
  | String e s' =>
      if (code_of e =? 101) || (code_of e =? 69) then
        match s' with
        | String g s'' => if (code_of g =? 43) || (code_of g =? 45)
                          then some_digits (String e (String g "")) s'' else some_digits (String e "") s'
        | EmptyString => None
        end
      else Some ("", s)
  | EmptyString => Some ("", "")
  end.

Definition integer (s : string) : option (string * string) :=
  match s with
  | String c s' => if code_of c =? 48 then Some (String c "", s')
                   else if is_digit c then some_digits "" s else None
  | EmptyString => None
  end.

Definition number (s : string) : option (string * string) :=
  let '(sign, s) := match s with String c s' => if code_of c =? 45 then (String c "", s') else ("", s)
                               | EmptyString => ("", "") end in
  match integer s with
  | Some (i, s) => match fraction s with
    | Some (f, s) => match exponent s with
      | Some (e, s) => Some (sign +:+ i +:+ f +:+ e, s)
      | None => None end
    | None => None end
  | None => None
  end.

(** [literal lit v s]: the keyword [lit] at the head of [s]. *)
Definition keyword (lit : string) (v : json) (s : string) : option (json * string) :=
  if HasPrefix s lit then Some (v, string_drop (String.length lit) s) else None.

(** A value, the elements of an array and the members of an object; [fuel]
    bounds the calls, [depth] the nesting. *)
Fixpoint value (fuel : nat) (depth : Z) (s : string) {struct fuel} : option (json * string) :=
  match fuel with
  | O => None
  | S f =>
      match skip_ws s with
      | EmptyString => None
      | String c s1 =>
          let n := code_of c in
          if n =? 34 then
            match string_lit 0 0 s1 with Some (t, rest) => Some (JStr t, rest) | None => None end
          else if n =? 91 then
            if depth <=? 0 then None
            else match elements f (depth - 1) s1 true with Some (l, rest) => Some (JArr l, rest) | None => None end
          else if n =? 123 then
            if depth <=? 0 then None
            else match members f (depth - 1) s1 true with Some (l, rest) => Some (JObj l, rest) | None => None end
          else if n =? 110 then keyword "null" JNull (String c s1)
          else if n =? 116 then keyword "true" (JBool true) (String c s1)
          else if n =? 102 then keyword "false" (JBool false) (String c s1)
          else match number (String c s1) with Some (t, rest) => Some (JNum t, rest) | None => None end
      end
  end
with elements (fuel : nat) (depth : Z) (s : string) (first : bool) {struct fuel} : option (list json * string) :=
  match fuel with
  | O => None
  | S f =>
      match skip_ws s with
      | EmptyString => None
      | String c s1 =>
          if first && (code_of c =? 93) then Some ([], s1)
          else match value f depth (String c s1) with
               | None => None
               | Some (v, rest) =>
                   match skip_ws rest with
                   | EmptyString => None
                   | String c s2 =>
                       if code_of c =? 93 then Some ([v], s2)
                       else if code_of c =? 44 then
                         match elements f depth s2 false with Some (l, r) => Some (v :: l, r) | None => None end
                       else None
                   end
               end
      end
  end
with members (fuel : nat) (depth : Z) (s : string) (first : bool) {struct fuel}
    : option (list (string * json) * string) :=
  match fuel with
  | O => None
  | S f =>
      match skip_ws s with
      | EmptyString => None
      | String c s1 =>
          if first && (code_of c =? 125) then Some ([], s1)
          else if code_of c =? 34 then
            match string_lit 0 0 s1 with
            | None => None
            | Some (k, rest) =>
                match skip_ws rest with
                | EmptyString => None
                | String c s2 =>
                    if code_of c =? 58 then
                      match value f depth s2 with
                      | None => None
                      | Some (v, rest) =>
                          match skip_ws rest with
                          | EmptyString => None
                          | String c s3 =>
                              if code_of c =? 125 then Some ([(k, v)], s3)
                              else if code_of c =? 44 then
                                match members f depth s3 false with
                                | Some (l, r) => Some ((k, v) :: l, r) | None => None end
                              else None
                          end
                      end
                    else None
                end
            end
          else None
      end
  end.

Definition maxNestingDepth : Z := 10000.

(** The whole text is one value. *)
Definition Parse (s : string) : option json :=
  match value (S (S (2 * String.length s))) maxNestingDepth s with
  | Some (v, rest) => if is_empty (skip_ws rest) then Some v else None
  | None => None
  end.

(** ** Writing *)

Definition hex_digit (d : Z) : ascii := byte (if d <? 10 then 48 + d else 87 + d).

Definition escape_char (c : ascii) : string :=
  let n := code_of c in
  if (n =? 34) || (n =? 92) then String (byte 92) (String c "")
  else if n <? 32 then "\u00" +:+ String (hex_digit (n / 16)) (String (hex_digit (n mod 16)) "")
  else String c "".

Fixpoint escape (s : string) : string :=
  match s with String c s' => escape_char c +:+ escape s' | EmptyString => "" end.

Definition quote (s : string) : string := String (byte 34) (escape s +:+ String (byte 34) "").

Fixpoint print (v : json) : string :=
  match v with
  | JNull => "null"
  | JBool b => if b then "true" else "false"
  | JNum l => l
  | JStr s => quote s
  | JArr l => "[" +:+ Join (map print l) "," +:+ "]"
  | JObj l => "{" +:+ Join (map (fun kv => quote kv.1 +:+ ":" +:+ print kv.2) l) "," +:+ "}"
  end.

(** UTF-8 strings; [pending] continuation bytes are awaited. *)
Fixpoint utf8 (pending : nat) (s : string) : bool :=
  match s with
  | EmptyString => match pending with O => true | S _ => false end
  | String c s' =>
      match pending with
      | S p => (128 <=? code_of c) && utf8 p s'
      | O => if code_of c <? 128 then utf8 0 s'
             else match utf8_tail (code_of c) s' with Some p => utf8 p s' | None => false end
      end
  end.

(** The values [print] writes and [Parse] reads: UTF-8 strings, no numbers, and
    at most [depth] levels. *)
Fixpoint plain (depth : Z) (v : json) : bool :=
  match v with
  | JNull | JBool _ => true
  | JNum _ => false
  | JStr s => utf8 0 s
  | JArr l => (0 <? depth) && forallb (plain (depth - 1)) l
  | JObj l => (0 <? depth) && forallb (fun kv => utf8 0 kv.1 && plain (depth - 1) kv.2) l
  end.

(** ** Reading undoes writing *)

Lemma string_lit_ascii c t :
  code_of c < 128 -> string_lit 0 0 (escape_char c +:+ t) = emit (String c "") (string_lit 0 0 t).
Proof.
  intros H. destruct c as [[] [] [] [] [] [] [] []]; first [reflexivity | by vm_compute in H].
Qed.

Lemma escape_char_high c : 128 <= code_of c -> escape_char c = String c "".
Proof.
  intros H. unfold escape_char. cbv zeta. repeat case_match; reflect_bools; try done.
  all: try (match goal with H : orb _ _ = true |- _ => apply orb_true_iff in H as [?|?] end; reflect_bools; lia).
  all: lia.
Qed.

Lemma between_spec lo hi c : between lo hi c = true <-> lo <= code_of c <= hi.
Proof. unfold between. rewrite andb_true_iff, !Z.leb_le. done. Qed.

(** Continuation bytes are written as they are. *)
Lemma heads_escape ranges s t :
  Forall (fun r => 128 <= r.1) ranges -> heads ranges s = true -> heads ranges (escape s +:+ t) = true.
Proof.
  intros H. revert s. induction H as [|[lo hi] ranges Hlo _ IH]; intros s; [done|].
  destruct s as [|c s]; [done|]. simpl in *. rewrite andb_true_iff, between_spec. intros [Hc Hs].
  rewrite escape_char_high, append_assoc, append_one by lia. simpl.
  by rewrite (IH s Hs), (proj2 (between_spec lo hi c) Hc).
Qed.

Lemma utf8_ranges_high n ranges : utf8_ranges n = Some ranges -> Forall (fun r => 128 <= r.1) ranges.
Proof.
  unfold utf8_ranges. intros H. repeat case_match; simplify_eq; repeat constructor; simpl; lia.
Qed.

Lemma utf8_tail_escape n s p t :
  utf8_tail n s = Some p -> utf8_tail n (escape s +:+ t) = Some p.
Proof.
  unfold utf8_tail. destruct (utf8_ranges n) as [ranges|] eqn:E; [|done].
  destruct (heads ranges s) eqn:Hh; [|done]. intros [= <-].
  rewrite (heads_escape ranges s t); [done| |done]. by eapply utf8_ranges_high.
Qed.

Lemma string_lit_high c t :
  128 <= code_of c -> string_lit 0 0 (String c t) =
    match utf8_tail (code_of c) t with
    | Some p => emit (String c "") (string_lit p 0 t)
    | None => emit RuneError (string_lit 0 0 t)
    end.
Proof.
  intros H. cbn [string_lit]. cbv zeta.
  rewrite (proj2 (Z.eqb_neq _ 34)), (proj2 (Z.eqb_neq _ 92)), (proj2 (Z.ltb_ge _ 32)), (proj2 (Z.ltb_ge _ 128)) by lia.
  done.
Qed.

(** A string literal is read back. *)
Lemma string_lit_escape s p rest :
  utf8 p s = true -> string_lit p 0 (escape s +:+ String (byte 34) rest) = Some (s, rest).
Proof.
  revert p. induction s as [|c s IH]; intros p H.
  - destruct p; [reflexivity|done].
  - cbn [escape utf8] in *. rewrite append_assoc. destruct p as [|p].
    + destruct (code_of c <? 128) eqn:Hc; reflect_bools.
      * rewrite string_lit_ascii by done. by rewrite (IH 0%nat H).
      * destruct (utf8_tail (code_of c) s) as [p|] eqn:Ht; [|done].
        rewrite escape_char_high by done. rewrite append_one, string_lit_high by done.
        rewrite (utf8_tail_escape _ _ _ (String (byte 34) rest) Ht). by rewrite (IH p H).
    + apply andb_true_iff in H as [Hc H]. reflect_bools. rewrite escape_char_high by done.
      rewrite append_one. cbn [string_lit]. by rewrite (IH p H).
Qed.

(** The first byte of what is written. *)
Lemma print_head d v : plain d v = true ->
  exists c s, print v = String c s /\ json_space c = false /\ code_of c <> 93.
Proof. destruct v as [|[]| | | |]; intros H; try done; simpl; do 2 eexists; split_and!; first [reflexivity | by vm_compute]. Qed.

Lemma length_print d v : plain d v = true -> (2 <= String.length (print v))%nat.
Proof.
  destruct v as [|[]| |s| |]; intros H; try done; cbn [print]; unfold quote; simpl; try lia;
    rewrite ?length_append; simpl; lia.
Qed.

Lemma skip_ws_print d v rest : plain d v = true -> skip_ws (print v +:+ rest) = print v +:+ rest.
Proof. intros (c & s & -> & Hc & _)%print_head. rewrite append_cons. simpl. by rewrite Hc. Qed.

(** One step of the readers of the three kinds of sequences. *)
Definition reads (d : Z) (v : json) : Prop := forall fuel rest,
  (2 * String.length (print v) <= fuel)%nat -> value fuel d (print v +:+ rest) = Some (v, rest).

Lemma Join_cons x y l sep : Join (x :: y :: l) sep = x +:+ String sep (Join (y :: l) sep).
Proof. reflexivity. Qed.

(** The comma between two parts. *)
Ltac comma_step :=
  cbv iota; change (skip_ws (String "," ?x)) with (String "," x); cbv iota;
  change (code_of "," =? 93) with false; change (code_of "," =? 125) with false;
  change (code_of "," =? 44) with true; cbv iota.

Lemma elements_print d l fuel first rest :
  l <> [] -> Forall (fun v => plain d v = true) l -> Forall (reads d) l ->
  (2 * String.length (Join (map print l) ",") + 1 <= fuel)%nat ->
  elements fuel d (Join (map print l) "," +:+ String (byte 93) rest) first = Some (l, rest).
Proof.
  intros Hne Hp Hr. revert fuel first. induction Hr as [|v l Hv Hr IH]; intros fuel first Hf; [done|].
  apply Forall_cons in Hp as [Hp Hps].
  destruct fuel as [|f]; [lia|]. cbn [elements].
  destruct (print_head d v Hp) as (c & s & E & _ & Hc).
  destruct l as [|v' l]; cbn [map] in *.
  - cbn [Join] in *. rewrite (skip_ws_print d) by done.
    pose proof (Hv f (String (byte 93) rest) ltac:(lia)) as Hval. rewrite E, append_cons in *.
    rewrite (proj2 (Z.eqb_neq _ 93) Hc), andb_false_r. by rewrite Hval.
  - rewrite Join_cons in *. set (tail := Join (print v' :: map print l) ",") in *.
    rewrite length_append in Hf. cbn [String.length] in Hf.
    rewrite append_assoc, append_cons, (skip_ws_print d) by done.
    pose proof (Hv f (String "," (tail +:+ String (byte 93) rest)) ltac:(lia)) as Hval.
    rewrite E, append_cons in *. rewrite (proj2 (Z.eqb_neq _ 93) Hc), andb_false_r, Hval.
    comma_step. by rewrite (IH ltac:(done) Hps f false ltac:(lia)).
Qed.

(** A member as it is written. *)
Definition print_member (kv : string * json) : string := quote kv.1 +:+ ":" +:+ print kv.2.

Lemma members_print d l fuel first rest :
  l <> [] -> Forall (fun kv => utf8 0 kv.1 && plain d kv.2 = true) l -> Forall (fun kv => reads d kv.2) l ->
  (2 * String.length (Join (map print_member l) ",") + 1 <= fuel)%nat ->
  members fuel d (Join (map print_member l) "," +:+ String (byte 125) rest) first = Some (l, rest).
Proof.
  intros Hne Hp Hr. revert fuel first. induction Hr as [|[k v] l Hv Hr IH]; intros fuel first Hf; [done|].
  apply Forall_cons in Hp as [[Hk Hp]%andb_true_iff Hps]. cbn [fst snd] in *.
  destruct fuel as [|f]; [lia|].
  assert (Hone : forall t, (2 * String.length (print v) <= f)%nat ->
     members (S f) d (print_member (k, v) +:+ t) first =
     match skip_ws t with
     | EmptyString => None
     | String c s3 =>
         if code_of c =? 125 then Some ([(k, v)], s3)
         else if code_of c =? 44 then
           match members f d s3 false with Some (l, r) => Some ((k, v) :: l, r) | None => None end
         else None
     end).
  { intros t Ht. unfold print_member, quote. cbn [fst snd]. rewrite append_assoc, append_cons, !append_assoc.
    cbn [members]. change (skip_ws (String (byte 34) ?s)) with (String (byte 34) s). cbv iota.
    change (code_of (byte 34) =? 125) with false. change (code_of (byte 34) =? 34) with true.
    rewrite andb_false_r, append_one, string_lit_escape by done. cbv iota.
    rewrite append_one. cbn [skip_ws]. change (json_space ":") with false. cbv iota.
    change (code_of ":" =? 58) with true. cbv iota. by rewrite (Hv f t Ht). }
  assert (Hlen : (String.length (print v) <= String.length (print_member (k, v)))%nat).
  { unfold print_member. rewrite !length_append. simpl. lia. }
  destruct l as [|kv' l]; cbn [map] in *.
  - cbn [Join] in *. rewrite Hone by lia. reflexivity.
  - rewrite Join_cons in *. set (tail := Join (print_member kv' :: map print_member l) ",") in *.
    rewrite length_append in Hf. cbn [String.length] in Hf.
    rewrite append_assoc, append_cons, Hone by lia.
    comma_step. by rewrite (IH ltac:(done) Hps f false ltac:(lia)).
Qed.

Lemma forallb_Forall_true {A} (p : A -> bool) l : forallb p l = true <-> Forall (fun x => p x = true) l.
Proof. rewrite forallb_forall, Forall_forall. split; intros H x Hx; apply H; by apply list_elem_of_In. Qed.

Lemma value_quote f d s rest :
  utf8 0 s = true -> value (S f) d (quote s +:+ rest) = Some (JStr s, rest).
Proof.
  intros H. unfold quote. rewrite append_cons, append_assoc, append_one. cbn [value].
  change (skip_ws (String (byte 34) ?s)) with (String (byte 34) s). cbv iota zeta.
  change (code_of (byte 34) =? 34) with true. cbv iota. by rewrite string_lit_escape.
Qed.

Lemma keyword_print lit v rest : keyword lit v (lit +:+ rest) = Some (v, rest).
Proof. unfold keyword. by rewrite HasPrefix_app, string_drop_app. Qed.

Lemma print_reads v d : plain d v = true -> reads d v.
Proof.
  revert d. induction v as [|b|m|s|l IH|l IH]; intros d H fuel rest Hf;
    (destruct fuel as [|f]; [pose proof (length_print _ _ H); lia|]); try done.
  - apply (keyword_print "null" JNull).
  - destruct b; [apply (keyword_print "true" (JBool true))|apply (keyword_print "false" (JBool false))].
  - by apply value_quote.
  - cbn [plain] in H. apply andb_true_iff in H as [Hd Hl%forallb_Forall_true]. cbn [print] in *.
    rewrite !length_append in Hf. cbn [String.length] in Hf. rewrite append_assoc, append_one, append_assoc, append_one.
    cbn [value]. change (skip_ws (String "[" ?s)) with (String "[" s). cbv iota zeta.
    change (code_of "[" =? 34) with false. change (code_of "[" =? 91) with true. cbv iota.
    rewrite (proj2 (Z.leb_gt _ _)) by (apply Z.ltb_lt; done).
    destruct l as [|v l]; [by destruct f; [simpl in Hf; lia|]|].
    change "]"%char with (byte 93). rewrite (elements_print (d - 1) (v :: l) f true rest); [done|done|done| |lia].
    rewrite Forall_forall in *. intros x Hx. by apply IH, Hl.
  - cbn [plain] in H. apply andb_true_iff in H as [Hd Hl%forallb_Forall_true]. cbn [print] in *.
    fold print_member in *.
    rewrite !length_append in Hf. cbn [String.length] in Hf. rewrite append_assoc, append_one, append_assoc, append_one.
    cbn [value]. change (skip_ws (String "{" ?s)) with (String "{" s). cbv iota zeta.
    change (code_of "{" =? 34) with false. change (code_of "{" =? 91) with false.
    change (code_of "{" =? 123) with true. cbv iota.
    rewrite (proj2 (Z.leb_gt _ _)) by (apply Z.ltb_lt; done).
    destruct l as [|v l]; [by destruct f; [simpl in Hf; lia|]|].
    change "}"%char with (byte 125). rewrite (members_print (d - 1) (v :: l) f true rest); [done|done|done| |lia].
    rewrite Forall_forall in *. intros x Hx. apply IH; [done|].
    by destruct (andb_prop _ _ (Hl x Hx)).
Qed.

(** Every value that [print] can write is read back by [Parse]. *)
Lemma Parse_print v : plain maxNestingDepth v = true -> Parse (print v) = Some v.
Proof.
  intros H. unfold Parse. rewrite <- (append_nil_r (print v)) at 2.
  by rewrite (print_reads v _ H _ EmptyString) by lia.
Qed.
