(* ===== verification/Filepath.v ===== *)
(** * Paths

    The parts of package path/filepath of Go's standard library that
    pkg/generated/bindata.go uses, on Unix: [Clean] by the elements of the path,
    [Join] and [Dir]; and the replacement of a character by [strings.Replace]. *)

From S2P Require Import Prelude GoStrings Json.

Local Open Scope string_scope.
Local Open Scope list_scope.

(** [strings.Replace(s, old, new, -1)] for single characters. *)
Fixpoint ReplaceAll (s : string) (old new : ascii) : string :=
  match s with
  | EmptyString => EmptyString
  | String c s' => String (if Ascii.eqb c old then new else c) (ReplaceAll s' old new)
  end.

(** One element after those kept so far, the last one first. *)
Definition clean_step (rooted : bool) (kept : list string) (element : string) : list string :=
  if is_empty element || (element =s? ".") then kept
  else if element =s? ".." then
    match kept with
    | x :: kept' => if x =s? ".." then ".." :: kept else kept'
    | [] => if rooted then [] else [".."]
    end
  else element :: kept.

Definition Clean (path : string) : string :=
  let rooted := HasPrefix path "/" in
  let kept := reverse (foldl (clean_step rooted) [] (Split path "/")) in
  if rooted then String "/" (Join kept "/") else match kept with [] => "." | _ => Join kept "/" end.

(** [filepath.Join]: from the first element that is not empty. *)
Fixpoint PathJoin (elements : list string) : string :=
  match elements with
  | [] => EmptyString
  | e :: es => if is_empty e then PathJoin es else Clean (Join elements "/")
  end.

(** [path[:i+1]] with [i] the last slash. *)
Fixpoint upto_slash (path : string) : string :=
  match path with
  | EmptyString => EmptyString
  | String c s => if has_byte "/" path then String c (upto_slash s) else EmptyString
  end.

Definition Dir (path : string) : string := Clean (upto_slash path).

Example paths :
  map Clean ["a/./b//c/../d"; "/../a"; "../../x"; ""; "a/.."; "/"; "./"] = ["a/b/d"; "/a"; "../../x"; "."; "."; "/"; "."] /\
  PathJoin [""; "deploy"] = "deploy" /\ PathJoin ["/tmp/"; "a"; "b.yaml"] = "/tmp/a/b.yaml" /\ PathJoin [""; ""] = "" /\
  Dir "deploy/example/a.yaml" = "deploy/example" /\ Dir "a.yaml" = "." /\ Dir "/a" = "/".
Proof. by vm_compute. Qed.

(** ** Lemmas *)

Lemma Join_Split s sep : Join (Split s sep) sep = s.
Proof.
  induction s as [|c s IH]; [done|]. simpl. pose proof (Split_nonempty s sep).
  destruct (Ascii.eqb c sep) eqn:Hc.
  - apply Ascii.eqb_eq in Hc as ->. simpl. destruct (Split s sep) as [|x l]; [done|]. by rewrite IH.
  - destruct (Split s sep) as [|x l]; [done|]. rewrite <- IH. by destruct l.
Qed.

Lemma Split_inj s t sep : Split s sep = Split t sep -> s = t.
Proof. intros H. by rewrite <- (Join_Split s sep), <- (Join_Split t sep), H. Qed.

Lemma ReplaceAll_absent s old new : has_byte old s = false -> ReplaceAll s old new = s.
Proof.
  induction s as [|c s IH]; simpl; [done|]. intros [Hc Hs]%orb_false_iff. by rewrite Hc, IH.
Qed.

Lemma has_byte_Join c l sep : Ascii.eqb sep c = false -> Forall (fun s => has_byte c s = false) l -> has_byte c (Join l sep) = false.
Proof.
  intros Hc. induction 1 as [|x l Hx _ IH]; [done|]. destruct l as [|y l]; [done|].
  change (has_byte c (x +:+ String sep (Join (y :: l) sep)) = false). rewrite has_byte_app, Hx. simpl has_byte at 1.
  by rewrite Hc.
Qed.

(** An element that [Clean] keeps. *)
Definition clean_element (s : string) : bool :=
  negb (is_empty s) && negb (s =s? ".") && negb (s =s? "..") && negb (has_byte "/" s) && negb (has_byte "\" s).

Lemma clean_element_inv s : clean_element s = true ->
  is_empty s = false /\ (s =s? ".") = false /\ (s =s? "..") = false /\ has_byte "/" s = false /\ has_byte "\" s = false.
Proof. unfold clean_element. rewrite !andb_true_iff, !negb_true_iff. tauto. Qed.

Lemma clean_steps rooted els kept :
  Forall (fun s => clean_element s = true) els -> foldl (clean_step rooted) kept els = reverse els ++ kept.
Proof.
  intros H. revert kept. induction H as [|x els Hx _ IH]; intros kept; [done|]. simpl. rewrite IH, reverse_cons, <- app_assoc.
  f_equal. destruct (clean_element_inv _ Hx) as (H1 & H2 & H3 & _). unfold clean_step. by rewrite H1, H2, H3.
Qed.

Lemma clean_no_slash els :
  Forall (fun s => clean_element s = true) els -> Forall (fun s => has_byte "/" s = false) els.
Proof. intros H. eapply Forall_impl; [exact H|]. intros s Hs. by destruct (clean_element_inv _ Hs) as (?&?&?&?&?). Qed.

Lemma Split_clean els : els <> [] -> Forall (fun s => clean_element s = true) els -> Split (Join els "/") "/" = els.
Proof. intros Hne H. apply Split_Join; [done|by apply clean_no_slash]. Qed.

Lemma canonical_clean els : Forall (fun s => clean_element s = true) els -> ReplaceAll (Join els "/") "\" "/" = Join els "/".
Proof.
  intros H. apply ReplaceAll_absent, has_byte_Join; [done|]. eapply Forall_impl; [exact H|].
  intros s Hs. by destruct (clean_element_inv _ Hs) as (?&?&?&?&?).
Qed.

Lemma Join_nonempty els : els <> [] -> Forall (fun s => clean_element s = true) els -> is_empty (Join els "/") = false.
Proof.
  intros Hne H. destruct H as [|x els Hx H]; [done|]. destruct x as [|a x]; [done|]. by destruct els.
Qed.

Lemma Clean_clean els : els <> [] -> Forall (fun s => clean_element s = true) els -> Clean (Join els "/") = Join els "/".
Proof.
  intros Hne H. unfold Clean. rewrite Split_clean, clean_steps, app_nil_r, reverse_involutive by done.
  replace (HasPrefix (Join els "/") "/") with false; [by destruct els|].
  destruct H as [|x els Hx H]; [done|]. destruct (clean_element_inv _ Hx) as (_ & _ & _ & H4 & _).
  destruct x as [|a x]; [done|]. destruct els; simpl in *; by repeat case_match; simplify_eq.
Qed.

(** The path of an entry of a directory. *)
Lemma PathJoin_child els x :
  Forall (fun s => clean_element s = true) (els ++ [x]) -> PathJoin [Join els "/"; x] = Join (els ++ [x]) "/".
Proof.
  intros H. pose proof (proj1 (Forall_app _ _ _) H) as [He Hx]. pose proof (proj1 (Forall_singleton _ _) Hx) as Hx'.
  unfold PathJoin. destruct els as [|y els].
  - cbn [Join is_empty app]. replace (is_empty x) with false by (by destruct (clean_element_inv _ Hx')).
    exact (Clean_clean [x] ltac:(done) Hx).
  - rewrite Join_nonempty by done.
    replace (Join [Join (y :: els) "/"; x] "/") with (Join ((y :: els) ++ [x]) "/"); [by apply Clean_clean|].
    clear. revert y. induction els as [|z els IH]; intros y; [done|].
    change (y +:+ String "/" (Join ((z :: els) ++ [x]) "/") = (y +:+ String "/" (Join (z :: els) "/")) +:+ String "/" x).
    rewrite IH. change (Join [Join (z :: els) "/"; x] "/") with (Join (z :: els) "/" +:+ String "/" x).
    by rewrite append_assoc.
Qed.
