(* ===== verification/Errors.v ===== *)
(** * Go errors as values

    The errors the driver creates, receives and inspects: gRPC status errors
    ([google.golang.org/grpc/status]), Kubernetes API errors
    ([*apierrors.StatusError]), errors made by [errors.New] and [fmt.Errorf]
    (with and without [%w]), sentinels, context errors and operating system
    errors.  A message is kept as its format string and its arguments, not
    rendered.  [IsNotFound] is
    vendor/k8s.io/apimachinery/pkg/api/errors/errors.go. *)

From S2P Require Import Prelude GoStrings.

(** gRPC status codes. *)
Inductive code :=
| OK | Canceled | Unknown | InvalidArgument | DeadlineExceededCode | NotFound | AlreadyExists
| PermissionDenied | ResourceExhausted | FailedPrecondition | Aborted | OutOfRange
| Unimplemented | Internal | Unavailable | DataLoss | Unauthenticated.

#[global] Instance code_eq_dec : EqDecision code.
Proof. solve_decision. Defined.

Inductive error : Type :=
| StatusError (c : code) (format : string) (args : list farg)  (* status.Error, status.Errorf *)
| Errorf (format : string) (args : list farg)                  (* errors.New, fmt.Errorf without %w *)
| WrapErrorf (format : string) (args : list farg) (cause : error)  (* fmt.Errorf, cause is the %w argument *)
| APIError (reason : string) (http : Z) (message : string)     (* *apierrors.StatusError *)
| NumError (fn s : string) (err : num_error)                   (* *strconv.NumError *)
| ErrInvalidVolume | ErrInvalidSnapshot                        (* pkg/kubevirt sentinels *)
| JSONSyntaxError | JSONTypeError                              (* *json.SyntaxError, *json.UnmarshalTypeError *)
| ErrMountDeviceNotFound                                       (* pkg/service sentinel *)
| ErrWaitTimeout                                               (* wait.ErrWaitTimeout *)
| DeadlineExceeded | ContextCanceled                           (* context errors *)
| OSError (notExist : bool) (message : string)                 (* *fs.PathError and the like *)
| ExitError (message stderr : string)                          (* *exec.ExitError *)
with farg : Type :=
| AStr (s : string) | AInt (n : Z) | AErr (e : error) | AStrs (l : list string).

(** [errors.New(s)] and [status.Error(c, s)]. *)
Abbreviation errors_New s := (Errorf s []).
Abbreviation status_Error c s := (StatusError c s []).

(** [errors.As(err, &APIStatus)]: the first error of the chain that carries a
    Kubernetes status. *)
Fixpoint as_APIStatus (err : error) : option (string * Z) :=
  match err with
  | APIError reason http _ => Some (reason, http)
  | WrapErrorf _ _ cause => as_APIStatus cause
  | _ => None
  end.

Definition StatusReasonUnknown : string := "".
Definition StatusReasonNotFound : string := "NotFound".
Definition StatusNotFound : Z := 404.

Definition knownReasons : list string :=
  ["Unauthorized"; "Forbidden"; "NotFound"; "AlreadyExists"; "Conflict"; "Gone"; "Invalid";
   "ServerTimeout"; "Timeout"; "TooManyRequests"; "BadRequest"; "MethodNotAllowed";
   "NotAcceptable"; "RequestEntityTooLarge"; "UnsupportedMediaType"; "InternalError";
   "Expired"; "ServiceUnavailable"]%string.

Definition reasonAndCodeForError (err : option error) : string * Z :=
  match err with
  | Some e => default (StatusReasonUnknown, 0) (as_APIStatus e)
  | None => (StatusReasonUnknown, 0)
  end.

(** [errors.IsNotFound(err)]. *)
Definition IsNotFound (err : option error) : bool :=
  let '(reason, http) := reasonAndCodeForError err in
  if reason =s? StatusReasonNotFound then true
  else negb (existsb (streq reason) knownReasons) && (http =? StatusNotFound).

(** [os.IsNotExist(err)]: does not look through [%w]. *)
Definition os_IsNotExist (err : error) : bool :=
  match err with OSError b _ => b | _ => false end.

(** [errors.Is(err, os.ErrNotExist)]: looks through [%w]. *)
Fixpoint errors_Is_NotExist (err : error) : bool :=
  match err with
  | OSError b _ => b
  | WrapErrorf _ _ cause => errors_Is_NotExist cause
  | _ => false
  end.

(** [errors.Is(err, ErrMountDeviceNotFound)]. *)
Fixpoint errors_Is_MountDeviceNotFound (err : error) : bool :=
  match err with
  | ErrMountDeviceNotFound => true
  | WrapErrorf _ _ cause => errors_Is_MountDeviceNotFound cause
  | _ => false
  end.

(** [errors.As(err, *exec.ExitError)]. *)
Fixpoint as_ExitError (err : error) : option (string * string) :=
  match err with
  | ExitError msg stderr => Some (msg, stderr)
  | WrapErrorf _ _ cause => as_ExitError cause
  | _ => None
  end.

(** What [NewNotFound] builds. *)
Definition NewNotFound (message : string) : error := APIError StatusReasonNotFound StatusNotFound message.

Definition is_nil {A} (x : option A) : bool := match x with None => true | Some _ => false end.

Lemma is_nil_spec {A} (x : option A) : is_nil x = true <-> x = None.
Proof. by destruct x. Qed.

Lemma IsNotFound_nil : IsNotFound None = false.
Proof. reflexivity. Qed.

Lemma IsNotFound_NewNotFound m : IsNotFound (Some (NewNotFound m)) = true.
Proof. reflexivity. Qed.

(** A gRPC status error is never taken for a missing Kubernetes object. *)
Lemma IsNotFound_status c f a : IsNotFound (Some (StatusError c f a)) = false.
Proof. reflexivity. Qed.

(** Wrapping with [%w] keeps the verdict. *)
Lemma IsNotFound_wrap f a e : IsNotFound (Some (WrapErrorf f a e)) = IsNotFound (Some e).
Proof. reflexivity. Qed.

Lemma IsNotFound_some err : IsNotFound err = true -> exists e, err = Some e.
Proof. destruct err; [eauto|by rewrite IsNotFound_nil]. Qed.

#[export] Hint Rewrite IsNotFound_nil IsNotFound_NewNotFound IsNotFound_status IsNotFound_wrap : go.
