(* ===== verification/Wait.v ===== *)
(** * Retry and polling loops

    The loops of vendor/k8s.io/apimachinery/pkg/util/wait that the driver
    calls: [ExponentialBackoff] (backoff.go) and [PollUntilContextTimeout]
    (poll.go, loop.go).

    A [Backoff] keeps [Factor] as an integer and has no [Jitter]: every value
    built in the source has [Factor: 2] and leaves [Jitter] at zero.  Durations
    are [Z] nanoseconds.

    A poll is driven by a ticker and ended by a context that always expires.
    The environment answers how many ticks are delivered before the context is
    seen to be done, and with which error; the loop recurses on that number, so
    it needs no fuel.  Panics of a condition are not caught
    ([runtime.HandleCrash] panics again). *)

From S2P Require Import Prelude GoStrings Errors Effects Goroutines.

Definition Nanosecond : Z := 1.
Definition Second : Z := 1000000000.
Definition Minute : Z := 60 * Second.

Record Backoff := mkBackoff { Duration : Z; Factor : Z; Steps : Z; Cap : Z }.

(** [delay]: the interval to sleep now, the next base duration, the steps left. *)
Definition delay (steps duration cap factor : Z) : Z * Z * Z :=
  if steps <? 1 then (duration, duration, 0)
  else
    let steps := steps - 1 in
    if negb (factor =? 0) then
      let next := duration * factor in
      if (0 <? cap) && (cap <? next) then (duration, cap, 0) else (duration, next, steps)
    else (duration, duration, steps).

(** [Backoff.Step]: the time to sleep and the mutated backoff. *)
Definition Step (b : Backoff) : Z * Backoff :=
  let '(d, next, steps) := delay (Steps b) (Duration b) (Cap b) (Factor b) in
  (d, mkBackoff next (Factor b) steps (Cap b)).

Section Loops.
Context {E : signature}.
Variable sleep : Z -> prog E unit.
Variable window : Z -> Z -> prog E (nat * error).

(** The loop of [ExponentialBackoff]; the fuel bounds the iterations and
    [ExponentialBackoff] provides [Steps] of them, which is enough because
    [Step] lowers [Steps] each time. *)
Fixpoint backoff_loop (fuel : nat) (b : Backoff) (condition : prog E (bool * option error))
    : prog E (option error) :=
  match fuel with
  | O => Ret (Some ErrWaitTimeout)
  | S f =>
      if 0 <? Steps b then
        '(ok, err) ← condition;
        if negb (is_nil err) || ok then Ret err
        else if Steps b =? 1 then Ret (Some ErrWaitTimeout)
        else
          let '(d, b') := Step b in
          _ ← sleep d;
          backoff_loop f b' condition
      else Ret (Some ErrWaitTimeout)
  end.

Definition ExponentialBackoff (b : Backoff) (condition : prog E (bool * option error))
    : prog E (option error) :=
  backoff_loop (Z.to_nat (Steps b)) b condition.

(** The [for] loop of [loopConditionUntilContext] over the ticks to come. *)
Fixpoint poll_ticks (ticks : nat) (ctxErr : error) (condition : prog E (bool * option error))
    : prog E (option error) :=
  match ticks with
  | O => Ret (Some ctxErr)
  | S n =>
      '(ok, err) ← condition;
      if negb (is_nil err) || ok then Ret err else poll_ticks n ctxErr condition
  end.

Definition PollUntilContextTimeout (interval timeout : Z) (immediate : bool)
    (condition : prog E (bool * option error)) : prog E (option error) :=
  '(ticks, ctxErr) ← window interval timeout;
  if immediate then
    '(ok, err) ← condition;
    if negb (is_nil err) || ok then Ret err else poll_ticks ticks ctxErr condition
  else poll_ticks ticks ctxErr condition.

(** ** Rules *)

Implicit Types P : protocol E.

Lemma Step_Steps b d b' : Step b = (d, b') -> 0 < Steps b -> 0 <= Steps b' < Steps b.
Proof.
  unfold Step, delay. destruct (Steps b <? 1) eqn:E1; reflect_bools; [lia|].
  intros H Hs. repeat case_match; simplify_eq; simpl; lia.
Qed.

(** More fuel than [Steps] changes nothing. *)
Lemma backoff_loop_fuel f b cond :
  (Z.to_nat (Steps b) <= f)%nat -> backoff_loop f b cond ≡ ExponentialBackoff b cond.
Proof.
  unfold ExponentialBackoff. remember (Z.to_nat (Steps b)) as n eqn:Hn.
  revert f b Hn. induction n as [n IH] using lt_wf_ind. intros f b Hn Hf.
  destruct f as [|f]; [by replace n with 0%nat by lia|].
  destruct n as [|n].
  { simpl. destruct (0 <? Steps b) eqn:E0; reflect_bools; [lia|done]. }
  simpl. destruct (0 <? Steps b) eqn:E0; reflect_bools; [|done].
  apply bind_proper; [done|]. intros [ok err].
  destruct (_ || ok); [done|]. destruct (Steps b =? 1); [done|].
  destruct (Step b) as [d b'] eqn:Hstep. apply bind_proper; [done|]. intros _.
  apply Step_Steps in Hstep; [|done].
  rewrite (IH (Z.to_nat (Steps b'))) by lia.
  symmetry. apply IH; lia.
Qed.

(** Reasoning rule for the retry loop: [I] holds before each attempt; [Q]
    must allow giving up wherever [I] holds. *)
Lemma wp_backoff P (I : trace E -> Prop) (Q : trace E -> outcome (option error) -> Prop) b cond t :
  (forall t, I t -> Q t (Val (Some ErrWaitTimeout))) ->
  (forall t d, I t -> wp P (sleep d) t (fun t' o => match o with
     | Val _ => I t' | Panicked m => Q t' (Panicked m) end)) ->
  (forall t, I t -> wp P cond t (fun t' o => match o with
     | Val (ok, err) => if negb (is_nil err) || ok then Q t' (Val err) else I t'
     | Panicked m => Q t' (Panicked m) end)) ->
  I t -> wp P (ExponentialBackoff b cond) t Q.
Proof.
  intros HT Hs Hc. unfold ExponentialBackoff. generalize (Z.to_nat (Steps b)) as f.
  intros f. revert b t. induction f as [|f IH]; intros b t HI; simpl; [by apply HT|].
  destruct (0 <? Steps b); [|by apply HT].
  apply wp_bind. eapply wp_mono; [|by apply Hc].
  intros t' [[ok err]|m]; simpl; [|done].
  destruct (_ || ok); simpl; [done|]. intros HI'.
  destruct (Steps b =? 1); simpl; [by apply HT|].
  destruct (Step b) as [d b'].
  apply wp_bind. eapply wp_mono; [|by apply (Hs t' d)].
  intros t'' [[]|m]; simpl; [apply IH|done].
Qed.

Lemma wp_poll_ticks P (I : trace E -> Prop) (Q : trace E -> outcome (option error) -> Prop) n e cond t :
  (forall t, I t -> Q t (Val (Some e))) ->
  (forall t, I t -> wp P cond t (fun t' o => match o with
     | Val (ok, err) => if negb (is_nil err) || ok then Q t' (Val err) else I t'
     | Panicked m => Q t' (Panicked m) end)) ->
  I t -> wp P (poll_ticks n e cond) t Q.
Proof.
  intros HT Hc. revert t. induction n as [|n IH]; intros t HI; simpl; [by apply HT|].
  apply wp_bind. eapply wp_mono; [|by apply Hc].
  intros t' [[ok err]|m]; simpl; [|done].
  destruct (_ || ok); simpl; [done|]. apply IH.
Qed.

(** Reasoning rule for a poll: [I] holds before each check. *)
Lemma wp_poll P (I : trace E -> Prop) (Q : trace E -> outcome (option error) -> Prop)
    interval timeout cond t :
  wp P (window interval timeout) t (fun t' o => match o with
     | Val (n, e) => I t' /\ forall t, I t -> Q t (Val (Some e))
     | Panicked m => Q t' (Panicked m) end) ->
  (forall t, I t -> wp P cond t (fun t' o => match o with
     | Val (ok, err) => if negb (is_nil err) || ok then Q t' (Val err) else I t'
     | Panicked m => Q t' (Panicked m) end)) ->
  wp P (PollUntilContextTimeout interval timeout true cond) t Q.
Proof.
  intros Hw Hc. unfold PollUntilContextTimeout. apply wp_bind.
  eapply wp_mono; [|exact Hw]. intros t' [[n e]|m]; simpl; [|done]. intros [HI HT].
  apply wp_bind. eapply wp_mono; [|by apply Hc].
  intros t'' [[ok err]|m]; simpl; [|done].
  destruct (_ || ok); simpl; [done|]. intros HI'. by eapply wp_poll_ticks.
Qed.

(** What the retry loop amounts to: an attempt, then for each pause of the
    list a sleep and an attempt, until one says to stop. *)
Fixpoint retry (pauses : list Z) (condition : prog E (bool * option error)) : prog E (option error) :=
  '(ok, err) ← condition;
  if negb (is_nil err) || ok then Ret err
  else match pauses with
       | [] => Ret (Some ErrWaitTimeout)
       | d :: ds => _ ← sleep d; retry ds condition
       end.

(** The pauses of a backoff that never reaches its cap. *)
Fixpoint pauses (n : nat) (d factor : Z) : list Z :=
  match n with O => [] | S n' => d :: pauses n' (d * factor) factor end.

Lemma ExponentialBackoff_retry b cond :
  0 < Steps b -> 1 <= Factor b -> 0 <= Duration b ->
  Duration b * Factor b ^ (Steps b - 1) <= Cap b ->
  ExponentialBackoff b cond ≡ retry (pauses (Z.to_nat (Steps b - 1)) (Duration b) (Factor b)) cond.
Proof.
  unfold ExponentialBackoff. intros Hs Hf Hd Hcap.
  remember (Z.to_nat (Steps b)) as n eqn:Hn.
  revert b Hn Hs Hf Hd Hcap. induction n as [|n IH]; intros b Hn Hs Hf Hd Hcap; [lia|].
  cbn [backoff_loop]. destruct (0 <? Steps b) eqn:E0; reflect_bools; [|lia].
  replace (Z.to_nat (Steps b - 1)) with n by lia.
  destruct (Steps b =? 1) eqn:E1; reflect_bools.
  - replace n with 0%nat by lia. simpl. apply bind_proper; [done|]. intros [ok err]. by destruct (_ || ok).
  - destruct n as [|n]; [lia|]. cbn [pauses retry].
    apply bind_proper; [done|]. intros [ok err].
    destruct (_ || ok); [done|].
    destruct (Step b) as [d b'] eqn:Hstep. unfold Step, delay in Hstep.
    destruct (Steps b <? 1) eqn:E2; reflect_bools; [lia|].
    destruct (Factor b =? 0) eqn:E3; reflect_bools; [lia|]. simpl in Hstep.
    assert (Hpow : Factor b ^ (Steps b - 1) = Factor b * Factor b ^ (Steps b - 1 - 1)).
    { rewrite <- Z.pow_succ_r by lia. f_equal. lia. }
    pose proof (Z.pow_pos_nonneg (Factor b) (Steps b - 1 - 1)).
    destruct (_ && _) eqn:E4; simplify_eq; reflect_bools; [nia|].
    apply bind_proper; [done|]. intros _. rewrite IH; simpl; [|lia..|nia].
    by replace (Z.to_nat (Steps b - 1 - 1)) with n by lia.
Qed.
End Loops.

Arguments ExponentialBackoff {E} sleep b condition.
Arguments PollUntilContextTimeout {E} window interval timeout immediate condition.
Arguments retry {E} sleep pauses condition.
#[global] Arguments ExponentialBackoff : simpl never.
#[global] Arguments PollUntilContextTimeout : simpl never.

(** ** Loops call by call *)

Lemma only_poll {E : signature} (window : Z -> Z -> prog E (nat * error)) (P : op E -> Prop) interval timeout cond :
  only P (window interval timeout) -> only P cond -> only P (PollUntilContextTimeout window interval timeout true cond).
Proof.
  intros Hw Hc. apply only_bind; [done|]. intros [ticks e]. apply only_bind; [done|]. intros [ok err].
  destruct (_ || ok); [done|]. induction ticks as [|n IH]; simpl; [done|]. apply only_bind; [done|].
  intros [ok' err']. by destruct (_ || ok').
Qed.

Lemma only_backoff {E : signature} (sleep : Z -> prog E unit) (P : op E -> Prop) b cond :
  (forall d, only P (sleep d)) -> only P cond -> only P (ExponentialBackoff sleep b cond).
Proof.
  intros Hs Hc. unfold ExponentialBackoff. generalize (Z.to_nat (Steps b)) as f. intros f. revert b.
  induction f as [|f IH]; intros b; simpl; [done|]. destruct (0 <? Steps b)%Z; [|done]. apply only_bind; [done|].
  intros [ok err]. destruct (_ || ok); [done|]. destruct (Steps b =? 1)%Z; [done|]. destruct (Step b). by apply only_bind.
Qed.
