(* ===== verification/Objects.v ===== *)
(** * Kubernetes objects

    The fields the driver reads or writes of the API objects it handles
    (vendor/kubevirt.io/api, vendor/kubevirt.io/containerized-data-importer-api,
    vendor/k8s.io/api, the external-snapshotter client): a Go pointer is an
    [option], a Go map a [gmap], a Go slice a [list].  [Quantity] is
    vendor/k8s.io/apimachinery/pkg/api/resource. *)

From S2P Require Import Prelude GoStrings Errors.

(** ** resource.Quantity *)

(** The two representations: [QInt v s] is [v * 10^s] with [v] an [int64];
    [QDec u s] is the [inf.Dec] number [u * 10^(-s)]. *)
Inductive Quantity := QInt (value scale : Z) | QDec (unscaled scale : Z).

Definition NewQuantity (v : Z) : Quantity := QInt v 0.
Definition NewScaledQuantity (v scale : Z) : Quantity := QInt v scale.
Definition zeroQuantity : Quantity := QInt 0 0.

(** Mantissa and decimal exponent. *)
Definition mantissa (q : Quantity) : Z := match q with QInt v _ => v | QDec u _ => u end.
Definition exponent (q : Quantity) : Z := match q with QInt _ s => s | QDec _ s => - s end.

(** [Quantity.Cmp]: comparison of the numbers, whatever the representations. *)
Definition Cmp (x y : Quantity) : comparison :=
  let e := Z.min (exponent x) (exponent y) in
  Z.compare (mantissa x * 10 ^ (exponent x - e)) (mantissa y * 10 ^ (exponent y - e)).

(** Division that rounds away from zero. *)
Definition div_up (a b : Z) : Z :=
  if a <? 0 then - ((- a + b - 1) / b) else (a + b - 1) / b.

(** [Quantity.Value]: rounded up away from zero; a scaled [int64] that does not
    fit gives 0, a decimal keeps its low 64 bits. *)
Definition Value (q : Quantity) : Z :=
  match q with
  | QInt v s =>
      if s <? 0 then div_up v (10 ^ (- s))
      else let r := v * 10 ^ s in
           if (minInt64 <=? r) && (r <=? maxInt64) then r else 0
  | QDec u s => int64 (if 0 <=? s then div_up u (10 ^ s) else u * 10 ^ (- s))
  end.

Abbreviation ResourceList := (gmap string Quantity).
Definition ResourceStorage : string := "storage".

(** [rl[corev1.ResourceStorage]] and [rl.Storage()]. *)
Definition storage_of (rl : ResourceList) : Quantity := default zeroQuantity (rl !! ResourceStorage).

(** ** kubevirt.io *)

Record HotplugVolumeStatus := mkHotplugVolumeStatus { attachPodName : string }.

Record VolumeStatus := mkVolumeStatus {
  vs_Name : string;
  vs_Phase : string;
  vs_HotplugVolume : option HotplugVolumeStatus }.

Definition VolumeReady : string := "Ready".

Record VirtualMachineInstance := mkVMI {
  vmi_Name : string;
  vmi_Namespace : string;
  vmi_VolumeStatus : list VolumeStatus }.

(** [DataVolumeSource] of a VM volume (kubevirtv1). *)
Record VMDataVolumeSource := mkVMDataVolumeSource { vdv_Name : string; vdv_Hotpluggable : bool }.

Record Volume := mkVolume {
  vol_Name : string;
  vol_PersistentVolumeClaim : option string;
  vol_DataVolume : option VMDataVolumeSource }.

(** [VirtualMachineInstanceTemplateSpec], of which the driver reads
    [Spec.Volumes]. *)
Record Template := mkTemplate { tpl_Volumes : list Volume }.

Record VirtualMachine := mkVM {
  vm_Name : string;
  vm_Namespace : string;
  vm_Template : option Template }.

Record Disk := mkDisk { disk_Serial : string; disk_Bus : string }.

Record AddVolumeOptions := mkAddVolumeOptions {
  av_Name : string;
  av_Disk : Disk;
  av_DataVolume : string }.

Record RemoveVolumeOptions := mkRemoveVolumeOptions { rv_Name : string }.

(** ** cdi.kubevirt.io *)

Record NamedRef := mkNamedRef { nr_Name : string; nr_Namespace : string }.

Record DataVolumeSource := mkDataVolumeSource {
  src_PVC : option NamedRef;
  src_Snapshot : option NamedRef;
  src_Blank : bool }.

Record TypedObjectReference := mkTypedObjectReference { ref_Kind : string; ref_Name : string }.

Record StorageSpec := mkStorageSpec {
  st_Requests : ResourceList;
  st_AccessModes : list string;
  st_StorageClassName : option string;
  st_DataSourceRef : option TypedObjectReference }.

Definition ReadWriteMany : string := "ReadWriteMany".

Record DataVolume := mkDataVolume {
  dv_Name : string;
  dv_Namespace : string;
  dv_UID : string;
  dv_Labels : gmap string string;
  dv_Annotations : gmap string string;
  dv_Storage : option StorageSpec;
  dv_Source : option DataVolumeSource }.

(** ** core/v1 *)

Record PersistentVolumeClaim := mkPVC {
  pvc_Name : string;
  pvc_Namespace : string;
  pvc_Labels : gmap string string;
  pvc_VolumeName : string;
  pvc_Requests : ResourceList;
  pvc_StorageClassName : option string }.

Record PersistentVolume := mkPV { pv_Name : string; pv_Namespace : string; pv_Capacity : ResourceList }.

(** ** snapshot.storage.k8s.io *)

Record VolumeSnapshotStatus := mkVolumeSnapshotStatus {
  ss_ReadyToUse : option bool;
  ss_RestoreSize : option Quantity }.

Record VolumeSnapshot := mkVolumeSnapshot {
  snap_Name : string;
  snap_Namespace : string;
  snap_Labels : gmap string string;
  snap_CreationTimestamp : Z;
  snap_PersistentVolumeClaimName : option string;
  snap_VolumeSnapshotClassName : option string;
  snap_Status : option VolumeSnapshotStatus }.

Record VolumeSnapshotClass := mkVolumeSnapshotClass {
  vsc_Name : string;
  vsc_Namespace : string;
  vsc_Parameters : gmap string string }.

(** ** Zero values: what [&T{}] is before a response is decoded into it *)

Definition zeroVM : VirtualMachine := mkVM "" "" None.
Definition zeroVMI : VirtualMachineInstance := mkVMI "" "" [].
Definition zeroDataVolume : DataVolume := mkDataVolume "" "" "" ∅ ∅ None None.
Definition zeroPVC : PersistentVolumeClaim := mkPVC "" "" ∅ "" ∅ None.
Definition zeroPV : PersistentVolume := mkPV "" "" ∅.
Definition zeroVolumeSnapshot : VolumeSnapshot := mkVolumeSnapshot "" "" ∅ 0 None None None.

(** ** Lemmas on quantities *)

Lemma Cmp_refl q : Cmp q q = Eq.
Proof. apply Z.compare_refl. Qed.

Lemma Cmp_antisym x y : Cmp y x = CompOpp (Cmp x y).
Proof. unfold Cmp. rewrite (Z.min_comm (exponent y)). apply Z.compare_antisym. Qed.

Lemma Cmp_NewQuantity a b : Cmp (NewQuantity a) (NewQuantity b) = Z.compare a b.
Proof. unfold Cmp. simpl. by rewrite !Z.mul_1_r. Qed.

(** A quantity equals at most one integer. *)
Lemma Cmp_NewQuantity_inj a b q : Cmp (NewQuantity a) q = Eq -> Cmp (NewQuantity b) q = Eq -> a = b.
Proof.
  unfold Cmp. simpl. rewrite !Z.compare_eq_iff. intros Ha Hb. rewrite <- Hb in Ha.
  apply Z.mul_reg_r in Ha; [done|]. apply Z.pow_nonzero; lia.
Qed.

Lemma NewScaledQuantity_0 v : NewScaledQuantity v 0 = NewQuantity v.
Proof. done. Qed.

Lemma Cmp_Scaled_0 a b : Cmp (NewScaledQuantity a 0) (NewScaledQuantity b 0) = Z.compare a b.
Proof. apply Cmp_NewQuantity. Qed.

Lemma Value_NewQuantity v : is_int64 v -> Value (NewQuantity v) = v.
Proof.
  unfold is_int64. intros H. simpl. rewrite Z.mul_1_r.
  destruct (_ && _) eqn:E; [done|]. apply andb_false_iff in E as [E|E]; reflect_bools; lia.
Qed.
#[export] Hint Rewrite Cmp_refl Cmp_NewQuantity Cmp_Scaled_0 : go.
