(* ===== verification/Csi.v ===== *)
(** * CSI messages

    The requests and responses of the Container Storage Interface
    (vendor/github.com/container-storage-interface/spec/lib/go/csi) the services
    use, and their getters, which return the zero value on a nil message.  A
    request a handler receives is an [option]: gRPC passes a pointer. *)

From S2P Require Import Prelude.

Inductive AccessMode_Mode :=
| UNKNOWN | SINGLE_NODE_WRITER | SINGLE_NODE_READER_ONLY | MULTI_NODE_READER_ONLY
| MULTI_NODE_SINGLE_WRITER | MULTI_NODE_MULTI_WRITER | SINGLE_NODE_SINGLE_WRITER
| SINGLE_NODE_MULTI_WRITER
| OtherMode (n : Z).  (* proto3 enums are open *)

#[global] Instance AccessMode_eq_dec : EqDecision AccessMode_Mode.
Proof. solve_decision. Defined.

Record MountVolume := mkMountVolume { mv_FsType : string; mv_MountFlags : list string }.

Inductive AccessType := AccessBlock | AccessMount (m : MountVolume).

Record VolumeCapability := mkVolumeCapability {
  vc_AccessType : option AccessType;
  vc_AccessMode : option AccessMode_Mode }.

(** Getters of a possibly nil [*VolumeCapability]. *)
Definition GetBlock (c : option VolumeCapability) : bool :=
  match c with Some (mkVolumeCapability (Some AccessBlock) _) => true | _ => false end.

Definition GetMount (c : option VolumeCapability) : option MountVolume :=
  match c with Some (mkVolumeCapability (Some (AccessMount m)) _) => Some m | _ => None end.

Definition GetAccessMode (c : option VolumeCapability) : option AccessMode_Mode :=
  match c with Some vc => vc_AccessMode vc | None => None end.

(** [am.GetMode()] of a possibly nil [*VolumeCapability_AccessMode]. *)
Definition GetMode (am : option AccessMode_Mode) : AccessMode_Mode := default UNKNOWN am.

Record CapacityRange := mkCapacityRange { RequiredBytes : Z; LimitBytes : Z }.

Definition GetRequiredBytes (c : option CapacityRange) : Z :=
  match c with Some r => RequiredBytes r | None => 0 end.

(** The oneof of [VolumeContentSource]; the inner message is a pointer. *)
Inductive ContentSourceType :=
| SourceSnapshot (snapshotId : option string)
| SourceVolume (volumeId : option string).

Record VolumeContentSource := mkVolumeContentSource { cs_Type : option ContentSourceType }.

Record CreateVolumeRequest := mkCreateVolumeRequest {
  cv_Name : string;
  cv_CapacityRange : option CapacityRange;
  cv_VolumeCapabilities : option (list (option VolumeCapability));  (* nil slice: None *)
  cv_Parameters : gmap string string;
  cv_VolumeContentSource : option VolumeContentSource }.

Record CsiVolume := mkCsiVolume {
  v_CapacityBytes : Z;
  v_VolumeId : string;
  v_VolumeContext : gmap string string;
  v_ContentSource : option VolumeContentSource }.

Record CreateVolumeResponse := mkCreateVolumeResponse { cvr_Volume : CsiVolume }.

Record DeleteVolumeRequest := mkDeleteVolumeRequest { delv_VolumeId : string }.
Record DeleteVolumeResponse := mkDeleteVolumeResponse {}.

Record ControllerPublishVolumeRequest := mkControllerPublishVolumeRequest {
  cp_VolumeId : string;
  cp_NodeId : string;
  cp_VolumeCapability : option VolumeCapability;
  cp_Readonly : bool;
  cp_VolumeContext : gmap string string }.
Record ControllerPublishVolumeResponse := mkControllerPublishVolumeResponse {}.

Record ControllerUnpublishVolumeRequest := mkControllerUnpublishVolumeRequest {
  cu_VolumeId : string;
  cu_NodeId : string }.
Record ControllerUnpublishVolumeResponse := mkControllerUnpublishVolumeResponse {}.

Record ValidateVolumeCapabilitiesRequest := mkValidateVolumeCapabilitiesRequest {
  vv_VolumeId : string;
  vv_VolumeContext : gmap string string;
  vv_VolumeCapabilities : list (option VolumeCapability);
  vv_Parameters : gmap string string }.
Record ValidateVolumeCapabilitiesResponse := mkValidateVolumeCapabilitiesResponse {
  vvr_VolumeContext : gmap string string;
  vvr_VolumeCapabilities : list (option VolumeCapability);
  vvr_Parameters : gmap string string }.

Record CreateSnapshotRequest := mkCreateSnapshotRequest {
  crs_SourceVolumeId : string;
  crs_Name : string;
  crs_Parameters : gmap string string }.

Record CsiSnapshot := mkCsiSnapshot {
  sn_SizeBytes : Z;
  sn_SnapshotId : string;
  sn_SourceVolumeId : string;
  sn_CreationTime : Z;
  sn_ReadyToUse : bool }.

Record CreateSnapshotResponse := mkCreateSnapshotResponse { csr_Snapshot : CsiSnapshot }.

Record DeleteSnapshotRequest := mkDeleteSnapshotRequest { ds_SnapshotId : string }.
Record DeleteSnapshotResponse := mkDeleteSnapshotResponse {}.

Record ListSnapshotsRequest := mkListSnapshotsRequest {
  ls_MaxEntries : Z;  (* int32 *)
  ls_StartingToken : string;
  ls_SourceVolumeId : string;
  ls_SnapshotId : string }.

Record ListSnapshotsResponse := mkListSnapshotsResponse {
  lsr_Entries : list CsiSnapshot;
  lsr_NextToken : string }.

Record ControllerExpandVolumeRequest := mkControllerExpandVolumeRequest {
  ce_VolumeId : string;
  ce_CapacityRange : option CapacityRange;
  ce_VolumeCapability : option VolumeCapability }.
Record ControllerExpandVolumeResponse := mkControllerExpandVolumeResponse {
  cer_CapacityBytes : Z;
  cer_NodeExpansionRequired : bool }.

Inductive ControllerServiceCapability_RPC_Type :=
| CREATE_DELETE_VOLUME | PUBLISH_UNPUBLISH_VOLUME | CREATE_DELETE_SNAPSHOT | LIST_SNAPSHOTS
| CLONE_VOLUME | EXPAND_VOLUME.

(** ** Messages of the node service *)

Record NodeStageVolumeRequest := mkNodeStageVolumeRequest {
  ns_VolumeId : string;
  ns_StagingTargetPath : string;
  ns_VolumeCapability : option VolumeCapability;
  ns_VolumeContext : gmap string string }.
Record NodeStageVolumeResponse := mkNodeStageVolumeResponse {}.

Record NodeUnstageVolumeRequest := mkNodeUnstageVolumeRequest {
  nu_VolumeId : string;
  nu_StagingTargetPath : string }.
Record NodeUnstageVolumeResponse := mkNodeUnstageVolumeResponse {}.

Record NodePublishVolumeRequest := mkNodePublishVolumeRequest {
  np_VolumeId : string;
  np_TargetPath : string;
  np_VolumeCapability : option VolumeCapability;
  np_Readonly : bool;
  np_VolumeContext : gmap string string }.
Record NodePublishVolumeResponse := mkNodePublishVolumeResponse {}.

Record NodeUnpublishVolumeRequest := mkNodeUnpublishVolumeRequest {
  nup_VolumeId : string;
  nup_TargetPath : string }.
Record NodeUnpublishVolumeResponse := mkNodeUnpublishVolumeResponse {}.

Record NodeGetVolumeStatsRequest := mkNodeGetVolumeStatsRequest {
  nst_VolumeId : string;
  nst_VolumePath : string }.

Inductive VolumeUsage_Unit := UNKNOWN_UNIT | BYTES | INODES.
Record VolumeUsage := mkVolumeUsage {
  vu_Unit : VolumeUsage_Unit; vu_Available : Z; vu_Total : Z; vu_Used : Z }.
Record NodeGetVolumeStatsResponse := mkNodeGetVolumeStatsResponse { nsr_Usage : list VolumeUsage }.

Record NodeExpandVolumeRequest := mkNodeExpandVolumeRequest {
  ne_VolumeId : string;
  ne_VolumePath : string;
  ne_CapacityRange : option CapacityRange;
  ne_VolumeCapability : option VolumeCapability }.
Record NodeExpandVolumeResponse := mkNodeExpandVolumeResponse {}.

Record NodeGetInfoResponse := mkNodeGetInfoResponse { ngi_NodeId : string }.

Inductive NodeServiceCapability_RPC_Type := STAGE_UNSTAGE_VOLUME | NODE_EXPAND_VOLUME | GET_VOLUME_STATS.

Inductive PluginCapability := CONTROLLER_SERVICE | ONLINE_EXPANSION | OFFLINE_EXPANSION.
