(* ===== verification/Util.v ===== *)
(** * pkg/util: the storage class policy

    [StorageClassEnforcement], [StorageSnapshotMapping] and [Contains] of
    pkg/util/util.go. *)

From S2P Require Import Prelude.

Record StorageSnapshotMapping := mkStorageSnapshotMapping {
  VolumeSnapshotClasses : list string;
  StorageClasses : list string }.

Record StorageClassEnforcement := mkStorageClassEnforcement {
  AllowList : list string;
  AllowAll : bool;
  AllowDefault : bool;
  StorageSnapshotMappings : list StorageSnapshotMapping }.

(** [Contains] tells whether [arr] contains [val]. *)
Fixpoint Contains (arr : list string) (val : string) : bool :=
  match arr with
  | [] => false
  | itrVal :: arr' => if val =s? itrVal then true else Contains arr' val
  end.

Lemma Contains_spec arr val : Contains arr val = true <-> val ∈ arr.
Proof.
  induction arr as [|x arr IH]; simpl.
  - by rewrite elem_of_nil.
  - rewrite elem_of_cons. destruct (val =s? x) eqn:E; reflect_bools; naive_solver.
Qed.

Lemma Contains_false arr val : Contains arr val = false <-> val ∉ arr.
Proof. rewrite <- Contains_spec. by destruct (Contains arr val). Qed.

Ltac reflect_contains :=
  repeat match goal with
  | H : Contains _ _ = true |- _ => apply Contains_spec in H
  | H : Contains _ _ = false |- _ => apply Contains_false in H
  end.
