(* ===== verification/ClientAPI.v ===== *)
(** * The [Client] interface

    The interface between the controller service and the infra cluster:
    [type Client interface] of pkg/kubevirt/client.go, one operation per
    method, and the [time.Sleep] of the controller's retry loops.  A result
    [(T, error)] is a pair whose first part is an [option] when [T] is a
    pointer: Go lets a method return both. *)

From S2P Require Import Prelude GoStrings Errors Effects Objects Wait.

(** A Go [(value, error)] result; [None] is the nil error. *)
Abbreviation result T := (T * option error)%type.

Module Client.
Inductive method : Type :=
| Ping
| ListVirtualMachines (namespace : string)
| GetVirtualMachine (namespace name : string)
| GetWorkloadManagingVirtualMachine (namespace name : string)
| DeleteDataVolume (namespace name : string)
| CreateDataVolume (namespace : string) (dataVolume : DataVolume)
| GetDataVolume (namespace name : string)
| GetPersistentVolumeClaim (namespace claimName : string)
| ExpandPersistentVolumeClaim (namespace claimName : string) (size : Z)
| AddVolumeToVM (namespace vmName : string) (hotPlugRequest : AddVolumeOptions)
| RemoveVolumeFromVM (namespace vmName : string) (hotPlugRequest : RemoveVolumeOptions)
| RemoveVolumeFromVMI (namespace vmName : string) (hotPlugRequest : RemoveVolumeOptions)
| EnsureVolumeAvailable (namespace vmName volumeName : string) (timeout : Z)
| EnsureVolumeAvailableVM (namespace name volumeName : string)
| EnsureVolumeRemoved (namespace vmName volumeName : string) (timeout : Z)
| EnsureVolumeRemovedVM (namespace name volumeName : string)
| EnsureVolumeRemovedVMI (namespace name volumeName : string)
| EnsureSnapshotReady (namespace name : string) (timeout : Z)
| EnsureControllerResize (namespace claimName : string) (timeout : Z)
| CreateVolumeSnapshot (namespace name claimName snapshotClassName : string)
| GetVolumeSnapshot (namespace name : string)
| DeleteVolumeSnapshot (namespace name : string)
| ListVolumeSnapshots (namespace : string)
| Sleep (d : Z).

Definition answer (m : method) : Type :=
  match m with
  | Ping | DeleteDataVolume _ _ | ExpandPersistentVolumeClaim _ _ _ | AddVolumeToVM _ _ _
  | RemoveVolumeFromVM _ _ _ | RemoveVolumeFromVMI _ _ _ | EnsureVolumeAvailable _ _ _ _
  | EnsureVolumeRemoved _ _ _ _ | EnsureSnapshotReady _ _ _ | EnsureControllerResize _ _ _
  | DeleteVolumeSnapshot _ _ => option error
  | ListVirtualMachines _ => result (list VirtualMachineInstance)
  | GetVirtualMachine _ _ => result (option VirtualMachineInstance)
  | GetWorkloadManagingVirtualMachine _ _ => result (option VirtualMachine)
  | CreateDataVolume _ _ | GetDataVolume _ _ => result (option DataVolume)
  | GetPersistentVolumeClaim _ _ => result (option PersistentVolumeClaim)
  | EnsureVolumeAvailableVM _ _ _ | EnsureVolumeRemovedVM _ _ _
  | EnsureVolumeRemovedVMI _ _ _ => result bool
  | CreateVolumeSnapshot _ _ _ _ | GetVolumeSnapshot _ _ => result (option VolumeSnapshot)
  | ListVolumeSnapshots _ => result (option (list VolumeSnapshot))
  | Sleep _ => unit
  end.
End Client.

(** Programs of the controller service. *)
Definition clientE : signature := Signature Client.method Client.answer.

(** The methods that change the infra cluster. *)
Definition is_write (m : Client.method) : bool :=
  match m with
  | Client.DeleteDataVolume _ _ | Client.CreateDataVolume _ _ | Client.ExpandPersistentVolumeClaim _ _ _
  | Client.AddVolumeToVM _ _ _ | Client.RemoveVolumeFromVM _ _ _ | Client.RemoveVolumeFromVMI _ _ _
  | Client.CreateVolumeSnapshot _ _ _ _ | Client.DeleteVolumeSnapshot _ _ => true
  | _ => false
  end.

(** [time.Sleep] in the controller. *)
Definition client_sleep (d : Z) : prog clientE unit := call (E := clientE) (Client.Sleep d).

(** [invoke m] calls the method [m] of the client. *)
Definition invoke (m : Client.method) : prog clientE (Client.answer m) := call (E := clientE) m.

Lemma wp_invoke (P : protocol clientE) m t Q :
  pre P t m -> (forall r, post P t m r -> Q (t ++ [Ev (E := clientE) m r]) (Val r)) ->
  wp P (invoke m) t Q.
Proof. done. Qed.

(** ** Reading a trace *)

(** The client was asked [m] and answered [r]. *)
Definition answered (m : Client.method) (r : Client.answer m) (t : trace clientE) : Prop :=
  Ev (E := clientE) m r ∈ t.

(** The last call was [m], answered [r]. *)
Definition just_answered (m : Client.method) (r : Client.answer m) (t : trace clientE) : Prop :=
  last t = Some (Ev (E := clientE) m r).

Definition calls (p : Client.method -> bool) (t : trace clientE) : nat :=
  length (filter (fun e : event clientE => p (ev_op e)) t).

Lemma just_answered_snoc m r t : just_answered m r (t ++ [Ev (E := clientE) m r]).
Proof. apply last_snoc. Qed.

Lemma answered_snoc m r t : answered m r (t ++ [Ev (E := clientE) m r]).
Proof. unfold answered. set_solver. Qed.

Lemma answered_app m r t e : answered m r t -> answered m r (t ++ [e]).
Proof. unfold answered. set_solver. Qed.

Lemma just_answered_answered m r t : just_answered m r t -> answered m r t.
Proof. unfold just_answered, answered. intros H. apply last_Some in H as [l ->]. set_solver. Qed.

Lemma calls_snoc (p : Client.method -> bool) (t : trace clientE) (e : event clientE) : calls p (t ++ [e]) = (calls p t + (if p (ev_op e) then 1 else 0))%nat.
Proof. unfold calls. rewrite filter_app, length_app, filter_cons, filter_nil. by destruct (p (ev_op e)). Qed.

#[export] Hint Resolve just_answered_snoc answered_snoc answered_app : go.
#[export] Hint Unfold answered : go.

(** Number of changes asked of the infra cluster, and total time slept. *)
Definition writes (t : trace clientE) : nat := calls is_write t.

Definition slept (t : trace clientE) : Z :=
  foldr (fun (e : event clientE) n => match ev_op e : Client.method with Client.Sleep d => d + n | _ => n end) 0 t.

Lemma slept_app t1 t2 : slept (t1 ++ t2) = slept t1 + slept t2.
Proof.
  unfold slept. induction t1 as [|e t1 IH]; simpl; [done|]. rewrite IH.
  destruct (ev_op e : Client.method); lia.
Qed.

Lemma writes_snoc (t : trace clientE) (e : event clientE) :
  writes (t ++ [e]) = (writes t + (if is_write (ev_op e) then 1 else 0))%nat.
Proof. apply calls_snoc. Qed.

(** A retry loop whose attempts write at most once and do not sleep writes at
    most once per attempt and sleeps at most its pauses. *)
Lemma wp_retry_bounds (P : protocol clientE) pauses cond t :
  (forall t, wp P cond t (fun t' _ => (writes t' <= writes t + 1)%nat /\ slept t' = slept t)) ->
  (forall t d, pre P t (Client.Sleep d)) ->
  Forall (fun d => 0 <= d) pauses ->
  wp P (retry client_sleep pauses cond) t (fun t' _ =>
    (writes t' <= writes t + S (length pauses))%nat /\ slept t <= slept t' <= slept t + foldr Z.add 0 pauses).
Proof.
  intros Hc Hs Hd. revert t. induction Hd as [|d ds Hd Hds IH]; intros t; simpl;
    apply wp_bind; (eapply wp_mono; [|apply Hc]); intros t' [[ok err]|m] [Hw Hsl]; simpl.
  - destruct (_ || ok); simpl; split; lia.
  - split; lia.
  - destruct (_ || ok); simpl.
    + split; [lia|]. assert (0 <= foldr Z.add 0 ds) by (clear -Hds; induction Hds; simpl; lia). lia.
    + split; [apply Hs|]. intros [] _. eapply wp_mono; [|apply IH].
      intros t'' o [H1 H2]. rewrite writes_snoc in H1. rewrite slept_app in H2. simpl in H1, H2.
      split; lia.
  - split; [lia|]. assert (0 <= foldr Z.add 0 ds) by (clear -Hds; induction Hds; simpl; lia). lia.
Qed.

(** Controlled reduction of a program of the controller under [wp], and the
    step over one call whose answer is named by a pattern. *)
Ltac psimpl := cbn [bind wp wp_then pre post guard any is_nil negb deref call invoke client_sleep orb andb
                    is_write fst snd] in *.
Ltac xsimpl := cbn [bind exec is_nil negb deref call invoke client_sleep orb andb run_out run_world run_trace fst snd] in *.
Tactic Notation "wp_call" simple_intropattern(p) := split; [try done|intros p _]; psimpl.
Ltac wp_case x := destruct x; psimpl; try done.

(** ** What the controller expects of its client

    Go conventions the controller relies on when it dereferences an answer: a
    nil error comes with a non-nil object, a VM has a template, a snapshot has
    the name of its claim. *)
Class ClientContract (P : protocol clientE) : Prop := {
  contract_pre t m : pre P t m;
  contract_vm t ns name vm :
    post P t (Client.GetWorkloadManagingVirtualMachine ns name) (vm, None) ->
    exists v template, vm = Some v /\ vm_Template v = Some template;
  contract_vmi t ns name vmi :
    post P t (Client.GetVirtualMachine ns name) (vmi, None) -> is_Some vmi;
  contract_create t ns d dv :
    post P t (Client.CreateDataVolume ns d) (dv, None) -> is_Some dv;
  contract_snapshot t ns name s :
    post P t (Client.GetVolumeSnapshot ns name) (s, None) ->
    exists v, s = Some v /\ is_Some (snap_PersistentVolumeClaimName v);
  contract_create_snapshot t ns name claim class s :
    post P t (Client.CreateVolumeSnapshot ns name claim class) (s, None) -> is_Some s;
}.

(** And one more, of the detach path only: the failed lookup of a VM gives a nil
    VM. *)
Class MissingVMIsNil (P : protocol clientE) : Prop :=
  missing_vm t ns name vm e :
    post P t (Client.GetWorkloadManagingVirtualMachine ns name) (vm, Some e) -> vm = None.

(** A function that ends without a panic. *)
Definition no_panic {A} (_ : trace clientE) (o : outcome A) : Prop := exists a, o = Val a.

(** The protocol that the contract describes, and no more. *)
Definition contract_answer (m : Client.method) : Client.answer m -> Prop :=
  match m return Client.answer m -> Prop with
  | Client.GetWorkloadManagingVirtualMachine _ _ => fun r => r.2 = None ->
      exists v template, r.1 = Some v /\ vm_Template v = Some template
  | Client.GetVirtualMachine _ _ => fun r => r.2 = None -> is_Some r.1
  | Client.CreateDataVolume _ _ => fun r => r.2 = None -> is_Some r.1
  | Client.GetVolumeSnapshot _ _ => fun r => r.2 = None ->
      exists v, r.1 = Some v /\ is_Some (snap_PersistentVolumeClaimName v)
  | Client.CreateVolumeSnapshot _ _ _ _ => fun r => r.2 = None -> is_Some r.1
  | _ => fun _ => True
  end.

Definition contractual : protocol clientE := @Protocol clientE (fun _ _ => True) (fun _ => contract_answer).

#[export] Instance contractual_contract : ClientContract contractual.
Proof. split; simpl; intros; try done; by eauto. Qed.

(** The same with nil for a missing VM. *)
Definition missing_nil (m : Client.method) : Client.answer m -> Prop :=
  match m return Client.answer m -> Prop with
  | Client.GetWorkloadManagingVirtualMachine _ _ => fun r => r.2 <> None -> r.1 = None
  | _ => fun _ => True
  end.

Definition contractual_nil : protocol clientE :=
  @Protocol clientE (fun _ _ => True) (fun _ m r => contract_answer m r /\ missing_nil m r).

#[export] Instance contractual_nil_contract : ClientContract contractual_nil.
Proof. split; simpl; try done; intros; destruct_and!; by eauto. Qed.

#[export] Instance contractual_nil_missing : MissingVMIsNil contractual_nil.
Proof. intros t ns name vm e [_ H]. by apply H. Qed.
