(* ===== verification/Bindata.v ===== *)
(** * The asset library

    The functions of pkg/generated/bindata.go, which go-bindata generated around
    the texts of AssetData.v: the table of the assets by name, the tree of their
    directories, and what restores them as files.  Nothing in the repository calls
    them.  Package os and the order in which Go goes through a map are the
    environment.  A [func() ( *asset, error)] that makes no calls is its result. *)

From S2P Require Import Prelude GoStrings Json Filepath AssetData Errors Effects ClientAPI.

Local Open Scope string_scope.
Local Open Scope list_scope.

(** [time.Unix(sec, nsec)] *)
Inductive Time := Unix (sec nsec : Z).

(** Modes are [uint32]. *)
Record bindataFileInfo := mkbindataFileInfo { name : string; size : Z; mode : Z; modTime : Time }.

Definition ModeDir : Z := 2 ^ 31.

Module bindataFileInfo.
Definition Name (fi : bindataFileInfo) : string := name fi.
Definition Size (fi : bindataFileInfo) : Z := size fi.
Definition Mode (fi : bindataFileInfo) : Z := mode fi.
Definition ModTime (fi : bindataFileInfo) : Time := modTime fi.
Definition IsDir (fi : bindataFileInfo) : bool := negb (Z.land (mode fi) ModeDir =? 0)%Z.
Definition Sys (fi : bindataFileInfo) : option unit := None.
End bindataFileInfo.

Record asset := mkasset { bytes : string; info : bindataFileInfo }.

Abbreviation generator := (result (option asset)).

(** The body of the generated functions. *)
Definition load (bytes : result string) (name : string) : generator :=
  let '(bytes, err) := bytes in
  if negb (is_nil err) then (None, err)
  else (Some (mkasset bytes (mkbindataFileInfo name 0 0 (Unix 0 0))), None).

Definition deployControllerInfraBaseDeployYamlBytes : result string := (_deployControllerInfraBaseDeployYaml, None).
Definition deployControllerInfraBaseDeployYaml : generator := load deployControllerInfraBaseDeployYamlBytes "deploy/controller-infra/base/deploy.yaml".
Definition deployControllerInfraBaseKustomizationYamlBytes : result string := (_deployControllerInfraBaseKustomizationYaml, None).
Definition deployControllerInfraBaseKustomizationYaml : generator := load deployControllerInfraBaseKustomizationYamlBytes "deploy/controller-infra/base/kustomization.yaml".
Definition deployControllerInfraDevOverlayControllerYamlBytes : result string := (_deployControllerInfraDevOverlayControllerYaml, None).
Definition deployControllerInfraDevOverlayControllerYaml : generator := load deployControllerInfraDevOverlayControllerYamlBytes "deploy/controller-infra/dev-overlay/controller.yaml".
Definition deployControllerInfraDevOverlayInfraNamespaceConfigmapYamlBytes : result string := (_deployControllerInfraDevOverlayInfraNamespaceConfigmapYaml, None).
Definition deployControllerInfraDevOverlayInfraNamespaceConfigmapYaml : generator := load deployControllerInfraDevOverlayInfraNamespaceConfigmapYamlBytes "deploy/controller-infra/dev-overlay/infra-namespace-configmap.yaml".
Definition deployControllerInfraDevOverlayKustomizationYamlBytes : result string := (_deployControllerInfraDevOverlayKustomizationYaml, None).
Definition deployControllerInfraDevOverlayKustomizationYaml : generator := load deployControllerInfraDevOverlayKustomizationYamlBytes "deploy/controller-infra/dev-overlay/kustomization.yaml".
Definition deployControllerTenantBaseDeployYamlBytes : result string := (_deployControllerTenantBaseDeployYaml, None).
Definition deployControllerTenantBaseDeployYaml : generator := load deployControllerTenantBaseDeployYamlBytes "deploy/controller-tenant/base/deploy.yaml".
Definition deployControllerTenantBaseKustomizationYamlBytes : result string := (_deployControllerTenantBaseKustomizationYaml, None).
Definition deployControllerTenantBaseKustomizationYaml : generator := load deployControllerTenantBaseKustomizationYamlBytes "deploy/controller-tenant/base/kustomization.yaml".
Definition deployControllerTenantDevOverlayControllerYamlBytes : result string := (_deployControllerTenantDevOverlayControllerYaml, None).
Definition deployControllerTenantDevOverlayControllerYaml : generator := load deployControllerTenantDevOverlayControllerYamlBytes "deploy/controller-tenant/dev-overlay/controller.yaml".
Definition deployControllerTenantDevOverlayKustomizationYamlBytes : result string := (_deployControllerTenantDevOverlayKustomizationYaml, None).
Definition deployControllerTenantDevOverlayKustomizationYaml : generator := load deployControllerTenantDevOverlayKustomizationYamlBytes "deploy/controller-tenant/dev-overlay/kustomization.yaml".
Definition deployExampleInfraclusterKubeconfigYamlBytes : result string := (_deployExampleInfraclusterKubeconfigYaml, None).
Definition deployExampleInfraclusterKubeconfigYaml : generator := load deployExampleInfraclusterKubeconfigYamlBytes "deploy/example/infracluster-kubeconfig.yaml".
Definition deployExampleKubevirtConfigYamlBytes : result string := (_deployExampleKubevirtConfigYaml, None).
Definition deployExampleKubevirtConfigYaml : generator := load deployExampleKubevirtConfigYamlBytes "deploy/example/kubevirt-config.yaml".
Definition deployExampleKubevirtYamlBytes : result string := (_deployExampleKubevirtYaml, None).
Definition deployExampleKubevirtYaml : generator := load deployExampleKubevirtYamlBytes "deploy/example/kubevirt.yaml".
Definition deployExampleStorageClaimYamlBytes : result string := (_deployExampleStorageClaimYaml, None).
Definition deployExampleStorageClaimYaml : generator := load deployExampleStorageClaimYamlBytes "deploy/example/storage-claim.yaml".
Definition deployExampleStorageclassYamlBytes : result string := (_deployExampleStorageclassYaml, None).
Definition deployExampleStorageclassYaml : generator := load deployExampleStorageclassYamlBytes "deploy/example/storageclass.yaml".
Definition deployExampleTestPodYamlBytes : result string := (_deployExampleTestPodYaml, None).
Definition deployExampleTestPodYaml : generator := load deployExampleTestPodYamlBytes "deploy/example/test-pod.yaml".
Definition deployInfraClusterServiceAccountYamlBytes : result string := (_deployInfraClusterServiceAccountYaml, None).
Definition deployInfraClusterServiceAccountYaml : generator := load deployInfraClusterServiceAccountYamlBytes "deploy/infra-cluster-service-account.yaml".
Definition deployTenantBaseDeployYamlBytes : result string := (_deployTenantBaseDeployYaml, None).
Definition deployTenantBaseDeployYaml : generator := load deployTenantBaseDeployYamlBytes "deploy/tenant/base/deploy.yaml".
Definition deployTenantBaseKustomizationYamlBytes : result string := (_deployTenantBaseKustomizationYaml, None).
Definition deployTenantBaseKustomizationYaml : generator := load deployTenantBaseKustomizationYamlBytes "deploy/tenant/base/kustomization.yaml".
Definition deployTenantBaseRbacSnapshotControllerYamlBytes : result string := (_deployTenantBaseRbacSnapshotControllerYaml, None).
Definition deployTenantBaseRbacSnapshotControllerYaml : generator := load deployTenantBaseRbacSnapshotControllerYamlBytes "deploy/tenant/base/rbac-snapshot-controller.yaml".
Definition deployTenantBaseSetupSnapshotControllerYamlBytes : result string := (_deployTenantBaseSetupSnapshotControllerYaml, None).
Definition deployTenantBaseSetupSnapshotControllerYaml : generator := load deployTenantBaseSetupSnapshotControllerYamlBytes "deploy/tenant/base/setup-snapshot-controller.yaml".
Definition deployTenantBaseSnapshotStorageK8sIo_volumesnapshotclassesYamlBytes : result string := (_deployTenantBaseSnapshotStorageK8sIo_volumesnapshotclassesYaml, None).
Definition deployTenantBaseSnapshotStorageK8sIo_volumesnapshotclassesYaml : generator := load deployTenantBaseSnapshotStorageK8sIo_volumesnapshotclassesYamlBytes "deploy/tenant/base/snapshot.storage.k8s.io_volumesnapshotclasses.yaml".
Definition deployTenantBaseSnapshotStorageK8sIo_volumesnapshotcontentsYamlBytes : result string := (_deployTenantBaseSnapshotStorageK8sIo_volumesnapshotcontentsYaml, None).
Definition deployTenantBaseSnapshotStorageK8sIo_volumesnapshotcontentsYaml : generator := load deployTenantBaseSnapshotStorageK8sIo_volumesnapshotcontentsYamlBytes "deploy/tenant/base/snapshot.storage.k8s.io_volumesnapshotcontents.yaml".
Definition deployTenantBaseSnapshotStorageK8sIo_volumesnapshotsYamlBytes : result string := (_deployTenantBaseSnapshotStorageK8sIo_volumesnapshotsYaml, None).
Definition deployTenantBaseSnapshotStorageK8sIo_volumesnapshotsYaml : generator := load deployTenantBaseSnapshotStorageK8sIo_volumesnapshotsYamlBytes "deploy/tenant/base/snapshot.storage.k8s.io_volumesnapshots.yaml".
Definition deployTenantDevOverlayInfraNamespaceConfigmapYamlBytes : result string := (_deployTenantDevOverlayInfraNamespaceConfigmapYaml, None).
Definition deployTenantDevOverlayInfraNamespaceConfigmapYaml : generator := load deployTenantDevOverlayInfraNamespaceConfigmapYamlBytes "deploy/tenant/dev-overlay/infra-namespace-configmap.yaml".
Definition deployTenantDevOverlayKustomizationYamlBytes : result string := (_deployTenantDevOverlayKustomizationYaml, None).
Definition deployTenantDevOverlayKustomizationYaml : generator := load deployTenantDevOverlayKustomizationYamlBytes "deploy/tenant/dev-overlay/kustomization.yaml".
Definition deployTenantDevOverlayNodeYamlBytes : result string := (_deployTenantDevOverlayNodeYaml, None).
Definition deployTenantDevOverlayNodeYaml : generator := load deployTenantDevOverlayNodeYamlBytes "deploy/tenant/dev-overlay/node.yaml".
Definition deployTenantDevOverlayStorageclassYamlBytes : result string := (_deployTenantDevOverlayStorageclassYaml, None).
Definition deployTenantDevOverlayStorageclassYaml : generator := load deployTenantDevOverlayStorageclassYamlBytes "deploy/tenant/dev-overlay/storageclass.yaml".

(** [_bindata]: a map, here its entries. *)
Definition _bindata : list (string * generator) :=
  [("deploy/controller-infra/base/deploy.yaml", deployControllerInfraBaseDeployYaml);
   ("deploy/controller-infra/base/kustomization.yaml", deployControllerInfraBaseKustomizationYaml);
   ("deploy/controller-infra/dev-overlay/controller.yaml", deployControllerInfraDevOverlayControllerYaml);
   ("deploy/controller-infra/dev-overlay/infra-namespace-configmap.yaml", deployControllerInfraDevOverlayInfraNamespaceConfigmapYaml);
   ("deploy/controller-infra/dev-overlay/kustomization.yaml", deployControllerInfraDevOverlayKustomizationYaml);
   ("deploy/controller-tenant/base/deploy.yaml", deployControllerTenantBaseDeployYaml);
   ("deploy/controller-tenant/base/kustomization.yaml", deployControllerTenantBaseKustomizationYaml);
   ("deploy/controller-tenant/dev-overlay/controller.yaml", deployControllerTenantDevOverlayControllerYaml);
   ("deploy/controller-tenant/dev-overlay/kustomization.yaml", deployControllerTenantDevOverlayKustomizationYaml);
   ("deploy/example/infracluster-kubeconfig.yaml", deployExampleInfraclusterKubeconfigYaml);
   ("deploy/example/kubevirt-config.yaml", deployExampleKubevirtConfigYaml);
   ("deploy/example/kubevirt.yaml", deployExampleKubevirtYaml);
   ("deploy/example/storage-claim.yaml", deployExampleStorageClaimYaml);
   ("deploy/example/storageclass.yaml", deployExampleStorageclassYaml);
   ("deploy/example/test-pod.yaml", deployExampleTestPodYaml);
   ("deploy/infra-cluster-service-account.yaml", deployInfraClusterServiceAccountYaml);
   ("deploy/tenant/base/deploy.yaml", deployTenantBaseDeployYaml);
   ("deploy/tenant/base/kustomization.yaml", deployTenantBaseKustomizationYaml);
   ("deploy/tenant/base/rbac-snapshot-controller.yaml", deployTenantBaseRbacSnapshotControllerYaml);
   ("deploy/tenant/base/setup-snapshot-controller.yaml", deployTenantBaseSetupSnapshotControllerYaml);
   ("deploy/tenant/base/snapshot.storage.k8s.io_volumesnapshotclasses.yaml", deployTenantBaseSnapshotStorageK8sIo_volumesnapshotclassesYaml);
   ("deploy/tenant/base/snapshot.storage.k8s.io_volumesnapshotcontents.yaml", deployTenantBaseSnapshotStorageK8sIo_volumesnapshotcontentsYaml);
   ("deploy/tenant/base/snapshot.storage.k8s.io_volumesnapshots.yaml", deployTenantBaseSnapshotStorageK8sIo_volumesnapshotsYaml);
   ("deploy/tenant/dev-overlay/infra-namespace-configmap.yaml", deployTenantDevOverlayInfraNamespaceConfigmapYaml);
   ("deploy/tenant/dev-overlay/kustomization.yaml", deployTenantDevOverlayKustomizationYaml);
   ("deploy/tenant/dev-overlay/node.yaml", deployTenantDevOverlayNodeYaml);
   ("deploy/tenant/dev-overlay/storageclass.yaml", deployTenantDevOverlayStorageclassYaml)].

Inductive bintree := Node (Func : option generator) (Children : list (string * bintree)).
Definition Func (t : bintree) : option generator := match t with Node f _ => f end.
Definition Children (t : bintree) : list (string * bintree) := match t with Node _ cs => cs end.

Definition _bintree : bintree := Node None
  [("deploy", Node None
     [("controller-infra", Node None
        [("base", Node None
           [("deploy.yaml", Node (Some deployControllerInfraBaseDeployYaml) []);
            ("kustomization.yaml", Node (Some deployControllerInfraBaseKustomizationYaml) [])]);
         ("dev-overlay", Node None
           [("controller.yaml", Node (Some deployControllerInfraDevOverlayControllerYaml) []);
            ("infra-namespace-configmap.yaml", Node (Some deployControllerInfraDevOverlayInfraNamespaceConfigmapYaml) []);
            ("kustomization.yaml", Node (Some deployControllerInfraDevOverlayKustomizationYaml) [])])]);
      ("controller-tenant", Node None
        [("base", Node None
           [("deploy.yaml", Node (Some deployControllerTenantBaseDeployYaml) []);
            ("kustomization.yaml", Node (Some deployControllerTenantBaseKustomizationYaml) [])]);
         ("dev-overlay", Node None
           [("controller.yaml", Node (Some deployControllerTenantDevOverlayControllerYaml) []);
            ("kustomization.yaml", Node (Some deployControllerTenantDevOverlayKustomizationYaml) [])])]);
      ("example", Node None
        [("infracluster-kubeconfig.yaml", Node (Some deployExampleInfraclusterKubeconfigYaml) []);
         ("kubevirt-config.yaml", Node (Some deployExampleKubevirtConfigYaml) []);
         ("kubevirt.yaml", Node (Some deployExampleKubevirtYaml) []);
         ("storage-claim.yaml", Node (Some deployExampleStorageClaimYaml) []);
         ("storageclass.yaml", Node (Some deployExampleStorageclassYaml) []);
         ("test-pod.yaml", Node (Some deployExampleTestPodYaml) [])]);
      ("infra-cluster-service-account.yaml", Node (Some deployInfraClusterServiceAccountYaml) []);
      ("tenant", Node None
        [("base", Node None
           [("deploy.yaml", Node (Some deployTenantBaseDeployYaml) []);
            ("kustomization.yaml", Node (Some deployTenantBaseKustomizationYaml) []);
            ("rbac-snapshot-controller.yaml", Node (Some deployTenantBaseRbacSnapshotControllerYaml) []);
            ("setup-snapshot-controller.yaml", Node (Some deployTenantBaseSetupSnapshotControllerYaml) []);
            ("snapshot.storage.k8s.io_volumesnapshotclasses.yaml", Node (Some deployTenantBaseSnapshotStorageK8sIo_volumesnapshotclassesYaml) []);
            ("snapshot.storage.k8s.io_volumesnapshotcontents.yaml", Node (Some deployTenantBaseSnapshotStorageK8sIo_volumesnapshotcontentsYaml) []);
            ("snapshot.storage.k8s.io_volumesnapshots.yaml", Node (Some deployTenantBaseSnapshotStorageK8sIo_volumesnapshotsYaml) [])]);
         ("dev-overlay", Node None
           [("infra-namespace-configmap.yaml", Node (Some deployTenantDevOverlayInfraNamespaceConfigmapYaml) []);
            ("kustomization.yaml", Node (Some deployTenantDevOverlayKustomizationYaml) []);
            ("node.yaml", Node (Some deployTenantDevOverlayNodeYaml) []);
            ("storageclass.yaml", Node (Some deployTenantDevOverlayStorageclassYaml) [])])])])].

(** ** The environment *)

Module Os.
Inductive call :=
| MkdirAll (path : string) (perm : Z)
| WriteFile (filename data : string) (perm : Z)
| Chtimes (name : string) (atime mtime : Time)
| Range (keys : list string).             (* the order in which a map is gone through *)

Definition answer (c : call) : Type :=
  match c with Range _ => list string | _ => option error end.
End Os.

Definition osE : signature := Signature Os.call Os.answer.

Definition os (c : Os.call) : prog osE (Os.answer c) := call (E := osE) c.

(** ** The functions *)

(** The lookup of a map. *)
Definition lookup_key {A} (key : string) (m : list (string * A)) : option A :=
  snd <$> List.find (fun x => x.1 =s? key) m.

Definition cannonicalName (name : string) : string := ReplaceAll name "\" "/".

Definition Asset (name : string) : result string :=
  match lookup_key (cannonicalName name) _bindata with
  | Some (a, err) =>
      match err, a with
      | Some e, _ => ("", Some (Errorf "Asset %s can't read by error: %v" [AStr name; AErr e]))
      | None, Some a => (bytes a, None)
      | None, None => ("", None)      (* no generator gives a nil asset without an error *)
      end
  | None => ("", Some (Errorf "Asset %s not found" [AStr name]))
  end.

(** The text of the error is left out of the panic. *)
Definition MustAsset (name : string) : prog osE string :=
  let '(a, err) := Asset name in
  if negb (is_nil err) then Panic ("asset: Asset(" +:+ name +:+ "): ") else Ret a.

Definition AssetInfo (name : string) : result (option bindataFileInfo) :=
  match lookup_key (cannonicalName name) _bindata with
  | Some (a, err) =>
      match err, a with
      | Some e, _ => (None, Some (Errorf "AssetInfo %s can't read by error: %v" [AStr name; AErr e]))
      | None, Some a => (Some (info a), None)
      | None, None => (None, None)
      end
  | None => (None, Some (Errorf "AssetInfo %s not found" [AStr name]))
  end.

Definition AssetNames : prog osE (list string) := os (Os.Range (map fst _bindata)).

(** The loop of [AssetDir] down the tree; a missing child is nil. *)
Fixpoint descend (node : bintree) (pathList : list string) : option bintree :=
  match pathList with
  | [] => Some node
  | p :: pathList => match lookup_key p (Children node) with Some node => descend node pathList | None => None end
  end.

Definition AssetDir (name : string) : prog osE (result (list string)) :=
  let node := if negb (is_empty name) then descend _bintree (Split (cannonicalName name) "/") else Some _bintree in
  match node with
  | None => Ret ([], Some (Errorf "Asset %s not found" [AStr name]))
  | Some node =>
      if negb (is_nil (Func node)) then Ret ([], Some (Errorf "Asset %s not found" [AStr name]))
      else rv ← os (Os.Range (map fst (Children node))); Ret (rv, None)
  end.

Definition _filePath (dir name : string) : string := PathJoin (dir :: Split (cannonicalName name) "/").

(** [0755] *)
Definition dirPerm : Z := 493.

Definition RestoreAsset (dir name : string) : prog osE (option error) :=
  let '(data, err) := Asset name in
  if negb (is_nil err) then Ret err else
  let '(info, err) := AssetInfo name in
  if negb (is_nil err) then Ret err else
  err ← os (Os.MkdirAll (_filePath dir (Dir name)) dirPerm);
  if negb (is_nil err) then Ret err else
  info ← deref "info" info;
  err ← os (Os.WriteFile (_filePath dir name) data (bindataFileInfo.Mode info));
  if negb (is_nil err) then Ret err else
  err ← os (Os.Chtimes (_filePath dir name) (bindataFileInfo.ModTime info) (bindataFileInfo.ModTime info));
  if negb (is_nil err) then Ret err else Ret None.

(** The loop over the children of a directory. *)
Fixpoint restore_each (restore : string -> prog osE (option error)) (children : list string) : prog osE (option error) :=
  match children with
  | [] => Ret None
  | child :: children =>
      err ← restore child;
      if negb (is_nil err) then Ret err else restore_each restore children
  end.

(** The recursion is over the depth of the directories below [name]. *)
Fixpoint RestoreAssets (fuel : nat) (dir name : string) : prog osE (option error) :=
  match fuel with
  | O => Panic "out of fuel"
  | S fuel =>
      '(children, err) ← AssetDir name;
      if negb (is_nil err) then RestoreAsset dir name
      else restore_each (fun child => RestoreAssets fuel dir (PathJoin [name; child])) children
  end.
