(* ===== verification/Assets.v ===== *)
(** * The assets: tree, table, files

    The tree and the table of Bindata.v agree, and what RestoreAssets writes is the
    assets below a name, each once and where it belongs. *)

From S2P Require Import Prelude GoStrings Json Filepath AssetData Errors Effects ClientAPI Bindata.

Local Open Scope string_scope.
Local Open Scope list_scope.

(** ** Trees *)

Section Trees.
Variable P : bintree -> Prop.
Hypothesis node : forall f cs, Forall (fun x => P x.2) cs -> P (Node f cs).

Fixpoint bintree_nested_ind (t : bintree) : P t :=
  match t with
  | Node f cs => node f cs ((fix go (cs : list (string * bintree)) : Forall (fun x => P x.2) cs :=
      match cs with [] => List.Forall_nil _ | x :: cs => List.Forall_cons _ _ _ (bintree_nested_ind x.2) (go cs) end) cs)
  end.
End Trees.

(** The files of a tree by their paths. *)
Fixpoint files (t : bintree) : list (list string * generator) :=
  match t with
  | Node (Some f) _ => [([], f)]
  | Node None cs => flat_map (fun x => map (fun y => (x.1 :: y.1, y.2)) (files x.2)) cs
  end.

Fixpoint depth (t : bintree) : nat :=
  match t with Node _ cs => S (foldr Nat.max 0%nat (map (fun x => depth x.2) cs)) end.

(** A tree of files: names that are path elements, without repetition; no file has
    children and every directory has some. *)
Fixpoint tree_ok (t : bintree) : bool :=
  match t with
  | Node f cs =>
      forallb (fun x => clean_element x.1 && tree_ok x.2) cs && bool_decide (NoDup (map fst cs)) &&
      match f, cs with Some _, [] | None, _ :: _ => true | _, _ => false end
  end.

Lemma lookup_key_Some {A} key (m : list (string * A)) a : lookup_key key m = Some a -> (key, a) ∈ m.
Proof.
  unfold lookup_key. destruct (List.find _ m) as [[k b]|] eqn:Hf; [|done]. cbn. intros [= ->].
  apply find_some in Hf as [Hin Hk]. cbn in Hk. apply streq_spec in Hk as ->. by apply list_elem_of_In.
Qed.

Lemma lookup_key_elem {A} key (m : list (string * A)) a : NoDup (map fst m) -> lookup_key key m = Some a <-> (key, a) ∈ m.
Proof.
  intros Hnd. split; [apply lookup_key_Some|]. unfold lookup_key. induction m as [|[k b] m IH]; [by intros ?%elem_of_nil|].
  cbn [map fst] in Hnd. apply NoDup_cons in Hnd as [Hk Hnd]. cbn [List.find fst].
  intros [H|H]%elem_of_cons.
  - simplify_eq. by rewrite (proj2 (streq_spec k k) eq_refl).
  - destruct (k =s? key) eqn:He; [|by apply IH]. apply streq_spec in He as ->. destruct Hk.
    apply list_elem_of_fmap. by exists (key, a).
Qed.

Lemma tree_ok_inv f cs : tree_ok (Node f cs) = true ->
  Forall (fun x => clean_element x.1 = true /\ tree_ok x.2 = true) cs /\ NoDup (map fst cs) /\
  match f with Some _ => cs = [] | None => cs <> [] end.
Proof.
  cbn. rewrite !andb_true_iff. intros [[H1 H2] H3]. split_and!.
  - apply forallb_Forall_true in H1. eapply Forall_impl; [exact H1|]. intros x. by rewrite andb_true_iff.
  - by apply bool_decide_eq_true in H2.
  - by destruct f, cs.
Qed.

Lemma descend_app t p q :
  descend t (p ++ q) = match descend t p with Some n => descend n q | None => None end.
Proof. revert t. induction p as [|x p IH]; intros t; simpl; [done|]. by destruct (lookup_key x (Children t)). Qed.

Lemma child_ok t x n : tree_ok t = true -> lookup_key x (Children t) = Some n -> clean_element x = true /\ tree_ok n = true.
Proof.
  destruct t as [f cs]. intros (Hall & _ & _)%tree_ok_inv Hl%lookup_key_Some. cbn in Hl.
  rewrite Forall_forall in Hall. exact (Hall _ Hl).
Qed.

Lemma descend_ok t p n :
  tree_ok t = true -> descend t p = Some n -> Forall (fun s => clean_element s = true) p /\ tree_ok n = true.
Proof.
  revert t. induction p as [|x p IH]; intros t Ht H; simpl in H; [by simplify_eq|].
  destruct (lookup_key x (Children t)) as [c|] eqn:Hc; [|done]. destruct (child_ok _ _ _ Ht Hc) as [Hx Hok].
  destruct (IH c Hok H) as [Hp Hn]. split; [by constructor|done].
Qed.

(** The files are what the paths lead to. *)
Lemma files_descend t p f : tree_ok t = true -> (p, f) ∈ files t <-> exists n, descend t p = Some n /\ Func n = Some f.
Proof.
  revert p. induction t as [g cs IH] using bintree_nested_ind. intros p Ht.
  destruct (tree_ok_inv _ _ Ht) as (Hall & Hnd & Hg). destruct g as [g|].
  - subst cs. cbn. rewrite list_elem_of_singleton. split.
    + intros [= -> ->]. by eexists.
    + intros (n & Hn & Hf). destruct p as [|x p]; [|done]. cbn in Hn. simplify_eq. cbn in Hf. congruence.
  - cbn [files]. rewrite list_elem_of_In, in_flat_map. split.
    + intros ([x c] & Hx & Hy). apply in_map_iff in Hy as ([q h] & Heq & Hy). cbn in Heq, Hy. simplify_eq.
      apply list_elem_of_In in Hx, Hy. rewrite !Forall_forall in *. destruct (Hall _ Hx) as [_ Hc].
      apply (IH _ Hx q Hc) in Hy. cbn [descend Children]. by rewrite (proj2 (lookup_key_elem x cs c Hnd) Hx).
    + intros (n & Hn & Hf). destruct p as [|x p]; cbn [descend Children] in Hn; [by simplify_eq|].
      destruct (lookup_key x cs) as [c|] eqn:Hc; [|done]. apply lookup_key_Some in Hc. exists (x, c).
      split; [by apply list_elem_of_In|]. apply in_map_iff. exists (p, f). split; [done|]. apply list_elem_of_In.
      rewrite !Forall_forall in *. destruct (Hall _ Hc) as [_ Hok]. apply (IH _ Hc p Hok). by exists n.
Qed.

Lemma files_nonempty t : tree_ok t = true -> exists p f, (p, f) ∈ files t.
Proof.
  induction t as [g cs IH] using bintree_nested_ind. intros (Hall & _ & Hg)%tree_ok_inv.
  destruct g as [g|]; [exists [], g; by apply list_elem_of_singleton|]. destruct cs as [|[x c] cs]; [done|].
  inversion IH as [|? ? Hc _]; subst. inversion Hall as [|? ? [_ Hok] _]; subst. destruct (Hc Hok) as (p & f & Hpf).
  exists (x :: p), f. cbn. apply elem_of_app. left. apply list_elem_of_fmap. by exists (p, f).
Qed.

Lemma files_NoDup n : tree_ok n = true -> NoDup (map fst (files n)).
Proof.
  induction n as [g cs IH] using bintree_nested_ind. intros (Hall & Hnd & _)%tree_ok_inv.
  destruct g as [g|]; [apply NoDup_singleton|]. cbn [files]. induction IH as [|[x c] cs Hc _ IH']; [constructor|].
  cbn in *. inversion Hall as [|? ? [_ Hok] Hall']; subst. apply NoDup_cons in Hnd as [Hx Hnd].
  rewrite map_app, map_map. apply NoDup_app. split_and!; [| |by apply IH'].
  - change (NoDup (map (fun y => x :: y.1) (files c))). rewrite <- (map_map fst (cons x)).
    apply NoDup_fmap; [by intros ? ? [= ->]|by apply Hc].
  - intros q Hq Hq'. apply list_elem_of_fmap in Hq as (y & -> & _). apply list_elem_of_fmap in Hq' as (z & Hz & Hq').
    apply list_elem_of_In, in_flat_map in Hq' as (w & Hw & Hq'). apply in_map_iff in Hq' as (u & <- & _).
    cbn in Hz. injection Hz as -> _. destruct Hx. apply list_elem_of_fmap. exists w. by split; [|apply list_elem_of_In].
Qed.

(** ** The tree and the table of the assets *)

Lemma bintree_ok : tree_ok _bintree = true.
Proof. vm_compute. reflexivity. Qed.

Lemma bintree_files : files _bintree = map (fun x => (Split x.1 "/", x.2)) _bindata.
Proof. reflexivity. Qed.

Lemma split_keys_NoDup (l : list (string * generator)) :
  NoDup (map fst (map (fun x => (Split x.1 "/", x.2)) l)) -> NoDup (map fst l).
Proof.
  rewrite map_map. intros H. apply (NoDup_fmap_1 (fun k => Split k "/")). change (NoDup (map (fun k => Split k "/") (map fst l))).
  by rewrite map_map.
Qed.

Lemma bindata_names : NoDup (map fst _bindata).
Proof. apply split_keys_NoDup. rewrite <- bintree_files. apply files_NoDup, bintree_ok. Qed.

Lemma bindata_loaded : Forall (fun x => exists a, x.2 = (Some a, None) /\ name (info a) = x.1 /\ mode (info a) = 0%Z) _bindata.
Proof. repeat constructor; eexists; (split; [reflexivity|done]). Qed.

(** The path of a name, and what is below a path. *)
Definition path_of (name : string) : list string := if is_empty name then [] else Split (cannonicalName name) "/".

Definition below (p : list string) (c : string) : Prop :=
  exists key rest, key ∈ map fst _bindata /\ Split key "/" = p ++ c :: rest.

Lemma below_files p c : below p c <-> exists rest f, (p ++ c :: rest, f) ∈ files _bintree.
Proof.
  rewrite bintree_files. split.
  - intros (key & rest & Hk & Hs). apply list_elem_of_fmap in Hk as ([k f] & -> & Hk). exists rest, f.
    apply list_elem_of_fmap. exists (k, f). by rewrite <- Hs.
  - intros (rest & f & H). apply list_elem_of_fmap in H as ([k g] & Heq & Hk). cbn in Heq. simplify_eq.
    exists k, rest. split; [|done]. apply list_elem_of_fmap. by exists (k, g).
Qed.

Lemma lookup_bindata key : lookup_key key _bindata = match descend _bintree (Split key "/") with Some n => Func n | None => None end.
Proof.
  apply option_eq. intros f. rewrite lookup_key_elem by apply bindata_names.
  assert (Hf : (key, f) ∈ _bindata <-> (Split key "/", f) ∈ files _bintree).
  { rewrite bintree_files. split; intros H; [apply list_elem_of_fmap; by exists (key, f)|].
    apply list_elem_of_fmap in H as ([k g] & Heq & Hk). cbn in Heq. simplify_eq.
    by match goal with H : Split _ _ = Split _ _ |- _ => apply Split_inj in H as -> end. }
  rewrite Hf, (files_descend _ _ _ bintree_ok). split; [by intros (n & -> & H)|].
  destruct (descend _ _) as [n|]; [|done]. eauto.
Qed.

(** The children of a node on the way to a file. *)
Lemma children_below p n c : descend _bintree p = Some n -> c ∈ map fst (Children n) <-> below p c.
Proof.
  intros Hn. destruct (descend_ok _ _ _ bintree_ok Hn) as [_ Hok]. rewrite below_files. destruct n as [g cs].
  destruct (tree_ok_inv _ _ Hok) as (Hall & Hnd & _). cbn [Children]. split.
  - intros Hc. apply list_elem_of_fmap in Hc as ([x m] & -> & Hc). rewrite Forall_forall in Hall.
    destruct (Hall _ Hc) as [_ Hm]. cbn in Hm. destruct (files_nonempty m Hm) as (q & f & Hq).
    exists q, f. apply files_descend; [apply bintree_ok|]. apply (files_descend _ _ _ Hm) in Hq as (k & Hk & Hf).
    exists k. split; [|done]. rewrite descend_app, Hn. cbn [descend Children fst].
    by rewrite (proj2 (lookup_key_elem x cs m Hnd) Hc).
  - intros (rest & f & (k & Hk & _)%files_descend); [|apply bintree_ok]. rewrite descend_app, Hn in Hk. cbn [descend Children] in Hk.
    destruct (lookup_key c cs) as [m|] eqn:Hm; [|done]. apply lookup_key_Some in Hm. apply list_elem_of_fmap. by exists (c, m).
Qed.

(** The tree and the table of the assets agree.  A name is found by [Asset]
    exactly if its path leads to a leaf of the tree, and then it is the asset that
    the leaf loads; [AssetDir] answers exactly for the paths that some asset lies
    below, with the next elements of the paths of those assets, each once, in the
    order in which Go goes through the map; for any other name it is an error. *)
Theorem tree_and_table_agree name :
  Asset name = match descend _bintree (Split (cannonicalName name) "/") with
    | Some (Node (Some (Some a, None)) _) => (bytes a, None)
    | _ => ("", Some (Errorf "Asset %s not found" [AStr name]))
    end /\
  ((exists children, AssetDir name = (rv ← os (Os.Range children); Ret (rv, None)) /\ NoDup children /\
      (exists c, below (path_of name) c) /\ forall c, c ∈ children <-> below (path_of name) c) \/
   AssetDir name = Ret ([], Some (Errorf "Asset %s not found" [AStr name])) /\ forall c, ~ below (path_of name) c).
Proof.
  split.
  - unfold Asset. pose proof (lookup_bindata (cannonicalName name)) as Hl.
    destruct (lookup_key _ _) as [f|] eqn:Hk.
    + apply lookup_key_Some in Hk. pose proof bindata_loaded as Hall. rewrite Forall_forall in Hall.
      destruct (Hall _ Hk) as (a & Ha & _). cbn in Ha. subst f.
      destruct (descend _ _) as [[g cs]|]; [|done]. cbn in Hl. by subst g.
    + destruct (descend _ _) as [[g cs]|]; [|done]. cbn in Hl. by subst g.
  - unfold AssetDir, path_of. set (p := if is_empty name then [] else Split (cannonicalName name) "/").
    assert (Hp : (if negb (is_empty name) then descend _bintree (Split (cannonicalName name) "/") else Some _bintree) = descend _bintree p)
      by (subst p; by destruct (is_empty name)). rewrite Hp. clear Hp.
    destruct (descend _bintree p) as [n|] eqn:Hn.
    + pose proof (fun c => children_below p n c Hn) as Hc. destruct (descend_ok _ _ _ bintree_ok Hn) as [_ Hok].
      destruct n as [g cs]. destruct (tree_ok_inv _ _ Hok) as (_ & Hnd & Hg). cbn [Func Children] in *. destruct g as [g|]; cbn [is_nil negb].
      * right. split; [done|]. intros c Hb%Hc. subst cs. by apply elem_of_nil in Hb.
      * left. exists (map fst cs). split_and!; [done|done| |done]. destruct cs as [|[x m] cs]; [done|].
        exists x. apply Hc. by left.
    + right. split; [done|]. intros c (rest & f & (k & Hk & _)%files_descend)%below_files; [|apply bintree_ok].
      by rewrite descend_app, Hn in Hk.
Qed.

(** ** Restoring *)

(** Going through a map answers its keys in some order. *)
Definition goes_through : protocol osE :=
  Protocol (E := osE) (fun _ _ => True)
    (fun _ c => match c return Os.answer c -> Prop with Os.Range keys => fun order => order ≡ₚ keys | _ => fun _ => True end).

Definition made (dir key : string) (r : option error) : event osE := Ev (E := osE) (Os.MkdirAll (_filePath dir (Dir key)) dirPerm) r.
Definition wrote (dir key : string) (r : option error) : event osE := Ev (E := osE) (Os.WriteFile (_filePath dir key) (Asset key).1 0%Z) r.
Definition stamped (dir key : string) (r : option error) : event osE := Ev (E := osE) (Os.Chtimes (_filePath dir key) (Unix 0 0) (Unix 0 0)) r.

(** The calls that restore one asset, and the ways they can stop. *)
Definition restored (dir key : string) : trace osE := [made dir key None; wrote dir key None; stamped dir key None].

Definition stopped (dir key : string) (e : error) : list (trace osE) :=
  [[made dir key (Some e)]; [made dir key None; wrote dir key (Some e)];
   [made dir key None; wrote dir key None; stamped dir key (Some e)]].

Definition is_call (e : event osE) : bool := match ev_op e with Os.Range _ => false | _ => true end.

(** The calls of a trace. *)
Definition effects (t : trace osE) : trace osE := List.filter is_call t.

Lemma effects_app t1 t2 : effects (t1 ++ t2) = effects t1 ++ effects t2.
Proof. apply List.filter_app. Qed.

(** All the assets were restored, in some order; or the calls stopped at the first
    error, which is answered. *)
Definition restores (dir : string) (keys : list string) (t : trace osE) (o : outcome (option error)) : Prop :=
  match o with
  | Val None => exists l, l ≡ₚ keys /\ effects t = flat_map (restored dir) l
  | Val (Some e) => exists l key l' last, l ++ key :: l' ≡ₚ keys /\ last ∈ stopped dir key e /\
      effects t = flat_map (restored dir) l ++ last
  | Panicked _ => False
  end.

Definition restoring (dir : string) (keys : list string) (t0 t : trace osE) (o : outcome (option error)) : Prop :=
  exists evs, t = t0 ++ evs /\ restores dir keys evs o.

Lemma restoring_perm dir keys keys' t0 t o : keys ≡ₚ keys' -> restoring dir keys t0 t o -> restoring dir keys' t0 t o.
Proof.
  intros Hk (evs & -> & H). exists evs. split; [done|]. destruct o as [[e|]|m]; simpl in *; [| |done].
  - destruct H as (l & key & l' & last & Hl & H). exists l, key, l', last. by rewrite <- Hk.
  - destruct H as (l & Hl & H). exists l. by rewrite <- Hk.
Qed.

(** The loop over the children. *)
Lemma wp_restore_each dir restore (K : string -> list string) children t :
  (forall x t, x ∈ children -> wp goes_through (restore x) t (restoring dir (K x) t)) ->
  wp goes_through (restore_each restore children) t (restoring dir (flat_map K children) t).
Proof.
  revert t. induction children as [|x children IH]; intros t H; simpl.
  - exists []. rewrite app_nil_r. split; [done|]. by exists [].
  - apply wp_bind. eapply wp_mono; [|apply H; by left]. intros t' [[e|]|m] (evs & -> & Hr); simpl in *; [| |done].
    + exists evs. split; [done|]. destruct Hr as (l & key & l' & last & Hl & Hr). exists l, key, (l' ++ flat_map K children), last.
      split; [|done]. by rewrite <- Hl, <- app_assoc.
    + destruct Hr as (l & Hl & Hr). eapply wp_mono; [|apply IH; intros; apply H; by right].
      intros t'' o (evs' & -> & Hr'). exists (evs ++ evs'). split; [by rewrite app_assoc|].
      destruct o as [[e|]|m]; simpl in *; [| |done].
      * destruct Hr' as (l1 & key & l2 & last & Hl' & Hlast & Hr'). exists (l ++ l1), key, l2, last.
        split_and!; [by rewrite <- app_assoc, Hl', Hl|done|]. by rewrite effects_app, Hr, Hr', flat_map_app, app_assoc.
      * destruct Hr' as (l1 & Hl' & Hr'). exists (l ++ l1). split; [by rewrite Hl, Hl'|].
        by rewrite effects_app, Hr, Hr', flat_map_app.
Qed.

(** The names of the files below a node. *)
Definition keys_below (p : list string) (n : bintree) : list string := map (fun y => Join (p ++ y.1) "/") (files n).

Lemma Asset_key key f : (key, f) ∈ _bindata -> ReplaceAll key "\" "/" = key ->
  exists data i, Asset key = (data, None) /\ AssetInfo key = (Some i, None) /\ mode i = 0%Z /\ modTime i = Unix 0 0.
Proof.
  intros Hk Hc. unfold Asset, AssetInfo, cannonicalName. rewrite Hc, (proj2 (lookup_key_elem key _ f bindata_names) Hk).
  assert (Hall : Forall (fun x => exists data i, x.2 = (Some (mkasset data i), None) /\ mode i = 0%Z /\ modTime i = Unix 0 0) _bindata)
    by (repeat constructor; do 2 eexists; (split; [reflexivity|done])).
  rewrite Forall_forall in Hall. destruct (Hall _ Hk) as (data & i & Hf & Hm). cbn in Hf. subst f. by exists data, i.
Qed.

Lemma wp_RestoreAsset dir key f t : (key, f) ∈ _bindata -> ReplaceAll key "\" "/" = key ->
  wp goes_through (RestoreAsset dir key) t (restoring dir [key] t).
Proof.
  intros Hk Hc. destruct (Asset_key key f Hk Hc) as (data & i & Ha & Hi & Hm & Hmt). unfold RestoreAsset.
  rewrite Ha, Hi. cbn [is_nil negb].
  assert (Hstop : forall e t' last, last ∈ stopped dir key e -> t' = t ++ last -> effects last = last ->
    restoring dir [key] t t' (Val (Some e))).
  { intros e t' last Hl -> He. exists last. split; [done|]. by exists [], key, [], last. }
  split; [done|]. intros [e|] _; psimpl; [by eapply Hstop; [left|..]|].
  split; [done|]. intros [e|] _; psimpl.
  { eapply Hstop; [right; left| |done]. unfold bindataFileInfo.Mode. rewrite <- app_assoc, Hm. unfold wrote, made. by rewrite Ha. }
  split; [done|]. intros [e|] _; psimpl.
  { eapply Hstop; [right; right; left| |done]. unfold bindataFileInfo.Mode, bindataFileInfo.ModTime. rewrite <- !app_assoc, Hm, Hmt.
    unfold wrote, made, stamped. by rewrite Ha. }
  exists (restored dir key). split; [|by exists [key]].
  unfold bindataFileInfo.Mode, bindataFileInfo.ModTime. rewrite <- !app_assoc, Hm, Hmt.
  unfold restored, wrote, made, stamped. by rewrite Ha.
Qed.

(** A name in the tree is read back as its path. *)
Lemma path_of_clean p : Forall (fun s => clean_element s = true) p -> path_of (Join p "/") = p.
Proof.
  intros H. unfold path_of. destruct p as [|x p]; [done|]. rewrite Join_nonempty by done.
  unfold cannonicalName. rewrite canonical_clean by done. by apply Split_clean.
Qed.

Lemma AssetDir_node name n : descend _bintree (path_of name) = Some n ->
  AssetDir name = match Func n with
    | Some _ => Ret ([], Some (Errorf "Asset %s not found" [AStr name]))
    | None => rv ← os (Os.Range (map fst (Children n))); Ret (rv, None)
    end.
Proof. unfold AssetDir, path_of. intros H. by destruct (is_empty name); simpl negb; cbn iota; rewrite ?H; [injection H as <-|destruct (Func n)]. Qed.

Lemma keys_below_children p cs : NoDup (map fst cs) ->
  keys_below p (Node None cs) =
  flat_map (fun x => match lookup_key x cs with Some c => keys_below (p ++ [x]) c | None => [] end) (map fst cs).
Proof.
  intros Hnd. unfold keys_below. cbn [files].
  enough (H : forall (look : string -> option bintree) l, Forall (fun x => look x.1 = Some x.2) l ->
    map (fun y => Join (p ++ y.1) "/") (flat_map (fun x => map (fun y => (x.1 :: y.1, y.2)) (files x.2)) l) =
    flat_map (fun x => match look x with Some c => map (fun y => Join ((p ++ [x]) ++ y.1) "/") (files c) | None => [] end) (map fst l)).
  { apply (H (fun x => lookup_key x cs)). apply Forall_forall. intros [x c] Hx. by apply lookup_key_elem. }
  clear. intros look l Hl. induction Hl as [|[x c] l Hx _ IH]; [done|]. cbn [flat_map map fst snd] in *.
  rewrite map_app, IH, Hx. f_equal. rewrite map_map. apply map_ext. intros y. cbn. by rewrite <- app_assoc.
Qed.

Lemma depth_child cs x c : (x, c) ∈ cs -> (depth c < depth (Node None cs))%nat.
Proof.
  intros H. cbn. induction cs as [|[y d] cs IH]; [by apply elem_of_nil in H|]. cbn.
  apply elem_of_cons in H as [[= <- <-]|H]; [lia|]. specialize (IH H). lia.
Qed.

(** A file is in the table under its path. *)
Lemma file_in_table p n f : descend _bintree p = Some n -> Func n = Some f -> (Join p "/", f) ∈ _bindata.
Proof.
  intros Hn Hf. assert (H : (p, f) ∈ files _bintree) by (apply files_descend; [apply bintree_ok|by exists n]).
  rewrite bintree_files in H. apply list_elem_of_fmap in H as ([k g] & Heq & Hk). cbn in Heq. simplify_eq.
  by rewrite Join_Split.
Qed.

Lemma wp_RestoreAssets fuel dir p n t :
  descend _bintree p = Some n -> (depth n <= fuel)%nat ->
  wp goes_through (RestoreAssets fuel dir (Join p "/")) t (restoring dir (keys_below p n) t).
Proof.
  revert p n t. induction fuel as [|fuel IH]; intros p n t Hn Hd; [destruct n; simpl in Hd; lia|].
  destruct (descend_ok _ _ _ bintree_ok Hn) as [Hp Hok]. cbn [RestoreAssets].
  rewrite (AssetDir_node _ n) by (by rewrite path_of_clean). destruct n as [g cs].
  destruct (tree_ok_inv _ _ Hok) as (Hall & Hnd & Hg). cbn [Func Children]. destruct g as [g|]; cbn [bind is_nil negb].
  - unfold keys_below. cbn [files map fst]. rewrite app_nil_r.
    eapply wp_RestoreAsset; [by eapply file_in_table|by apply canonical_clean].
  - cbn [os call bind]. split; [done|]. intros order Horder. cbn [wp bind is_nil negb].
    set (K := fun x => match lookup_key x cs with Some c => keys_below (p ++ [x]) c | None => [] end).
    eapply wp_mono; [|apply (wp_restore_each dir _ K)].
    + intros t' o (evs & -> & Hr). eapply restoring_perm with (keys := flat_map K order).
      { rewrite keys_below_children by done. fold K. clear -Horder. induction Horder as [|x l1 l2 _ IH|x y l|l1 l2 l3 _ IH1 _ IH2]; simpl;
          [done|by rewrite IH|by rewrite !app_assoc, (Permutation_app_comm (K y))|by rewrite IH1]. }
      exists (Ev (E := osE) (Os.Range (map fst cs)) order :: evs). split; [by rewrite <- app_assoc|].
      by destruct o as [[e|]|m].
    + intros x t' Hx. rewrite Horder in Hx. apply list_elem_of_fmap in Hx as ([y c] & -> & Hx). cbn [fst].
      unfold K. rewrite (proj2 (lookup_key_elem y cs c Hnd) Hx). rewrite Forall_forall in Hall.
      destruct (Hall _ Hx) as [Hy _]. cbn in Hy.
      rewrite PathJoin_child by (apply Forall_app; split; [done|by constructor]).
      apply IH; [|pose proof (depth_child _ _ _ Hx); lia]. rewrite descend_app, Hn. cbn [descend Children].
      by rewrite (proj2 (lookup_key_elem y cs c Hnd) Hx).
Qed.

(** The names of the assets at or below a path. *)
Definition assets_below (p : list string) : list string :=
  filter (fun key => p `prefix_of` Split key "/") (map fst _bindata).

(** The paths of the files below a node are those of the table that go on its own. *)
Lemma files_below p n q : descend _bintree p = Some n ->
  q ∈ map fst (files n) <-> exists key, key ∈ map fst _bindata /\ Split key "/" = p ++ q.
Proof.
  intros Hn. destruct (descend_ok _ _ _ bintree_ok Hn) as [_ Hok]. rewrite list_elem_of_fmap. split.
  - intros ([q' f] & -> & (k & Hk & Hf)%files_descend); [|done]. cbn [fst].
    assert (H : (p ++ q', f) ∈ files _bintree) by (apply files_descend; [apply bintree_ok|exists k; by rewrite descend_app, Hn]).
    rewrite bintree_files in H. apply list_elem_of_fmap in H as ([key g] & Heq & H). cbn in Heq. injection Heq as Hs <-. exists key.
    split; [apply list_elem_of_fmap; by exists (key, f)|done].
  - intros (key & Hk & Hs). apply list_elem_of_fmap in Hk as ([k f] & -> & Hk). cbn [fst] in Hs.
    assert (H : (p ++ q, f) ∈ files _bintree) by (rewrite bintree_files; apply list_elem_of_fmap; exists (k, f); by rewrite <- Hs).
    apply files_descend in H as (m & Hm & Hf); [|apply bintree_ok]. rewrite descend_app, Hn in Hm. exists (q, f).
    split; [done|]. apply files_descend; [done|by exists m].
Qed.

Lemma keys_below_assets p n : descend _bintree p = Some n -> keys_below p n ≡ₚ assets_below p.
Proof.
  intros Hn. destruct (descend_ok _ _ _ bintree_ok Hn) as [_ Hok]. unfold keys_below.
  rewrite <- (map_map fst (fun q => Join (p ++ q) "/")). apply NoDup_Permutation.
  - apply NoDup_fmap_2_strong; [|by apply files_NoDup].
    intros q1 q2 (k1 & _ & H1)%(files_below _ _ _ Hn) (k2 & _ & H2)%(files_below _ _ _ Hn) He.
    rewrite <- H1, <- H2, !Join_Split in He. subst k2. rewrite H1 in H2. by apply app_inv_head in H2.
  - apply NoDup_filter, bindata_names.
  - intros key. unfold assets_below. rewrite list_elem_of_filter, list_elem_of_fmap. split.
    + intros (q & -> & (k & Hk & Hs)%(files_below _ _ _ Hn)). rewrite <- Hs, Join_Split. split; [rewrite Hs; by exists q|done].
    + intros [[q Hq] Hk]. exists q. rewrite <- Hq, Join_Split. split; [done|]. apply (files_below _ _ _ Hn). by exists key.
Qed.

(** C40: RestoreAssets restores the assets below a name, and ends.  For every name
    of the tree, the empty one for all assets, and whatever order Go goes through
    the maps in: the recursion ends within the six levels of the tree without a
    panic; without errors of package os the calls are, asset by asset and once
    each, the making of its directory below [dir], the writing of its content to
    its own path below [dir] (with mode 0) and the setting of its time; the first
    error stops it and is answered.  For a name that leads nowhere in the tree it
    makes no call and answers that there is no such asset. *)
Theorem restore_assets_restores {W} (h : handler osE W) w dir :
  (forall w keys, (h (Os.Range keys) w).1 ≡ₚ keys) ->
  (forall p n, descend _bintree p = Some n ->
     let r := exec h (RestoreAssets 6 dir (Join p "/")) w [] in
     restores dir (assets_below p) (run_trace r) (run_out r)) /\
  (forall fuel name, descend _bintree (path_of name) = None ->
     RestoreAssets (S fuel) dir name = Ret (Some (Errorf "Asset %s not found" [AStr name]))).
Proof.
  intros Hh. split.
  - intros p n Hn r. assert (Hd : (depth n <= 6)%nat).
    { clear r. assert (Hall : forall t p n, descend t p = Some n -> (depth n <= depth t)%nat).
      { clear. intros t p. revert t. induction p as [|x p IH]; intros t n H; simpl in H; [by simplify_eq|].
        destruct (lookup_key x (Children t)) as [c|] eqn:Hc; [|done]. apply lookup_key_Some in Hc. specialize (IH _ _ H).
        destruct t as [g cs]. pose proof (depth_child cs x c Hc). simpl in *. lia. }
      specialize (Hall _ _ _ Hn). vm_compute (depth _bintree) in Hall. lia. }
    destruct (wp_exec goes_through h (fun _ _ => True) (RestoreAssets 6 dir (Join p "/")) w [] (restoring dir (keys_below p n) [])) as [H _];
      [|done|by apply wp_RestoreAssets|].
    { intros w' t c _ _. split; [|done]. destruct c; simpl; try done. apply Hh. }
    apply (restoring_perm dir _ _ _ _ _ (keys_below_assets p n Hn)) in H as (evs & Ht & Hr). fold r in Ht, Hr.
    cbn [app] in Ht. by rewrite Ht.
  - intros fuel name Hn. cbn [RestoreAssets]. unfold AssetDir.
    assert (He : is_empty name = false) by (unfold path_of in Hn; by destruct (is_empty name)).
    unfold path_of in Hn. rewrite He in Hn |- *. cbn [negb]. rewrite Hn. cbn [bind is_nil negb]. unfold RestoreAsset, Asset.
    by rewrite lookup_bindata, Hn.
Qed.

(** A file system that records what is written. *)
Definition demo_os : handler osE (list (string * string)) := fun c w =>
  match c return Os.answer c * list (string * string) with
  | Os.Range keys => (reverse keys, w)
  | Os.WriteFile f data _ => (None, (f, data) :: w)
  | _ => (None, w)
  end.

Lemma restore_assets_restores_witness :
  let r := exec demo_os (RestoreAssets 6 "/tmp" "deploy/example") [] [] in
  restores "/tmp" (assets_below ["deploy"; "example"]) (run_trace r) (run_out r) /\
  map fst (run_world r) = ["/tmp/deploy/example/infracluster-kubeconfig.yaml"; "/tmp/deploy/example/kubevirt-config.yaml";
    "/tmp/deploy/example/kubevirt.yaml"; "/tmp/deploy/example/storage-claim.yaml"; "/tmp/deploy/example/storageclass.yaml";
    "/tmp/deploy/example/test-pod.yaml"].
Proof.
  split; [|vm_compute; reflexivity].
  refine (proj1 (restore_assets_restores demo_os [] "/tmp" _) ["deploy"; "example"] _ eq_refl).
  intros w keys. apply reverse_Permutation.
Defined.
