(* ===== verification/Fixtures.v ===== *)
(** * A small infra cluster for concrete runs

    A world of objects behind the [Client] interface, in the manner of
    [fakeKubeVirtClient] of sanity/sanity_test.go: it answers every method from
    maps of objects.  It serves to run the RPCs on concrete inputs; no theorem
    assumes it. *)

From S2P Require Import Prelude GoStrings Errors Effects Wait Objects ClientAPI.
Import Client.

Record cluster := mkCluster {
  dvMap : gmap string DataVolume;
  vmMap : gmap string VirtualMachine;
  vmiMap : gmap string VirtualMachineInstance;
  snapshotMap : gmap string VolumeSnapshot }.

Definition set_uid (dv : DataVolume) : DataVolume :=
  mkDataVolume (dv_Name dv) (dv_Namespace dv) ("uid-" +:+ dv_Name dv) (dv_Labels dv) (dv_Annotations dv)
    (dv_Storage dv) (dv_Source dv).

Definition found {A} (o : option A) : result (option A) :=
  match o with Some a => (Some a, None) | None => (None, Some (NewNotFound "not found")) end.

Definition plug (v : string) (vm : VirtualMachine) : VirtualMachine :=
  mkVM (vm_Name vm) (vm_Namespace vm)
    ((fun t => mkTemplate (tpl_Volumes t ++ [mkVolume v None (Some (mkVMDataVolumeSource v true))])) <$> vm_Template vm).

Definition plug_status (v : string) (vmi : VirtualMachineInstance) : VirtualMachineInstance :=
  mkVMI (vmi_Name vmi) (vmi_Namespace vmi)
    (vmi_VolumeStatus vmi ++ [mkVolumeStatus v VolumeReady (Some (mkHotplugVolumeStatus "hp"))]).

Definition unplug (v : string) (vm : VirtualMachine) : VirtualMachine :=
  mkVM (vm_Name vm) (vm_Namespace vm)
    ((fun t => mkTemplate (filter (fun x => negb (vol_Name x =s? v)) (tpl_Volumes t))) <$> vm_Template vm).

Definition unplug_status (v : string) (vmi : VirtualMachineInstance) : VirtualMachineInstance :=
  mkVMI (vmi_Name vmi) (vmi_Namespace vmi) (filter (fun x => negb (vs_Name x =s? v)) (vmi_VolumeStatus vmi)).

Definition in_spec (w : cluster) (vm v : string) : bool :=
  match vmMap w !! vm with
  | Some (mkVM _ _ (Some t)) => existsb (fun x => vol_Name x =s? v) (tpl_Volumes t)
  | _ => false
  end.

Definition in_status (w : cluster) (vm v : string) : bool :=
  match vmiMap w !! vm with
  | Some vmi => existsb (fun x => vs_Name x =s? v) (vmi_VolumeStatus vmi)
  | None => false
  end.

Definition set_vms (w : cluster) f := mkCluster (dvMap w) (f (vmMap w)) (vmiMap w) (snapshotMap w).
Definition set_vmis (w : cluster) f := mkCluster (dvMap w) (vmMap w) (f (vmiMap w)) (snapshotMap w).
Definition set_dvs (w : cluster) f := mkCluster (f (dvMap w)) (vmMap w) (vmiMap w) (snapshotMap w).
Definition set_snaps (w : cluster) f := mkCluster (dvMap w) (vmMap w) (vmiMap w) (f (snapshotMap w)).

Definition new_snapshot (ns name claim class : string) : VolumeSnapshot :=
  mkVolumeSnapshot name ns ∅ 1000 (Some claim) (Some class)
    (Some (mkVolumeSnapshotStatus (Some true) (Some (NewQuantity (2 ^ 30))))).

Definition cluster_client : handler clientE cluster := fun m w =>
  match m return Client.answer m * cluster with
  | Ping => (None, w)
  | ListVirtualMachines _ => ((snd <$> map_to_list (vmiMap w), None), w)
  | GetVirtualMachine _ n => (found (vmiMap w !! n), w)
  | GetWorkloadManagingVirtualMachine _ n => (found (vmMap w !! n), w)
  | DeleteDataVolume _ n => (None, set_dvs w (delete n))
  | CreateDataVolume _ d => ((Some (set_uid d), None), set_dvs w (<[dv_Name d := set_uid d]>))
  | GetDataVolume _ n => (found (dvMap w !! n), w)
  | GetPersistentVolumeClaim _ n => ((None, Some (NewNotFound "pvc")), w)
  | ExpandPersistentVolumeClaim _ _ _ => (None, w)
  | AddVolumeToVM _ vm o =>
      (None, set_vmis (set_vms w (alter (plug (av_Name o)) vm)) (alter (plug_status (av_Name o)) vm))
  | RemoveVolumeFromVM _ vm o =>
      (None, set_vmis (set_vms w (alter (unplug (rv_Name o)) vm)) (alter (unplug_status (rv_Name o)) vm))
  | RemoveVolumeFromVMI _ vm o => (None, set_vmis w (alter (unplug_status (rv_Name o)) vm))
  | EnsureVolumeAvailable _ vm v _ => (if in_status w vm v && in_spec w vm v then None else Some DeadlineExceeded, w)
  | EnsureVolumeAvailableVM _ vm v => ((in_spec w vm v, None), w)
  | EnsureVolumeRemoved _ vm v _ => (if in_status w vm v || in_spec w vm v then Some DeadlineExceeded else None, w)
  | EnsureVolumeRemovedVM _ vm v => ((negb (in_spec w vm v), None), w)
  | EnsureVolumeRemovedVMI _ vm v => ((negb (in_status w vm v), None), w)
  | EnsureSnapshotReady _ _ _ => (None, w)
  | EnsureControllerResize _ _ _ => (None, w)
  | CreateVolumeSnapshot ns n claim class =>
      ((Some (new_snapshot ns n claim class), None), set_snaps w (<[n := new_snapshot ns n claim class]>))
  | GetVolumeSnapshot _ n => (found (snapshotMap w !! n), w)
  | DeleteVolumeSnapshot _ n => (None, set_snaps w (delete n))
  | ListVolumeSnapshots _ => ((Some (snd <$> map_to_list (snapshotMap w)), None), w)
  | Sleep _ => (tt, w)
  end.

(** Two VMs, one volume, attached to neither. *)
Definition demo_dv : DataVolume :=
  mkDataVolume "pvc-1" "infra" "uid-1" ∅ ∅
    (Some (mkStorageSpec {[ResourceStorage := NewQuantity 10]} [] None None)) None.
Definition demo_vm (n : string) : VirtualMachine := mkVM n "infra" (Some (mkTemplate [])).
Definition demo_vmi (n : string) : VirtualMachineInstance := mkVMI n "infra" [].

Definition demo : cluster := {|
  dvMap := {["pvc-1" := demo_dv]};
  vmMap := {["vm1" := demo_vm "vm1"; "vm2" := demo_vm "vm2"]};
  vmiMap := {["vm1" := demo_vmi "vm1"; "vm2" := demo_vmi "vm2"]};
  snapshotMap := ∅ |}.

(** The same cluster once "pvc-1" is hot-plugged in "vm1". *)
Definition demo_attached : cluster :=
  set_vmis (set_vms demo (alter (plug "pvc-1") "vm1")) (alter (plug_status "pvc-1") "vm1").
