(* ===== verification/Mounter.v ===== *)
(** * The node's mounter

    pkg/mounter/mount.go, over the host: the system calls, the commands and the
    functions of k8s.io/mount-utils and of package [os] that the node part of
    the driver calls.  The last two kinds are operations whose answer is
    whatever the host gives. *)

From S2P Require Import Prelude GoStrings Errors Effects Objects ClientAPI.

Local Open Scope string_scope.
Local Open Scope Z_scope.

(** The fields of [unix.Statfs_t] the code reads: [Bsize] is an [int64], the
    rest are [uint64]. *)
Record Statfs_t := mkStatfs {
  Bsize : Z; Blocks : Z; Bfree : Z; Bavail : Z; Files : Z; Ffree : Z }.

Module Host.
Inductive call :=
| Output (name : string) (args : list string)     (* exec.Command(name, args...).Output() *)
| Run (name : string) (args : list string)        (* exec.Command(name, args...).Run() *)
| Stat (path : string)                            (* unix.Stat: st.Mode *)
| Statfs (path : string)                          (* unix.Statfs *)
| PathExists (path : string)                      (* mount-utils *)
| IsLikelyNotMountPoint (file : string)
| Mount (source target fstype : string) (options : list string)
| Unmount (target : string)
| NeedResize (devicePath deviceMountPath : string)
| ResizeFs (devicePath deviceMountPath : string)
| MkdirAll (path : string) (perm : Z)             (* package os *)
| StatFile (path : string)
| OpenFile (path : string) (perm : Z)
| CloseFile (path : string)
| RemoveAll (path : string).

Definition answer (c : call) : Type :=
  match c with
  | Output _ _ => result string
  | Stat _ => result Z
  | Statfs _ => result Statfs_t
  | PathExists _ | IsLikelyNotMountPoint _ | NeedResize _ _ | ResizeFs _ _ => result bool
  | Run _ _ | Mount _ _ _ _ | Unmount _ | MkdirAll _ _ | StatFile _ | OpenFile _ _ | CloseFile _
  | RemoveAll _ => option error
  end.
End Host.

Definition hostE : signature := Signature Host.call Host.answer.

Definition host (c : Host.call) : prog hostE (Host.answer c) := call (E := hostE) c.

Record VolumeStats := mkVolumeStats {
  AvailableBytes : Z; TotalBytes : Z; UsedBytes : Z;
  AvailableInodes : Z; TotalInodes : Z; UsedInodes : Z }.

Definition zeroStats : VolumeStats := mkVolumeStats 0 0 0 0 0 0.

Definition S_IFMT : Z := 0xf000.
Definition S_IFBLK : Z := 0x6000.

Definition PathExists (path : string) : prog hostE (result bool) := host (Host.PathExists path).

Definition IsBlockDevice (fullPath : string) : prog hostE (result bool) :=
  '(mode, err) ← host (Host.Stat fullPath);
  if negb (is_nil err) then Ret (false, err)
  else Ret (Z.land mode S_IFMT =? S_IFBLK, None).

Definition GetBlockSizeBytes (devicePath : string) : prog hostE (result Z) :=
  '(output, err) ← host (Host.Output "blockdev" ["--getsize64"; devicePath]);
  match err with
  | Some e => Ret (-1, Some (WrapErrorf "error when getting size of block volume at path %s: output: %s, err: %w"
                               [AStr devicePath; AStr output] e))
  | None =>
      let strOut := TrimSpace output in
      match ParseInt64 strOut with
      | inr _ => Ret (-1, Some (Errorf "failed to parse size %s as int" [AStr strOut]))
      | inl gotSizeBytes => Ret (gotSizeBytes, None)
      end
  end.

(** [a / b] on [uint64]: a run-time panic when [b] is zero. *)
Definition quotient (a b : Z) : prog hostE Z := if b =? 0 then Panic "integer divide by zero" else Ret (a / b).

Definition fails (stats : VolumeStats) (msg : string) : prog hostE (result VolumeStats) :=
  Ret (stats, Some (errors_New msg)).

Definition GetVolumeStats (volumePath : string) : prog hostE (result VolumeStats) :=
  let stats := zeroStats in
  '(statfs, err) ← host (Host.Statfs volumePath);
  if negb (is_nil err) then Ret (stats, err) else
  let bsize := Bsize statfs in
  if bsize <? 0 then Ret (stats, Some (Errorf "negative block size reported: %d" [AInt bsize])) else
  let ubsize := uint64 bsize in
  limit ← quotient maxUint64 ubsize;
  if limit <? Bavail statfs then fails stats "available bytes calculation would overflow" else
  let availBytes := uint64 (Bavail statfs * ubsize) in
  if maxInt64 <? availBytes then fails stats "available bytes value exceeds int64 maximum" else
  let stats := mkVolumeStats (int64 availBytes) 0 0 0 0 0 in
  limit ← quotient maxUint64 ubsize;
  if limit <? Blocks statfs then fails stats "total bytes calculation would overflow" else
  let totBytes := uint64 (Blocks statfs * ubsize) in
  if maxInt64 <? totBytes then fails stats "total bytes value exceeds int64 maximum" else
  let stats := mkVolumeStats (AvailableBytes stats) (int64 totBytes) 0 0 0 0 in
  let usedBlocks := if Bfree statfs <? Blocks statfs then uint64 (Blocks statfs - Bfree statfs) else 0 in
  limit ← quotient maxUint64 ubsize;
  if limit <? usedBlocks then fails stats "used bytes calculation would overflow" else
  let usedBytes := uint64 (usedBlocks * ubsize) in
  if maxInt64 <? usedBytes then fails stats "used bytes value exceeds int64 maximum" else
  let stats := mkVolumeStats (AvailableBytes stats) (TotalBytes stats) (int64 usedBytes) 0 0 0 in
  if maxInt64 <? Ffree statfs then fails stats "available inodes value exceeds int64 maximum" else
  let stats := mkVolumeStats (AvailableBytes stats) (TotalBytes stats) (UsedBytes stats) (int64 (Ffree statfs)) 0 0 in
  if maxInt64 <? Files statfs then fails stats "total inodes value exceeds int64 maximum" else
  let stats := mkVolumeStats (AvailableBytes stats) (TotalBytes stats) (UsedBytes stats) (AvailableInodes stats)
                 (int64 (Files statfs)) 0 in
  if TotalInodes stats <? AvailableInodes stats then fails stats "inconsistent inode counts: total < available" else
  Ret (mkVolumeStats (AvailableBytes stats) (TotalBytes stats) (UsedBytes stats) (AvailableInodes stats)
         (TotalInodes stats) (int64 (TotalInodes stats - AvailableInodes stats)), None).

(** ** Widths and exact values *)

Definition statfs_widths (s : Statfs_t) : Prop :=
  is_int64 (Bsize s) /\ is_uint64 (Blocks s) /\ is_uint64 (Bfree s) /\ is_uint64 (Bavail s) /\
  is_uint64 (Files s) /\ is_uint64 (Ffree s).

(** What the driver can report: non-negative [int64] numbers of bytes and of
    inodes, and no more free inodes than inodes. *)
Definition reportable (s : Statfs_t) : Prop :=
  0 <= Bavail s * Bsize s <= maxInt64 /\ 0 <= Blocks s * Bsize s <= maxInt64 /\
  0 <= Ffree s <= Files s /\ Files s <= maxInt64.

Definition exactStats (s : Statfs_t) : VolumeStats :=
  mkVolumeStats (Bavail s * Bsize s) (Blocks s * Bsize s) (Z.max 0 (Blocks s - Bfree s) * Bsize s)
    (Ffree s) (Files s) (Files s - Ffree s).

(** The overflow test before a product: it passes exactly when the product fits
    64 bits, so the product is not wrapped. *)
Lemma product_fits b x :
  0 < b -> 0 <= x -> (maxUint64 / b <? x) = negb (x * b <=? maxUint64).
Proof.
  intros Hb Hx. destruct (x * b <=? maxUint64) eqn:E; simpl; reflect_bools.
  - apply Z.ltb_ge. apply Z.div_le_lower_bound; lia.
  - apply Z.ltb_lt. apply Z.div_lt_upper_bound; lia.
Qed.

(** The conversion of a product that passed both tests. *)
Lemma product_exact y : 0 <= y <= maxInt64 -> int64 (uint64 y) = y.
Proof.
  intros H. assert (maxInt64 < maxUint64) by (unfold maxInt64, maxUint64; lia).
  rewrite uint64_id by (unfold is_uint64; lia). apply int64_id. unfold is_int64, minInt64. lia.
Qed.

Lemma quotient_pos b : 0 < b -> quotient maxUint64 b = Ret (maxUint64 / b).
Proof. intros H. unfold quotient. by rewrite (proj2 (Z.eqb_neq _ _)) by lia. Qed.

(** The two tests of a product, as the function writes them, are one test that
    the exact product fits [int64]. *)
Lemma product_tests {A} b x (no1 no2 yes : A) :
  0 < b -> 0 <= x ->
  (if maxUint64 / b <? x then no1 else if maxInt64 <? uint64 (x * b) then no2 else yes) =
  (if x * b <=? maxInt64 then yes else if maxUint64 / b <? x then no1 else no2).
Proof.
  intros Hb Hx. rewrite product_fits by done. assert (0 <= x * b) by nia.
  assert (maxInt64 < maxUint64) by (unfold maxInt64, maxUint64; lia).
  destruct (x * b <=? maxUint64) eqn:E; cbn [negb]; reflect_bools.
  - rewrite uint64_id by (unfold is_uint64; lia). rewrite Z.ltb_antisym. by destruct (_ <=? _).
  - by rewrite (proj2 (Z.leb_gt _ _)) by lia.
Qed.

(** How [GetVolumeStats] ends for the answer [s] of the kernel. *)
Definition stats_verdict (s : Statfs_t) (o : outcome (result VolumeStats)) : Prop :=
  match o with
  | Panicked _ => Bsize s = 0
  | Val (stats, None) => 0 < Bsize s /\ reportable s /\ stats = exactStats s
  | Val (_, Some _) => Bsize s <> 0 /\ ~ (0 < Bsize s /\ reportable s)
  end.

(** The volume statistics are exact.  For every answer of [statfs] of the
    widths of its fields, [GetVolumeStats] returns the products, computed without
    wrap-around, when and only when they and the inode counts fit [int64];
    otherwise it returns an error, except that a block size of zero, which it does
    not test, is a division by zero. *)
Theorem volume_stats_exact {W} (h : handler hostE W) w path s :
  (h (Host.Statfs path) w).1 = (s, None) -> statfs_widths s ->
  stats_verdict s (run_out (exec h (GetVolumeStats path) w [])).
Proof.
  intros Hs (Hb & Hbl & Hbf & Hba & Hfi & Hff). unfold GetVolumeStats, host. xsimpl. rewrite Hs. xsimpl.
  unfold is_uint64, is_int64 in *.
  destruct (Bsize s <? 0) eqn:Eb; reflect_bools; [by split; [lia|intros [? _]; lia]|].
  rewrite uint64_id by (unfold is_uint64, maxInt64, maxUint64 in *; lia).
  destruct (Z.eq_dec (Bsize s) 0) as [H0|H0]; [unfold quotient; by rewrite H0|].
  rewrite quotient_pos by lia. xsimpl.
  assert (Hused : 0 <= (if Bfree s <? Blocks s then uint64 (Blocks s - Bfree s) else 0) <= Blocks s /\
    (if Bfree s <? Blocks s then uint64 (Blocks s - Bfree s) else 0) = Z.max 0 (Blocks s - Bfree s)).
  { destruct (Bfree s <? Blocks s) eqn:E; reflect_bools; [rewrite uint64_id by (unfold is_uint64; lia)|]; lia. }
  destruct Hused as [Hused Eused]. rewrite Eused in *. clear Eused.
  cbn [AvailableBytes TotalBytes UsedBytes AvailableInodes TotalInodes UsedInodes].
  assert (Hab : 0 <= Bavail s * Bsize s) by nia. assert (Hbb : 0 <= Blocks s * Bsize s) by nia.
  assert (Hub : 0 <= Z.max 0 (Blocks s - Bfree s) * Bsize s <= Blocks s * Bsize s) by nia.
  rewrite !product_tests by lia. unfold stats_verdict, reportable, fails.
  destruct (Bavail s * Bsize s <=? maxInt64) eqn:E1; reflect_bools; [|destruct (_ <? Bavail s); cbn; lia].
  destruct (Blocks s * Bsize s <=? maxInt64) eqn:E2; reflect_bools; [|destruct (_ <? Blocks s); cbn; lia].
  rewrite (proj2 (Z.leb_le _ _)) by lia.
  destruct (maxInt64 <? Ffree s) eqn:E3; reflect_bools; [cbn; lia|].
  destruct (maxInt64 <? Files s) eqn:E4; reflect_bools; [cbn; lia|].
  unfold exactStats. rewrite !product_exact by lia.
  rewrite !(int64_id (Files s)), !(int64_id (Ffree s)) by (unfold is_int64, minInt64; lia).
  destruct (Files s <? Ffree s) eqn:E5; reflect_bools; cbn; [lia|].
  split_and!; [lia..|]. by rewrite int64_id by (unfold is_int64, minInt64; lia).
Qed.

(** A file system of 4 KiB blocks, and a host that reports it. *)
Definition demo_statfs : Statfs_t := mkStatfs 4096 1000 400 350 128 100.

Definition stats_host (s : Statfs_t) : handler hostE unit := fun o _ =>
  (match o return Host.answer o with
   | Host.Statfs _ => (s, None)
   | Host.Output _ _ => (EmptyString, None)
   | Host.Stat _ => (0x4000, None)
   | Host.PathExists _ | Host.IsLikelyNotMountPoint _ | Host.NeedResize _ _ | Host.ResizeFs _ _ => (true, None)
   | Host.Run _ _ | Host.Mount _ _ _ _ | Host.Unmount _ | Host.MkdirAll _ _ | Host.StatFile _
   | Host.OpenFile _ _ | Host.CloseFile _ | Host.RemoveAll _ => None
   end, tt).

Lemma volume_stats_exact_witness :
  stats_verdict demo_statfs (run_out (exec (stats_host demo_statfs) (GetVolumeStats "/mnt") tt [])) /\
  run_out (exec (stats_host demo_statfs) (GetVolumeStats "/mnt") tt []) =
    Val (mkVolumeStats 1433600 4096000 2457600 100 128 28, None).
Proof.
  split; [|by vm_compute]. apply volume_stats_exact; [done|].
  unfold statfs_widths, is_int64, is_uint64, demo_statfs; cbn. by vm_compute.
Defined.
