(* ===== verification/Controller.v ===== *)
(** * The controller service

    pkg/service/controller.go: the [ControllerService] struct, its constants,
    the access mode checks and the RPCs without effects.  The other RPCs are in
    Volumes.v, Attach.v and Snapshots.v. *)

From S2P Require Import Prelude GoStrings Errors Effects Wait Objects Csi Util ClientAPI.
Import Client.

Local Open Scope Z_scope.

(** Constants of pkg/kubevirt/client.go the controller uses. *)
Definition InfraStorageClassNameParameter : string := "infraStorageClassName".
Definition InfraSnapshotClassNameParameter : string := "infraSnapshotClassName".

Definition busParameter : string := "bus".
Definition busDefaultValue : string := "scsi".
Definition serialParameter : string := "serial".
Definition ErrVolumeAttachedMessage : string := "volume is attached to another VM".

Definition unallowedStorageClass : error :=
  status_Error InvalidArgument "infraStorageclass is not in the allowed list".

(** The fields of [ControllerService] besides the client. *)
Record ControllerService := NewControllerService {
  infraClusterNamespace : string;
  infraClusterLabels : gmap string string;
  storageClassEnforcement : StorageClassEnforcement }.

Definition controllerCaps : list ControllerServiceCapability_RPC_Type :=
  [CREATE_DELETE_VOLUME; PUBLISH_UNPUBLISH_VOLUME; CREATE_DELETE_SNAPSHOT; LIST_SNAPSHOTS;
   CLONE_VOLUME; EXPAND_VOLUME].

(** ** Access modes *)

Definition hasRWXCapabiltyAccessMode (cap : option AccessMode_Mode) : result bool :=
  match GetMode cap with
  | SINGLE_NODE_WRITER | SINGLE_NODE_READER_ONLY | SINGLE_NODE_SINGLE_WRITER
  | SINGLE_NODE_MULTI_WRITER => (false, None)
  | MULTI_NODE_READER_ONLY | MULTI_NODE_SINGLE_WRITER | MULTI_NODE_MULTI_WRITER => (true, None)
  | _ => (false, Some (errors_New "unknown volume capability"))
  end.

(** One iteration of the loop of [getAccessMode] over its named results. *)
Definition getAccessMode_step (acc : bool * bool * option error) (capability : option VolumeCapability)
    : bool * bool * option error :=
  let '(isBlock, isRWX, err) := acc in
  match capability with
  | None => acc
  | Some _ =>
      let isBlock := if GetBlock capability then true else isBlock in
      match GetAccessMode capability with
      | Some am => let '(isRWX, err) := hasRWXCapabiltyAccessMode (Some am) in (isBlock, isRWX, err)
      | None => (isBlock, isRWX, err)
      end
  end.

Definition getAccessMode (caps : list (option VolumeCapability)) : bool * bool * option error :=
  fold_left getAccessMode_step caps (false, false, None).

(** ** RPCs that need no client *)

Definition ControllerGetCapabilities : list ControllerServiceCapability_RPC_Type :=
  fold_left (fun caps capability => caps ++ [capability]) controllerCaps [].

Definition ListVolumes : option error := Some (status_Error Unimplemented "").
Definition GetCapacity : option error := Some (status_Error Unimplemented "").
Definition ControllerGetVolume : option error := Some (status_Error Unimplemented "").
(** Promoted from the embedded [UnimplementedControllerServer]. *)
Definition ControllerModifyVolume : option error :=
  Some (status_Error Unimplemented "method ControllerModifyVolume not implemented").
