(* ===== verification/Node.v ===== *)
(** * The node service

    pkg/service/node.go.  [NodeService] reaches the node through the interfaces
    of its fields; their methods, and the functions of package [os] and of
    mount-utils that the handlers call directly, are the operations of [nodeE].
    NodeHost.v implements them over the host. *)

From S2P Require Import Prelude GoStrings Json Errors Effects Objects Csi ClientAPI.
From S2P Require Import Controller Mounter.

Local Open Scope string_scope.
Local Open Scope Z_scope.

Module Node.
Inductive method :=
| List                                                    (* DeviceLister.List *)
| MakeFs (device fsType : string)                         (* FsMaker.Make *)
| GetDevicePath (mountPath : string)                      (* DevicePathGetter.Get *)
| MakeDir (path : string) (perm : Z)                      (* dirMaker.Make *)
| IsLikelyNotMountPoint (file : string)                   (* mounter.Mounter *)
| Mount (source target fstype : string) (options : list string)
| Unmount (target : string)
| IsBlockDevice (fullPath : string)
| GetBlockSizeBytes (devicePath : string)
| GetVolumeStats (volumePath : string)
| NeedResize (devicePath deviceMountPath : string)        (* ResizerInterface *)
| Resize (devicePath deviceMountPath : string)
| PathExists (path : string)                              (* mount.PathExists *)
| StatFile (path : string)                                (* package os *)
| OpenFile (path : string) (perm : Z)
| CloseFile (path : string)
| RemoveAll (path : string).

Definition answer (m : method) : Type :=
  match m with
  | List | GetDevicePath _ => result string
  | IsLikelyNotMountPoint _ | IsBlockDevice _ | NeedResize _ _ | Resize _ _ | PathExists _ => result bool
  | GetBlockSizeBytes _ => result Z
  | GetVolumeStats _ => result VolumeStats
  | MakeFs _ _ | MakeDir _ _ | Mount _ _ _ _ | Unmount _ | StatFile _ | OpenFile _ _ | CloseFile _
  | RemoveAll _ => option error
  end.
End Node.

Definition nodeE : signature := Signature Node.method Node.answer.

Definition node (m : Node.method) : prog nodeE (Node.answer m) := call (E := nodeE) m.

(** The fields of [NodeService] besides its interfaces. *)
Record NodeService := NewNodeService { nodeID : string }.

Definition nodeCaps : list NodeServiceCapability_RPC_Type :=
  [STAGE_UNSTAGE_VOLUME; NODE_EXPAND_VOLUME; GET_VOLUME_STATS].

(** ** The device with a serial number *)

Record device := mkDevice { SerialID : string; Path : string; Name : string; Fstype : string }.
Definition zeroDevice : device := mkDevice "" "" "" "".

#[global] Instance device_eq_dec : EqDecision device.
Proof. solve_decision. Defined.

(** The upper-case form under which [json.Unmarshal] compares the names of
    members with those of fields; the long s and the Kelvin sign fold to S, K. *)
Fixpoint foldName (s : string) : string :=
  match s with
  | EmptyString => ""
  | String c s1 =>
      if between 97 122 c then String (byte (code_of c - 32)) (foldName s1)
      else if code_of c =? 0xC5 then
        match s1 with
        | String d s2 => if code_of d =? 0xBF then String "S" (foldName s2) else String c (foldName s1)
        | EmptyString => String c ""
        end
      else if code_of c =? 0xE2 then
        match s1 with
        | String d (String e s3) =>
            if (code_of d =? 0x84) && (code_of e =? 0xAA) then String "K" (foldName s3) else String c (foldName s1)
        | _ => String c (foldName s1)
        end
      else String c (foldName s1)
  end.

(** Decoding into a [string] field: [null] leaves it, another type is an
    error. *)
Definition decode_string (old : string) (v : json) : option string :=
  match v with JStr s => Some s | JNull => Some old | _ => None end.

(** One member decoded into a [device]; unknown members are skipped. *)
Definition decode_field (d : option device) (kv : string * json) : option device :=
  match d with
  | None => None
  | Some (mkDevice serial path name fstype as d) =>
      let f := foldName kv.1 in
      if f =s? "SERIAL" then s ← decode_string serial kv.2; Some (mkDevice s path name fstype)
      else if f =s? "PATH" then s ← decode_string path kv.2; Some (mkDevice serial s name fstype)
      else if f =s? "NAME" then s ← decode_string name kv.2; Some (mkDevice serial path s fstype)
      else if f =s? "FSTYPE" then s ← decode_string fstype kv.2; Some (mkDevice serial path name s)
      else Some d
  end%stdpp.

Definition decode_device (old : device) (v : json) : option device :=
  match v with
  | JNull => Some old
  | JObj members => fold_left decode_field members (Some old)
  | _ => None
  end.

(** The elements of an array decoded into the backing array of a slice. *)
Fixpoint decode_elements (backing : list device) (vs : list json) : option (list device) :=
  match vs with
  | [] => Some backing
  | v :: vs' =>
      match decode_device (default zeroDevice (head backing)) v with
      | None => None
      | Some d => match decode_elements (tail backing) vs' with
                  | Some ds => Some (d :: ds) | None => None end
      end
  end.

(** A slice: its backing array and its length. *)
Definition decode_slice (old : list device * nat) (v : json) : option (list device * nat) :=
  match v with
  | JNull | JArr [] => Some ([], 0%nat)
  | JArr vs => match decode_elements old.1 vs with Some b => Some (b, length vs) | None => None end
  | _ => None
  end.

Definition decode_member (d : option (list device * nat)) (kv : string * json) : option (list device * nat) :=
  match d with
  | None => None
  | Some sl => if foldName kv.1 =s? "BLOCKDEVICES" then decode_slice sl kv.2 else Some sl
  end.

(** [json.Unmarshal(out, &devices)] and [devices.BlockDevices]. *)
Definition Unmarshal (out : string) : list device + error :=
  match Parse out with
  | None => inr JSONSyntaxError
  | Some v =>
      match v with
      | JNull => inl []
      | JObj members =>
          match fold_left decode_member members (Some ([], 0%nat)) with
          | Some (backing, n) => inl (take n backing)
          | None => inr JSONTypeError
          end
      | _ => inr JSONTypeError
      end
  end.

(** The loop of [getDeviceBySerialID]: the first device with the serial. *)
Fixpoint findDevice (serialID : string) (ds : list device) : option device :=
  match ds with
  | [] => None
  | d :: ds' => if SerialID d =s? serialID then Some (mkDevice (SerialID d) ("/dev/" +:+ Name d) (Name d) (Fstype d))
                else findDevice serialID ds'
  end.

Definition getDeviceBySerialID (serialID : string) : prog nodeE (result device) :=
  '(out, err) ← node Node.List;
  match err with
  | Some e =>
      match as_ExitError e with
      | Some (_, stderr) => Ret (zeroDevice, Some (Errorf "%s lsblk failed with %s" [AErr e; AStr stderr]))
      | None => Ret (zeroDevice, Some e)
      end
  | None =>
      match Unmarshal out with
      | inr e => Ret (zeroDevice, Some e)
      | inl devices =>
          match findDevice serialID devices with
          | Some d => Ret (d, None)
          | None => Ret (zeroDevice, Some (errors_New "couldn't find device by serial id"))
          end
      end
  end.

(** ** Validation of requests *)

Definition missing (msg : string) : option error := Some (status_Error InvalidArgument msg).

Definition validateNodeStageVolumeRequest (req : option NodeStageVolumeRequest) : option error :=
  match req with
  | None => missing "missing request"
  | Some req =>
      if is_empty (ns_VolumeId req) then missing "volume ID not provided"
      else if is_empty (ns_StagingTargetPath req) then missing "staging target path not provided"
      else if is_nil (ns_VolumeCapability req) then missing "volume capability not provided"
      else None
  end.

Definition validateNodeUnstageVolumeRequest (req : option NodeUnstageVolumeRequest) : option error :=
  match req with
  | None => missing "missing request"
  | Some req =>
      if is_empty (nu_VolumeId req) then missing "volume ID not provided"
      else if is_empty (nu_StagingTargetPath req) then missing "staging target path not provided"
      else None
  end.

Definition validateRequestCapabilties (req : option NodePublishVolumeRequest) : option error :=
  match req with
  | None => missing "missing request"
  | Some req =>
      if is_empty (np_VolumeId req) then missing "volume ID not provided"
      else if is_empty (np_TargetPath req) then missing "target path not provided"
      else if is_nil (np_VolumeCapability req) then missing "volume capability not provided"
      else None
  end.

Definition validateNodePublishRequest (req : option NodePublishVolumeRequest) : option error :=
  match validateRequestCapabilties req with
  | Some err => Some err
  | None =>
      let cap := match req with Some r => np_VolumeCapability r | None => None end in
      if GetBlock cap && negb (is_nil (GetMount cap))
      then missing "cannot publish volume as both block and filesystem"
      else if is_nil (GetMount cap) && negb (GetBlock cap) then missing "volume mode is not specified"
      else None
  end.

(** [GetVolumeId] and [GetTargetPath] of a possibly nil request. *)
Definition validateNodeUnpublishRequest (req : option NodeUnpublishVolumeRequest) : option error :=
  if is_empty (match req with Some r => nup_VolumeId r | None => "" end) then missing "volume ID not provided"
  else if is_empty (match req with Some r => nup_TargetPath r | None => "" end) then missing "target path not provided"
  else None.

(** ** Stage and unstage *)

Definition NodeStageVolume (req : option NodeStageVolumeRequest) : prog nodeE (result (option NodeStageVolumeResponse)) :=
  match validateNodeStageVolumeRequest req with
  | Some err => Ret (None, Some err)
  | None =>
      req ← deref "req" req;
      match GetMount (ns_VolumeCapability req) with
      | None => Ret (Some mkNodeStageVolumeResponse, None)
      | Some m =>
          '(device, err) ← getDeviceBySerialID (mapget (ns_VolumeContext req) serialParameter);
          if negb (is_nil err) then Ret (None, err)
          else if negb (is_empty (Fstype device)) then Ret (Some mkNodeStageVolumeResponse, None)
          else
            err ← node (Node.MakeFs (Path device) (mv_FsType m));
            if negb (is_nil err) then Ret (None, err) else Ret (Some mkNodeStageVolumeResponse, None)
      end
  end.

Definition NodeUnstageVolume (req : option NodeUnstageVolumeRequest)
    : prog nodeE (result (option NodeUnstageVolumeResponse)) :=
  match validateNodeUnstageVolumeRequest req with
  | Some err => Ret (None, Some err)
  | None => Ret (Some mkNodeUnstageVolumeResponse, None)
  end.

(** ** Publish and unpublish *)

Definition resizeFs (devicePath targetPath : string) : prog nodeE (option error) :=
  '(ok, err) ← node (Node.NeedResize devicePath targetPath);
  match err with
  | Some e => Ret (Some (StatusError Internal "need resize check failed on devicePath %s and targetPath %s, error: %v"
                           [AStr devicePath; AStr targetPath; AErr e]))
  | None =>
      if negb ok then Ret None
      else
        '(ok, err) ← node (Node.Resize devicePath targetPath);
        if negb ok || negb (is_nil err)
        then Ret (Some (StatusError Internal "resize failed on path %s, error: %v"
                          (AStr targetPath :: match err with Some e => [AErr e] | None => [] end)))
        else Ret None
  end.

(** Permission bits [0640] and [0750]. *)
Definition fileMode : Z := 416.
Definition dirMode : Z := 488.

(** The error of the deferred [Close] is only logged. *)
Definition ensureMountFileExists (mountFile : string) : prog nodeE (option error) :=
  err ← node (Node.StatFile mountFile);
  match err with
  | None => Ret None
  | Some e =>
      if errors_Is_NotExist e then
        err ← node (Node.OpenFile mountFile fileMode);
        if negb (is_nil err) then Ret err
        else _ ← node (Node.CloseFile mountFile); Ret err
      else Ret (Some e)
  end.

Definition mountToTargetPath (isBlock : bool) (targetPath : string) (device : device) (fsType : string)
    (mountOptions : list string) : prog nodeE (option error) :=
  err ← (if isBlock then ensureMountFileExists targetPath else node (Node.MakeDir targetPath dirMode));
  if negb (is_nil err) then Ret err
  else node (Node.Mount (Path device) targetPath fsType mountOptions).

(** The options that [NodePublishVolume] mounts with. *)
Definition mountOptionsFor (block : bool) (fsType : string) : list string :=
  if block then ["bind"] else if fsType =s? "xfs" then ["nouuid"] else [].

Definition NodePublishVolume (req : option NodePublishVolumeRequest)
    : prog nodeE (result (option NodePublishVolumeResponse)) :=
  match validateNodePublishRequest req with
  | Some err => Ret (None, Some err)
  | None =>
      req ← deref "req" req;
      let cap := np_VolumeCapability req in
      let fsType := match GetMount cap with Some m => mv_FsType m | None => "" end in
      let block := GetBlock cap in
      let mountOptions := mountOptionsFor block fsType in
      '(device, err) ← getDeviceBySerialID (mapget (np_VolumeContext req) serialParameter);
      if negb (is_nil err) then Ret (None, err) else
      let targetPath := np_TargetPath req in
      '(notMnt, err) ← node (Node.IsLikelyNotMountPoint targetPath);
      match (match err with Some e => if os_IsNotExist e then None else Some e | None => None end) with
      | Some e => Ret (None, Some (StatusError Internal "%v" [AErr e]))
      | None =>
          err ← (if notMnt then mountToTargetPath block targetPath device fsType mountOptions else Ret None);
          if negb (is_nil err) then Ret (None, err) else
          err ← (if negb block then resizeFs (Path device) targetPath else Ret None);
          if negb (is_nil err) then Ret (None, err)
          else Ret (Some mkNodePublishVolumeResponse, None)
      end
  end.

Definition NodeUnpublishVolume (req : option NodeUnpublishVolumeRequest)
    : prog nodeE (result (option NodeUnpublishVolumeResponse)) :=
  match validateNodeUnpublishRequest req with
  | Some err => Ret (None, Some err)
  | None =>
      let targetPath := match req with Some r => nup_TargetPath r | None => "" end in
      err ← node (Node.Unmount targetPath);
      if negb (is_nil err) then Ret (None, err)
      else
        err ← node (Node.RemoveAll targetPath);
        match err with
        | Some e => Ret (None, Some (WrapErrorf "remove target path: %w" [] e))
        | None => Ret (Some mkNodeUnpublishVolumeResponse, None)
        end
  end.

(** ** Statistics and expansion *)

Definition NodeGetVolumeStats (req : option NodeGetVolumeStatsRequest)
    : prog nodeE (result (option NodeGetVolumeStatsResponse)) :=
  let volumeID := match req with Some r => nst_VolumeId r | None => "" end in
  let path := match req with Some r => nst_VolumePath r | None => "" end in
  if is_empty volumeID then Ret (None, missing "NodeGetVolumeStats volume ID was empty")
  else if is_empty path then Ret (None, missing "NodeGetVolumeStats volume path was empty")
  else
    '(exists_, err) ← node (Node.PathExists path);
    match err with
    | Some e => Ret (None, Some (StatusError Internal "unknown error when stat on %s: %v" [AStr path; AErr e]))
    | None =>
        if negb exists_ then Ret (None, Some (StatusError NotFound "path %s does not exist" [AStr path])) else
        '(isBlock, err) ← node (Node.IsBlockDevice path);
        match err with
        | Some e => Ret (None, Some (StatusError Internal "failed to determine whether %s is block device: %v"
                                       [AStr path; AErr e]))
        | None =>
            if isBlock then
              '(bcap, blockErr) ← node (Node.GetBlockSizeBytes path);
              match blockErr with
              | Some e => Ret (None, Some (StatusError Internal "failed to get block capacity on path %s: %v"
                                             [AStr path; AErr e]))
              | None => Ret (Some (mkNodeGetVolumeStatsResponse [mkVolumeUsage BYTES 0 bcap 0]), None)
              end
            else
              '(stats, err) ← node (Node.GetVolumeStats path);
              match err with
              | Some e => Ret (None, Some (StatusError Internal "failed to get fs info on path %s: %v"
                                             [AStr path; AErr e]))
              | None =>
                  let usage := [mkVolumeUsage BYTES (AvailableBytes stats) (TotalBytes stats) (UsedBytes stats)] in
                  let usage :=
                    if negb (TotalInodes stats =? 0)
                    then (usage ++ [mkVolumeUsage INODES (AvailableInodes stats) (TotalInodes stats) (UsedInodes stats)])%list
                    else usage in
                  Ret (Some (mkNodeGetVolumeStatsResponse usage), None)
              end
        end
    end.

Definition NodeExpandVolume (req : option NodeExpandVolumeRequest)
    : prog nodeE (result (option NodeExpandVolumeResponse)) :=
  let volumeID := match req with Some r => ne_VolumeId r | None => "" end in
  let volumePath := match req with Some r => ne_VolumePath r | None => "" end in
  if is_empty volumeID then Ret (None, missing "no volume_id is provided")
  else if is_empty volumePath then Ret (None, missing "no volume_path is provided")
  else
    let block := GetBlock (match req with Some r => ne_VolumeCapability r | None => None end) in
    if block then Ret (Some mkNodeExpandVolumeResponse, None)
    else
      '(devicePath, err) ← node (Node.GetDevicePath volumePath);
      match err with
      | Some e =>
          if negb (errors_Is_MountDeviceNotFound e) then Ret (None, Some e)
          else Ret (None, Some (StatusError NotFound "device path for %s not found" [AStr volumePath]))
      | None =>
          err ← resizeFs devicePath volumePath;
          if negb (is_nil err) then Ret (None, err) else Ret (Some mkNodeExpandVolumeResponse, None)
      end.

(** ** Identity of the node and capabilities *)

Definition NodeGetInfo (n : NodeService) : NodeGetInfoResponse := mkNodeGetInfoResponse (nodeID n).

Definition NodeGetCapabilities : list NodeServiceCapability_RPC_Type :=
  fold_left (fun caps c => caps ++ [c])%list nodeCaps [].

(** ** What a handler saw and may do *)

Local Open Scope list_scope.
Local Open Scope Z_scope.

(** The node was asked [m] and answered [r]. *)
Definition saw (m : Node.method) (r : Node.answer m) (t : trace nodeE) : Prop :=
  Ev (E := nodeE) m r ∈ t.

(** Every call of a run was allowed by [G] when it was made. *)
Definition guarded {E} (G : trace E -> op E -> Prop) (t : trace E) : Prop :=
  forall t1 e t2, t = t1 ++ e :: t2 -> G t1 (ev_op e).

(** The devices were listed, and [d] is the first with the serial. *)
Definition deviceFound (serial : string) (d : device) (t : trace nodeE) : Prop :=
  exists out ds, saw Node.List (out, None) t /\ Unmarshal out = inl ds /\ findDevice serial ds = Some d.

Definition unmountedSeen (target : string) (t : trace nodeE) : Prop :=
  exists err, saw (Node.IsLikelyNotMountPoint target) (true, err) t /\
    match err with Some e => os_IsNotExist e = true | None => True end.

Definition mountedSeen (target : string) (t : trace nodeE) : Prop :=
  exists err, saw (Node.IsLikelyNotMountPoint target) (false, err) t.

(** The mount point exists: a file for a block volume, a directory otherwise. *)
Definition targetReady (block : bool) (target : string) (t : trace nodeE) : Prop :=
  if block then saw (Node.StatFile target) None t \/ saw (Node.OpenFile target fileMode) None t
  else saw (Node.MakeDir target dirMode) None t.

Definition fsTypeOf (cap : option VolumeCapability) : string :=
  match GetMount cap with Some m => mv_FsType m | None => "" end.

(** The calls a publish may make after the calls [t]. *)
Definition nodePublishAllowed (req : NodePublishVolumeRequest) (t : trace nodeE) (m : Node.method) : Prop :=
  let block := GetBlock (np_VolumeCapability req) in
  let fs := fsTypeOf (np_VolumeCapability req) in
  let target := np_TargetPath req in
  let serial := mapget (np_VolumeContext req) serialParameter in
  match m with
  | Node.List => True
  | Node.IsLikelyNotMountPoint p | Node.NeedResize _ p | Node.StatFile p | Node.CloseFile p => p = target
  | Node.MakeDir p perm => block = false /\ p = target /\ perm = dirMode /\ unmountedSeen target t
  | Node.OpenFile p perm => block = true /\ p = target /\ perm = fileMode /\ unmountedSeen target t /\
      exists e, saw (Node.StatFile target) (Some e) t /\ errors_Is_NotExist e = true
  | Node.Mount source p fstype options =>
      p = target /\ fstype = fs /\ options = mountOptionsFor block fs /\ unmountedSeen target t /\
      targetReady block target t /\ exists d, deviceFound serial d t /\ source = "/dev/" +:+ Name d
  | Node.Resize dev p => block = false /\ p = target /\ saw (Node.NeedResize dev target) (true, None) t /\
      exists d, deviceFound serial d t /\ dev = "/dev/" +:+ Name d /\
        (mountedSeen target t \/ saw (Node.Mount dev target fs (mountOptionsFor block fs)) None t)
  | _ => False
  end.

(** What a publish that answers success has seen. *)
Definition published (req : NodePublishVolumeRequest) (t : trace nodeE) : Prop :=
  let block := GetBlock (np_VolumeCapability req) in
  let fs := fsTypeOf (np_VolumeCapability req) in
  let target := np_TargetPath req in
  exists d, deviceFound (mapget (np_VolumeContext req) serialParameter) d t /\
    (mountedSeen target t \/ saw (Node.Mount ("/dev/" +:+ Name d) target fs (mountOptionsFor block fs)) None t) /\
    (block = true \/ saw (Node.NeedResize ("/dev/" +:+ Name d) target) (false, None) t \/
     saw (Node.Resize ("/dev/" +:+ Name d) target) (true, None) t).

(** How an RPC ends: a response without an error on which [P] holds, or an error
    without a response; never a panic. *)
Definition ends {A} (P : Prop) (o : outcome (result (option A))) : Prop :=
  match o with
  | Val (Some _, None) => P
  | Val (None, Some _) => True
  | _ => False
  end.

Lemma saw_snoc m r t : saw m r (t ++ [Ev (E := nodeE) m r]).
Proof. unfold saw. set_solver. Qed.

(** What was seen stays seen. *)
Lemma saw_prefix m r t t' : t `prefix_of` t' -> saw m r t -> saw m r t'.
Proof. intros [l ->]. unfold saw. set_solver. Qed.

Lemma saw_app m r t e : saw m r t -> saw m r (t ++ [e]).
Proof. apply saw_prefix. by apply prefix_app_r. Qed.

Lemma deviceFound_prefix serial d t t' : t `prefix_of` t' -> deviceFound serial d t -> deviceFound serial d t'.
Proof. intros Ht (out & ds & H & Hu & Hf). exists out, ds. by split_and!; [eapply saw_prefix|..]. Qed.

Lemma deviceFound_app serial d t e : deviceFound serial d t -> deviceFound serial d (t ++ [e]).
Proof. apply deviceFound_prefix. by apply prefix_app_r. Qed.

Lemma unmountedSeen_app target t e : unmountedSeen target t -> unmountedSeen target (t ++ [e]).
Proof. intros (err & H & He). exists err. by split; [apply saw_app|]. Qed.

Lemma mountedSeen_app target t e : mountedSeen target t -> mountedSeen target (t ++ [e]).
Proof. intros (err & H). exists err. by apply saw_app. Qed.

Lemma targetReady_app block target t e : targetReady block target t -> targetReady block target (t ++ [e]).
Proof. unfold targetReady. destruct block; intuition auto using saw_app. Qed.

#[export] Hint Resolve saw_snoc saw_app deviceFound_app unmountedSeen_app mountedSeen_app targetReady_app : go.

(** The device found is the first row with the serial, at its path. *)
Lemma findDevice_spec serial ds d : findDevice serial ds = Some d ->
  Path d = "/dev/" +:+ Name d /\ SerialID d = serial /\
  exists before d' after, ds = before ++ d' :: after /\ SerialID d' = serial /\ Name d = Name d' /\
    Fstype d = Fstype d' /\ Forall (fun x => SerialID x <> serial) before.
Proof.
  induction ds as [|x ds IH]; simpl; [done|]. destruct (SerialID x =s? serial) eqn:E; reflect_bools.
  - intros [= <-]. simpl. split_and!; [done..|]. exists [], x, ds. by split_and!.
  - intros H. destruct (IH H) as (Hp & Hs & before & d' & after & -> & H1 & H2 & H3 & Hb).
    split_and!; [done..|]. exists (x :: before), d', after. split_and!; try done. by constructor.
Qed.

(** The lookup of a device makes one call and finds the device or fails. *)
Lemma wp_getDevice (P : protocol nodeE) serial t Q :
  pre P t Node.List ->
  (forall r d, let t' := t ++ [Ev (E := nodeE) Node.List r] in
     deviceFound serial d t' -> Path d = "/dev/" +:+ Name d -> Q t' (Val (d, None))) ->
  (forall r e, Q (t ++ [Ev (E := nodeE) Node.List r]) (Val (zeroDevice, Some e))) ->
  wp P (getDeviceBySerialID serial) t Q.
Proof.
  intros Hp Hd He. unfold getDeviceBySerialID, node, call. cbn [bind wp].
  split; [done|]. intros [out [e|]] _; [destruct (as_ExitError e) as [[]|]; apply He|].
  destruct (Unmarshal out) as [ds|e] eqn:Hu; [|apply He].
  destruct (findDevice serial ds) as [d|] eqn:Hf; [|apply He]. apply Hd.
  - exists out, ds. by split_and!; [apply saw_snoc|..].
  - by apply findDevice_spec in Hf as [Hp' _].
Qed.

(** ** Publish *)

Section Publish.
Variable req : NodePublishVolumeRequest.
Local Abbreviation P := (guard (E := nodeE) (nodePublishAllowed req)).
Local Abbreviation target := (np_TargetPath req).
Local Abbreviation block := (GetBlock (np_VolumeCapability req)).
Local Abbreviation fs := (fsTypeOf (np_VolumeCapability req)).
Local Abbreviation serial := (mapget (np_VolumeContext req) serialParameter).

Lemma wp_ensureMountFileExists t :
  block = true -> unmountedSeen target t ->
  wp P (ensureMountFileExists target) t (fun t' o =>
    match o with Val None => unmountedSeen target t' /\ targetReady true target t' | Val (Some _) => True
            | _ => False end).
Proof.
  intros Hb Hu. unfold ensureMountFileExists, node. psimpl. split; [done|]. intros [e|] _; psimpl.
  - destruct (errors_Is_NotExist e) eqn:He; psimpl; [|done].
    split.
    { split_and!; [done..|by apply unmountedSeen_app|]. exists e. by split; [apply saw_snoc|]. }
    intros [e'|] _; psimpl; [done|].
    split; [done|]. intros r _. psimpl. split; [auto with go|]. right. apply saw_app, saw_snoc.
  - split; [auto with go|]. left. apply saw_snoc.
Qed.

Lemma wp_mountToTargetPath d t :
  unmountedSeen target t -> deviceFound serial d t -> Path d = "/dev/" +:+ Name d ->
  wp P (mountToTargetPath block target d fs (mountOptionsFor block fs)) t (fun t' o =>
    match o with
    | Val None => saw (Node.Mount (Path d) target fs (mountOptionsFor block fs)) None t'
    | Val (Some _) => True
    | _ => False
    end).
Proof.
  intros Hu Hd Hp. unfold mountToTargetPath. apply wp_bind.
  apply wp_mono with (Q := fun t' o => t `prefix_of` t' /\
    match o with Val None => unmountedSeen target t' /\ targetReady block target t' | Val (Some _) => True
            | _ => False end).
  - intros t' [[e|]|m] [Ht H]; psimpl; try done. destruct H as [Hu' Hr]. split.
    + split_and!; [done..|]. exists d. by split; [eapply deviceFound_prefix|].
    + intros [e|] _; [done|]. apply saw_snoc.
  - apply wp_prefix. destruct block eqn:Hb; [by apply wp_ensureMountFileExists|].
    split; [by split_and!|]. intros [e|] _; psimpl; [done|]. split; [auto with go|]. apply saw_snoc.
Qed.

(** The resize of a mounted file system. *)
Lemma wp_resizeFs d t :
  block = false -> deviceFound serial d t -> Path d = "/dev/" +:+ Name d ->
  mountedSeen target t \/ saw (Node.Mount (Path d) target fs (mountOptionsFor block fs)) None t ->
  wp P (resizeFs (Path d) target) t (fun t' o =>
    match o with
    | Val None => saw (Node.NeedResize (Path d) target) (false, None) t' \/
                  saw (Node.Resize (Path d) target) (true, None) t'
    | Val (Some _) => True
    | _ => False
    end).
Proof.
  intros Hb Hd Hp Hm. unfold resizeFs, node. psimpl. split; [done|]. intros [ok [e|]] _; psimpl; [done|].
  destruct ok; psimpl; [|left; apply saw_snoc]. split.
  - split_and!; [done..|apply saw_snoc|]. exists d. split_and!; [auto with go|done|].
    destruct Hm; [left|right]; auto with go.
  - intros [[] [e|]] _; psimpl; try done. right. apply saw_snoc.
Qed.

Lemma wp_NodePublishVolume :
  wp P (NodePublishVolume (Some req)) [] (fun t o => ends (published req t) o).
Proof.
  unfold NodePublishVolume. destruct (validateNodePublishRequest (Some req)); [done|]. psimpl.
  apply wp_bind, wp_getDevice; [done| |done].
  intros r d t' Hd Hp. clearbody t'. psimpl. split; [done|]. intros [notMnt err] _. psimpl.
  set (refused := match err with Some e => _ | None => _ end).
  assert (Hu : refused = None -> match err with Some e => os_IsNotExist e = true | None => True end).
  { subst refused. destruct err as [e|]; [|done]. by destruct (os_IsNotExist e). }
  destruct refused; psimpl; [done|]. specialize (Hu eq_refl).
  set (t1 := t' ++ _). assert (Hd1 : deviceFound serial d t1) by (subst t1; auto with go).
  apply wp_bind. apply wp_mono with (Q := fun t2 o => t1 `prefix_of` t2 /\ match o with
    | Val None => mountedSeen target t2 \/ saw (Node.Mount (Path d) target fs (mountOptionsFor block fs)) None t2
    | Val (Some _) => True | _ => False end).
  - intros t2 [[e|]|m] [Ht H]; psimpl; try done.
    assert (Hd2 : deviceFound serial d t2) by (by eapply deviceFound_prefix).
    apply wp_bind. apply wp_mono with (Q := fun t3 o => t2 `prefix_of` t3 /\ match o with
      | Val None => block = true \/ saw (Node.NeedResize (Path d) target) (false, None) t3 \/
                    saw (Node.Resize (Path d) target) (true, None) t3
      | Val (Some _) => True | _ => False end).
    + intros t3 [[e|]|m] [Ht' Hr]; psimpl; try done. exists d. rewrite <- Hp.
      split_and!; [by eapply deviceFound_prefix| |done].
      destruct H as [[err' H]|H]; [left; exists err'|right]; by eapply saw_prefix.
    + apply wp_prefix. destruct block eqn:Hb; psimpl; [by left|].
      eapply wp_mono; [|apply wp_resizeFs; try done; by rewrite Hb].
      intros t3 [[e|]|m]; naive_solver.
  - apply wp_prefix. destruct notMnt.
    + eapply wp_mono; [|apply wp_mountToTargetPath; [|done|done]].
      * intros t2 [[e|]|m]; naive_solver.
      * exists err. split; [apply saw_snoc|done].
    + psimpl. left. exists err. apply saw_snoc.
Qed.
End Publish.

(** ** Stage *)

(** The calls a stage may make after the calls [t]. *)
Definition nodeStageAllowed (req : NodeStageVolumeRequest) (t : trace nodeE) (m : Node.method) : Prop :=
  match m with
  | Node.List => True
  | Node.MakeFs dev fs => exists d mv,
      deviceFound (mapget (ns_VolumeContext req) serialParameter) d t /\ Fstype d = EmptyString /\
      dev = "/dev/" +:+ Name d /\ GetMount (ns_VolumeCapability req) = Some mv /\ fs = mv_FsType mv
  | _ => False
  end.

(** What a stage that answers success has seen. *)
Definition staged (req : NodeStageVolumeRequest) (t : trace nodeE) : Prop :=
  match GetMount (ns_VolumeCapability req) with
  | None => t = []
  | Some mv => exists d, deviceFound (mapget (ns_VolumeContext req) serialParameter) d t /\
      (Fstype d <> EmptyString \/ saw (Node.MakeFs ("/dev/" +:+ Name d) (mv_FsType mv)) None t)
  end.

Lemma wp_NodeStageVolume req :
  wp (guard (E := nodeE) (nodeStageAllowed req)) (NodeStageVolume (Some req)) [] (fun t o => ends (staged req t) o).
Proof.
  unfold NodeStageVolume. destruct (validateNodeStageVolumeRequest (Some req)); [done|]. psimpl. unfold staged.
  destruct (GetMount (ns_VolumeCapability req)) as [mv|] eqn:Hm; [|done].
  apply wp_bind, wp_getDevice; [done| |done]. intros r d t' Hd Hp. clearbody t'. psimpl.
  destruct (is_empty (Fstype d)) eqn:Hf; psimpl; reflect_bools; [|by exists d; eauto].
  split; [by exists d, mv|]. intros [e|] _; psimpl; [done|].
  exists d. split; [auto with go|]. right. rewrite <- Hp. apply saw_snoc.
Qed.

(** ** Unpublish and expand *)

Definition nodeUnpublishAllowed (target : string) (t : trace nodeE) (m : Node.method) : Prop :=
  match m with
  | Node.Unmount p => p = target
  | Node.RemoveAll p => p = target /\ last t = Some (Ev (E := nodeE) (Node.Unmount target) None)
  | _ => False
  end.

Definition nodeExpandAllowed (path : string) (t : trace nodeE) (m : Node.method) : Prop :=
  match m with
  | Node.GetDevicePath p => p = path
  | Node.NeedResize dev p => p = path /\ saw (Node.GetDevicePath path) (dev, None) t
  | Node.Resize dev p => p = path /\ saw (Node.GetDevicePath path) (dev, None) t /\
      last t = Some (Ev (E := nodeE) (Node.NeedResize dev path) (true, None))
  | _ => False
  end.

(** The file system was seen not to need a resize, or was resized. *)
Definition expanded (req : NodeExpandVolumeRequest) (t : trace nodeE) : Prop :=
  if GetBlock (ne_VolumeCapability req) then t = []
  else exists dev, saw (Node.GetDevicePath (ne_VolumePath req)) (dev, None) t /\
    (last t = Some (Ev (E := nodeE) (Node.NeedResize dev (ne_VolumePath req)) (false, None)) \/
     last t = Some (Ev (E := nodeE) (Node.Resize dev (ne_VolumePath req)) (true, None))).

Lemma wp_NodeUnpublishVolume req :
  wp (guard (E := nodeE) (nodeUnpublishAllowed (nup_TargetPath req))) (NodeUnpublishVolume (Some req)) []
    (fun t o => ends (t = [Ev (E := nodeE) (Node.Unmount (nup_TargetPath req)) None;
                           Ev (E := nodeE) (Node.RemoveAll (nup_TargetPath req)) None]) o).
Proof.
  unfold NodeUnpublishVolume, node. destruct (validateNodeUnpublishRequest (Some req)); [done|]. psimpl.
  split; [done|]. intros [e|] _; psimpl; [done|]. split; [done|]. by intros [e|] _.
Qed.

Lemma wp_NodeExpandVolume req :
  wp (guard (E := nodeE) (nodeExpandAllowed (ne_VolumePath req))) (NodeExpandVolume (Some req)) []
    (fun t o => ends (expanded req t) o).
Proof.
  unfold NodeExpandVolume, resizeFs, node, expanded.
  destruct (is_empty _); [done|]. destruct (is_empty _); [done|].
  destruct (GetBlock _); [done|]. psimpl. split; [done|].
  intros [dev [e|]] _; psimpl; [by destruct (errors_Is_MountDeviceNotFound e)|].
  split; [split; [done|apply saw_snoc]|].
  intros [[] [e|]] _; psimpl; try done.
  - split; [split_and!; [done|apply saw_app, saw_snoc|apply last_snoc]|].
    intros [[] [e|]] _; psimpl; try done. exists dev. split; [auto with go|]. right. apply last_snoc.
  - exists dev. split; [auto with go|]. left. apply last_snoc.
Qed.

(** ** The listing of lsblk *)

(** A row of [lsblk -nJo SERIAL,FSTYPE,NAME]: an absent serial number or file
    system is [null]; partitions are rows below their disk. *)
Record row := mkRow {
  row_serial : option string; row_fstype : option string; row_name : string; row_children : list json }.

Definition json_or_null (s : option string) : json := match s with Some s => JStr s | None => JNull end.

Definition row_json (r : row) : json :=
  JObj ([("serial", json_or_null (row_serial r)); ("fstype", json_or_null (row_fstype r)); ("name", JStr (row_name r))]
        ++ match row_children r with [] => [] | l => [("children", JArr l)] end)%list.

Definition table_json (rows : list row) : json := JObj [("blockdevices"%string, JArr (map row_json rows))].

Definition plain_row (r : row) : bool := plain (maxNestingDepth - 2) (row_json r).

Definition row_device (r : row) : device :=
  mkDevice (default EmptyString (row_serial r)) EmptyString (row_name r) (default EmptyString (row_fstype r)).

Lemma decode_row r : decode_device zeroDevice (row_json r) = Some (row_device r).
Proof. destruct r as [[serial|] [fs|] name [|c cs]]; reflexivity. Qed.

Lemma decode_rows rows : decode_elements [] (map row_json rows) = Some (map row_device rows).
Proof.
  induction rows as [|r rows IH]; [done|]. cbn [map decode_elements head default tail].
  change (default zeroDevice (head [])) with zeroDevice. rewrite decode_row. cbn [tail].
  by rewrite IH.
Qed.

(** Output that reads as a table, however it is laid out. *)
Lemma Unmarshal_parsed out rows : Parse out = Some (table_json rows) -> Unmarshal out = inl (map row_device rows).
Proof.
  intros H. unfold Unmarshal. rewrite H.
  destruct rows as [|r rows]; [reflexivity|].
  cbn [table_json fold_left]. unfold decode_member at 1. cbn [fst snd].
  change (foldName "blockdevices" =s? "BLOCKDEVICES") with true. cbn iota.
  unfold decode_slice. change (map row_json (r :: rows)) with (row_json r :: map row_json rows). cbn iota.
  change (row_json r :: map row_json rows) with (map row_json (r :: rows)). cbn [fst].
  rewrite decode_rows. by rewrite length_map, <- (length_map row_device), firstn_all.
Qed.

Lemma Unmarshal_table rows :
  Forall (fun r => plain_row r = true) rows -> Unmarshal (print (table_json rows)) = inl (map row_device rows).
Proof.
  intros H. apply Unmarshal_parsed, Parse_print.
  cbn [table_json plain]. change (0 <? maxNestingDepth) with true. cbn [forallb fst snd andb].
  change (utf8 0 "blockdevices") with true. cbn [andb plain]. change (0 <? maxNestingDepth - 1) with true.
  cbn [andb]. rewrite andb_true_r. apply forallb_Forall_true. apply Forall_map.
  eapply Forall_impl; [exact H|]. intros x Hx. unfold plain_row in Hx.
  by replace (maxNestingDepth - 1 - 1) with (maxNestingDepth - 2) by lia.
Qed.

Lemma findDevice_rows serial rows :
  findDevice serial (map row_device rows) =
  match List.find (fun r => default EmptyString (row_serial r) =s? serial) rows with
  | Some r => Some (mkDevice serial ("/dev/" +:+ row_name r) (row_name r) (default EmptyString (row_fstype r)))
  | None => None
  end.
Proof.
  induction rows as [|r rows IH]; [done|]. cbn [map findDevice List.find row_device SerialID Name Fstype].
  destruct (_ =s? serial) eqn:E; [|done]. by reflect_bools; subst.
Qed.

(** ** Properties of the handlers over the interfaces *)

Lemma guarded_exec {E W A} (G : trace E -> op E -> Prop) (Q : trace E -> outcome A -> Prop)
    (h : handler E W) (p : prog E A) w :
  wp (guard G) p [] Q ->
  guarded G (run_trace (exec h p w [])) /\ Q (run_trace (exec h p w [])) (run_out (exec h p w [])).
Proof.
  intros H. destruct (wp_exec_guard _ h _ w _ _ H) as [HQ Hg]. split; [|done].
  intros t1 e t2 Ht. eapply Hg; [done|]. simpl. lia.
Qed.


(** An unpublish removes the target path only right after that path was
    unmounted without error, so it never deletes the files of a mounted volume;
    it answers success only when both calls succeeded. *)
Theorem node_unpublish_removes_after_unmount {W} (h : handler nodeE W) w req :
  let r := exec h (NodeUnpublishVolume (Some req)) w [] in
  let target := nup_TargetPath req in
  guarded (nodeUnpublishAllowed target) (run_trace r) /\
  ends (run_trace r = [Ev (E := nodeE) (Node.Unmount target) None; Ev (E := nodeE) (Node.RemoveAll target) None])
    (run_out r).
Proof. intros r target. exact (guarded_exec _ _ h _ w (wp_NodeUnpublishVolume req)). Qed.

(** An expansion resizes the file system of the volume path on the device it
    is mounted from, only right after a check that said a resize is needed, and
    leaves a block volume alone; success means that no resize was needed or that
    the resize was done. *)
Theorem node_expand_resizes_when_needed {W} (h : handler nodeE W) w req :
  let r := exec h (NodeExpandVolume (Some req)) w [] in
  guarded (nodeExpandAllowed (ne_VolumePath req)) (run_trace r) /\ ends (expanded req (run_trace r)) (run_out r).
Proof. intros r. exact (guarded_exec _ _ h _ w (wp_NodeExpandVolume req)). Qed.

(** C22: the device of a serial number is the first row that lsblk lists with it.
    Whenever lsblk succeeds and its output reads as JSON to a table of rows (in any
    layout and with any escapes; absent serial numbers and file systems are [null], partitions
    are below their disks), [getDeviceBySerialID] answers the device node of the
    first top-level row with the serial, its name and its file system, and an error
    when no row has it.  A row without a serial number counts as a row with an empty
    one. *)
Theorem device_lookup_first_match {W} (h : handler nodeE W) w serial out rows :
  (h Node.List w).1 = (out, None) -> Parse out = Some (table_json rows) ->
  run_out (exec h (getDeviceBySerialID serial) w []) = Val
    match List.find (fun r => default EmptyString (row_serial r) =s? serial) rows with
    | Some r => (mkDevice serial ("/dev/" +:+ row_name r) (row_name r) (default EmptyString (row_fstype r)), None)
    | None => (zeroDevice, Some (errors_New "couldn't find device by serial id"))
    end.
Proof.
  intros Hl Hp. unfold getDeviceBySerialID, node. xsimpl. rewrite Hl. xsimpl.
  rewrite (Unmarshal_parsed out rows Hp), findDevice_rows. by destruct (List.find _ rows).
Qed.

(** A node with a root disk of one partition and a hot-plugged disk. *)
Definition demo_rows : list row :=
  [mkRow None None "vda" [row_json (mkRow None (Some "ext4"%string) "vda1" [])];
   mkRow (Some "uid-1"%string) None "sda" []].

(** That node as lsblk -J shows it, line by line; a backquote stands for the
    quotation mark. *)
Fixpoint unquote (s : string) : string :=
  match s with
  | EmptyString => EmptyString
  | String c s => String (if (c =? "`")%char then byte 34 else c) (unquote s)
  end.

Definition demo_output : string := unquote
"{
   `blockdevices`: [
      {
         `serial`: null,
         `fstype`: null,
         `name`: `vda`,
         `children`: [
            {
               `serial`: null,
               `fstype`: `ext4`,
               `name`: `vda1`
            }
         ]
      },{
         `serial`: `uid-1`,
         `fstype`: null,
         `name`: `sda`
      }
   ]
}
".

Definition demo_node : handler nodeE unit := fun o _ =>
  (match o return Node.answer o with
   | Node.List => (demo_output, None)
   | Node.GetDevicePath _ => ("/dev/sda"%string, None)
   | Node.IsLikelyNotMountPoint _ | Node.PathExists _ | Node.NeedResize _ _ | Node.Resize _ _ => (true, None)
   | Node.IsBlockDevice _ => (false, None)
   | Node.GetBlockSizeBytes _ => (1048576, None)
   | Node.GetVolumeStats _ => (exactStats demo_statfs, None)
   | Node.MakeFs _ _ | Node.MakeDir _ _ | Node.Mount _ _ _ _ | Node.Unmount _ | Node.StatFile _
   | Node.OpenFile _ _ | Node.CloseFile _ | Node.RemoveAll _ => None
   end, tt).

Lemma device_lookup_first_match_witness :
  run_out (exec demo_node (getDeviceBySerialID "uid-1") tt []) =
    Val (mkDevice "uid-1" "/dev/sda" "sda" EmptyString, None).
Proof.
  rewrite (device_lookup_first_match demo_node tt "uid-1" demo_output demo_rows); [reflexivity|reflexivity|].
  vm_compute. reflexivity.
Defined.
