(* ===== verification/NodeHost.v ===== *)
(** * The node service on its host

    The constructors of pkg/service/node.go that give [NodeService] its
    interfaces ([NewDeviceLister], [NewDevicePathGetter], [makeFS], ...) and
    pkg/mounter/mount.go: the program over the host of every operation of the
    node service, and what the RPCs of the node do on any host. *)

From S2P Require Import Prelude GoStrings Json Errors Effects Objects Csi ClientAPI.
From S2P Require Import Controller Mounter Node.

Local Open Scope list_scope.
Local Open Scope Z_scope.

Definition lsblk : Host.call := Host.Output "lsblk" ["-nJo"; "SERIAL,FSTYPE,NAME"]%string.

Definition NewDeviceLister_List : prog hostE (result string) := host lsblk.

Definition findmnt (mountPath : string) : Host.call :=
  Host.Output "findmnt" ["-o"; "source"; "--nofsroot"; "--noheadings"; "--target"; mountPath]%string.

Definition NewDevicePathGetter_Get (mountPath : string) : prog hostE (result string) :=
  '(out, err) ← host (findmnt mountPath);
  if negb (is_nil err) then Ret (EmptyString, err)
  else
    let devicePath := TrimSpace out in
    if IsAbs devicePath then Ret (devicePath, None)
    else Ret (EmptyString, Some ErrMountDeviceNotFound).

(** The arguments of the [mkfs] that makes the file system. *)
Definition mkfsArgs (device fsType : string) : option (list string) :=
  if HasPrefix fsType "ext4" then Some ["-m"; "0"; "-F"; "-t"; fsType; device]%string
  else if HasPrefix fsType "xfs" then Some ["-t"; fsType; "-f"; device]%string
  else None.

Definition makeFS (device fsType : string) : prog hostE (option error) :=
  match mkfsArgs device fsType with
  | None => Ret (Some (Errorf "%s is not supported, only xfs and ext4 are supported" [AStr fsType]))
  | Some args =>
      err ← host (Host.Run "mkfs" args);
      match err with
      | None => Ret None
      | Some e =>
          match as_ExitError e with
          | Some (msg, _) => Ret (Some (Errorf "%s mkfs failed with %s" [AErr e; AStr msg]))
          | None => Ret (Some e)
          end
      end
  end.

(** The interfaces that [NewNodeService] sets, and the library functions the
    handlers call. *)
Definition node_implementation (m : Node.method) : prog hostE (Node.answer m) :=
  match m return prog hostE (Node.answer m) with
  | Node.List => NewDeviceLister_List
  | Node.MakeFs device fsType => makeFS device fsType
  | Node.GetDevicePath mountPath => NewDevicePathGetter_Get mountPath
  | Node.MakeDir path perm => host (Host.MkdirAll path perm)
  | Node.IsLikelyNotMountPoint file => host (Host.IsLikelyNotMountPoint file)
  | Node.Mount source target fstype options => host (Host.Mount source target fstype options)
  | Node.Unmount target => host (Host.Unmount target)
  | Node.IsBlockDevice fullPath => Mounter.IsBlockDevice fullPath
  | Node.GetBlockSizeBytes devicePath => Mounter.GetBlockSizeBytes devicePath
  | Node.GetVolumeStats volumePath => Mounter.GetVolumeStats volumePath
  | Node.NeedResize devicePath deviceMountPath => host (Host.NeedResize devicePath deviceMountPath)
  | Node.Resize devicePath deviceMountPath => host (Host.ResizeFs devicePath deviceMountPath)
  | Node.PathExists path => host (Host.PathExists path)
  | Node.StatFile path => host (Host.StatFile path)
  | Node.OpenFile path perm => host (Host.OpenFile path perm)
  | Node.CloseFile path => host (Host.CloseFile path)
  | Node.RemoveAll path => host (Host.RemoveAll path)
  end.

(** A handler of the node service, on its host. *)
Definition on_host {A} (p : prog nodeE A) : prog hostE A := interp (E := nodeE) node_implementation p.

(** ** Stage on the host *)

Definition host_saw (c : Host.call) (r : Host.answer c) (t : trace hostE) : Prop := Ev (E := hostE) c r ∈ t.

(** lsblk listed [d] as the first device with the serial. *)
Definition listed (serial : string) (d : device) (t : trace hostE) : Prop :=
  exists out ds, host_saw lsblk (out, None) t /\ Unmarshal out = inl ds /\ findDevice serial ds = Some d.

(** The commands a stage may run after the calls [t]. *)
Definition hostStageAllowed (req : NodeStageVolumeRequest) (t : trace hostE) (c : Host.call) : Prop :=
  c = lsblk \/
  exists d mv args, listed (mapget (ns_VolumeContext req) serialParameter) d t /\ Fstype d = EmptyString /\
    GetMount (ns_VolumeCapability req) = Some mv /\ mkfsArgs ("/dev/" +:+ Name d) (mv_FsType mv) = Some args /\
    c = Host.Run "mkfs" args.

(** What a stage that answers success leaves: a device with a file system. *)
Definition formatted (req : NodeStageVolumeRequest) (t : trace hostE) : Prop :=
  forall mv, GetMount (ns_VolumeCapability req) = Some mv ->
  exists d, listed (mapget (ns_VolumeContext req) serialParameter) d t /\
    (Fstype d <> EmptyString \/
     exists args, mkfsArgs ("/dev/" +:+ Name d) (mv_FsType mv) = Some args /\ host_saw (Host.Run "mkfs" args) None t).

(** The calls at the interface and the commands that implement them. *)
Definition stage_related (t1 : trace nodeE) (t0 : trace hostE) : Prop :=
  (forall r, saw Node.List r t1 -> host_saw lsblk r t0) /\
  (forall dev fs, saw (Node.MakeFs dev fs) None t1 ->
     exists args, mkfsArgs dev fs = Some args /\ host_saw (Host.Run "mkfs" args) None t0).

Lemma host_saw_snoc c r t : host_saw c r (t ++ [Ev (E := hostE) c r]).
Proof. unfold host_saw. set_solver. Qed.

Lemma host_saw_app c r t e : host_saw c r t -> host_saw c r (t ++ [e]).
Proof. unfold host_saw. set_solver. Qed.

#[export] Hint Resolve host_saw_snoc host_saw_app : go.

Lemma saw_snoc_inv m r t (e : event nodeE) : saw m r (t ++ [e]) -> saw m r t \/ Ev (E := nodeE) m r = e.
Proof. unfold saw. set_solver. Qed.

Lemma listed_of_found serial d t1 t0 : stage_related t1 t0 -> deviceFound serial d t1 -> listed serial d t0.
Proof. intros [Hl _] (out & ds & H & Hu & Hf). exists out, ds. split_and!; [by apply Hl|done..]. Qed.

(** The answer of an event that lists, and the event that makes a file system. *)
Definition list_answer (e : event nodeE) : option (result string) :=
  match e with
  | Ev o r => match o return Node.answer o -> option (result string) with
              | Node.List => Some | _ => fun _ => None end r
  end.

Definition makefs_event (e : event nodeE) : option (string * string * option error) :=
  match e with
  | Ev o r => match o return Node.answer o -> option (string * string * option error) with
              | Node.MakeFs dev fs => fun r => Some (dev, fs, r) | _ => fun _ => None end r
  end.

Lemma saw_list_snoc r t e : saw Node.List r (t ++ [e]) -> saw Node.List r t \/ list_answer e = Some r.
Proof. intros [H|<-]%saw_snoc_inv; [by left|by right]. Qed.

Lemma saw_makefs_snoc dev fs r t e :
  saw (Node.MakeFs dev fs) r (t ++ [e]) -> saw (Node.MakeFs dev fs) r t \/ makefs_event e = Some (dev, fs, r).
Proof. intros [H|<-]%saw_snoc_inv; [by left|by right]. Qed.

(** A longer run of the host keeps the relation. *)
Lemma stage_related_app t1 t0 e : stage_related t1 t0 -> stage_related t1 (t0 ++ [e]).
Proof.
  intros [Hl Hm]. split; [auto with go|].
  intros dev fs (args & Ha & H)%Hm. exists args. auto with go.
Qed.

Lemma wp_stage_implementation req o t1 t0 :
  stage_related t1 t0 -> nodeStageAllowed req t1 o ->
  wp (guard (E := hostE) (hostStageAllowed req)) (node_implementation o) t0 (fun t0' out =>
    match out with Val r => True /\ stage_related (t1 ++ [Ev (E := nodeE) o r]) t0' | Panicked _ => False end).
Proof.
  intros HR. destruct o; try done; cbn [node_implementation nodeStageAllowed].
  - intros _. split; [by left|]. intros r _. psimpl. split; [done|].
    destruct (stage_related_app t1 t0 (Ev (E := hostE) lsblk r) HR) as [Hl Hm]. split.
    + intros r' [H|H]%saw_list_snoc; [by apply Hl|]. injection H as <-. apply host_saw_snoc.
    + intros dev fs [H|H]%saw_makefs_snoc; [by apply Hm|done].
  - intros (d & mv & Hd & Hf & -> & Hmv & ->). unfold makeFS.
    destruct (mkfsArgs _ _) as [args|] eqn:Ha; psimpl.
    + split; [right; exists d, mv, args; by split_and!; [eapply listed_of_found|..]|].
      intros err _.
      assert (HR' : forall e, err = Some e \/ err = None -> forall r, (r = None -> err = None) ->
        stage_related (t1 ++ [Ev (E := nodeE) (Node.MakeFs ("/dev/" +:+ Name d) (mv_FsType mv)) r])
          (t0 ++ [Ev (E := hostE) (Host.Run "mkfs" args) err])).
      { intros _ _ r Hr. destruct (stage_related_app t1 t0 (Ev (E := hostE) (Host.Run "mkfs" args) err) HR) as [Hl Hm].
        split.
        - intros r' [H|H]%saw_list_snoc; [by apply Hl|done].
        - intros dev fs [H|H]%saw_makefs_snoc; [by apply Hm|]. injection H as <- <- Hr0.
          exists args. split; [done|]. rewrite <- (Hr Hr0). apply host_saw_snoc. }
      destruct err as [e|]; psimpl; [|split; [done|by apply (HR' JSONTypeError); [right|]]].
      destruct (as_ExitError e) as [[msg stderr]|]; psimpl; (split; [done|]); by apply (HR' e); [left|].
    + split; [done|]. destruct HR as [Hl Hm]. split.
      * intros r' [H|H]%saw_list_snoc; [by apply Hl|done].
      * intros dev fs [H|H]%saw_makefs_snoc; [by apply Hm|done].
Qed.

Lemma wp_stage_on_host req :
  wp (guard (E := hostE) (hostStageAllowed req)) (on_host (NodeStageVolume (Some req))) []
    (fun t o => ends (formatted req t) o).
Proof.
  eapply wp_mono; [|apply (wp_interp (E := nodeE) (guard (nodeStageAllowed req)) _ stage_related (fun _ => False)
    node_implementation _ [] [] (fun t o => ends (staged req t) o) (wp_stage_implementation req))].
  - intros t [[[resp|] [e|]]|m]; cbn; try by intros (? & ? & ?); try by intros [|(? & ? & ?)].
    + intros (t1 & [Hl Hm] & Hs) mv Hmv. unfold staged in Hs. rewrite Hmv in Hs.
      destruct Hs as (d & Hd & Hf). exists d. split; [by eapply listed_of_found|].
      destruct Hf as [Hf|Hf]; [by left|right]. by apply Hm.
    + by intros [[]|(? & ? & [])].
  - split; unfold saw; set_solver.
  - apply wp_NodeStageVolume.
Qed.

(** ** Panics *)

(** The kernel's answers have a block size other than zero. *)
Definition sized_answer (c : Host.call) : Host.answer c -> Prop :=
  match c return Host.answer c -> Prop with
  | Host.Statfs _ => fun r => r.2 = None -> is_int64 (Bsize r.1) /\ Bsize r.1 <> 0
  | _ => fun _ => True
  end.

Definition sized : protocol hostE := @Protocol hostE (fun _ _ => True) (fun _ => sized_answer).

Definition ended {A} (o : outcome A) : Prop := exists a, o = Val a.
Definition returns {E A} (_ : trace E) (o : outcome A) : Prop := ended o.

(** Closes a program without calls all of whose branches return. *)
Ltac all_return := repeat (case_match; cbn [wp]); by eexists.

Lemma GetVolumeStats_returns path t : wp sized (GetVolumeStats path) t returns.
Proof.
  unfold GetVolumeStats, host. cbn [bind call wp]. split; [done|]. intros [s [e|]] Hs; psimpl; [by eexists|].
  destruct (Hs eq_refl) as [Hw H0]. cbn [fst] in Hw, H0.
  destruct (Bsize s <? 0) eqn:Eb; reflect_bools; [by eexists|].
  assert (Hu : is_uint64 (Bsize s)) by (unfold is_uint64, is_int64, maxInt64, maxUint64 in *; lia).
  rewrite (uint64_id _ Hu), quotient_pos by lia. psimpl. unfold fails.
  generalize (maxUint64 / Bsize s). intros limit. all_return.
Qed.

Lemma node_implementation_returns m t : wp sized (node_implementation m) t returns.
Proof.
  destruct m; try apply GetVolumeStats_returns;
    unfold node_implementation, NewDeviceLister_List, NewDevicePathGetter_Get, makeFS, IsBlockDevice,
      GetBlockSizeBytes, host.
  all: try (split; [done|]; intros r _; by eexists).
  all: try (split; [done|]; intros [r err] _; psimpl; all_return).
  destruct (mkfsArgs _ _); psimpl; [|by eexists]. split; [done|]. intros err _; psimpl. all_return.
Qed.

(** What returns whatever the interfaces answer returns on the host. *)
Lemma on_host_returns {A} (p : prog nodeE A) : wp any p [] returns -> wp sized (on_host p) [] returns.
Proof.
  intros H. eapply wp_mono; [|apply (wp_interp (E := nodeE) any sized (fun _ _ => True) (fun _ => False)
    node_implementation p [] [] returns); try done].
  - intros t [a|m]; [by eexists|]. by intros [[]|(t1 & _ & a & ?)].
  - intros o t1 t0 _ _. eapply wp_mono; [|apply node_implementation_returns]. by intros t [r|m] [a Ha].
Qed.

(** A handler that ends well over the interfaces returns on the host. *)
Lemma ends_returns {A} (G : trace nodeE -> Node.method -> Prop) (p : prog nodeE (result (option A)))
    (Q : trace nodeE -> Prop) :
  wp (guard (E := nodeE) G) p [] (fun t o => ends (Q t) o) -> wp sized (on_host p) [] returns.
Proof.
  intros H. apply on_host_returns. eapply wp_protocol_mono; [| |eapply wp_mono; [|exact H]]; try done.
  intros t [a|m] Ho; [by eexists|done].
Qed.

Lemma NodeGetVolumeStats_returns req : wp any (NodeGetVolumeStats req) [] returns.
Proof.
  unfold NodeGetVolumeStats, node. destruct (is_empty _); [by eexists|]. destruct (is_empty _); [by eexists|].
  psimpl. split; [done|]. intros [ok [e|]] _; psimpl; [by eexists|]. destruct ok; psimpl; [|by eexists].
  split; [done|]. intros [isBlock [e|]] _; psimpl; [by eexists|].
  destruct isBlock; psimpl; (split; [done|]); intros [x [e|]] _; psimpl; by eexists.
Qed.

(** ** Statistics on the host *)

(** The usage reported for a file system. *)
Definition usageOf (s : Statfs_t) : list VolumeUsage :=
  mkVolumeUsage BYTES (Bavail s * Bsize s) (Blocks s * Bsize s) (Z.max 0 (Blocks s - Bfree s) * Bsize s) ::
  (if Files s =? 0 then [] else [mkVolumeUsage INODES (Ffree s) (Files s) (Files s - Ffree s)]).

(** The host has a directory at [path], of a file system [s]. *)
Definition has_filesystem {W} (h : handler hostE W) (path : string) (mode : Z) (s : Statfs_t) : Prop :=
  (forall w, (h (Host.PathExists path) w).1 = (true, None)) /\
  (forall w, (h (Host.Stat path) w).1 = (mode, None)) /\ Z.land mode S_IFMT <> S_IFBLK /\
  (forall w, (h (Host.Statfs path) w).1 = (s, None)).

(** How the RPC ends for the statistics [s]. *)
Definition reported (s : Statfs_t) (o : outcome (result (option NodeGetVolumeStatsResponse))) : Prop :=
  match o with
  | Panicked _ => Bsize s = 0
  | Val (Some resp, None) => 0 < Bsize s /\ reportable s /\ nsr_Usage resp = usageOf s
  | Val (None, Some e) => Bsize s <> 0 /\ ~ (0 < Bsize s /\ reportable s)
  | _ => False
  end.

Lemma reported_of_verdict s (stats : outcome (result VolumeStats)) path :
  stats_verdict s stats ->
  reported s match stats with
    | Panicked m => Panicked m
    | Val (v, Some e) => Val (None, Some (StatusError Internal "failed to get fs info on path %s: %v" [AStr path; AErr e]))
    | Val (v, None) => Val (Some (mkNodeGetVolumeStatsResponse
        (if negb (TotalInodes v =? 0)
         then [mkVolumeUsage BYTES (AvailableBytes v) (TotalBytes v) (UsedBytes v)] ++
              [mkVolumeUsage INODES (AvailableInodes v) (TotalInodes v) (UsedInodes v)]
         else [mkVolumeUsage BYTES (AvailableBytes v) (TotalBytes v) (UsedBytes v)])), None)
    end.
Proof.
  destruct stats as [[v [e|]]|m]; cbn; try done. intros (Hb & Hr & ->). split_and!; [done..|].
  unfold usageOf, exactStats; cbn. by destruct (Files s =? 0).
Qed.

(** The calls made before the end of a run are in its trace. *)
Lemma host_saw_exec {W A} (h : handler hostE W) (p : prog hostE A) w t c r :
  host_saw c r t -> host_saw c r (run_trace (exec h p w t)).
Proof. intros H. destruct (exec_prefix h p w t) as [l ->]. unfold host_saw in *. set_solver. Qed.

(** A run on a host that keeps to [sized] returns. *)
Lemma returns_on_sized {W A} (h : handler hostE W) w (p : prog hostE A) :
  (forall path w s, (h (Host.Statfs path) w).1 = (s, None) -> is_int64 (Bsize s) /\ Bsize s <> 0) ->
  wp sized p [] returns -> ended (run_out (exec h p w [])).
Proof.
  intros Hh Hp. destruct (wp_exec sized h (fun _ _ => True) p w [] returns) as [[a Ha] _]; [|done..|by exists a].
  intros w' t [] _ _; (split; [|done]); try done. intros Hn.
  apply (Hh path w'). by destruct (h _ w').1 as [s err]; simpl in Hn |- *; subst.
Qed.

(** ** Properties *)

(** C20: a stage formats only the blank device of its volume.  On any host, the
    only commands that [NodeStageVolume] runs are lsblk and, after it, the [mkfs]
    of the requested ext4 or xfs type on the device that lsblk listed first with
    the serial number of the volume context, and only if lsblk showed no file
    system on it.  Success means that the device has a file system or that [mkfs]
    succeeded; a block volume needs nothing. *)
Theorem stage_formats_only_blank_device {W} (h : handler hostE W) w req :
  let r := exec h (on_host (NodeStageVolume (Some req))) w [] in
  guarded (hostStageAllowed req) (run_trace r) /\ ends (formatted req (run_trace r)) (run_out r).
Proof. intros r. exact (guarded_exec _ _ h _ w (wp_stage_on_host req)). Qed.

(** C32: a volume context without a serial number makes a stage format another
    disk.  When a valid request for an ext4 or xfs file system has none,
    [NodeStageVolume] takes the first row without a serial number (or with an empty
    one), in the table that the output of lsblk reads to as JSON (in any
    layout): a partitioned root disk for instance.  If lsblk shows no file system on
    it, [mkfs] runs on it with its force flag. *)
Theorem stage_without_serial_formats_first_disk {W} (h : handler hostE W) w req out rows r mv args :
  validateNodeStageVolumeRequest (Some req) = None -> ns_VolumeContext req !! serialParameter = None ->
  GetMount (ns_VolumeCapability req) = Some mv ->
  (h lsblk w).1 = (out, None) -> Parse out = Some (table_json rows) ->
  List.find (fun r => default EmptyString (row_serial r) =s? EmptyString) rows = Some r -> row_fstype r = None ->
  mkfsArgs ("/dev/" +:+ row_name r) (mv_FsType mv) = Some args ->
  exists answer, host_saw (Host.Run "mkfs" args) answer (run_trace (exec h (on_host (NodeStageVolume (Some req))) w [])).
Proof.
  intros Hv Hs Hm Hl Hp Hf Ht Ha. unfold on_host, NodeStageVolume. rewrite Hv. psimpl. rewrite Hm.
  unfold getDeviceBySerialID, node, mapget. rewrite Hs. psimpl. cbn [interp node_implementation default].
  unfold NewDeviceLister_List, host. psimpl. cbn [exec]. rewrite Hl. cbn [fst snd].
  rewrite (Unmarshal_parsed out rows Hp), findDevice_rows, Hf, Ht. psimpl. cbn [Fstype Path default is_empty negb].
  cbn [interp node_implementation]. unfold makeFS. rewrite Ha. unfold host. psimpl. cbn [exec].
  eexists. eapply host_saw_exec, host_saw_snoc.
Qed.

(** A node whose first disk has no serial number, and a volume without one. *)
Definition stage_request (context : gmap string string) : NodeStageVolumeRequest :=
  mkNodeStageVolumeRequest "pvc-1" "/staging"
    (Some (mkVolumeCapability (Some (AccessMount (mkMountVolume "ext4" []))) (Some SINGLE_NODE_WRITER))) context.

Definition demo_host : handler hostE unit := fun o w =>
  match o return Host.answer o * unit with
  | Host.Output name args => ((demo_output, None), tt)
  | o => stats_host demo_statfs o w
  end.

Lemma stage_without_serial_formats_first_disk_witness :
  exists answer, host_saw (Host.Run "mkfs" ["-m"; "0"; "-F"; "-t"; "ext4"; "/dev/vda"]%string) answer
    (run_trace (exec demo_host (on_host (NodeStageVolume (Some (stage_request ∅)))) tt [])).
Proof.
  apply (stage_without_serial_formats_first_disk demo_host tt (stage_request ∅) demo_output demo_rows
    (mkRow None None "vda" [row_json (mkRow None (Some "ext4"%string) "vda1" [])]) (mkMountVolume "ext4" []));
    vm_compute; reflexivity.
Defined.

(** C23: the statistics of a file system are the kernel's.  For a request with a
    volume ID and a path that the host has as a directory of a file system [s],
    the RPC reports the exact sizes in bytes and, unless there are no inodes, the
    exact inode counts, when and only when they fit the message; otherwise it
    answers an error, and only a block size of zero makes it panic. *)
Theorem volume_stats_reported {W} (h : handler hostE W) w id path mode s :
  id <> EmptyString -> path <> EmptyString -> has_filesystem h path mode s -> statfs_widths s ->
  reported s (run_out (exec h (on_host (NodeGetVolumeStats (Some (mkNodeGetVolumeStatsRequest id path)))) w [])).
Proof.
  intros Hid Hpath (He & Hst & Hmode & Hs) Hw. unfold on_host, NodeGetVolumeStats, node. cbn [nst_VolumeId nst_VolumePath].
  rewrite (proj2 (is_empty_false _) Hid), (proj2 (is_empty_false _) Hpath). psimpl.
  cbn [interp node_implementation]. unfold host. psimpl. cbn [exec]. rewrite He. psimpl.
  cbn [interp node_implementation]. unfold IsBlockDevice, host. psimpl. cbn [exec]. rewrite Hst. psimpl.
  rewrite (proj2 (Z.eqb_neq _ _) Hmode). psimpl. cbn [interp node_implementation].
  rewrite exec_bind, (exec_from h (GetVolumeStats path)). cbv zeta. cbn [run_out].
  match goal with |- context [exec h (GetVolumeStats path) ?w0 []] =>
    pose proof (reported_of_verdict s _ path (volume_stats_exact h w0 path s (Hs w0) Hw)) as Hv;
    destruct (exec h (GetVolumeStats path) w0 []) as [[[v [e|]]|m] w1 t1] end;
    cbn [run_out run_world run_trace] in *; psimpl; exact Hv.
Qed.

Lemma volume_stats_reported_witness :
  reported demo_statfs (run_out (exec demo_host
    (on_host (NodeGetVolumeStats (Some (mkNodeGetVolumeStatsRequest "pvc-1" "/mnt")))) tt [])).
Proof.
  apply (volume_stats_reported demo_host tt "pvc-1" "/mnt" 0x4000 demo_statfs); [done|done| |].
  - by split_and!.
  - unfold statfs_widths, is_int64, is_uint64, demo_statfs; cbn. by vm_compute.
Defined.

(** C31: no RPC of the node service panics on a host whose file systems have a
    block size: whatever the request, a nil one included, and whatever the other
    answers, each returns. *)
Theorem node_service_returns {W} (h : handler hostE W) w :
  (forall path w s, (h (Host.Statfs path) w).1 = (s, None) -> is_int64 (Bsize s) /\ Bsize s <> 0) ->
  (forall req, ended (run_out (exec h (on_host (NodeStageVolume req)) w []))) /\
  (forall req, ended (run_out (exec h (on_host (NodeUnstageVolume req)) w []))) /\
  (forall req, ended (run_out (exec h (on_host (NodePublishVolume req)) w []))) /\
  (forall req, ended (run_out (exec h (on_host (NodeUnpublishVolume req)) w []))) /\
  (forall req, ended (run_out (exec h (on_host (NodeGetVolumeStats req)) w []))) /\
  (forall req, ended (run_out (exec h (on_host (NodeExpandVolume req)) w []))).
Proof.
  intros Hh. pose proof (fun A p => @returns_on_sized W A h w p Hh) as He.
  split_and!; intros req; apply He.
  - destruct req; [eapply ends_returns, wp_NodeStageVolume|by eexists].
  - apply on_host_returns. unfold NodeUnstageVolume. destruct (validateNodeUnstageVolumeRequest req); by eexists.
  - destruct req; [eapply ends_returns, wp_NodePublishVolume|by eexists].
  - destruct req; [eapply ends_returns, wp_NodeUnpublishVolume|by eexists].
  - apply on_host_returns, NodeGetVolumeStats_returns.
  - destruct req; [eapply ends_returns, wp_NodeExpandVolume|by eexists].
Qed.

Lemma node_service_returns_witness :
  ended (run_out (exec demo_host (on_host (NodeStageVolume (Some (stage_request ∅)))) tt [])).
Proof. apply (node_service_returns demo_host tt). intros path w s [= <-]. by vm_compute. Defined.
