(* ===== verification/NodeData.v ===== *)
(** * File systems survive the node service

    NodeStageVolume looks at a device and then formats it, without a lock
    (pkg/service/node.go).  As long as no two stages of one volume are in flight,
    which is what the Container Storage Interface asks of the callers, no RPC of
    the node ever replaces a file system, however RPCs of different volumes
    interleave and wherever they are cut; two stages of one volume at once can. *)

From S2P Require Import Prelude GoStrings Errors Effects Goroutines Rely Csi ClientAPI.
From S2P Require Import Controller Json Mounter Node NodeHost.

Local Open Scope list_scope.
Local Open Scope Z_scope.

(** ** The disks of the host *)

(** The disks of a host: [fs w n] is the file system on the device [n], an identity
    that formatting it again would change, and [serial n] its serial number.
    lsblk does not show a file system as absent; mkfs changes only the device it
    is told; nothing else that the node service calls makes or replaces a file
    system. *)
Class Disks {W X : Type} (env : environment hostE W) (fs : W -> string -> option X) (serial : string -> string) : Prop := {
  disks_listed w out w' ds d : env lsblk w (out, None) w' -> Unmarshal out = inl ds -> d ∈ ds ->
    SerialID d = serial (Name d) /\ (Fstype d = EmptyString -> fs w' (Name d) = None);
  disks_mkfs n ty args w r w' : mkfsArgs ("/dev/" +:+ n) ty = Some args -> env (Host.Run "mkfs" args) w r w' ->
    forall n', n' <> n -> fs w' n' = fs w n';
  disks_other o w r w' : (forall args, o <> Host.Run "mkfs" args) -> env o w r w' -> forall n, fs w' n = fs w n }.

(** ** The RPCs of a volume *)

Inductive node_rpc :=
| Stage (req : option NodeStageVolumeRequest)
| Unstage (req : option NodeUnstageVolumeRequest)
| Publish (req : option NodePublishVolumeRequest)
| Unpublish (req : option NodeUnpublishVolumeRequest)
| Stats (req : option NodeGetVolumeStatsRequest)
| Expand (req : option NodeExpandVolumeRequest).

Definition handled {A} (p : prog nodeE A) : prog hostE unit := _ ← on_host p; Ret tt.

Definition handle (r : node_rpc) : prog hostE unit :=
  match r with
  | Stage req => handled (NodeStageVolume req)
  | Unstage req => handled (NodeUnstageVolume req)
  | Publish req => handled (NodePublishVolume req)
  | Unpublish req => handled (NodeUnpublishVolume req)
  | Stats req => handled (NodeGetVolumeStats req)
  | Expand req => handled (NodeExpandVolume req)
  end.

(** The RPCs of one volume, one after the other. *)
Fixpoint one_by_one (l : list node_rpc) : prog hostE unit :=
  match l with [] => Ret tt | r :: l' => _ ← handle r; one_by_one l' end.

(** The stages among them are of the volume with the serial number. *)
Definition of_volume (s : string) (r : node_rpc) : Prop :=
  match r with Stage (Some req) => mapget (ns_VolumeContext req) serialParameter = s | _ => True end.

(** ** No RPC but a stage formats *)

Definition no_mkfs (o : op hostE) : Prop := forall args, o <> Host.Run "mkfs" args.

Definition no_format (m : op nodeE) : Prop := match m with Node.MakeFs _ _ => False | _ => True end.

(** Call by call through a program without loops. *)
Ltac only_calls_of := repeat match goal with
  | |- only _ (Ret _) => done
  | |- only _ (Panic _) => done
  | |- only _ (_ ≫= _) => apply only_bind; [|intros ?]
  | |- only _ (host _) => split; [try done; intros ?; discriminate|by intros]
  | |- only _ (node _) => split; [done|by intros]
  | |- only _ (deref _ ?x) => destruct x
  | |- only _ (if ?b then _ else _) => destruct b
  | |- only _ (match ?x with _ => _ end) => destruct x
  end.

Lemma implementation_no_mkfs m : no_format m -> only (E := hostE) no_mkfs (node_implementation m).
Proof.
  destruct m; try done; intros _; unfold node_implementation, NewDeviceLister_List, NewDevicePathGetter_Get, findmnt,
    Mounter.IsBlockDevice, Mounter.GetBlockSizeBytes, Mounter.GetVolumeStats, quotient, fails; cbv zeta; by only_calls_of.
Qed.

Lemma lookup_no_format serial : only (E := nodeE) no_format (getDeviceBySerialID serial).
Proof. unfold getDeviceBySerialID. by only_calls_of. Qed.

Lemma handled_no_mkfs {A} (p : prog nodeE A) : only (E := nodeE) no_format p -> only (E := hostE) no_mkfs (handled p).
Proof. intros Hp. apply only_bind; [|done]. by apply (only_interp (E := nodeE) no_format); [apply implementation_no_mkfs|]. Qed.

Lemma resizeFs_no_format dev target : only (E := nodeE) no_format (resizeFs dev target).
Proof. unfold resizeFs. by only_calls_of. Qed.

Lemma mountToTargetPath_no_format block target d ty options :
  only (E := nodeE) no_format (mountToTargetPath block target d ty options).
Proof. unfold mountToTargetPath, ensureMountFileExists. by only_calls_of. Qed.

Lemma publish_no_format req : only (E := nodeE) no_format (NodePublishVolume req).
Proof.
  unfold NodePublishVolume. destruct (validateNodePublishRequest req); [done|]. destruct req as [req|]; [|done].
  cbn [deref bind]. cbv zeta. apply only_bind; [apply lookup_no_format|]. intros [d [e|]]; [done|]. cbn [is_nil negb].
  apply only_bind; [by split|]. intros [notMnt err]. destruct (match err with Some e => _ | None => _ end); [done|].
  apply only_bind; [destruct notMnt; [apply mountToTargetPath_no_format|done]|]. intros [e|]; [done|]. cbn [is_nil negb].
  apply only_bind; [destruct (negb _); [apply resizeFs_no_format|done]|]. by intros [e|].
Qed.

Lemma handle_no_mkfs r : match r with Stage _ => False | _ => True end -> only (E := hostE) no_mkfs (handle r).
Proof.
  destruct r as [req|req|req|req|req|req]; try done; intros _; apply handled_no_mkfs.
  - unfold NodeUnstageVolume. by only_calls_of.
  - apply publish_no_format.
  - unfold NodeUnpublishVolume. cbv zeta. by only_calls_of.
  - unfold NodeGetVolumeStats. cbv zeta. by only_calls_of.
  - unfold NodeExpandVolume. cbv zeta. only_calls_of. apply resizeFs_no_format.
Qed.

(** ** What a stage relies on and guarantees *)

Section Safety.
Context {W X : Type} {env : environment hostE W} {fs : W -> string -> option X} {serial : string -> string}.
Context {disks : Disks env fs serial}.

(** The devices of the volume stay as they are. *)
Definition relies (s : string) (w w' : W) : Prop := forall n, serial n = s -> fs w' n = fs w n.

(** No file system is replaced, and the devices of other volumes stay as they
    are. *)
Definition guarantees (s : string) (w w' : W) : Prop :=
  forall n, (forall f, fs w n = Some f -> fs w' n = Some f) /\ (serial n <> s -> fs w' n = fs w n).

#[local] Instance relies_preorder s : PreOrder (relies s).
Proof. split; [by intros w n|]. intros w1 w2 w3 H1 H2 n Hn. by rewrite (H2 n Hn), (H1 n Hn). Qed.

Lemma guarantees_same s w w' : (forall n, fs w' n = fs w n) -> guarantees s w w'.
Proof. intros H n. by rewrite H. Qed.

Lemma wpc_no_mkfs {A} s (p : prog hostE A) w :
  only (E := hostE) no_mkfs p -> wpc (relies s) (guarantees s) env p (fun _ _ => True) w.
Proof using disks.
  apply wpc_only. intros o w1 r w2 Ho He. apply guarantees_same. by eapply disks_other.
Qed.

(** A stage formats the device that it just saw blank. *)
Lemma wpc_stage req w :
  wpc (relies (mapget (ns_VolumeContext req) serialParameter)) (guarantees (mapget (ns_VolumeContext req) serialParameter))
    env (handle (Stage (Some req))) (fun _ _ => True) w.
Proof using disks.
  set (s := mapget (ns_VolumeContext req) serialParameter). unfold handle, handled, on_host, NodeStageVolume.
  destruct (validateNodeStageVolumeRequest (Some req)); [done|]. cbn [deref bind].
  destruct (GetMount (ns_VolumeCapability req)) as [mv|]; [|done]. fold s. unfold getDeviceBySerialID.
  cbn [bind node call interp node_implementation]. unfold NewDeviceLister_List, host. cbn [bind call].
  intros w1 [out err] w2 _ Hl. split; [apply guarantees_same; eapply disks_other; [|exact Hl]; by intros args|].
  destruct err as [e|]; [cbn; by destruct (as_ExitError e) as [[]|]|]. destruct (Unmarshal out) as [ds|e] eqn:Hu; [|done].
  destruct (findDevice s ds) as [d|] eqn:Hf; [|done]. cbn [bind is_nil negb].
  apply findDevice_spec in Hf as (Hp & _ & before & d' & after & -> & Hs & Hn & Hfs & _).
  destruct (is_empty (Fstype d)) eqn:Hb; [|done]. reflect_bools. cbn [negb bind interp node call node_implementation].
  unfold makeFS. rewrite Hp, Hn. destruct (mkfsArgs _ _) as [args|] eqn:Ha; [|done]. unfold host. cbn [bind call].
  destruct (disks_listed w1 out w2 _ d' Hl Hu) as [Hser Hblank]; [set_solver|].
  intros w3 r w4 H3 Hm. split; [|destruct r as [e|]; [cbn; destruct (as_ExitError e) as [[]|]|]; done].
  intros n. destruct (decide (n = Name d')) as [->|Hne].
  - rewrite <- Hser, Hs. split; [|done]. rewrite (H3 (Name d')) by congruence. rewrite Hblank by congruence. done.
  - by rewrite (disks_mkfs _ _ _ _ _ _ Ha Hm n Hne).
Qed.

Lemma wpc_handle s r w : of_volume s r -> wpc (relies s) (guarantees s) env (handle r) (fun _ _ => True) w.
Proof using disks.
  destruct r as [[req|]|req|req|req|req|req]; cbn [of_volume]; [intros <-; apply wpc_stage|intros _..].
  all: apply wpc_no_mkfs; try by apply handle_no_mkfs. done.
Qed.

Lemma wpc_one_by_one s l w :
  Forall (of_volume s) l -> wpc (relies s) (guarantees s) env (one_by_one l) (fun _ _ => True) w.
Proof using disks.
  intros H. revert w. induction H as [|r l Hr _ IH]; intros w; simpl; [done|].
  apply wpc_bind; [apply _|]. eapply wpc_mono; [|by apply wpc_handle]. intros [[]|m] w' _; [apply IH|done].
Qed.
End Safety.

(** ** Properties *)


(** *** A node with two disks *)

(** Every file system that is made has a new identity. *)
Record disks_world := mkDisksWorld { made : nat; on_disk : gmap string nat }.

Definition disk_serial (n : string) : string :=
  if n =s? "sda" then "uid-a" else if n =s? "sdb" then "uid-b" else "".

Definition disk_row (w : disks_world) (n : string) : row :=
  mkRow (Some (disk_serial n)) (match on_disk w !! n with Some _ => Some "ext4"%string | None => None end) n [].

Definition disk_rows (w : disks_world) : list row := map (disk_row w) ["sda"; "sdb"]%string.

Definition mkfs_disk (device : string) (w : disks_world) : disks_world :=
  if HasPrefix device "/dev/" then
    mkDisksWorld (S (made w)) (<[String.substring 5 (String.length device - 5) device := made w]> (on_disk w))
  else w.

Definition disks_host : handler hostE disks_world := fun o w =>
  match o return Host.answer o * disks_world with
  | Host.Output name args => if name =s? "lsblk" then ((print (table_json (disk_rows w)), None), w) else (("", None), w)
  | Host.Run name args => (None, if name =s? "mkfs" then mkfs_disk (default ""%string (last args)) w else w)
  | o => ((stats_host demo_statfs o tt).1, w)
  end.

Lemma substring_dev n : String.substring 5 (String.length ("/dev/" +:+ n) - 5) ("/dev/" +:+ n) = n.
Proof.
  replace (String.length ("/dev/" +:+ n) - 5)%nat with (String.length n) by (rewrite length_append; simpl String.length; lia).
  change (String.substring 0 (String.length n) n = n). induction n as [|c n IH]; [done|]. cbn. by rewrite IH.
Qed.

#[local] Instance disks_host_disks : Disks (of_handler disks_host) (fun w n => on_disk w !! n) disk_serial.
Proof.
  split.
  - intros w out w' ds d He Hu Hd. unfold of_handler in He. cbn in He. injection He as <- <-.
    change (Unmarshal (print (table_json (disk_rows w))) = inl ds) in Hu. rewrite Unmarshal_table in Hu.
    2:{ unfold disk_rows. repeat constructor; unfold disk_row; by destruct (on_disk w !! _). }
    injection Hu as <-. unfold disk_rows in Hd. cbn in Hd.
    rewrite !elem_of_cons, elem_of_nil in Hd. destruct Hd as [->|[->|[]]]; cbn; (split; [done|]); by destruct (on_disk w !! _).
  - intros n ty args w r w' Ha He n' Hn. unfold of_handler in He. cbn in He. injection He as _ <-.
    assert (Hl : last args = Some ("/dev/" +:+ n)) by (unfold mkfsArgs in Ha; by repeat case_match; simplify_eq).
    rewrite Hl. cbn [default]. change (id ?x) with x. unfold mkfs_disk. rewrite substring_dev.
    rewrite HasPrefix_app. cbn [on_disk]. by apply lookup_insert_ne.
  - intros o w r w' Ho He n. unfold of_handler in He. destruct o; cbn in He; repeat case_match; simplify_eq; try done.
    reflect_bools. subst. by destruct (Ho args).
Qed.

Definition disk_stage (serial : string) : node_rpc := Stage (Some (stage_request {["serial" := serial]})).

(** Two volumes, staged at the same time, one of them twice. *)
Definition disk_workers : list (string * list node_rpc) :=
  [("uid-a", [disk_stage "uid-a"]); ("uid-b", [disk_stage "uid-b"; disk_stage "uid-b"])]%string.

Definition run_disks (l : list nat) (st : disks_world * list (prog hostE unit)) : disks_world * list (prog hostE unit) :=
  default st (run_schedule (fun _ o w => Some (disks_host o w)) l st).

Definition disks_before := run_disks [1; 0; 1]%nat (mkDisksWorld 0 ∅, map (fun x => one_by_one x.2) disk_workers).
Definition disks_after := run_disks [1; 0]%nat disks_before.

Lemma run_disks_steps l st :
  match run_schedule (fun _ o w => Some (disks_host o w)) l st with Some _ => true | None => false end = true ->
  rtc (step (fun _ => of_handler disks_host)) st (run_disks l st).
Proof.
  unfold run_disks. destruct (run_schedule _ l st) as [st'|] eqn:H; [intros _|done]. eapply run_schedule_steps; [|exact H].
  intros i o w a w' Ho. unfold of_handler. by injection Ho.
Qed.


(** Two stages of one volume at once: both see the disk blank, and the second
    [mkfs] replaces the file system of the first, which answered success. *)
Definition racing_stages : disks_world * list (prog hostE unit) :=
  (mkDisksWorld 0 ∅, [handle (disk_stage "uid-a"); handle (disk_stage "uid-a")]).

Example stages_race :
  let first := run_disks [0; 1; 0]%nat racing_stages in
  first.2 !! 0%nat = Some (Ret tt) /\ on_disk first.1 !! "sda"%string = Some 0%nat /\
  on_disk (run_disks [1]%nat first).1 !! "sda"%string = Some 1%nat.
Proof. by vm_compute. Qed.
