(* ===== verification/Volumes.v ===== *)
(** * Volumes: creation, deletion, validation, expansion

    The volume RPCs of pkg/service/controller.go as programs over the [Client]
    interface, and what they guarantee. *)

From S2P Require Import Prelude GoStrings Errors Effects Wait Objects Csi Util ClientAPI Fixtures Controller.
Import Client.

Local Open Scope Z_scope.

Section Service.
Variable c : ControllerService.

(** ** CreateVolume *)

Definition validateCreateVolumeRequest (req : option CreateVolumeRequest) : result bool :=
  match req with
  | None => (false, Some (status_Error InvalidArgument "missing request"))
  | Some req =>
      if is_empty (cv_Name req) then
        (false, Some (status_Error InvalidArgument "name missing in request"))
      else match cv_VolumeCapabilities req with
      | None => (false, Some (status_Error InvalidArgument "volume capabilities missing in request"))
      | Some caps =>
          let '(isBlock, isRWX, err) := getAccessMode caps in
          if negb (is_nil err) then (false, err)
          else if isRWX && negb isBlock then
            (false, Some (status_Error InvalidArgument "non-block volume with RWX access mode is not supported"))
          else if AllowAll (storageClassEnforcement c) then (isRWX, None)
          else
            let storageClassName := mapget (cv_Parameters req) InfraStorageClassNameParameter in
            if is_empty storageClassName then
              if AllowDefault (storageClassEnforcement c) then (isRWX, None)
              else (false, Some unallowedStorageClass)
            else if negb (Contains (AllowList (storageClassEnforcement c)) storageClassName) then
              (false, Some unallowedStorageClass)
            else (isRWX, None)
      end
  end.

Definition determineDvSource (req : CreateVolumeRequest) : prog clientE (result (option DataVolumeSource)) :=
  match cv_VolumeContentSource req with
  | Some source =>
      match cs_Type source with
      | Some (SourceSnapshot id) =>
          let snapshotId := default "" id in
          '(snapshot, err) ← invoke (GetVolumeSnapshot (infraClusterNamespace c) snapshotId);
          if IsNotFound err then
            Ret (None, Some (StatusError NotFound "source snapshot content %s not found" [AStr snapshotId]))
          else if negb (is_nil err) then Ret (None, err)
          else match snapshot, id with
               | Some snapshot, Some _ =>
                   Ret (Some (mkDataVolumeSource None
                          (Some (mkNamedRef (snap_Name snapshot) (infraClusterNamespace c))) false), None)
               | _, _ => Ret (Some (mkDataVolumeSource None None false), None)
               end
      | Some (SourceVolume id) =>
          let volumeId := default "" id in
          '(volume, err) ← invoke (GetDataVolume (infraClusterNamespace c) volumeId);
          if IsNotFound err then
            Ret (None, Some (StatusError NotFound "source volume content %s not found" [AStr volumeId]))
          else if negb (is_nil err) then Ret (None, err)
          else match volume, id with
               | Some volume, Some _ =>
                   Ret (Some (mkDataVolumeSource
                          (Some (mkNamedRef (dv_Name volume) (infraClusterNamespace c))) None false), None)
               | _, _ => Ret (Some (mkDataVolumeSource None None false), None)
               end
      | None => Ret (None, Some (status_Error InvalidArgument "unknown content type"))
      end
  | None => Ret (Some (mkDataVolumeSource None None true), None)
  end.

(** The [DataVolume] object that [CreateVolume] builds from the request, the
    source that [determineDvSource] gave and the access mode. *)
Definition newDataVolume (req : CreateVolumeRequest) (source : DataVolumeSource) (isRWX : bool) : DataVolume :=
  let storageClassName := mapget (cv_Parameters req) InfraStorageClassNameParameter in
  let storageSize := GetRequiredBytes (cv_CapacityRange req) in
  let '(sourcePVCName, source) :=
    match src_PVC source with
    | Some pvc => (nr_Name pvc, None)
    | None => ("", Some source)
    end in
  {| dv_Name := cv_Name req;
     dv_Namespace := infraClusterNamespace c;
     dv_UID := "";
     dv_Labels := infraClusterLabels c;
     dv_Annotations := {["cdi.kubevirt.io/storage.deleteAfterCompletion" := "false"]};
     dv_Storage := Some {|
       st_Requests := {[ResourceStorage := NewScaledQuantity storageSize 0]};
       st_AccessModes := if isRWX then [ReadWriteMany] else [];
       st_StorageClassName := if is_empty storageClassName then None else Some storageClassName;
       st_DataSourceRef := if is_empty sourcePVCName then None
                           else Some (mkTypedObjectReference "PersistentVolumeClaim" sourcePVCName) |};
     dv_Source := source |}.

Definition CreateVolume (req : option CreateVolumeRequest) : prog clientE (result (option CreateVolumeResponse)) :=
  let '(isRWX, err) := validateCreateVolumeRequest req in
  if negb (is_nil err) then Ret (None, err) else
  req ← deref "req" req;
  let storageSize := GetRequiredBytes (cv_CapacityRange req) in
  let dvName := cv_Name req in
  let bus := default busDefaultValue (cv_Parameters req !! busParameter) in
  '(source, err) ← determineDvSource req;
  if negb (is_nil err) then Ret (None, err) else
  source ← deref "source" source;
  let dv := newDataVolume req source isRWX in
  let respond (dv : option DataVolume) :=
    dv ← deref "dv" dv;
    Ret (Some (mkCreateVolumeResponse {|
      v_CapacityBytes := storageSize;
      v_VolumeId := dvName;
      v_VolumeContext := <[busParameter := bus]> {[serialParameter := dv_UID dv]};
      v_ContentSource := cv_VolumeContentSource req |}), None) in
  '(existingDv, err) ← invoke (GetDataVolume (infraClusterNamespace c) dvName);
  if IsNotFound err then
    '(dv, err) ← invoke (CreateDataVolume (infraClusterNamespace c) dv);
    if negb (is_nil err) then Ret (None, err) else respond dv
  else if negb (is_nil err) then Ret (None, err)
  else
    match existingDv with
    | Some (mkDataVolume _ _ _ _ _ (Some st) _ as existing) =>
        let existingRequest := storage_of (st_Requests st) in
        let newRequest := NewScaledQuantity storageSize 0 in
        match Cmp newRequest existingRequest with
        | Eq => respond (Some existing)
        | _ => Ret (None, Some (status_Error AlreadyExists "Requested storage size does not match existing size"))
        end
    | _ => respond (Some dv)
    end.

(** ** DeleteVolume *)

Definition validateDeleteVolumeRequest (req : option DeleteVolumeRequest) : option error :=
  match req with
  | None => Some (status_Error InvalidArgument "missing request")
  | Some req =>
      if is_empty (delv_VolumeId req) then Some (status_Error InvalidArgument "Volume ID missing in request")
      else None
  end.

Definition DeleteVolume (req : option DeleteVolumeRequest) : prog clientE (result (option DeleteVolumeResponse)) :=
  let err := validateDeleteVolumeRequest req in
  if negb (is_nil err) then Ret (None, err) else
  req ← deref "req" req;
  err ← invoke (DeleteDataVolume (infraClusterNamespace c) (delv_VolumeId req));
  if negb (is_nil err) then Ret (None, err)
  else Ret (Some mkDeleteVolumeResponse, None).

(** ** ValidateVolumeCapabilities *)

Definition ValidateVolumeCapabilities (req : option ValidateVolumeCapabilitiesRequest)
    : prog clientE (result (option ValidateVolumeCapabilitiesResponse)) :=
  let volumeId := match req with Some r => vv_VolumeId r | None => "" end in
  if is_empty volumeId then Ret (None, Some (status_Error InvalidArgument "volume ID not provided"))
  else
    req ← deref "req" req;
    match vv_VolumeCapabilities req with
    | [] => Ret (None, Some (StatusError InvalidArgument "volumeCapabilities not provided for %s" [AStr volumeId]))
    | caps =>
        if existsb (fun capability => is_nil (GetMount capability)) caps then
          Ret (None, Some (status_Error InvalidArgument "mount type is undefined"))
        else
          '(_, err) ← invoke (GetDataVolume (infraClusterNamespace c) volumeId);
          if IsNotFound err then Ret (None, Some (StatusError NotFound "volume %s not found" [AStr volumeId]))
          else if negb (is_nil err) then Ret (None, err)
          else Ret (Some (mkValidateVolumeCapabilitiesResponse
                 (vv_VolumeContext req) (vv_VolumeCapabilities req) (vv_Parameters req)), None)
    end.

(** ** ControllerExpandVolume *)

Definition ControllerExpandVolume (req : option ControllerExpandVolumeRequest)
    : prog clientE (result (option ControllerExpandVolumeResponse)) :=
  let volumeID := match req with Some r => ce_VolumeId r | None => "" end in
  if is_empty volumeID then Ret (None, Some (status_Error InvalidArgument "Volume ID not provided")) else
  match (match req with Some r => ce_CapacityRange r | None => None end) with
  | None => Ret (None, Some (status_Error InvalidArgument "Capacity range not provided"))
  | Some capRange =>
      let newSize := RequiredBytes capRange in
      let isBlock := GetBlock (match req with Some r => ce_VolumeCapability r | None => None end) in
      err ← invoke (ExpandPersistentVolumeClaim (infraClusterNamespace c) volumeID newSize);
      match err with
      | Some e =>
          if negb (IsNotFound err) then
            Ret (None, Some (StatusError Internal "Failed to expand PVC %s: %v" [AStr volumeID; AErr e]))
          else Ret (None, Some (StatusError NotFound "volume %s not found" [AStr volumeID]))
      | None =>
          err ← invoke (EnsureControllerResize (infraClusterNamespace c) volumeID (Minute * 2));
          if negb (is_nil err) then Ret (None, err)
          else Ret (Some (mkControllerExpandVolumeResponse newSize (negb isBlock)), None)
      end
  end.
End Service.

(** ** Access modes *)

(** The capabilities of a request that state an access mode. *)
Definition statedModes (caps : list (option VolumeCapability)) : list AccessMode_Mode :=
  omap GetAccessMode caps.

(** The verdict on the mode stated last; the zero results when none is. *)
Definition lastMode (caps : list (option VolumeCapability)) : result bool :=
  match last (statedModes caps) with
  | Some m => hasRWXCapabiltyAccessMode (Some m)
  | None => (false, None)
  end.

Lemma statedModes_snoc caps cap :
  statedModes (caps ++ [cap]) = statedModes caps ++ match GetAccessMode cap with Some m => [m] | None => [] end.
Proof. unfold statedModes. rewrite omap_app. simpl. by destruct (GetAccessMode cap). Qed.

Lemma getAccessMode_spec caps : getAccessMode caps = (existsb GetBlock caps, (lastMode caps).1, (lastMode caps).2).
Proof.
  induction caps as [|cap caps IH] using rev_ind; [done|].
  unfold getAccessMode in *. rewrite fold_left_app, IH, existsb_app. cbn [fold_left existsb].
  unfold getAccessMode_step, lastMode. rewrite statedModes_snoc.
  destruct cap as [cap|]; cbn [GetAccessMode]; [|by rewrite app_nil_r, !orb_false_r].
  destruct (vc_AccessMode cap) as [m|].
  - rewrite last_snoc. destruct (hasRWXCapabiltyAccessMode (Some m)) as [r err].
    by destruct (GetBlock (Some cap)), (existsb GetBlock caps).
  - rewrite app_nil_r. by destruct (GetBlock (Some cap)), (existsb GetBlock caps).
Qed.

(** ** What CreateVolume accepts *)

(** The storage class policy of the administrator. *)
Definition storageClassAllowed (e : StorageClassEnforcement) (class : string) : Prop :=
  AllowAll e = true \/ (class = "" /\ AllowDefault e = true) \/ (class <> "" /\ class ∈ AllowList e).

(** A request the driver accepts, and whether the volume is RWX. *)
Definition acceptable (c : ControllerService) (req : CreateVolumeRequest) (isRWX : bool) : Prop :=
  cv_Name req <> "" /\
  (exists caps, cv_VolumeCapabilities req = Some caps /\ lastMode caps = (isRWX, None) /\
     (isRWX = true -> exists cap, cap ∈ caps /\ GetBlock cap = true)) /\
  storageClassAllowed (storageClassEnforcement c) (mapget (cv_Parameters req) InfraStorageClassNameParameter).

(** The policy as the code tests it, in the order of the code. *)
Lemma policy_spec e class (isRWX r : bool) :
  (if AllowAll e then (isRWX, None)
   else if is_empty class then if AllowDefault e then (isRWX, None) else (false, Some unallowedStorageClass)
   else if negb (Contains (AllowList e) class) then (false, Some unallowedStorageClass)
   else (isRWX, None)) = (r, @None error) <-> storageClassAllowed e class /\ r = isRWX.
Proof.
  unfold storageClassAllowed. destruct (AllowAll e); [naive_solver|].
  destruct (is_empty class) eqn:Hc; reflect_bools; [destruct (AllowDefault e); naive_solver|].
  destruct (Contains _ class) eqn:Hl; reflect_contains; naive_solver.
Qed.

Lemma validate_acceptable c req isRWX :
  validateCreateVolumeRequest c (Some req) = (isRWX, None) <-> acceptable c req isRWX.
Proof.
  unfold validateCreateVolumeRequest, acceptable.
  set (class := mapget _ _). destruct (is_empty (cv_Name req)) eqn:Hn; reflect_bools; [naive_solver|].
  destruct (cv_VolumeCapabilities req) as [caps|]; [|naive_solver].
  transitivity (exists rwx, lastMode caps = (rwx, None) /\ (rwx = true -> existsb GetBlock caps = true) /\
    storageClassAllowed (storageClassEnforcement c) class /\ isRWX = rwx).
  - rewrite getAccessMode_spec. destruct (lastMode caps) as [rwx err]. cbn [fst snd].
    destruct err as [e|]; cbn [is_nil negb]; [naive_solver|].
    destruct rwx, (existsb GetBlock caps); cbn [andb negb]; [|naive_solver|..].
    all: rewrite policy_spec; naive_solver.
  - setoid_rewrite existsb_In. naive_solver.
Qed.

(** ** What CreateVolume does *)

(** Where the source of a new DataVolume comes from: nothing asked for gives a
    blank disk, a snapshot or a volume must have been seen to exist. *)
Definition sourceSeen (c : ControllerService) (req : CreateVolumeRequest) (source : DataVolumeSource)
    (t : trace clientE) : Prop :=
  let ns := infraClusterNamespace c in
  match cv_VolumeContentSource req with
  | None => source = mkDataVolumeSource None None true
  | Some (mkVolumeContentSource (Some (SourceSnapshot id))) =>
      exists snapshot, answered (GetVolumeSnapshot ns (default "" id)) (snapshot, None) t /\
        source = mkDataVolumeSource None
          (_ ← id; s ← snapshot; Some (mkNamedRef (snap_Name s) ns))%stdpp false
  | Some (mkVolumeContentSource (Some (SourceVolume id))) =>
      exists volume, answered (GetDataVolume ns (default "" id)) (volume, None) t /\
        source = mkDataVolumeSource (_ ← id; v ← volume; Some (mkNamedRef (dv_Name v) ns))%stdpp None false
  | Some (mkVolumeContentSource None) => False
  end.

Lemma wp_determineDvSource (c : ControllerService) (req : CreateVolumeRequest) (P : protocol clientE)
    (t : trace clientE) :
  (forall t m, is_write m = false -> pre P t m) ->
  wp P (determineDvSource c req) t (fun t' o => match o with
    | Val (None, err) => err <> None
    | Val (Some source, None) => sourceSeen c req source t'
    | _ => False
    end).
Proof.
  intros HP. unfold determineDvSource, sourceSeen.
  destruct (cv_VolumeContentSource req) as [[[[id|id]|]]|]; [| |done|done].
  - split; [by apply HP|]. intros [snapshot err] _. psimpl.
    destruct (IsNotFound err); psimpl; [done|]. destruct err; psimpl; [done|].
    destruct snapshot, id; simpl; eexists; (split; [apply answered_snoc|]); done.
  - split; [by apply HP|]. intros [volume err] _. psimpl.
    destruct (IsNotFound err); psimpl; [done|]. destruct err; psimpl; [done|].
    destruct volume, id; simpl; eexists; (split; [apply answered_snoc|]); done.
Qed.

(** When a create may create: an acceptable request, right after the name was
    looked up and not found, the DataVolume that the request describes. *)
Definition createAllowed (c : ControllerService) (req : CreateVolumeRequest) (t : trace clientE)
    (m : op clientE) : Prop :=
  let ns := infraClusterNamespace c in
  match m with
  | CreateDataVolume ns' dv =>
      ns' = ns /\
      (exists isRWX source, acceptable c req isRWX /\ sourceSeen c req source t /\
         dv = newDataVolume c req source isRWX) /\
      (exists dv0 err, just_answered (GetDataVolume ns (cv_Name req)) (dv0, err) t /\ IsNotFound err = true)
  | _ => is_write m = false
  end.

(** The answer to a create, given the serial of the disk. *)
Definition createResponse (req : CreateVolumeRequest) (serial : string) : CreateVolumeResponse :=
  mkCreateVolumeResponse {|
    v_CapacityBytes := GetRequiredBytes (cv_CapacityRange req);
    v_VolumeId := cv_Name req;
    v_VolumeContext := <[busParameter := default busDefaultValue (cv_Parameters req !! busParameter)]>
                         {[serialParameter := serial]};
    v_ContentSource := cv_VolumeContentSource req |}.

(** The serial that a create answers: the UID of the DataVolume it created, or
    of the one it found with the size asked for.  A DataVolume found without a
    [Storage] stanza leaves the serial empty. *)
Definition serialSeen (c : ControllerService) (req : CreateVolumeRequest) (serial : string)
    (t : trace clientE) : Prop :=
  let ns := infraClusterNamespace c in
  (exists dv0 dv, just_answered (CreateDataVolume ns dv0) (Some dv, None) t /\ serial = dv_UID dv) \/
  (exists dv st, just_answered (GetDataVolume ns (cv_Name req)) (Some dv, None) t /\
     dv_Storage dv = Some st /\
     Cmp (NewQuantity (GetRequiredBytes (cv_CapacityRange req))) (storage_of (st_Requests st)) = Eq /\
     serial = dv_UID dv) \/
  (exists dv, just_answered (GetDataVolume ns (cv_Name req)) (dv, None) t /\ dv ≫= dv_Storage = None /\
     serial = "")%stdpp.

Definition createPost (c : ControllerService) (req : CreateVolumeRequest) (t : trace clientE)
    (o : outcome (result (option CreateVolumeResponse))) : Prop :=
  match o with
  | Val (Some _, Some _) => False
  | Val (Some resp, None) => exists serial, resp = createResponse req serial /\ serialSeen c req serial t
  | Val (None, err) => err <> None
  | Panicked _ => exists dv0, just_answered (CreateDataVolume (infraClusterNamespace c) dv0) (None, None) t
  end.

(** The object sent to the API server has no UID. *)
Lemma newDataVolume_UID c req source isRWX : dv_UID (newDataVolume c req source isRWX) = "".
Proof. unfold newDataVolume. by destruct (src_PVC source). Qed.

(** What is kept when the trace grows. *)
Lemma sourceSeen_snoc c req source t e :
  sourceSeen c req source t -> sourceSeen c req source (t ++ [e]).
Proof.
  unfold sourceSeen. destruct (cv_VolumeContentSource req) as [[[[id|id]|]]|]; [| |done|done].
  all: intros (x & ? & ->); exists x; eauto with go.
Qed.

Lemma wp_CreateVolume c req :
  wp (guard (createAllowed c req)) (CreateVolume c (Some req)) [] (createPost c req).
Proof.
  unfold CreateVolume. destruct (validateCreateVolumeRequest c (Some req)) as [isRWX err] eqn:Hv.
  destruct err as [e|]; psimpl; [done|]. apply validate_acceptable in Hv.
  apply wp_bind. eapply wp_mono; [|apply wp_determineDvSource; by intros ? []].
  intros t [[source err]|m]; psimpl; [|done]. destruct source as [source|]; [|by destruct err].
  destruct err as [e|]; [done|]. psimpl. intros Hs. split; [done|]. intros [existing err] _. psimpl.
  destruct (IsNotFound err) eqn:Hnf; psimpl.
  - split.
    { split; [done|]. split; [eauto 6 using sourceSeen_snoc|]. exists existing, err. eauto with go. }
    intros [dv err'] _. psimpl. destruct err' as [e|]; psimpl; [done|].
    destruct dv as [dv|]; psimpl; [|eexists; apply just_answered_snoc].
    exists (dv_UID dv). split; [done|]. left. eauto using just_answered_snoc.
  - destruct err as [e|]; psimpl; [done|].
    destruct existing as [[n1 n2 uid n4 n5 [st|] n7]|] eqn:He; psimpl; rewrite <- ?He.
    + destruct (Cmp _ _) eqn:Hc; psimpl; [|done..].
      exists uid. split; [done|]. right; left. do 2 eexists. rewrite He. eauto using just_answered_snoc.
    + exists "". rewrite newDataVolume_UID, He. split; [done|]. right; right. eauto using just_answered_snoc.
    + exists "". rewrite newDataVolume_UID, He. split; [done|]. right; right. eauto using just_answered_snoc.
Qed.

(** ** Creating twice *)

(** A client that keeps DataVolumes: what it answers about the namespace [ns] is
    read off a map by name, a creation adds the object sent with its [Storage]
    stanza unchanged, and the snapshots do not depend on the DataVolumes. *)
Class DataVolumeStore {W} (h : handler clientE W) (ns : string) (volumes : W -> gmap string DataVolume)
    (snapshots : W -> string -> result (option VolumeSnapshot)) : Prop := {
  store_get w name :
    (h (GetDataVolume ns name) w).2 = w /\
    match volumes w !! name with
    | Some dv => (h (GetDataVolume ns name) w).1 = (Some dv, None)
    | None => exists dv e, (h (GetDataVolume ns name) w).1 = (dv, Some e) /\ IsNotFound (Some e) = true
    end;
  store_create w d :
    volumes w !! dv_Name d = None ->
    match h (CreateDataVolume ns d) w with
    | ((Some d', None), w') =>
        volumes w' = <[dv_Name d := d']> (volumes w) /\ dv_Storage d' = dv_Storage d /\ snapshots w' = snapshots w
    | ((None, None), _) => False
    | ((_, Some _), w') => volumes w' = volumes w
    end;
  store_snapshot w name : h (GetVolumeSnapshot ns name) w = (snapshots w name, w);
}.

Section Store.
Context {W} (h : handler clientE W) (c : ControllerService).
Context (volumes : W -> gmap string DataVolume) (snapshots : W -> string -> result (option VolumeSnapshot)).
Context `{HS : !DataVolumeStore h (infraClusterNamespace c) volumes snapshots}.
Notation ns := (infraClusterNamespace c).

(** [determineDvSource] only reads. *)
Lemma exec_determineDvSource req w t :
  run_world (exec h (determineDvSource c req) w t) = w.
Proof.
  unfold determineDvSource.
  destruct (cv_VolumeContentSource req) as [[[[id|id]|]]|]; [| |done|done].
  - cbn [cs_Type]. xsimpl. rewrite store_snapshot. xsimpl. destruct (snapshots w _) as [snapshot err].
    destruct (IsNotFound err); [done|]. destruct err; [done|]. by destruct snapshot, id.
  - cbn [cs_Type]. xsimpl. destruct (store_get w (default "" id)) as [-> _].
    destruct (h (GetDataVolume ns (default "" id)) w).1 as [volume err].
    destruct (IsNotFound err); [done|]. destruct err; [done|]. by destruct volume, id.
Qed.

(** Its result is kept by the creation of a volume of another name. *)
Lemma determineDvSource_frame req w w' t source :
  volumes w !! cv_Name req = None -> (exists d, volumes w' = <[cv_Name req := d]> (volumes w)) ->
  snapshots w' = snapshots w ->
  run_out (exec h (determineDvSource c req) w t) = Val (Some source, None) ->
  run_out (exec h (determineDvSource c req) w' []) = Val (Some source, None).
Proof.
  intros Hnew [d Hv] Hs. unfold determineDvSource.
  destruct (cv_VolumeContentSource req) as [[[[id|id]|]]|]; [| |done|done].
  - cbn [cs_Type]. xsimpl. rewrite !store_snapshot. simpl. rewrite Hs. destruct (snapshots w _) as [snapshot err].
    destruct (IsNotFound err); [done|]. destruct err; [done|]. by destruct snapshot, id.
  - cbn [cs_Type]. xsimpl. destruct (store_get w (default "" id)) as [_ Hg]. destruct (store_get w' (default "" id)) as [_ Hg'].
    destruct (volumes w !! default "" id) as [dv|] eqn:Hl.
    + rewrite Hv, lookup_insert_ne, Hl in Hg' by congruence. rewrite Hg, Hg'. xsimpl. by destruct id.
    + destruct Hg as (dv & e & -> & He). rewrite He. done.
Qed.
(** The outcome of a create whose source is determined, as a function of the
    DataVolume of that name. *)
Lemma exec_CreateVolume req isRWX source w :
  acceptable c req isRWX ->
  run_out (exec h (determineDvSource c req) w []) = Val (Some source, None) ->
  let r := exec h (CreateVolume c (Some req)) w [] in
  match volumes w !! cv_Name req with
  | None => match h (CreateDataVolume ns (newDataVolume c req source isRWX)) w with
      | ((Some d, None), w') => run_out r = Val (Some (createResponse req (dv_UID d)), None) /\ run_world r = w'
      | ((_, Some e), w') => run_out r = Val (None, Some e) /\ run_world r = w'
      | _ => True
      end
  | Some d => run_world r = w /\ writes (run_trace r) = writes (run_trace (exec h (determineDvSource c req) w [])) /\
      run_out r = Val match dv_Storage d with
        | None => (Some (createResponse req ""), None)
        | Some st =>
            match Cmp (NewQuantity (GetRequiredBytes (cv_CapacityRange req))) (storage_of (st_Requests st)) with
            | Eq => (Some (createResponse req (dv_UID d)), None)
            | _ => (None, Some (status_Error AlreadyExists "Requested storage size does not match existing size"))
            end
        end
  end.
Proof.
  intros Hv Hsrc. apply validate_acceptable in Hv. unfold CreateVolume. rewrite Hv. xsimpl.
  rewrite exec_bind. cbv zeta. rewrite Hsrc. pose proof (exec_determineDvSource req w []) as Hw.
  destruct (exec h (determineDvSource c req) w []) as [out w1 t]. xsimpl. subst w1. clear Hsrc.
  destruct (store_get w (cv_Name req)) as [Hgw Hg].
  destruct (volumes w !! cv_Name req) as [d|] eqn:Hl.
  - rewrite Hg. xsimpl. rewrite Hgw, IsNotFound_nil. xsimpl.
    destruct d as [n1 n2 uid n4 n5 [st|] n7]; cbn [dv_Storage].
    + rewrite NewScaledQuantity_0. destruct (Cmp _ _); xsimpl; rewrite writes_snoc; (split; [done|split; [simpl; lia|done]]).
    + xsimpl. rewrite newDataVolume_UID, writes_snoc. split; [done|split; [simpl; lia|done]].
  - destruct Hg as (dv & e & -> & He). xsimpl. rewrite He, Hgw. xsimpl.
    destruct (h (CreateDataVolume ns _) w) as [[[d|] [e'|]] w']; by xsimpl.
Qed.

(** After a create that answered, a create of the same volume with a size that
    is equal answers the same and changes nothing; with another size it is
    refused. *)
Lemma create_twice req isRWX source w resp w1 :
  acceptable c req isRWX ->
  run_out (exec h (determineDvSource c req) w []) = Val (Some source, None) ->
  (forall d, volumes w !! cv_Name req = Some d -> is_Some (dv_Storage d)) ->
  run_out (exec h (CreateVolume c (Some req)) w []) = Val (Some resp, None) ->
  run_world (exec h (CreateVolume c (Some req)) w []) = w1 ->
  exists d st, volumes w1 !! cv_Name req = Some d /\ dv_Storage d = Some st /\
    Cmp (NewQuantity (GetRequiredBytes (cv_CapacityRange req))) (storage_of (st_Requests st)) = Eq /\
    resp = createResponse req (dv_UID d) /\
    run_out (exec h (determineDvSource c req) w1 []) = Val (Some source, None).
Proof.
  intros Hv Hsrc Hst Hout Hw1. pose proof (exec_CreateVolume req isRWX source w Hv Hsrc) as H. simpl in H.
  rewrite Hout, Hw1 in H. destruct (volumes w !! cv_Name req) as [d|] eqn:Hl.
  - destruct H as (-> & _ & H). destruct (Hst d eq_refl) as [st Hd]. rewrite Hd in H.
    destruct (Cmp _ _) eqn:Hc; simplify_eq. exists d, st. done.
  - pose proof (store_create w (newDataVolume c req source isRWX)) as Hc.
    assert (Hname : dv_Name (newDataVolume c req source isRWX) = cv_Name req)
      by (unfold newDataVolume; by destruct (src_PVC source)).
    rewrite Hname in Hc. specialize (Hc Hl).
    destruct (h _ w) as [[[d|] [e'|]] w']; try done; [by destruct H| |by destruct H].
    destruct H as [[= ->] ->], Hc as (Hvol & Hsto & Hsnap).
    assert (Hstor : exists st, dv_Storage (newDataVolume c req source isRWX) = Some st /\
      storage_of (st_Requests st) = NewQuantity (GetRequiredBytes (cv_CapacityRange req))).
    { unfold newDataVolume. destruct (src_PVC source); eexists; (split; [done|]);
        unfold storage_of; simpl; by rewrite lookup_singleton_eq. }
    destruct Hstor as (st & Hst1 & Hst2). exists d, st. rewrite Hvol, lookup_insert_eq.
    split; [done|]. split; [congruence|]. rewrite Hst2, Cmp_refl. do 2 (split; [done|]).
    eapply determineDvSource_frame; eauto.
Qed.
End Store.

(** [determineDvSource] asks for no change. *)
Lemma determineDvSource_reads {W} (h : handler clientE W) c req w :
  writes (run_trace (exec h (determineDvSource c req) w [])) = 0%nat.
Proof.
  apply (wp_exec_any h _ w [] (fun t _ => writes t = 0%nat)). unfold determineDvSource.
  destruct (cv_VolumeContentSource req) as [[[[id|id]|]]|]; [| |done|done].
  - cbn [cs_Type]. wp_call [snapshot err]. destruct (IsNotFound err); psimpl; [done|].
    destruct err; psimpl; [done|]. by destruct snapshot, id.
  - cbn [cs_Type]. wp_call [volume err]. destruct (IsNotFound err); psimpl; [done|].
    destruct err; psimpl; [done|]. by destruct volume, id.
Qed.

(** A create that answers success had an acceptable request and a source. *)
Lemma create_success_inv {W} (h : handler clientE W) c req w resp :
  run_out (exec h (CreateVolume c (Some req)) w []) = Val (Some resp, None) ->
  exists isRWX source, acceptable c req isRWX /\
    run_out (exec h (determineDvSource c req) w []) = Val (Some source, None).
Proof.
  unfold CreateVolume. destruct (validateCreateVolumeRequest c (Some req)) as [isRWX err] eqn:Hv.
  destruct err as [e|]; xsimpl; [done|]. apply validate_acceptable in Hv.
  rewrite exec_bind. cbv zeta.
  pose proof (wp_exec_any h _ w _ _ (wp_determineDvSource c req any [] (fun _ _ _ => I))) as Hs.
  destruct (exec h (determineDvSource c req) w []) as [[[source err]|m] w1 t]; [|done]. xsimpl.
  destruct source as [source|]; [|by destruct err]. destruct err as [e|]; [done|]. eauto.
Qed.

(** No panic against a client that keeps to the contract. *)
Section Contract.
Variable c : ControllerService.
Context (P : protocol clientE) `{HP : !ClientContract P}.

Lemma determineDvSource_no_panic req t :
  wp P (determineDvSource c req) t (fun _ o => exists source err, o = Val (source, err) /\
    (err = None -> is_Some source)).
Proof using HP.
  unfold determineDvSource.
  destruct (cv_VolumeContentSource req) as [[[[id|id]|]]|]; [| |by do 2 eexists..].
  - cbn [cs_Type]. psimpl. split; [apply contract_pre|]. intros [snapshot err] _. psimpl.
    destruct (IsNotFound err); psimpl; [by do 2 eexists|]. destruct err; psimpl; [by do 2 eexists|].
    destruct snapshot, id; psimpl; do 2 eexists; (split; [done|]); by eexists.
  - cbn [cs_Type]. psimpl. split; [apply contract_pre|]. intros [volume err] _. psimpl.
    destruct (IsNotFound err); psimpl; [by do 2 eexists|]. destruct err; psimpl; [by do 2 eexists|].
    destruct volume, id; psimpl; do 2 eexists; (split; [done|]); by eexists.
Qed.

Lemma create_volume_no_panic req t : wp P (CreateVolume c req) t no_panic.
Proof using HP.
  unfold CreateVolume. destruct req as [req|]; [|by eexists].
  destruct (validateCreateVolumeRequest c (Some req)) as [isRWX err]. destruct err; psimpl; [by eexists|].
  apply wp_bind. eapply wp_mono; [|apply determineDvSource_no_panic].
  intros t' o (source & err & -> & Hs). psimpl. destruct err; psimpl; [by eexists|].
  destruct (Hs eq_refl) as [src ->]. psimpl. split; [apply contract_pre|]. intros [existing err] _. psimpl.
  destruct (IsNotFound err); psimpl.
  - split; [apply contract_pre|]. intros [dv err'] Hr. psimpl. destruct err'; psimpl; [by eexists|].
    apply contract_create in Hr as [d ->]. psimpl. by eexists.
  - destruct err; psimpl; [by eexists|].
    destruct existing as [[n1 n2 uid n4 n5 [st|] n7]|]; psimpl; [|by eexists..].
    destruct (Cmp _ _); psimpl; by eexists.
Qed.

Lemma delete_volume_no_panic req t : wp P (DeleteVolume c req) t no_panic.
Proof using HP.
  unfold DeleteVolume. destruct req as [req|]; [|by eexists].
  destruct (validateDeleteVolumeRequest _); psimpl; [by eexists|].
  split; [apply contract_pre|]. intros r _. destruct r; psimpl; by eexists.
Qed.

Lemma validate_capabilities_no_panic req t : wp P (ValidateVolumeCapabilities c req) t no_panic.
Proof using HP.
  unfold ValidateVolumeCapabilities. destruct req as [req|]; [|by eexists].
  destruct (is_empty _); psimpl; [by eexists|].
  destruct (vv_VolumeCapabilities req) eqn:E; psimpl; [by eexists|]. rewrite <- E.
  destruct (existsb _ _); psimpl; [by eexists|]. split; [apply contract_pre|]. intros [dv err] _. psimpl.
  destruct (IsNotFound err); psimpl; [by eexists|]. destruct err; psimpl; by eexists.
Qed.

Lemma expand_volume_no_panic req t : wp P (ControllerExpandVolume c req) t no_panic.
Proof using HP.
  unfold ControllerExpandVolume. destruct (is_empty _); [by eexists|].
  destruct (match req with Some r => ce_CapacityRange r | None => None end); [|by eexists]. psimpl.
  split; [apply contract_pre|]. intros r _. psimpl. destruct r as [e|]; psimpl.
  - destruct (IsNotFound (Some e)); psimpl; by eexists.
  - split; [apply contract_pre|]. intros r _. destruct r; psimpl; by eexists.
Qed.
End Contract.

(** The same request for another size. *)
Definition withSize (req : CreateVolumeRequest) (n : Z) : CreateVolumeRequest :=
  mkCreateVolumeRequest (cv_Name req) (Some (mkCapacityRange n 0)) (cv_VolumeCapabilities req)
    (cv_Parameters req) (cv_VolumeContentSource req).

(** ** Properties *)

(** C15: the only change a create makes is to create the DataVolume that the
    request describes, right after its name was looked up and not found; the
    request was acceptable (a storage class the administrator allows, RWX only
    as a block device) and its source was seen to exist. *)
Theorem create_volume_creates_as_allowed {W} (h : handler clientE W) (w : W) c req t1 e t2 :
  run_trace (exec h (CreateVolume c (Some req)) w []) = t1 ++ e :: t2 ->
  createAllowed c req t1 (ev_op e).
Proof.
  intros Htr. destruct (wp_exec_guard _ h _ w _ _ (wp_CreateVolume c req)) as [_ H].
  eapply H; [done|]. simpl. lia.
Qed.

Definition demo_service : ControllerService :=
  NewControllerService "infra" {["tenant" := "a"]} (mkStorageClassEnforcement ["gold"] false false []).

Definition demo_create : CreateVolumeRequest :=
  mkCreateVolumeRequest "pvc-2" (Some (mkCapacityRange 10 0))
    (Some [Some (mkVolumeCapability (Some AccessBlock) (Some MULTI_NODE_MULTI_WRITER))])
    {[InfraStorageClassNameParameter := "gold"]} (Some (mkVolumeContentSource (Some (SourceVolume (Some "pvc-1"))))).

Definition demo_create_trace : trace clientE :=
  run_trace (exec cluster_client (CreateVolume demo_service (Some demo_create)) demo []).

Definition demo_new : DataVolume :=
  newDataVolume demo_service demo_create (mkDataVolumeSource (Some (mkNamedRef "pvc-1" "infra")) None false) true.

Lemma create_volume_creates_as_allowed_witness :
  createAllowed demo_service demo_create (take 2 demo_create_trace) (CreateDataVolume "infra" demo_new).
Proof.
  apply (create_volume_creates_as_allowed cluster_client demo demo_service demo_create _
    (Ev (E := clientE) (CreateDataVolume "infra" demo_new) (Some (set_uid demo_new), None)) []).
  vm_compute. reflexivity.
Defined.

(** A create that answers success answers the size, name and source of the
    request, the bus asked for (or the default) and a serial which is the UID of
    the DataVolume it just created or just found with a size equal to the one
    asked for (empty if that one has no storage stanza).  It panics only if the
    client created a volume and returned none. *)
Theorem create_volume_response {W} (h : handler clientE W) (w : W) c req :
  let r := exec h (CreateVolume c (Some req)) w [] in
  match run_out r with
  | Val (Some resp, None) => exists serial, resp = createResponse req serial /\ serialSeen c req serial (run_trace r)
  | Val (Some _, Some _) | Val (None, None) => False
  | Val (None, Some _) => True
  | Panicked _ => exists dv0, just_answered (CreateDataVolume (infraClusterNamespace c) dv0) (None, None) (run_trace r)
  end.
Proof.
  destruct (wp_exec_guard _ h _ w _ _ (wp_CreateVolume c req)) as [H _]. simpl in *.
  by destruct (run_out _) as [[[resp|] [e|]]|m].
Qed.

(** Against a client that keeps DataVolumes, repeating a create that answered
    answers the same volume (same serial) and changes nothing, and the same name
    asked with another size is refused with [AlreadyExists], changing nothing. *)
Theorem create_volume_repeatable {W} (h : handler clientE W) (c : ControllerService)
    (volumes : W -> gmap string DataVolume) (snapshots : W -> string -> result (option VolumeSnapshot))
    `{!DataVolumeStore h (infraClusterNamespace c) volumes snapshots} w req resp n :
  (forall d, volumes w !! cv_Name req = Some d -> is_Some (dv_Storage d)) ->
  n <> GetRequiredBytes (cv_CapacityRange req) ->
  let r := exec h (CreateVolume c (Some req)) w [] in
  run_out r = Val (Some resp, None) ->
  let again := exec h (CreateVolume c (Some req)) (run_world r) [] in
  let resized := exec h (CreateVolume c (Some (withSize req n))) (run_world r) [] in
  (run_out again = Val (Some resp, None) /\ run_world again = run_world r /\ writes (run_trace again) = 0%nat) /\
  run_out resized =
    Val (None, Some (status_Error AlreadyExists "Requested storage size does not match existing size")) /\
  run_world resized = run_world r /\ writes (run_trace resized) = 0%nat.
Proof.
  intros Hst Hn r Hout. destruct (create_success_inv h c req w resp Hout) as (isRWX & source & Hv & Hsrc).
  destruct (create_twice h c volumes snapshots req isRWX source w resp _ Hv Hsrc Hst Hout eq_refl)
    as (d & st & Hl & Hd & Hc & -> & Hsrc').
  pose proof (exec_CreateVolume h c volumes snapshots req isRWX source (run_world r) Hv Hsrc') as H1.
  pose proof (exec_CreateVolume h c volumes snapshots (withSize req n) isRWX source (run_world r) Hv Hsrc') as H2.
  cbn [withSize cv_Name] in H2. fold r in Hl. cbv zeta in H1, H2. rewrite Hl, Hd in H1, H2.
  rewrite Hc in H1.
  cbv zeta. destruct H1 as (-> & -> & ->), H2 as (-> & -> & ->). change (determineDvSource c (withSize req n))
    with (determineDvSource c req). rewrite determineDvSource_reads.
  split; [done|]. split; [|done]. simpl.
  destruct (Cmp (NewQuantity n) _) eqn:Hc'; [|done..]. destruct Hn. by eapply Cmp_NewQuantity_inj.
Qed.

#[export] Instance cluster_store :
  DataVolumeStore cluster_client "infra" dvMap (fun w name => found (snapshotMap w !! name)).
Proof.
  split.
  - intros w name. split; [done|]. simpl. destruct (dvMap w !! name); [done|]. do 2 eexists. by split.
  - done.
  - done.
Qed.

Lemma create_volume_repeatable_witness :
  let r := exec cluster_client (CreateVolume demo_service (Some demo_create)) demo [] in
  run_out (exec cluster_client (CreateVolume demo_service (Some (withSize demo_create 11))) (run_world r) []) =
  Val (None, Some (status_Error AlreadyExists "Requested storage size does not match existing size")).
Proof.
  apply (create_volume_repeatable cluster_client demo_service dvMap _ demo demo_create
    (createResponse demo_create "uid-pvc-2") 11); vm_compute; [|done|reflexivity].
  intros d Hd. discriminate Hd.
Defined.

(** The access mode that the driver acts on is the last one stated: the list
    is refused exactly when the last stated mode is unknown, and the volume is
    RWX exactly when the last stated mode is a multi-node one, whatever the
    earlier capabilities say. *)
Theorem getAccessMode_last_wins caps :
  getAccessMode caps =
    (existsb GetBlock caps,
     match last (statedModes caps) with
     | Some m => bool_decide (m ∈ [MULTI_NODE_READER_ONLY; MULTI_NODE_SINGLE_WRITER; MULTI_NODE_MULTI_WRITER])
     | None => false
     end,
     match last (statedModes caps) with
     | Some UNKNOWN | Some (OtherMode _) => Some (errors_New "unknown volume capability")
     | _ => None
     end).
Proof.
  rewrite getAccessMode_spec. unfold lastMode. by destruct (last _) as [[]|].
Qed.

(** An expansion of a named volume with a capacity range asks for that size
    and then waits for the resize, two calls at most; it answers the size asked
    for and that the node must expand exactly when the volume is not a block
    one; a missing claim is [NotFound], any other refusal [Internal], and a
    resize that does not end gives the error of the wait. *)
Theorem expand_volume_result {W} (h : handler clientE W) c (req : ControllerExpandVolumeRequest) range w :
  ce_VolumeId req <> "" -> ce_CapacityRange req = Some range ->
  let ns := infraClusterNamespace c in
  let expand := ExpandPersistentVolumeClaim ns (ce_VolumeId req) (RequiredBytes range) in
  let ensure := EnsureControllerResize ns (ce_VolumeId req) (Minute * 2) in
  let w1 := (h expand w).2 in
  let r := exec h (ControllerExpandVolume c (Some req)) w [] in
  match (h expand w).1 : option error with
  | Some e =>
      run_trace r = [Ev (E := clientE) expand (h expand w).1] /\
      run_out r = Val (None, Some (if IsNotFound (Some e) then StatusError NotFound "volume %s not found" [AStr (ce_VolumeId req)]
        else StatusError Internal "Failed to expand PVC %s: %v" [AStr (ce_VolumeId req); AErr e]))
  | None =>
      run_trace r = [Ev (E := clientE) expand (h expand w).1; Ev (E := clientE) ensure (h ensure w1).1] /\
      run_out r = Val match (h ensure w1).1 : option error with
        | Some e => (None, Some e)
        | None => (Some (mkControllerExpandVolumeResponse (RequiredBytes range)
                     (negb (GetBlock (ce_VolumeCapability req)))), None)
        end
  end.
Proof.
  intros Hid Hrange. cbv zeta. unfold ControllerExpandVolume. rewrite Hrange.
  destruct (is_empty (ce_VolumeId req)) eqn:E; reflect_bools; [done|]. xsimpl.
  destruct ((h (ExpandPersistentVolumeClaim _ _ _) w).1 : option error) as [e|] eqn:He; rewrite ?He; xsimpl.
  - by destruct (IsNotFound (Some e)).
  - destruct ((h (EnsureControllerResize _ _ _) _).1 : option error) as [e|] eqn:Hr; rewrite ?Hr; by xsimpl.
Qed.

Definition demo_expand : ControllerExpandVolumeRequest :=
  mkControllerExpandVolumeRequest "pvc-1" (Some (mkCapacityRange 20 0)) None.

Lemma expand_volume_result_witness :
  run_out (exec cluster_client (ControllerExpandVolume demo_service (Some demo_expand)) demo []) =
  Val (Some (mkControllerExpandVolumeResponse 20 true), None).
Proof.
  apply (expand_volume_result cluster_client demo_service demo_expand (mkCapacityRange 20 0) demo); [|done].
  vm_compute. discriminate.
Defined.

(** Capabilities are confirmed, and then exactly as they were sent, only for a
    volume that was just seen to exist and only when each of them is a mount:
    one block capability is enough to refuse, although block volumes can be
    created and published. *)
Theorem validate_capabilities_confirms {W} (h : handler clientE W) c req w :
  let r := exec h (ValidateVolumeCapabilities c req) w [] in
  match run_out r with
  | Val (Some resp, err) => err = None /\ exists rq dv,
      req = Some rq /\ vv_VolumeId rq <> "" /\ vv_VolumeCapabilities rq <> [] /\
      Forall (fun cap => is_Some (GetMount cap)) (vv_VolumeCapabilities rq) /\
      run_trace r = [Ev (E := clientE) (GetDataVolume (infraClusterNamespace c) (vv_VolumeId rq)) (dv, None)] /\
      resp = mkValidateVolumeCapabilitiesResponse (vv_VolumeContext rq) (vv_VolumeCapabilities rq) (vv_Parameters rq)
  | Val (None, err) => err <> None
  | Panicked _ => False
  end.
Proof.
  cbv zeta. unfold ValidateVolumeCapabilities. destruct req as [req|]; [|done].
  destruct (is_empty (vv_VolumeId req)) eqn:Hid; [done|]. reflect_bools. xsimpl.
  destruct (vv_VolumeCapabilities req) as [|cap caps] eqn:Hcaps; [done|]. rewrite <- Hcaps.
  destruct (existsb _ _) eqn:He; [done|]. rewrite existsb_none in He. xsimpl.
  destruct (h _ w).1 as [dv err] eqn:Hg. destruct (IsNotFound err); [done|].
  destruct err; [done|]. xsimpl. split; [done|]. exists req, dv. repeat split; auto.
  - by rewrite Hcaps.
  - apply Forall_forall. intros x Hx. specialize (He x Hx). destruct (GetMount x); [done|by simpl in He].
Qed.
