(* ===== verification/MockClient.v ===== *)
(** * The mocked client

    pkg/kubevirt/mocked_client.go, which mockgen generated from an older [Client]:
    every method hands its arguments to a controller of package gomock and asserts
    the types of what that returns; the recorder registers an expected call.  The
    controller, which matches calls against expectations and runs their actions, is
    the environment. *)

From S2P Require Import Prelude GoStrings Errors Effects Goroutines Objects Csi Util ClientAPI Fixtures Controller Volumes.

Local Open Scope string_scope.
Local Open Scope list_scope.

(** ** Interface values *)

(** What the [interface{}]s of this file hold: nil, an argument or a result of a
    method of [Client], or a value of some other type. *)
Inductive value :=
| Nil
| Context_
| Str (s : string)
| Int64 (n : Z)
| Duration_ (d : Z)
| Error_ (e : error)
| AddOptions (o : AddVolumeOptions)
| RemoveOptions (o : RemoveVolumeOptions)
| DataVolume_ (p : option DataVolume)            (* pointers, possibly nil *)
| VolumeSnapshot_ (p : option VolumeSnapshot)
| SnapshotList (p : option (list VolumeSnapshot))
| PersistentVolumeClaim_ (p : option PersistentVolumeClaim)
| VMI_ (p : option VirtualMachineInstance)
| VM_ (p : option VirtualMachine)
| VMIs (l : list VirtualMachineInstance)
| Other (name : string).

(** [x, _ := v.(T)]: the value, or the zero value of the type. *)
Definition as_error (v : value) : option error := match v with Error_ e => Some e | _ => None end.
Definition as_DataVolume (v : value) : option DataVolume := match v with DataVolume_ p => p | _ => None end.
Definition as_VolumeSnapshot (v : value) : option VolumeSnapshot := match v with VolumeSnapshot_ p => p | _ => None end.
Definition as_SnapshotList (v : value) : option (list VolumeSnapshot) := match v with SnapshotList p => p | _ => None end.
Definition as_PersistentVolumeClaim (v : value) : option PersistentVolumeClaim :=
  match v with PersistentVolumeClaim_ p => p | _ => None end.
Definition as_VMI (v : value) : option VirtualMachineInstance := match v with VMI_ p => p | _ => None end.
Definition as_VM (v : value) : option VirtualMachine := match v with VM_ p => p | _ => None end.
Definition as_VMIs (v : value) : list VirtualMachineInstance := match v with VMIs l => l | _ => [] end.

(** ** The controller *)

Module Gomock.
Inductive operation :=
| Helper (ctrl : nat)                                                   (* ctrl.T.Helper() *)
| Call (ctrl : nat) (method : string) (args : list value)
| RecordCallWithMethodType (ctrl : nat) (method : string) (methodType : string) (args : list value).

Definition answer (o : operation) : Type :=
  match o with Helper _ => unit | Call _ _ _ => list value | RecordCallWithMethodType _ _ _ _ => nat end.
End Gomock.

Definition gomockE : signature := Signature Gomock.operation Gomock.answer.

Definition gomock (o : Gomock.operation) : prog gomockE (Gomock.answer o) := call (E := gomockE) o.

(** A mock is its controller; a recorder is its mock. *)
Record MockClient := mkMockClient { ctrl : nat }.
Record MockClientMockRecorder := mkMockClientMockRecorder { mock : MockClient }.

Definition NewMockClient (ctrl : nat) : MockClient := mkMockClient ctrl.
Definition EXPECT (m : MockClient) : MockClientMockRecorder := mkMockClientMockRecorder m.

(** [ret[i]] *)
Definition index (ret : list value) (i : nat) : prog gomockE value := deref "index out of range" (ret !! i).

(** The body of a method with one result, and of one with two. *)
Definition mocked1 (m : MockClient) (method : string) (args : list value) : prog gomockE (option error) :=
  _ ← gomock (Gomock.Helper (ctrl m));
  ret ← gomock (Gomock.Call (ctrl m) method args);
  ret0 ← index ret 0;
  Ret (as_error ret0).

Definition mocked2 {A} (as_T : value -> A) (m : MockClient) (method : string) (args : list value) : prog gomockE (result A) :=
  _ ← gomock (Gomock.Helper (ctrl m));
  ret ← gomock (Gomock.Call (ctrl m) method args);
  ret0 ← index ret 0;
  ret1 ← index ret 1;
  Ret (as_T ret0, as_error ret1).

(** The body of a method of the recorder; the type is that of the method of
    [*MockClient] with the name. *)
Definition recorded (mr : MockClientMockRecorder) (method methodType : string) (args : list value) : prog gomockE nat :=
  _ ← gomock (Gomock.Helper (ctrl (mock mr)));
  gomock (Gomock.RecordCallWithMethodType (ctrl (mock mr)) method methodType args).

(** ** The methods *)

Module Mock.
Definition AddVolumeToVM (m : MockClient) (namespace : string) (vmName : string) (hotPlugRequest : AddVolumeOptions) : prog gomockE (option error) :=
  mocked1 m "AddVolumeToVM" [Context_; Str namespace; Str vmName; AddOptions hotPlugRequest].
Definition CreateDataVolume (m : MockClient) (namespace : string) (dataVolume : DataVolume) : prog gomockE (result (option DataVolume)) :=
  mocked2 as_DataVolume m "CreateDataVolume" [Context_; Str namespace; DataVolume_ (Some dataVolume)].
Definition CreateVolumeSnapshot (m : MockClient) (namespace : string) (name : string) (claimName : string) (snapshotClassName : string) : prog gomockE (result (option VolumeSnapshot)) :=
  mocked2 as_VolumeSnapshot m "CreateVolumeSnapshot" [Context_; Str namespace; Str name; Str claimName; Str snapshotClassName].
Definition DeleteDataVolume (m : MockClient) (namespace : string) (name : string) : prog gomockE (option error) :=
  mocked1 m "DeleteDataVolume" [Context_; Str namespace; Str name].
Definition DeleteVolumeSnapshot (m : MockClient) (namespace : string) (name : string) : prog gomockE (option error) :=
  mocked1 m "DeleteVolumeSnapshot" [Context_; Str namespace; Str name].
Definition EnsureControllerResize (m : MockClient) (namespace : string) (claimName : string) (timeout : Z) : prog gomockE (option error) :=
  mocked1 m "EnsureControllerResize" [Context_; Str namespace; Str claimName; Duration_ timeout].
Definition EnsureSnapshotReady (m : MockClient) (namespace : string) (name : string) (timeout : Z) : prog gomockE (option error) :=
  mocked1 m "EnsureSnapshotReady" [Context_; Str namespace; Str name; Duration_ timeout].
Definition EnsureVolumeAvailable (m : MockClient) (namespace : string) (vmName : string) (volumeName : string) (timeout : Z) : prog gomockE (option error) :=
  mocked1 m "EnsureVolumeAvailable" [Context_; Str namespace; Str vmName; Str volumeName; Duration_ timeout].
Definition EnsureVolumeRemoved (m : MockClient) (namespace : string) (vmName : string) (volumeName : string) (timeout : Z) : prog gomockE (option error) :=
  mocked1 m "EnsureVolumeRemoved" [Context_; Str namespace; Str vmName; Str volumeName; Duration_ timeout].
Definition ExpandPersistentVolumeClaim (m : MockClient) (namespace : string) (claimName : string) (size : Z) : prog gomockE (option error) :=
  mocked1 m "ExpandPersistentVolumeClaim" [Context_; Str namespace; Str claimName; Int64 size].
Definition GetDataVolume (m : MockClient) (namespace : string) (name : string) : prog gomockE (result (option DataVolume)) :=
  mocked2 as_DataVolume m "GetDataVolume" [Context_; Str namespace; Str name].
Definition GetPersistentVolumeClaim (m : MockClient) (namespace : string) (claimName : string) : prog gomockE (result (option PersistentVolumeClaim)) :=
  mocked2 as_PersistentVolumeClaim m "GetPersistentVolumeClaim" [Context_; Str namespace; Str claimName].
Definition GetVirtualMachine (m : MockClient) (namespace : string) (name : string) : prog gomockE (result (option VirtualMachineInstance)) :=
  mocked2 as_VMI m "GetVirtualMachine" [Context_; Str namespace; Str name].
Definition GetVolumeSnapshot (m : MockClient) (namespace : string) (name : string) : prog gomockE (result (option VolumeSnapshot)) :=
  mocked2 as_VolumeSnapshot m "GetVolumeSnapshot" [Context_; Str namespace; Str name].
Definition GetWorkloadManagingVirtualMachine (m : MockClient) (namespace : string) (name : string) : prog gomockE (result (option VirtualMachine)) :=
  mocked2 as_VM m "GetWorkloadManagingVirtualMachine" [Context_; Str namespace; Str name].
Definition ListVirtualMachines (m : MockClient) (namespace : string) : prog gomockE (result (list VirtualMachineInstance)) :=
  mocked2 as_VMIs m "ListVirtualMachines" [Context_; Str namespace].
Definition ListVolumeSnapshots (m : MockClient) (namespace : string) : prog gomockE (result (option (list VolumeSnapshot))) :=
  mocked2 as_SnapshotList m "ListVolumeSnapshots" [Context_; Str namespace].
Definition Ping (m : MockClient) : prog gomockE (option error) :=
  mocked1 m "Ping" [Context_].
Definition RemoveVolumeFromVM (m : MockClient) (namespace : string) (vmName : string) (hotPlugRequest : RemoveVolumeOptions) : prog gomockE (option error) :=
  mocked1 m "RemoveVolumeFromVM" [Context_; Str namespace; Str vmName; RemoveOptions hotPlugRequest].
Definition RemoveVolumeFromVMI (m : MockClient) (namespace : string) (vmName : string) (hotPlugRequest : RemoveVolumeOptions) : prog gomockE (option error) :=
  mocked1 m "RemoveVolumeFromVMI" [Context_; Str namespace; Str vmName; RemoveOptions hotPlugRequest].
End Mock.

(** The recorder: an argument is a value to match or a matcher. *)
Module Recorder.
Definition AddVolumeToVM (mr : MockClientMockRecorder) (ctx namespace vmName hotPlugRequest : value) : prog gomockE nat :=
  recorded mr "AddVolumeToVM" "AddVolumeToVM" [ctx; namespace; vmName; hotPlugRequest].
Definition CreateDataVolume (mr : MockClientMockRecorder) (ctx namespace dataVolume : value) : prog gomockE nat :=
  recorded mr "CreateDataVolume" "CreateDataVolume" [ctx; namespace; dataVolume].
Definition CreateVolumeSnapshot (mr : MockClientMockRecorder) (ctx namespace name claimName snapshotClassName : value) : prog gomockE nat :=
  recorded mr "CreateVolumeSnapshot" "CreateVolumeSnapshot" [ctx; namespace; name; claimName; snapshotClassName].
Definition DeleteDataVolume (mr : MockClientMockRecorder) (ctx namespace name : value) : prog gomockE nat :=
  recorded mr "DeleteDataVolume" "DeleteDataVolume" [ctx; namespace; name].
Definition DeleteVolumeSnapshot (mr : MockClientMockRecorder) (ctx namespace name : value) : prog gomockE nat :=
  recorded mr "DeleteVolumeSnapshot" "DeleteVolumeSnapshot" [ctx; namespace; name].
Definition EnsureControllerResize (mr : MockClientMockRecorder) (ctx namespace claimName timeout : value) : prog gomockE nat :=
  recorded mr "EnsureControllerResize" "EnsureControllerResize" [ctx; namespace; claimName; timeout].
Definition EnsureSnapshotReady (mr : MockClientMockRecorder) (ctx namespace name timeout : value) : prog gomockE nat :=
  recorded mr "EnsureSnapshotReady" "EnsureSnapshotReady" [ctx; namespace; name; timeout].
Definition EnsureVolumeAvailable (mr : MockClientMockRecorder) (ctx namespace vmName volumeName timeout : value) : prog gomockE nat :=
  recorded mr "EnsureVolumeAvailable" "EnsureVolumeAvailable" [ctx; namespace; vmName; volumeName; timeout].
Definition EnsureVolumeRemoved (mr : MockClientMockRecorder) (ctx namespace vmName volumeName timeout : value) : prog gomockE nat :=
  recorded mr "EnsureVolumeRemoved" "EnsureVolumeRemoved" [ctx; namespace; vmName; volumeName; timeout].
Definition ExpandPersistentVolumeClaim (mr : MockClientMockRecorder) (ctx namespace claimName size : value) : prog gomockE nat :=
  recorded mr "ExpandPersistentVolumeClaim" "ExpandPersistentVolumeClaim" [ctx; namespace; claimName; size].
Definition GetDataVolume (mr : MockClientMockRecorder) (ctx namespace name : value) : prog gomockE nat :=
  recorded mr "GetDataVolume" "GetDataVolume" [ctx; namespace; name].
Definition GetPersistentVolumeClaim (mr : MockClientMockRecorder) (ctx namespace claimName : value) : prog gomockE nat :=
  recorded mr "GetPersistentVolumeClaim" "GetPersistentVolumeClaim" [ctx; namespace; claimName].
Definition GetVirtualMachine (mr : MockClientMockRecorder) (ctx namespace name : value) : prog gomockE nat :=
  recorded mr "GetVirtualMachine" "GetVirtualMachine" [ctx; namespace; name].
Definition GetVolumeSnapshot (mr : MockClientMockRecorder) (ctx namespace name : value) : prog gomockE nat :=
  recorded mr "GetVolumeSnapshot" "GetVolumeSnapshot" [ctx; namespace; name].
Definition GetWorkloadManagingVirtualMachine (mr : MockClientMockRecorder) (ctx namespace name : value) : prog gomockE nat :=
  recorded mr "GetWorkloadManagingVirtualMachine" "GetWorkloadManagingVirtualMachine" [ctx; namespace; name].
Definition ListVirtualMachines (mr : MockClientMockRecorder) (ctx namespace : value) : prog gomockE nat :=
  recorded mr "ListVirtualMachines" "ListVirtualMachines" [ctx; namespace].
Definition ListVolumeSnapshots (mr : MockClientMockRecorder) (ctx namespace : value) : prog gomockE nat :=
  recorded mr "ListVolumeSnapshots" "ListVolumeSnapshots" [ctx; namespace].
Definition Ping (mr : MockClientMockRecorder) (ctx : value) : prog gomockE nat :=
  recorded mr "Ping" "Ping" [ctx].
Definition RemoveVolumeFromVM (mr : MockClientMockRecorder) (ctx namespace vmName hotPlugRequest : value) : prog gomockE nat :=
  recorded mr "RemoveVolumeFromVM" "RemoveVolumeFromVM" [ctx; namespace; vmName; hotPlugRequest].
Definition RemoveVolumeFromVMI (mr : MockClientMockRecorder) (ctx namespace vmName hotPlugRequest : value) : prog gomockE nat :=
  recorded mr "RemoveVolumeFromVMI" "RemoveVolumeFromVMI" [ctx; namespace; vmName; hotPlugRequest].
End Recorder.

(** ** The mock as a client *)

(** The methods that [MockClient] has.  The [Sleep] of [Client.method] is not one of
    [Client]'s. *)
Definition has_method (m : Client.method) : bool :=
  match m with
  | Client.EnsureVolumeAvailableVM _ _ _ | Client.EnsureVolumeRemovedVM _ _ _ | Client.EnsureVolumeRemovedVMI _ _ _
  | Client.Sleep _ => false
  | _ => true
  end.

Definition mock_method (mk : MockClient) (m : op clientE) : prog gomockE (resp m) :=
  match (m : Client.method) as m' return prog gomockE (Client.answer m') with
  | Client.Ping => Mock.Ping mk
  | Client.ListVirtualMachines ns => Mock.ListVirtualMachines mk ns
  | Client.GetVirtualMachine ns n => Mock.GetVirtualMachine mk ns n
  | Client.GetWorkloadManagingVirtualMachine ns n => Mock.GetWorkloadManagingVirtualMachine mk ns n
  | Client.DeleteDataVolume ns n => Mock.DeleteDataVolume mk ns n
  | Client.CreateDataVolume ns d => Mock.CreateDataVolume mk ns d
  | Client.GetDataVolume ns n => Mock.GetDataVolume mk ns n
  | Client.GetPersistentVolumeClaim ns n => Mock.GetPersistentVolumeClaim mk ns n
  | Client.ExpandPersistentVolumeClaim ns n size => Mock.ExpandPersistentVolumeClaim mk ns n size
  | Client.AddVolumeToVM ns vm o => Mock.AddVolumeToVM mk ns vm o
  | Client.RemoveVolumeFromVM ns vm o => Mock.RemoveVolumeFromVM mk ns vm o
  | Client.RemoveVolumeFromVMI ns vm o => Mock.RemoveVolumeFromVMI mk ns vm o
  | Client.EnsureVolumeAvailable ns vm v timeout => Mock.EnsureVolumeAvailable mk ns vm v timeout
  | Client.EnsureVolumeRemoved ns vm v timeout => Mock.EnsureVolumeRemoved mk ns vm v timeout
  | Client.EnsureSnapshotReady ns n timeout => Mock.EnsureSnapshotReady mk ns n timeout
  | Client.EnsureControllerResize ns n timeout => Mock.EnsureControllerResize mk ns n timeout
  | Client.CreateVolumeSnapshot ns n claim class => Mock.CreateVolumeSnapshot mk ns n claim class
  | Client.GetVolumeSnapshot ns n => Mock.GetVolumeSnapshot mk ns n
  | Client.DeleteVolumeSnapshot ns n => Mock.DeleteVolumeSnapshot mk ns n
  | Client.ListVolumeSnapshots ns => Mock.ListVolumeSnapshots mk ns
  | _ => Panic "no such method"
  end.

(** An expected call, by the recorder. *)
Definition expect (mr : MockClientMockRecorder) (m : Client.method) : prog gomockE nat :=
  match m with
  | Client.Ping => Recorder.Ping mr Context_
  | Client.ListVirtualMachines ns => Recorder.ListVirtualMachines mr Context_ (Str ns)
  | Client.GetVirtualMachine ns n => Recorder.GetVirtualMachine mr Context_ (Str ns) (Str n)
  | Client.GetWorkloadManagingVirtualMachine ns n => Recorder.GetWorkloadManagingVirtualMachine mr Context_ (Str ns) (Str n)
  | Client.DeleteDataVolume ns n => Recorder.DeleteDataVolume mr Context_ (Str ns) (Str n)
  | Client.CreateDataVolume ns d => Recorder.CreateDataVolume mr Context_ (Str ns) (DataVolume_ (Some d))
  | Client.GetDataVolume ns n => Recorder.GetDataVolume mr Context_ (Str ns) (Str n)
  | Client.GetPersistentVolumeClaim ns n => Recorder.GetPersistentVolumeClaim mr Context_ (Str ns) (Str n)
  | Client.ExpandPersistentVolumeClaim ns n size => Recorder.ExpandPersistentVolumeClaim mr Context_ (Str ns) (Str n) (Int64 size)
  | Client.AddVolumeToVM ns vm o => Recorder.AddVolumeToVM mr Context_ (Str ns) (Str vm) (AddOptions o)
  | Client.RemoveVolumeFromVM ns vm o => Recorder.RemoveVolumeFromVM mr Context_ (Str ns) (Str vm) (RemoveOptions o)
  | Client.RemoveVolumeFromVMI ns vm o => Recorder.RemoveVolumeFromVMI mr Context_ (Str ns) (Str vm) (RemoveOptions o)
  | Client.EnsureVolumeAvailable ns vm v timeout => Recorder.EnsureVolumeAvailable mr Context_ (Str ns) (Str vm) (Str v) (Duration_ timeout)
  | Client.EnsureVolumeRemoved ns vm v timeout => Recorder.EnsureVolumeRemoved mr Context_ (Str ns) (Str vm) (Str v) (Duration_ timeout)
  | Client.EnsureSnapshotReady ns n timeout => Recorder.EnsureSnapshotReady mr Context_ (Str ns) (Str n) (Duration_ timeout)
  | Client.EnsureControllerResize ns n timeout => Recorder.EnsureControllerResize mr Context_ (Str ns) (Str n) (Duration_ timeout)
  | Client.CreateVolumeSnapshot ns n claim class => Recorder.CreateVolumeSnapshot mr Context_ (Str ns) (Str n) (Str claim) (Str class)
  | Client.GetVolumeSnapshot ns n => Recorder.GetVolumeSnapshot mr Context_ (Str ns) (Str n)
  | Client.DeleteVolumeSnapshot ns n => Recorder.DeleteVolumeSnapshot mr Context_ (Str ns) (Str n)
  | Client.ListVolumeSnapshots ns => Recorder.ListVolumeSnapshots mr Context_ (Str ns)
  | _ => Panic "no such method"
  end.

(** A call as gomock sees it, and the results of a client as interface values. *)
Definition call_of (m : Client.method) : string * list value :=
  match m with
  | Client.Ping => ("Ping", [Context_])
  | Client.ListVirtualMachines ns => ("ListVirtualMachines", [Context_; Str ns])
  | Client.GetVirtualMachine ns n => ("GetVirtualMachine", [Context_; Str ns; Str n])
  | Client.GetWorkloadManagingVirtualMachine ns n => ("GetWorkloadManagingVirtualMachine", [Context_; Str ns; Str n])
  | Client.DeleteDataVolume ns n => ("DeleteDataVolume", [Context_; Str ns; Str n])
  | Client.CreateDataVolume ns d => ("CreateDataVolume", [Context_; Str ns; DataVolume_ (Some d)])
  | Client.GetDataVolume ns n => ("GetDataVolume", [Context_; Str ns; Str n])
  | Client.GetPersistentVolumeClaim ns n => ("GetPersistentVolumeClaim", [Context_; Str ns; Str n])
  | Client.ExpandPersistentVolumeClaim ns n size => ("ExpandPersistentVolumeClaim", [Context_; Str ns; Str n; Int64 size])
  | Client.AddVolumeToVM ns vm o => ("AddVolumeToVM", [Context_; Str ns; Str vm; AddOptions o])
  | Client.RemoveVolumeFromVM ns vm o => ("RemoveVolumeFromVM", [Context_; Str ns; Str vm; RemoveOptions o])
  | Client.RemoveVolumeFromVMI ns vm o => ("RemoveVolumeFromVMI", [Context_; Str ns; Str vm; RemoveOptions o])
  | Client.EnsureVolumeAvailable ns vm v timeout => ("EnsureVolumeAvailable", [Context_; Str ns; Str vm; Str v; Duration_ timeout])
  | Client.EnsureVolumeRemoved ns vm v timeout => ("EnsureVolumeRemoved", [Context_; Str ns; Str vm; Str v; Duration_ timeout])
  | Client.EnsureSnapshotReady ns n timeout => ("EnsureSnapshotReady", [Context_; Str ns; Str n; Duration_ timeout])
  | Client.EnsureControllerResize ns n timeout => ("EnsureControllerResize", [Context_; Str ns; Str n; Duration_ timeout])
  | Client.CreateVolumeSnapshot ns n claim class => ("CreateVolumeSnapshot", [Context_; Str ns; Str n; Str claim; Str class])
  | Client.GetVolumeSnapshot ns n => ("GetVolumeSnapshot", [Context_; Str ns; Str n])
  | Client.DeleteVolumeSnapshot ns n => ("DeleteVolumeSnapshot", [Context_; Str ns; Str n])
  | Client.ListVolumeSnapshots ns => ("ListVolumeSnapshots", [Context_; Str ns])
  | _ => ("", [])
  end.

Definition error_value (err : option error) : value := match err with Some e => Error_ e | None => Nil end.

Definition values_of (m : Client.method) : Client.answer m -> list value :=
  match m return Client.answer m -> list value with
  | Client.ListVirtualMachines _ => fun r => [VMIs r.1; error_value r.2]
  | Client.GetVirtualMachine _ _ => fun r => [VMI_ r.1; error_value r.2]
  | Client.GetWorkloadManagingVirtualMachine _ _ => fun r => [VM_ r.1; error_value r.2]
  | Client.CreateDataVolume _ _ | Client.GetDataVolume _ _ => fun r => [DataVolume_ r.1; error_value r.2]
  | Client.GetPersistentVolumeClaim _ _ => fun r => [PersistentVolumeClaim_ r.1; error_value r.2]
  | Client.CreateVolumeSnapshot _ _ _ _ | Client.GetVolumeSnapshot _ _ => fun r => [VolumeSnapshot_ r.1; error_value r.2]
  | Client.ListVolumeSnapshots _ => fun r => [SnapshotList r.1; error_value r.2]
  | Client.Ping | Client.DeleteDataVolume _ _ | Client.ExpandPersistentVolumeClaim _ _ _ | Client.AddVolumeToVM _ _ _
  | Client.RemoveVolumeFromVM _ _ _ | Client.RemoveVolumeFromVMI _ _ _ | Client.EnsureVolumeAvailable _ _ _ _
  | Client.EnsureVolumeRemoved _ _ _ _ | Client.EnsureSnapshotReady _ _ _ | Client.EnsureControllerResize _ _ _
  | Client.DeleteVolumeSnapshot _ _ => fun r => [error_value r]
  | _ => fun _ => []
  end.

(** The controller has the expectations that make it answer as the client. *)
Definition plays {W} (h : handler gomockE W) (hc : handler clientE W) : Prop :=
  (forall c w, h (Gomock.Helper c) w = (tt, w)) /\
  forall c m w, has_method m = true ->
    h (Gomock.Call c (call_of m).1 (call_of m).2) w = (values_of m (hc m w).1, (hc m w).2).

Lemma as_error_value err : as_error (error_value err) = err.
Proof. by destruct err. Qed.

(** One call through the mock. *)
Lemma mock_method_plays {W} (h : handler gomockE W) hc mk (m : op clientE) w t : plays h hc -> has_method m = true ->
  exists t', exec h (mock_method mk m) w t = Run (Val (hc m w).1) (hc m w).2 t'.
Proof.
  intros [Hh Hc] Hm. specialize (fun c => Hc c m w Hm). unfold clientE in *. cbn in *.
  destruct m; try done; cbn in *; rewrite Hh; cbn; rewrite Hc; cbn; rewrite ?as_error_value;
    repeat match goal with |- context [hc ?o w] => destruct (hc o w) as [[] ?]; cbn end; by eexists.
Qed.

(** C39: the mock plays the client.  When the controller answers the calls of the
    mock's methods with what some client would answer, every program over the
    methods that the mock has runs against the mock exactly as against that client:
    same outcome, same state; and the call that the recorder registers for a method
    is, name, type and arguments, the one that the mock makes.  The mock lacks
    three methods of [Client], so it is not one. *)
Theorem mock_plays_the_client {W A} (h : handler gomockE W) hc mk (p : prog clientE A) w :
  plays h hc -> only (E := clientE) (fun m => has_method m = true) p ->
  let r := exec h (interp (mock_method mk) p) w [] in
  run_out r = run_out (exec hc p w []) /\ run_world r = run_world (exec hc p w []) /\
  forall m, has_method m = true -> exists name args, (name, args) = call_of m /\
    expect (EXPECT mk) m = recorded (EXPECT mk) name name args /\
    exists k, mock_method mk m = (_ ← gomock (Gomock.Helper (ctrl mk)); ret ← gomock (Gomock.Call (ctrl mk) name args); k ret).
Proof.
  intros Hp Ho. cbv zeta.
  assert (H : forall t t', run_out (exec h (interp (mock_method mk) p) w t) = run_out (exec hc p w t') /\
    run_world (exec h (interp (mock_method mk) p) w t) = run_world (exec hc p w t')).
  { revert w Ho. induction p as [a|m|o k IH]; intros w; [done..|]. intros [Hm Hk] t t'. cbn [interp]. rewrite exec_bind.
    destruct (mock_method_plays h hc mk o w t Hp Hm) as [t1 He]. cbv zeta. rewrite He. by apply IH. }
  split; [apply H|]. split; [apply H|].
  intros m Hm. exists (call_of m).1, (call_of m).2. split; [by destruct (call_of m)|].
  destruct m; try done; (split; [reflexivity|eexists; reflexivity]).
Qed.

(** A controller for any client. *)
Definition method_of (name : string) (args : list value) : option Client.method :=
  match args with
  | [Context_] => Some Client.Ping
  | [Context_; Str a] =>
      Some (if name =s? "ListVirtualMachines" then Client.ListVirtualMachines a else Client.ListVolumeSnapshots a)
  | [Context_; Str a; Str b] => snd <$> List.find (fun x => x.1 =s? name)
      [("GetVirtualMachine", Client.GetVirtualMachine a b); ("GetWorkloadManagingVirtualMachine", Client.GetWorkloadManagingVirtualMachine a b);
       ("DeleteDataVolume", Client.DeleteDataVolume a b); ("GetDataVolume", Client.GetDataVolume a b);
       ("GetPersistentVolumeClaim", Client.GetPersistentVolumeClaim a b); ("GetVolumeSnapshot", Client.GetVolumeSnapshot a b);
       ("DeleteVolumeSnapshot", Client.DeleteVolumeSnapshot a b)]
  | [Context_; Str a; DataVolume_ (Some d)] => Some (Client.CreateDataVolume a d)
  | [Context_; Str a; Str b; Int64 size] => Some (Client.ExpandPersistentVolumeClaim a b size)
  | [Context_; Str a; Str b; AddOptions o] => Some (Client.AddVolumeToVM a b o)
  | [Context_; Str a; Str b; RemoveOptions o] =>
      Some (if name =s? "RemoveVolumeFromVM" then Client.RemoveVolumeFromVM a b o else Client.RemoveVolumeFromVMI a b o)
  | [Context_; Str a; Str b; Str v; Duration_ d] =>
      Some (if name =s? "EnsureVolumeAvailable" then Client.EnsureVolumeAvailable a b v d else Client.EnsureVolumeRemoved a b v d)
  | [Context_; Str a; Str b; Duration_ d] =>
      Some (if name =s? "EnsureSnapshotReady" then Client.EnsureSnapshotReady a b d else Client.EnsureControllerResize a b d)
  | [Context_; Str a; Str b; Str x; Str y] => Some (Client.CreateVolumeSnapshot a b x y)
  | _ => None
  end.

Definition controller_for {W} (hc : handler clientE W) : handler gomockE W := fun o w =>
  match o return Gomock.answer o * W with
  | Gomock.Helper _ => (tt, w)
  | Gomock.Call _ name args =>
      match method_of name args with Some m => (values_of m (hc m w).1, (hc m w).2) | None => ([], w) end
  | Gomock.RecordCallWithMethodType _ _ _ _ => (0%nat, w)
  end.

Lemma controller_for_plays {W} (hc : handler clientE W) : plays (controller_for hc) hc.
Proof. split; [done|]. intros c m w Hm. by destruct m. Qed.

Lemma mock_plays_the_client_witness :
  let delete := DeleteVolume demo_service (Some (mkDeleteVolumeRequest "pvc-1")) in
  let r := exec (controller_for cluster_client) (interp (mock_method (NewMockClient 0)) delete) demo [] in
  run_out r = run_out (exec cluster_client delete demo []) /\ run_world r = run_world (exec cluster_client delete demo []) /\
  dvMap (run_world r) = ∅.
Proof.
  assert (H : only (E := clientE) (fun m => has_method m = true) (DeleteVolume demo_service (Some (mkDeleteVolumeRequest "pvc-1"))))
    by (split; [done|]; by intros [e|]).
  split; [|split; [|vm_compute; reflexivity]].
  - apply (mock_plays_the_client (controller_for cluster_client) cluster_client (NewMockClient 0) _ demo); [apply controller_for_plays|exact H].
  - apply (mock_plays_the_client (controller_for cluster_client) cluster_client (NewMockClient 0) _ demo); [apply controller_for_plays|exact H].
Defined.
