(* ===== verification/Attach.v ===== *)
(** * Attaching and detaching volumes

    [ControllerPublishVolume] and [ControllerUnpublishVolume] of
    pkg/service/controller.go and the methods they call, as programs over the
    [Client] interface, and what they guarantee. *)

From S2P Require Import Prelude GoStrings Errors Effects Wait Objects Csi Util ClientAPI Fixtures Controller.
Import Client.

Local Open Scope Z_scope.

(** [cache.SplitMetaNamespaceKey]
    (vendor/k8s.io/client-go/tools/cache/store.go). *)
Definition SplitMetaNamespaceKey (key : string) : string * string * option error :=
  match Split key "/" with
  | [name] => ("", name, None)
  | [namespace; name] => (namespace, name, None)
  | _ => ("", "", Some (Errorf "unexpected key format: %q" [AStr key]))
  end.

(** The backoff of both retry loops. *)
Definition hotplugBackoff : Backoff :=
  {| Duration := Second; Steps := 5; Factor := 2; Cap := Second * 30 |}.

Section Service.
Variable c : ControllerService.

(** ** ControllerPublishVolume *)

Definition validateControllerPublishVolumeRequest (req : option ControllerPublishVolumeRequest) : option error :=
  match req with
  | None => Some (status_Error InvalidArgument "missing request")
  | Some req =>
      if is_empty (cp_VolumeId req) then Some (status_Error InvalidArgument "volume id missing in request")
      else if is_empty (cp_NodeId req) then Some (status_Error InvalidArgument "node id missing in request")
      else if is_nil (cp_VolumeCapability req) then
        Some (status_Error InvalidArgument "volume capability missing in request")
      else None
  end.

(** Is [dvName] in the status of a VMI other than [currentVMIName]? *)
Definition attachedElsewhere (dvName currentVMIName : string) (vmis : list VirtualMachineInstance) : bool :=
  existsb (fun vmi =>
    negb (vmi_Name vmi =s? currentVMIName) &&
    existsb (fun volumeStatus => vs_Name volumeStatus =s? dvName) (vmi_VolumeStatus vmi)) vmis.

Definition IsVolumeAttachedToOtherVMI (dvName infraNamespace currentVMIName : string)
    : prog clientE (result bool) :=
  '(vmis, err) ← invoke (ListVirtualMachines infraNamespace);
  match err with
  | Some e =>
      Ret (false, Some (WrapErrorf "failed to list Virtual Machine Instances in namespace %s: %w"
                          [AStr infraNamespace] e))
  | None => Ret (attachedElsewhere dvName currentVMIName vmis, None)
  end.

(** Is [dvName] a hot-pluggable DataVolume of the VM spec?  The test of the
    loops of [isVolumeAttached] and [removeVolumeFromVm]. *)
Definition hotpluggedInSpec (dvName : string) (volumes : list Volume) : bool :=
  existsb (fun volume =>
    match vol_DataVolume volume with
    | None => false
    | Some dv => vdv_Hotpluggable dv && (vol_Name volume =s? dvName)
    end) volumes.

Definition isVolumeAttached (dvName vmName : string) : prog clientE (result bool) :=
  '(vm, err) ← invoke (GetWorkloadManagingVirtualMachine (infraClusterNamespace c) vmName);
  if negb (is_nil err) then
    if negb (IsNotFound err) then Ret (false, err)
    else Ret (false, Some (StatusError NotFound "vm %s not found" [AStr vmName]))
  else
    vm ← deref "vm" vm;
    template ← deref "vm.Spec.Template" (vm_Template vm);
    Ret (hotpluggedInSpec dvName (tpl_Volumes template), None).

Definition addVolumeToVm (dvName vmName : string) (addVolumeOptions : AddVolumeOptions)
    : prog clientE (option error) :=
  '(volumeFound, err) ← isVolumeAttached dvName vmName;
  if negb (is_nil err) then Ret err
  else if negb volumeFound then
    err ← invoke (AddVolumeToVM (infraClusterNamespace c) vmName addVolumeOptions);
    if negb (is_nil err) then Ret err else Ret None
  else Ret None.

(** The body of the retried closure of [ControllerPublishVolume]: an error
    of [addVolumeToVm] is logged and asks for another attempt. *)
Definition attempt (action : prog clientE (option error)) : prog clientE (bool * option error) :=
  err ← action;
  if negb (is_nil err) then Ret (false, None) else Ret (true, None).

(** The rest of [ControllerPublishVolume] once the check on RWO volumes let
    the request through. *)
Definition publishVolume (req : ControllerPublishVolumeRequest) (vmName : string)
    : prog clientE (result (option ControllerPublishVolumeResponse)) :=
  let ns := infraClusterNamespace c in
  let dvName := cp_VolumeId req in
  '(_, err) ← invoke (GetDataVolume ns dvName);
  if IsNotFound err then Ret (None, Some (StatusError NotFound "volume %s not found" [AStr dvName]))
  else if negb (is_nil err) then Ret (None, err) else
  '(_, err) ← invoke (GetWorkloadManagingVirtualMachine ns vmName);
  if negb (is_nil err) then
    if negb (IsNotFound err) then Ret (None, err)
    else Ret (None, Some (StatusError NotFound "vm %s not found" [AStr vmName]))
  else
  let serial := mapget (cp_VolumeContext req) serialParameter in
  let bus := mapget (cp_VolumeContext req) busParameter in
  '(attached, err) ← invoke (EnsureVolumeAvailableVM ns vmName dvName);
  if negb (is_nil err) then Ret (None, err)
  else if attached then Ret (Some mkControllerPublishVolumeResponse, None)
  else
  let addVolumeOptions := mkAddVolumeOptions dvName (mkDisk serial bus) dvName in
  err ← ExponentialBackoff client_sleep hotplugBackoff
    (attempt (addVolumeToVm dvName vmName addVolumeOptions));
  if negb (is_nil err) then Ret (None, err) else
  err ← invoke (EnsureVolumeAvailable ns vmName dvName (Minute * 2));
  if negb (is_nil err) then Ret (None, err)
  else Ret (Some mkControllerPublishVolumeResponse, None).

Definition ControllerPublishVolume (req : option ControllerPublishVolumeRequest)
    : prog clientE (result (option ControllerPublishVolumeResponse)) :=
  let err := validateControllerPublishVolumeRequest req in
  if negb (is_nil err) then Ret (None, err) else
  req ← deref "req" req;
  let dvName := cp_VolumeId req in
  let '(_, vmName, err) := SplitMetaNamespaceKey (cp_NodeId req) in
  if negb (is_nil err) then Ret (None, err) else
  let '(isRWX, err) := hasRWXCapabiltyAccessMode (GetAccessMode (cp_VolumeCapability req)) in
  match err with
  | Some e => Ret (None, Some (WrapErrorf "error checking access mode: %w" [] e))
  | None =>
      if negb isRWX then
        '(alreadyAttached, err) ← IsVolumeAttachedToOtherVMI dvName (infraClusterNamespace c) vmName;
        match err with
        | Some e => Ret (None, Some (StatusError FailedPrecondition
                     "failed to check if volume is already attached: %s" [AErr e]))
        | None =>
            if alreadyAttached then
              Ret (None, Some (StatusError FailedPrecondition ErrVolumeAttachedMessage []))
            else publishVolume req vmName
        end
      else publishVolume req vmName
  end.

(** ** ControllerUnpublishVolume *)

Definition validateControllerUnpublishVolumeRequest (req : option ControllerUnpublishVolumeRequest) : option error :=
  match req with
  | None => Some (status_Error InvalidArgument "missing request")
  | Some req =>
      if is_empty (cu_VolumeId req) then Some (status_Error InvalidArgument "volume id missing in request")
      else if is_empty (cu_NodeId req) then Some (status_Error InvalidArgument "node id missing in request")
      else None
  end.

Definition volumeStillAttached (vmName dvName : string) : prog clientE (result bool) :=
  let ns := infraClusterNamespace c in
  let checkVMI : prog clientE (result bool) :=
    '(removedFromVMI, err) ← invoke (EnsureVolumeRemovedVMI ns vmName dvName);
    if negb (is_nil err) then Ret (false, err) else Ret (negb removedFromVMI, None) in
  '(_, err) ← invoke (GetWorkloadManagingVirtualMachine ns vmName);
  if is_nil err then
    '(removedFromVM, err) ← invoke (EnsureVolumeRemovedVM ns vmName dvName);
    if negb (is_nil err) then Ret (false, err)
    else if negb removedFromVM then Ret (true, None)
    else checkVMI
  else if IsNotFound err then checkVMI
  else Ret (false, err).

(** Is [dvName] a hot-plugged volume of the VMI status?  The loop of
    [removeVolumeFromVm] over the VMI. *)
Definition hotpluggedInStatus (dvName : string) (vmi : VirtualMachineInstance) : bool :=
  existsb (fun volumeStatus =>
    negb (is_nil (vs_HotplugVolume volumeStatus)) && (vs_Name volumeStatus =s? dvName)) (vmi_VolumeStatus vmi).

(** The second half of [removeVolumeFromVm]: the VM is missing or no longer
    holds the volume. *)
Definition removeVolumeViaVMI (dvName vmName : string) : prog clientE (option error) :=
  let ns := infraClusterNamespace c in
  '(vmi, err) ← invoke (GetVirtualMachine ns vmName);
  if negb (is_nil err) then
    if IsNotFound err then Ret None else Ret err
  else
    vmi ← deref "vmi" vmi;
    if hotpluggedInStatus dvName vmi then
      err ← invoke (RemoveVolumeFromVMI ns vmName (mkRemoveVolumeOptions dvName));
      if negb (is_nil err) then Ret err else Ret None
    else Ret None.

Definition removeVolumeFromVm (dvName vmName : string) : prog clientE (option error) :=
  let ns := infraClusterNamespace c in
  '(vm, err) ← invoke (GetWorkloadManagingVirtualMachine ns vmName);
  if negb (is_nil err) && negb (IsNotFound err) then Ret err else
  match vm with
  | Some vm =>
      template ← deref "vm.Spec.Template" (vm_Template vm);
      if hotpluggedInSpec dvName (tpl_Volumes template) then
        err ← invoke (RemoveVolumeFromVM ns vmName (mkRemoveVolumeOptions dvName));
        if negb (is_nil err) then Ret err else Ret None
      else removeVolumeViaVMI dvName vmName
  | None => removeVolumeViaVMI dvName vmName
  end.

Definition ControllerUnpublishVolume (req : option ControllerUnpublishVolumeRequest)
    : prog clientE (result (option ControllerUnpublishVolumeResponse)) :=
  let err := validateControllerUnpublishVolumeRequest req in
  if negb (is_nil err) then Ret (None, err) else
  req ← deref "req" req;
  let ns := infraClusterNamespace c in
  let dvName := cu_VolumeId req in
  let '(_, vmName, err) := SplitMetaNamespaceKey (cu_NodeId req) in
  if negb (is_nil err) then Ret (None, err) else
  '(attached, err) ← volumeStillAttached vmName dvName;
  if negb (is_nil err) then Ret (None, err)
  else if negb attached then Ret (Some mkControllerUnpublishVolumeResponse, None)
  else
  err ← ExponentialBackoff client_sleep hotplugBackoff
    (attempt (removeVolumeFromVm dvName vmName));
  if negb (is_nil err) then Ret (None, err) else
  err ← invoke (EnsureVolumeRemoved ns vmName dvName (Minute * 2));
  if negb (is_nil err) then Ret (None, err)
  else Ret (Some mkControllerUnpublishVolumeResponse, None).
End Service.

(** ** What the retry loops do *)

(** The backoff of both loops: five attempts, with sleeps of one, two, four and
    eight seconds between them. *)
Lemma hotplug_retry cond :
  ExponentialBackoff client_sleep hotplugBackoff cond ≡
  retry client_sleep [Second; Second * 2; Second * 2 * 2; Second * 2 * 2 * 2] cond.
Proof. by apply (ExponentialBackoff_retry client_sleep hotplugBackoff). Qed.

Section Proofs.
Variable c : ControllerService.
Implicit Types (P : protocol clientE) (t : trace clientE).

(** The options of the hot-plug request made for a publish request. *)
Definition publishOptions (req : ControllerPublishVolumeRequest) : AddVolumeOptions :=
  mkAddVolumeOptions (cp_VolumeId req)
    (mkDisk (mapget (cp_VolumeContext req) serialParameter) (mapget (cp_VolumeContext req) busParameter))
    (cp_VolumeId req).

(** When a publish may hot-plug: the only write is the request's own disk, on
    the VM of the node ID, in the infra namespace; right before, the VM spec
    was seen without it; the DataVolume was seen to exist; and unless the
    volume is RWX no other VMI was listed with it. *)
Definition publishAllowed (req : ControllerPublishVolumeRequest) (vmName : string) (isRWX : bool)
    (t : trace clientE) (m : op clientE) : Prop :=
  let ns := infraClusterNamespace c in
  match m with
  | AddVolumeToVM ns' vmName' opts =>
      ns' = ns /\ vmName' = vmName /\ opts = publishOptions req /\
      (exists vm template,
         just_answered (GetWorkloadManagingVirtualMachine ns vmName) (Some vm, None) t /\
         vm_Template vm = Some template /\
         hotpluggedInSpec (cp_VolumeId req) (tpl_Volumes template) = false) /\
      (exists dv, answered (GetDataVolume ns (cp_VolumeId req)) (dv, None) t) /\
      (isRWX = false -> exists vmis, answered (ListVirtualMachines ns) (vmis, None) t /\
         attachedElsewhere (cp_VolumeId req) vmName vmis = false)
  | _ => is_write m = false
  end.

(** What is known when the retry loop of a publish runs. *)
Definition publishReady (req : ControllerPublishVolumeRequest) (vmName : string) (isRWX : bool) t : Prop :=
  let ns := infraClusterNamespace c in
  (exists dv, answered (GetDataVolume ns (cp_VolumeId req)) (dv, None) t) /\
  (isRWX = false -> exists vmis, answered (ListVirtualMachines ns) (vmis, None) t /\
     attachedElsewhere (cp_VolumeId req) vmName vmis = false).

Lemma publishReady_snoc req vmName isRWX t e :
  publishReady req vmName isRWX t -> publishReady req vmName isRWX (t ++ [e]).
Proof.
  intros [[dv H1] H2]. split; [eauto with go|]. intros H. destruct (H2 H) as (vmis & ? & ?).
  eauto with go.
Qed.

Lemma wp_addVolumeToVm_guarded req vmName isRWX t :
  publishReady req vmName isRWX t ->
  wp (guard (publishAllowed req vmName isRWX))
     (addVolumeToVm c (cp_VolumeId req) vmName (publishOptions req)) t
     (fun t' _ => publishReady req vmName isRWX t').
Proof.
  intros HR. unfold addVolumeToVm, isVolumeAttached.
  split; [done|]. intros [vm err] _.
  destruct err as [e|]; simpl.
  { destruct (negb (IsNotFound (Some e))); simpl; by apply publishReady_snoc. }
  destruct vm as [vm|]; simpl; [|by apply publishReady_snoc].
  destruct (vm_Template vm) as [template|] eqn:Htpl; simpl; [|by apply publishReady_snoc].
  destruct (hotpluggedInSpec _ _) eqn:Hin; simpl; [by apply publishReady_snoc|].
  destruct HR as [[dv HR] HX]. split.
  { repeat split.
    - exists vm, template. eauto with go.
    - eauto with go.
    - intros Hm. destruct (HX Hm) as (vmis & ? & ?). eauto with go. }
  intros r _. destruct (negb (is_nil r)); simpl; do 2 apply publishReady_snoc; split; eauto.
Qed.

(** Evidence that the volume is attached when a publish answers success. *)
Definition publishEvidence (req : ControllerPublishVolumeRequest) (vmName : string) t : Prop :=
  let ns := infraClusterNamespace c in
  just_answered (EnsureVolumeAvailableVM ns vmName (cp_VolumeId req)) (true, None) t \/
  just_answered (EnsureVolumeAvailable ns vmName (cp_VolumeId req) (Minute * 2)) None t.

Definition publishPost (req : ControllerPublishVolumeRequest) (vmName : string) t
    (o : outcome (result (option ControllerPublishVolumeResponse))) : Prop :=
  match o with
  | Val (Some _, Some _) => False
  | Val (Some _, None) => publishEvidence req vmName t
  | Val (None, err) => err <> None
  | Panicked _ => True
  end.

Lemma wp_publishVolume req vmName isRWX t :
  (isRWX = false -> exists vmis, answered (ListVirtualMachines (infraClusterNamespace c)) (vmis, None) t /\
     attachedElsewhere (cp_VolumeId req) vmName vmis = false) ->
  wp (guard (publishAllowed req vmName isRWX)) (publishVolume c req vmName) t (publishPost req vmName).
Proof.
  intros HX. unfold publishVolume. psimpl. wp_call [dv err].
  wp_case (IsNotFound err). wp_case err.
  assert (HR : publishReady req vmName isRWX (t ++ [Ev (E := clientE)
    (GetDataVolume (infraClusterNamespace c) (cp_VolumeId req)) (dv, None)])).
  { split; [eauto with go|]. intros H. destruct (HX H) as (vmis & ? & ?). eauto with go. }
  revert HR. generalize (t ++ [Ev (E := clientE)
    (GetDataVolume (infraClusterNamespace c) (cp_VolumeId req)) (dv, None)]). clear dv t HX. intros t HR.
  wp_call [vm err]. wp_case err; [by wp_case (IsNotFound (Some e))|].
  wp_call [attached err]. wp_case err. wp_case attached; [left; apply just_answered_snoc|].
  apply wp_bind. apply wp_backoff with (I := publishReady req vmName isRWX).
  - done.
  - intros t' d Ht'. psimpl. wp_call []. by apply publishReady_snoc.
  - intros t' Ht'. apply wp_bind. eapply wp_mono; [|by apply wp_addVolumeToVm_guarded].
    intros t'' [err|m] HR''; psimpl; [|done]. wp_case err.
    wp_call r. wp_case r. right. apply just_answered_snoc.
  - by do 2 apply publishReady_snoc.
Qed.

(** The VM name of a node ID. *)
Definition vmNameOf (nodeId : string) : string := (SplitMetaNamespaceKey nodeId).1.2.

(** [ControllerPublishVolume] hot-plugs only when allowed, and answers success
    only on evidence. *)
Lemma wp_ControllerPublishVolume req :
  let vmName := vmNameOf (cp_NodeId req) in
  let isRWX := (hasRWXCapabiltyAccessMode (GetAccessMode (cp_VolumeCapability req))).1 in
  wp (guard (publishAllowed req vmName isRWX)) (ControllerPublishVolume c (Some req)) []
     (publishPost req vmName).
Proof.
  intros vmName isRWX. unfold ControllerPublishVolume.
  destruct (validateControllerPublishVolumeRequest (Some req)) as [e|]; [done|]. cbn [is_nil negb bind deref].
  subst vmName. unfold vmNameOf.
  destruct (SplitMetaNamespaceKey (cp_NodeId req)) as [[ns vmName] err] eqn:Hsplit. simpl.
  destruct err as [e|]; [done|]. simpl.
  subst isRWX. destruct (hasRWXCapabiltyAccessMode _) as [isRWX err]. simpl.
  destruct err as [e|]; [done|].
  destruct isRWX; cbn [negb].
  { by apply wp_publishVolume. }
  unfold IsVolumeAttachedToOtherVMI. split; [done|]. intros [vmis err] _.
  destruct err as [e|]; simpl; [done|].
  destruct (attachedElsewhere _ _ _) eqn:Hatt; [done|].
  apply wp_publishVolume. intros _. exists vmis. split; [unfold answered; set_solver|done].
Qed.

(** ** Detaching *)

(** When an unpublish may hot-unplug: only this disk, from this VM; from the
    VM when its spec was just seen to hold it as a hot-pluggable DataVolume,
    from the VMI when its status was just seen to report it as hot-plugged. *)
Definition unpublishAllowed (dvName vmName : string) (t : trace clientE) (m : op clientE) : Prop :=
  let ns := infraClusterNamespace c in
  match m with
  | RemoveVolumeFromVM ns' vmName' opts =>
      ns' = ns /\ vmName' = vmName /\ opts = mkRemoveVolumeOptions dvName /\
      exists vm err template, just_answered (GetWorkloadManagingVirtualMachine ns vmName) (Some vm, err) t /\
        vm_Template vm = Some template /\ hotpluggedInSpec dvName (tpl_Volumes template) = true
  | RemoveVolumeFromVMI ns' vmName' opts =>
      ns' = ns /\ vmName' = vmName /\ opts = mkRemoveVolumeOptions dvName /\
      exists vmi, just_answered (GetVirtualMachine ns vmName) (Some vmi, None) t /\
        hotpluggedInStatus dvName vmi = true
  | _ => is_write m = false
  end.

Lemma wp_removeVolumeViaVMI_guarded dvName vmName t :
  wp (guard (unpublishAllowed dvName vmName)) (removeVolumeViaVMI c dvName vmName) t (fun _ _ => True).
Proof.
  unfold removeVolumeViaVMI. psimpl. wp_call [vmi err]. wp_case err; [by wp_case (IsNotFound (Some e))|].
  wp_case vmi. destruct (hotpluggedInStatus dvName v) eqn:Hh; psimpl; [|done].
  split; [|intros r _; by wp_case r]. repeat split. exists v. eauto with go.
Qed.

Lemma wp_removeVolumeFromVm_guarded dvName vmName t :
  wp (guard (unpublishAllowed dvName vmName)) (removeVolumeFromVm c dvName vmName) t (fun _ _ => True).
Proof.
  unfold removeVolumeFromVm. psimpl. wp_call [vm err].
  wp_case (negb (is_nil err) && negb (IsNotFound err)).
  destruct vm as [vm|]; [|apply wp_removeVolumeViaVMI_guarded].
  destruct (vm_Template vm) as [template|] eqn:Htpl; psimpl; [|done].
  destruct (hotpluggedInSpec _ _) eqn:Hin; [|apply wp_removeVolumeViaVMI_guarded]. psimpl.
  split; [|intros r _; by wp_case r]. repeat split. exists vm, err, template. eauto with go.
Qed.

(** Evidence that the volume is detached when an unpublish answers success. *)
Definition unpublishEvidence (dvName vmName : string) t : Prop :=
  let ns := infraClusterNamespace c in
  just_answered (EnsureVolumeRemoved ns vmName dvName (Minute * 2)) None t \/
  (just_answered (EnsureVolumeRemovedVMI ns vmName dvName) (true, None) t /\
   ((exists vm err, answered (GetWorkloadManagingVirtualMachine ns vmName) (vm, err) t /\ IsNotFound err = true) \/
    answered (EnsureVolumeRemovedVM ns vmName dvName) (true, None) t)).

Definition unpublishPost (dvName vmName : string) t
    (o : outcome (result (option ControllerUnpublishVolumeResponse))) : Prop :=
  match o with
  | Val (Some _, Some _) => False
  | Val (Some _, None) => unpublishEvidence dvName vmName t
  | Val (None, err) => err <> None
  | Panicked _ => True
  end.

(** [volumeStillAttached] answers true only when one of the two surfaces
    still shows the disk, and false only when both were seen without it. *)
Definition stillAttachedPost (vmName dvName : string) t (o : outcome (result bool)) : Prop :=
  let ns := infraClusterNamespace c in
  match o with
  | Val (true, None) =>
      just_answered (EnsureVolumeRemovedVM ns vmName dvName) (false, None) t \/
      just_answered (EnsureVolumeRemovedVMI ns vmName dvName) (false, None) t
  | Val (false, None) =>
      just_answered (EnsureVolumeRemovedVMI ns vmName dvName) (true, None) t /\
      ((exists vm err, answered (GetWorkloadManagingVirtualMachine ns vmName) (vm, err) t /\ IsNotFound err = true) \/
       answered (EnsureVolumeRemovedVM ns vmName dvName) (true, None) t)
  | Val (b, Some _) => b = false
  | Panicked _ => False
  end.

Lemma wp_volumeStillAttached P vmName dvName t :
  (forall t m, is_write m = false -> pre P t m) ->
  wp P (volumeStillAttached c vmName dvName) t (stillAttachedPost vmName dvName).
Proof.
  intros HP. unfold volumeStillAttached. psimpl. split; [by apply HP|]. intros [vm err] _. psimpl.
  destruct (is_nil err) eqn:Hnil.
  - split; [by apply HP|]. intros [removed err1] _. psimpl. wp_case err1.
    wp_case removed; [|left; apply just_answered_snoc].
    split; [by apply HP|]. intros [removed err2] _. psimpl. wp_case err2.
    destruct removed; simpl; [|right; apply just_answered_snoc].
    split; [apply just_answered_snoc|]. right. eauto with go.
  - destruct (IsNotFound err) eqn:Hnf; psimpl; [|by destruct err].
    split; [by apply HP|]. intros [removed err2] _. psimpl. wp_case err2.
    destruct removed; simpl; [|right; apply just_answered_snoc].
    split; [apply just_answered_snoc|]. left. exists vm, err. eauto with go.
Qed.

Lemma wp_ControllerUnpublishVolume req :
  let vmName := vmNameOf (cu_NodeId req) in
  wp (guard (unpublishAllowed (cu_VolumeId req) vmName)) (ControllerUnpublishVolume c (Some req)) []
     (unpublishPost (cu_VolumeId req) vmName).
Proof.
  intros vmName. unfold ControllerUnpublishVolume.
  destruct (validateControllerUnpublishVolumeRequest (Some req)) as [e|]; [done|]. psimpl.
  subst vmName. unfold vmNameOf.
  destruct (SplitMetaNamespaceKey (cu_NodeId req)) as [[ns vmName] err]. psimpl. wp_case err.
  apply wp_bind. eapply wp_mono; [|apply wp_volumeStillAttached; by intros t m Hm; destruct m].
  intros t [[attached err]|m]; psimpl; [|done]. wp_case err.
  destruct attached; psimpl; [intros _|by right].
  apply wp_bind. apply wp_backoff with (I := fun _ => True); [done|..|done].
  - intros t' d _. by wp_call [].
  - intros t' _. apply wp_bind. eapply wp_mono; [|apply wp_removeVolumeFromVm_guarded].
    intros t'' [err|m] _; psimpl; [|done]. wp_case err.
    wp_call r. wp_case r. left. apply just_answered_snoc.
Qed.

(** ** At most five attempts, at most fifteen seconds asleep *)

Definition withinBudget (w0 : nat) (s0 : Z) t : Prop :=
  (writes t <= w0 + 5)%nat /\ s0 <= slept t <= s0 + 15 * Second.

Lemma slept_snoc t (e : event clientE) :
  slept (t ++ [e]) = slept t + match ev_op e : Client.method with Sleep d => d | _ => 0 end.
Proof. rewrite slept_app. unfold slept at 2. simpl. destruct (ev_op e : Client.method); lia. Qed.

Ltac budget := intros; simpl in *; rewrite ?writes_snoc, ?slept_snoc in *; simpl in *;
  rewrite ?writes_snoc, ?slept_snoc in *; simpl in *; try lia.

Lemma attempt_bounds action t :
  wp any action t (fun t' _ => (writes t' <= writes t + 1)%nat /\ slept t' = slept t) ->
  wp any (attempt action) t (fun t' _ => (writes t' <= writes t + 1)%nat /\ slept t' = slept t).
Proof.
  intros H. apply wp_bind. eapply wp_mono; [|exact H]. intros t' [err|m]; psimpl; [|done].
  by destruct err.
Qed.

Lemma addVolumeToVm_bounds dvName vmName opts t :
  wp any (addVolumeToVm c dvName vmName opts) t
    (fun t' _ => (writes t' <= writes t + 1)%nat /\ slept t' = slept t).
Proof.
  unfold addVolumeToVm, isVolumeAttached. psimpl. wp_call [vm err].
  destruct err as [e|]; psimpl; [destruct (IsNotFound (Some e)); psimpl; by budget|].
  destruct vm as [vm|]; psimpl; [|by budget].
  destruct (vm_Template vm); psimpl; [|by budget].
  destruct (hotpluggedInSpec _ _); psimpl; [by budget|]. wp_call r. destruct r; psimpl; by budget.
Qed.

Lemma removeVolumeFromVm_bounds dvName vmName t :
  wp any (removeVolumeFromVm c dvName vmName) t
    (fun t' _ => (writes t' <= writes t + 1)%nat /\ slept t' = slept t).
Proof.
  unfold removeVolumeFromVm, removeVolumeViaVMI. psimpl. wp_call [vm err].
  destruct (negb (is_nil err) && negb (IsNotFound err)); psimpl; [by budget|].
  assert (HVMI : wp any (removeVolumeViaVMI c dvName vmName)
    (t ++ [Ev (E := clientE) (GetWorkloadManagingVirtualMachine (infraClusterNamespace c) vmName) (vm, err)])
    (fun t' _ => (writes t' <= writes t + 1)%nat /\ slept t' = slept t)).
  { unfold removeVolumeViaVMI. psimpl. wp_call [vmi err'].
    destruct err' as [e|]; psimpl; [destruct (IsNotFound (Some e)); psimpl; by budget|].
    destruct vmi as [vmi|]; psimpl; [|by budget].
    destruct (hotpluggedInStatus _ _); psimpl; [|by budget]. wp_call r. destruct r; psimpl; by budget. }
  destruct vm as [vm|]; [|done]. destruct (vm_Template vm); psimpl; [|by budget].
  destruct (hotpluggedInSpec _ _); [|done]. psimpl. wp_call r. destruct r; psimpl; by budget.
Qed.

Lemma hotplug_bounds cond t :
  (forall t, wp any cond t (fun t' _ => (writes t' <= writes t + 1)%nat /\ slept t' = slept t)) ->
  wp any (ExponentialBackoff client_sleep hotplugBackoff cond) t
    (fun t' _ => withinBudget (writes t) (slept t) t').
Proof.
  intros H. rewrite hotplug_retry. eapply wp_mono; [|apply wp_retry_bounds; [exact H|done|]].
  - intros t' _ [H1 H2]. unfold withinBudget. unfold Second in *. simpl in *. lia.
  - by repeat constructor.
Qed.

Lemma withinBudget_refl t : withinBudget (writes t) (slept t) t.
Proof. unfold withinBudget, Second. lia. Qed.

Lemma withinBudget_nil : withinBudget 0 0 [].
Proof. apply (withinBudget_refl []). Qed.

(** Calls that neither write nor sleep use nothing of the budget. *)
Lemma withinBudget_snoc w0 s0 t (e : event clientE) :
  is_write (ev_op e) = false -> (forall d, ev_op e <> Sleep d) ->
  withinBudget w0 s0 t -> withinBudget w0 s0 (t ++ [e]).
Proof.
  unfold withinBudget. rewrite writes_snoc, slept_snoc. intros -> Hs [H1 H2].
  destruct (ev_op e : Client.method) eqn:He; try lia. by destruct (Hs d).
Qed.

Lemma publishVolume_budget req vmName t w0 s0 :
  (writes t <= w0)%nat -> slept t = s0 ->
  wp any (publishVolume c req vmName) t (fun t' _ => withinBudget w0 s0 t').
Proof.
  intros Hw Hs. assert (HB : withinBudget w0 s0 t) by (unfold withinBudget, Second; lia).
  unfold publishVolume. psimpl. wp_call [dv err].
  destruct (IsNotFound err); psimpl; [by apply withinBudget_snoc|].
  destruct (is_nil err); psimpl; [|by apply withinBudget_snoc].
  wp_call [vm err']. destruct (is_nil err'); psimpl;
    [|destruct (IsNotFound err'); psimpl; by repeat apply withinBudget_snoc].
  wp_call [attached err'']. destruct (is_nil err''); psimpl; [|by repeat apply withinBudget_snoc].
  destruct attached; psimpl; [by repeat apply withinBudget_snoc|].
  match goal with |- wp _ _ ?t0 _ => set (t' := t0) end.
  assert (Ht' : (writes t' <= w0)%nat /\ slept t' = s0) by (subst t'; split; budget).
  clearbody t'. destruct Ht' as [Hw' Hs'].
  apply wp_bind. eapply wp_mono; [|apply hotplug_bounds; intros; apply attempt_bounds, addVolumeToVm_bounds].
  intros t'' [err3|m] HB''; (assert (HB3 : withinBudget w0 s0 t'') by (unfold withinBudget, Second in *; lia));
    psimpl; [|done].
  destruct err3; psimpl; [done|]. wp_call r. destruct r; psimpl; by apply withinBudget_snoc.
Qed.

Lemma publish_budget req :
  wp any (ControllerPublishVolume c req) [] (fun t _ => withinBudget 0 0 t).
Proof.
  pose proof withinBudget_nil as H0.
  unfold ControllerPublishVolume.
  destruct (validateControllerPublishVolumeRequest req) as [e|]; psimpl; [done|].
  destruct req as [req|]; psimpl; [|done].
  destruct (SplitMetaNamespaceKey (cp_NodeId req)) as [[ns vmName] err]. destruct err; psimpl; [done|].
  destruct (hasRWXCapabiltyAccessMode _) as [isRWX err]. destruct err; psimpl; [done|].
  destruct isRWX; psimpl; [by apply publishVolume_budget|].
  unfold IsVolumeAttachedToOtherVMI. psimpl. wp_call [vmis err].
  destruct err; psimpl; [by apply (withinBudget_snoc 0 0 [])|].
  destruct (attachedElsewhere _ _ _); psimpl; [by apply (withinBudget_snoc 0 0 [])|].
  by apply publishVolume_budget.
Qed.

Lemma unpublish_budget req :
  wp any (ControllerUnpublishVolume c req) [] (fun t _ => withinBudget 0 0 t).
Proof.
  pose proof withinBudget_nil as H0.
  unfold ControllerUnpublishVolume.
  destruct (validateControllerUnpublishVolumeRequest req) as [e|]; psimpl; [done|].
  destruct req as [req|]; psimpl; [|done].
  destruct (SplitMetaNamespaceKey (cu_NodeId req)) as [[ns vmName] err]. destruct err; psimpl; [done|].
  assert (HS : forall t Q, (forall t' o, (writes t' <= writes t)%nat /\ slept t' = slept t -> Q t' o) ->
    wp any (volumeStillAttached c vmName (cu_VolumeId req)) t Q).
  { intros t Q HQ. unfold volumeStillAttached. psimpl. wp_call [vm err].
    destruct (is_nil err); psimpl.
    - wp_call [r err1]. destruct (is_nil err1); psimpl; [|apply HQ; split; budget].
      destruct r; psimpl; [|apply HQ; split; budget].
      wp_call [r err2]. destruct (is_nil err2); psimpl; apply HQ; split; budget.
    - destruct (IsNotFound err); psimpl; [|apply HQ; split; budget].
      wp_call [r err2]. destruct (is_nil err2); psimpl; apply HQ; split; budget. }
  apply wp_bind. apply HS. intros t o [Hw Hs].
  change (writes []) with 0%nat in Hw. change (slept []) with 0 in Hs.
  assert (HB : withinBudget 0 0 t) by (unfold withinBudget, Second; lia).
  destruct o as [[attached err]|m]; psimpl; [|done].
  destruct err; psimpl; [done|]. destruct attached; psimpl; [|done].
  apply wp_bind. eapply wp_mono; [|apply hotplug_bounds; intros; apply attempt_bounds, removeVolumeFromVm_bounds].
  intros t'' [err3|m] HB''; (assert (HB3 : withinBudget 0 0 t'') by (unfold withinBudget, Second in *; lia));
    psimpl; [|done].
  destruct err3; psimpl; [done|]. wp_call r. destruct r; psimpl; by apply withinBudget_snoc.
Qed.

(** ** No panic under the client's contract *)

Lemma attempt_no_panic P action t :
  wp P action t no_panic -> wp P (attempt action) t no_panic.
Proof.
  intros H. apply wp_bind. eapply wp_mono; [|exact H]. intros t' o [err ->]. psimpl.
  destruct err; psimpl; by eexists.
Qed.

Lemma hotplug_no_panic P `{!ClientContract P} action t :
  (forall t, wp P action t no_panic) ->
  wp P (ExponentialBackoff client_sleep hotplugBackoff (attempt action)) t no_panic.
Proof.
  intros H. apply wp_backoff with (I := fun _ => True); [by eexists|..|done].
  - intros t' d _. psimpl. split; [apply contract_pre|]. by intros [].
  - intros t' _. eapply wp_mono; [|apply attempt_no_panic, H].
    intros t'' o [[ok err] ->]. destruct (_ || ok); by try eexists.
Qed.

Lemma removeVolumeFromVm_no_panic P `{!ClientContract P, !MissingVMIsNil P} dvName vmName t :
  wp P (removeVolumeFromVm c dvName vmName) t no_panic.
Proof.
  assert (HVMI : forall t, wp P (removeVolumeViaVMI c dvName vmName) t no_panic).
  { intros t'. unfold removeVolumeViaVMI. psimpl. split; [apply contract_pre|]. intros [vmi err] Hr. psimpl.
    destruct err as [e|]; psimpl; [destruct (IsNotFound (Some e)); psimpl; by eexists|].
    apply contract_vmi in Hr as [v ->]. psimpl. destruct (hotpluggedInStatus _ _); psimpl; [|by eexists].
    split; [apply contract_pre|]. intros r _. destruct r; psimpl; by eexists. }
  unfold removeVolumeFromVm. psimpl. split; [apply contract_pre|]. intros [vm err] Hr. psimpl.
  destruct (_ && _); psimpl; [by eexists|].
  destruct err as [e|]; [by apply missing_vm in Hr as ->|].
  apply contract_vm in Hr as (v & template & -> & ->). psimpl.
  destruct (hotpluggedInSpec _ _); [|done]. psimpl.
  split; [apply contract_pre|]. intros r _. destruct r; psimpl; by eexists.
Qed.

Lemma addVolumeToVm_no_panic P `{!ClientContract P} dvName vmName opts t :
  wp P (addVolumeToVm c dvName vmName opts) t no_panic.
Proof.
  unfold addVolumeToVm, isVolumeAttached. psimpl. split; [apply contract_pre|]. intros [vm err] Hr. psimpl.
  destruct err as [e|]; psimpl; [destruct (IsNotFound (Some e)); psimpl; by eexists|].
  apply contract_vm in Hr as (v & template & -> & Ht). psimpl. rewrite Ht. psimpl.
  destruct (hotpluggedInSpec _ _); psimpl; [by eexists|].
  split; [apply contract_pre|]. intros r _. destruct r; psimpl; by eexists.
Qed.
End Proofs.

(** ** More on both RPCs *)

Section Contract.
Variable c : ControllerService.
Context (P : protocol clientE) `{HP : !ClientContract P}.

Lemma publishVolume_no_panic req vmName t : wp P (publishVolume c req vmName) t no_panic.
Proof using HP.
  unfold publishVolume. psimpl. split; [apply contract_pre|]. intros [dv err] _. psimpl.
  destruct (IsNotFound err); psimpl; [by eexists|]. destruct err; psimpl; [by eexists|].
  split; [apply contract_pre|]. intros [vm err] _. psimpl.
  destruct err as [e|]; psimpl; [destruct (IsNotFound (Some e)); psimpl; by eexists|].
  split; [apply contract_pre|]. intros [attached err] _. psimpl.
  destruct err; psimpl; [by eexists|]. destruct attached; psimpl; [by eexists|].
  apply wp_bind. eapply wp_mono; [|apply hotplug_no_panic; [done|]; intros; by apply addVolumeToVm_no_panic].
  intros t' o [err ->]. psimpl. destruct err; psimpl; [by eexists|].
  split; [apply contract_pre|]. intros r _. destruct r; psimpl; by eexists.
Qed.

Lemma publish_no_panic req t : wp P (ControllerPublishVolume c req) t no_panic.
Proof using HP.
  unfold ControllerPublishVolume.
  destruct req as [req|]; [|by eexists].
  destruct (validateControllerPublishVolumeRequest _) as [e|]; psimpl; [by eexists|].
  destruct (SplitMetaNamespaceKey (cp_NodeId req)) as [[ns vmName] err]. destruct err; psimpl; [by eexists|].
  destruct (hasRWXCapabiltyAccessMode _) as [isRWX err]. destruct err; psimpl; [by eexists|].
  destruct isRWX; psimpl; [apply publishVolume_no_panic|].
  unfold IsVolumeAttachedToOtherVMI. psimpl. split; [apply contract_pre|]. intros [vmis err] _. psimpl.
  destruct err; psimpl; [by eexists|].
  destruct (attachedElsewhere _ _ _); psimpl; [by eexists|apply publishVolume_no_panic].
Qed.

Lemma unpublish_no_panic `{!MissingVMIsNil P} req t : wp P (ControllerUnpublishVolume c req) t no_panic.
Proof using All.
  unfold ControllerUnpublishVolume.
  destruct req as [req|]; [|by eexists].
  destruct (validateControllerUnpublishVolumeRequest _) as [e|]; psimpl; [by eexists|].
  destruct (SplitMetaNamespaceKey (cu_NodeId req)) as [[ns vmName] err]. destruct err; psimpl; [by eexists|].
  apply wp_bind. eapply wp_mono; [|apply wp_volumeStillAttached; intros; apply contract_pre].
  intros t' [[attached err]|m]; psimpl; [intros _|done]. destruct err; psimpl; [by eexists|].
  destruct attached; psimpl; [|by eexists].
  apply wp_bind. eapply wp_mono; [|apply hotplug_no_panic; [done|]; intros; by apply removeVolumeFromVm_no_panic].
  intros t'' o [err ->]. psimpl. destruct err; psimpl; [by eexists|].
  split; [apply contract_pre|]. intros r _. destruct r; psimpl; by eexists.
Qed.
End Contract.

(** A client that reports the disk in the VM spec; one that reports it on
    neither surface. *)
Definition reports_attached (ns vmName dvName : string) : protocol clientE :=
  @Protocol clientE (fun _ _ => True) (fun _ (m : Client.method) =>
    match m return Client.answer m -> Prop with
    | EnsureVolumeAvailableVM ns' vmName' dvName' => fun r =>
        ns' = ns -> vmName' = vmName -> dvName' = dvName -> r = (true, None)
    | _ => fun _ => True
    end).

Definition reports_detached (ns vmName dvName : string) : protocol clientE :=
  @Protocol clientE (fun _ _ => True) (fun _ (m : Client.method) =>
    match m return Client.answer m -> Prop with
    | EnsureVolumeRemovedVM ns' vmName' dvName' | EnsureVolumeRemovedVMI ns' vmName' dvName' => fun r =>
        ns' = ns -> vmName' = vmName -> dvName' = dvName -> r = (true, None)
    | _ => fun _ => True
    end).

Lemma wp_publish_attached c req :
  wp (reports_attached (infraClusterNamespace c) (vmNameOf (cp_NodeId req)) (cp_VolumeId req))
     (ControllerPublishVolume c (Some req)) [] (fun t _ => writes t = 0%nat).
Proof.
  assert (HP : forall t vmName, writes t = 0%nat ->
    wp (reports_attached (infraClusterNamespace c) vmName (cp_VolumeId req))
      (publishVolume c req vmName) t (fun t _ => writes t = 0%nat)).
  { intros t vmName Ht. unfold publishVolume. psimpl. wp_call [dv err].
    destruct (IsNotFound err); psimpl; [by rewrite writes_snoc, Ht|].
    destruct err; psimpl; [by rewrite writes_snoc, Ht|].
    wp_call [vm err]. destruct err as [e|]; psimpl;
      [destruct (IsNotFound (Some e)); psimpl; by rewrite !writes_snoc, Ht|].
    split; [done|]. intros [attached err] Hr. simpl in Hr. pose proof (Hr eq_refl eq_refl eq_refl). simplify_eq. psimpl.
    by rewrite !writes_snoc, Ht. }
  unfold ControllerPublishVolume.
  destruct (validateControllerPublishVolumeRequest _) as [e|]; psimpl; [done|].
  unfold vmNameOf. destruct (SplitMetaNamespaceKey (cp_NodeId req)) as [[ns vmName] err]. psimpl.
  destruct err; psimpl; [done|].
  destruct (hasRWXCapabiltyAccessMode _) as [isRWX err]. destruct err; psimpl; [done|].
  destruct isRWX; psimpl; [by apply HP|].
  unfold IsVolumeAttachedToOtherVMI. psimpl. wp_call [vmis err]. destruct err; psimpl; [done|].
  destruct (attachedElsewhere _ _ _); psimpl; [done|by apply HP].
Qed.

Lemma wp_unpublish_detached c req :
  wp (reports_detached (infraClusterNamespace c) (vmNameOf (cu_NodeId req)) (cu_VolumeId req))
     (ControllerUnpublishVolume c (Some req)) [] (fun t _ => writes t = 0%nat).
Proof.
  unfold ControllerUnpublishVolume.
  destruct (validateControllerUnpublishVolumeRequest _) as [e|]; psimpl; [done|].
  unfold vmNameOf. destruct (SplitMetaNamespaceKey (cu_NodeId req)) as [[ns vmName] err]. psimpl.
  destruct err; psimpl; [done|]. unfold volumeStillAttached. psimpl. wp_call [vm err].
  destruct (is_nil err); psimpl.
  - split; [done|]. intros [r err1] Hr. simpl in Hr. pose proof (Hr eq_refl eq_refl eq_refl). simplify_eq. psimpl.
    split; [done|]. intros [r err1] Hr'. simpl in Hr'. pose proof (Hr' eq_refl eq_refl eq_refl). simplify_eq. by psimpl.
  - destruct (IsNotFound err); psimpl; [|by destruct err].
    split; [done|]. intros [r err1] Hr'. simpl in Hr'. pose proof (Hr' eq_refl eq_refl eq_refl). simplify_eq. by psimpl.
Qed.

(** ** Properties *)

Definition demo_service : ControllerService :=
  NewControllerService "infra" ∅ (mkStorageClassEnforcement [] true true []).

Definition demo_rwo : option VolumeCapability :=
  Some (mkVolumeCapability (Some (AccessMount (mkMountVolume "ext4" []))) (Some SINGLE_NODE_WRITER)).

Definition demo_publish : ControllerPublishVolumeRequest :=
  mkControllerPublishVolumeRequest "pvc-1" "tenant/vm1" demo_rwo false
    {[busParameter := "scsi"; serialParameter := "uid-1"]}.

Definition demo_unpublish : ControllerUnpublishVolumeRequest :=
  mkControllerUnpublishVolumeRequest "pvc-1" "tenant/vm1".

(** C9: every hot-plug a publish asks for is the request's own disk (serial and
    bus from the volume context) on the VM of the node ID; when it is asked for
    the VM spec was just read without that disk, the DataVolume was seen to
    exist and, unless the volume is RWX, the listed VMIs other than the target
    did not report the volume.  A publish makes no other change. *)
Theorem publish_hotplugs_when_allowed {W} (h : handler clientE W) (w : W) c req t1 e t2 :
  run_trace (exec h (ControllerPublishVolume c (Some req)) w []) = t1 ++ e :: t2 ->
  publishAllowed c req (vmNameOf (cp_NodeId req))
    (hasRWXCapabiltyAccessMode (GetAccessMode (cp_VolumeCapability req))).1 t1 (ev_op e).
Proof.
  intros Htr. destruct (wp_exec_guard _ h _ w _ _ (wp_ControllerPublishVolume c req)) as [_ H].
  eapply H; [done|]. simpl. lia.
Qed.

Definition demo_publish_trace : trace clientE :=
  run_trace (exec cluster_client (ControllerPublishVolume demo_service (Some demo_publish)) demo []).

Lemma publish_hotplugs_when_allowed_witness :
  publishAllowed demo_service demo_publish "vm1" false (take 5 demo_publish_trace)
    (AddVolumeToVM "infra" "vm1" (mkAddVolumeOptions "pvc-1" (mkDisk "uid-1" "scsi") "pvc-1")).
Proof.
  apply (publish_hotplugs_when_allowed cluster_client demo demo_service demo_publish _
    (Ev (E := clientE) (AddVolumeToVM "infra" "vm1" (mkAddVolumeOptions "pvc-1" (mkDisk "uid-1" "scsi") "pvc-1")) None)
    (drop 6 demo_publish_trace)).
  vm_compute. reflexivity.
Defined.

(** A publish answers success only on evidence that the disk is attached: its
    last call is [EnsureVolumeAvailableVM] answered true, or
    [EnsureVolumeAvailable] answered without error. *)
Theorem publish_success_is_attached {W} (h : handler clientE W) (w : W) c req resp err :
  run_out (exec h (ControllerPublishVolume c (Some req)) w []) = Val (Some resp, err) ->
  err = None /\
  publishEvidence c req (vmNameOf (cp_NodeId req))
    (run_trace (exec h (ControllerPublishVolume c (Some req)) w [])).
Proof.
  intros Hout. destruct (wp_exec_guard _ h _ w _ _ (wp_ControllerPublishVolume c req)) as [H _].
  rewrite Hout in H. simpl in H. by destruct err.
Qed.

Lemma publish_success_is_attached_witness :
  publishEvidence demo_service demo_publish "vm1" demo_publish_trace.
Proof.
  apply (publish_success_is_attached cluster_client demo demo_service demo_publish
    mkControllerPublishVolumeResponse None). vm_compute. reflexivity.
Defined.

(** C10: every hot-unplug an unpublish asks for names the request's own disk on the
    VM of the node ID: from the VM when its spec was just read with the disk as
    a hot-pluggable DataVolume, from the VMI when its status was just read with
    the disk as hot-plugged.  An unpublish makes no other change. *)
Theorem unpublish_unplugs_when_allowed {W} (h : handler clientE W) (w : W) c req t1 e t2 :
  run_trace (exec h (ControllerUnpublishVolume c (Some req)) w []) = t1 ++ e :: t2 ->
  unpublishAllowed c (cu_VolumeId req) (vmNameOf (cu_NodeId req)) t1 (ev_op e).
Proof.
  intros Htr. destruct (wp_exec_guard _ h _ w _ _ (wp_ControllerUnpublishVolume c req)) as [_ H].
  eapply H; [done|]. simpl. lia.
Qed.

Definition demo_unpublish_trace : trace clientE :=
  run_trace (exec cluster_client (ControllerUnpublishVolume demo_service (Some demo_unpublish)) demo_attached []).

Lemma unpublish_unplugs_when_allowed_witness :
  unpublishAllowed demo_service "pvc-1" "vm1" (take 3 demo_unpublish_trace)
    (RemoveVolumeFromVM "infra" "vm1" (mkRemoveVolumeOptions "pvc-1")).
Proof.
  apply (unpublish_unplugs_when_allowed cluster_client demo_attached demo_service demo_unpublish _
    (Ev (E := clientE) (RemoveVolumeFromVM "infra" "vm1" (mkRemoveVolumeOptions "pvc-1")) None)
    (drop 4 demo_unpublish_trace)).
  vm_compute. reflexivity.
Defined.

(** An unpublish answers success only on evidence that the disk is gone from
    both surfaces: its last call is [EnsureVolumeRemoved] answered without
    error, or the VMI was seen without the hot-plug and the VM was seen gone or
    without the disk. *)
Theorem unpublish_success_is_detached {W} (h : handler clientE W) (w : W) c req resp err :
  run_out (exec h (ControllerUnpublishVolume c (Some req)) w []) = Val (Some resp, err) ->
  err = None /\
  unpublishEvidence c (cu_VolumeId req) (vmNameOf (cu_NodeId req))
    (run_trace (exec h (ControllerUnpublishVolume c (Some req)) w [])).
Proof.
  intros Hout. destruct (wp_exec_guard _ h _ w _ _ (wp_ControllerUnpublishVolume c req)) as [H _].
  rewrite Hout in H. simpl in H. by destruct err.
Qed.

Lemma unpublish_success_is_detached_witness :
  unpublishEvidence demo_service "pvc-1" "vm1" demo_unpublish_trace.
Proof.
  apply (unpublish_success_is_detached cluster_client demo_attached demo_service demo_unpublish
    mkControllerUnpublishVolumeResponse None). vm_compute. reflexivity.
Defined.

(** C11: whatever the client answers, a publish and an unpublish ask for at most
    five changes of the infra cluster and sleep at most fifteen seconds. *)
Theorem hotplug_effort_bounded {W} (h : handler clientE W) (w : W) c preq ureq :
  let p := run_trace (exec h (ControllerPublishVolume c preq) w []) in
  let u := run_trace (exec h (ControllerUnpublishVolume c ureq) w []) in
  ((writes p <= 5)%nat /\ 0 <= slept p <= 15 * Second) /\
  ((writes u <= 5)%nat /\ 0 <= slept u <= 15 * Second).
Proof.
  pose proof (wp_exec_any h _ w _ _ (publish_budget c preq)) as Hp.
  pose proof (wp_exec_any h _ w _ _ (unpublish_budget c ureq)) as Hu.
  unfold withinBudget in *. simpl in *. lia.
Qed.

(** Against a client that keeps to the contract, neither a publish nor an
    unpublish panics, whatever the request (nil included) and whatever else the
    client answers. *)
Theorem attach_detach_never_panic c (P : protocol clientE) `{HP : !ClientContract P, HN : !MissingVMIsNil P} preq ureq t :
  wp P (ControllerPublishVolume c preq) t no_panic /\ wp P (ControllerUnpublishVolume c ureq) t no_panic.
Proof. split; [by apply publish_no_panic|by apply unpublish_no_panic]. Qed.

Lemma attach_detach_never_panic_witness :
  wp contractual_nil (ControllerPublishVolume demo_service (Some demo_publish)) [] no_panic /\
  wp contractual_nil (ControllerUnpublishVolume demo_service (Some demo_unpublish)) [] no_panic.
Proof. apply (attach_detach_never_panic demo_service contractual_nil). Defined.

(** A publish of a volume that is not RWX, when another VMI of the listing
    reports the volume, is refused with [FailedPrecondition] after that single
    listing: nothing else is asked of the cluster. *)
Theorem publish_refuses_second_node {W} (h : handler clientE W) (w : W) c req ns vmName vmis :
  validateControllerPublishVolumeRequest (Some req) = None ->
  SplitMetaNamespaceKey (cp_NodeId req) = (ns, vmName, None) ->
  hasRWXCapabiltyAccessMode (GetAccessMode (cp_VolumeCapability req)) = (false, None) ->
  (h (ListVirtualMachines (infraClusterNamespace c)) w).1 = (vmis, None) ->
  attachedElsewhere (cp_VolumeId req) vmName vmis = true ->
  let r := exec h (ControllerPublishVolume c (Some req)) w [] in
  run_out r = Val (None, Some (StatusError FailedPrecondition ErrVolumeAttachedMessage [])) /\
  run_trace r = [Ev (E := clientE) (ListVirtualMachines (infraClusterNamespace c)) (vmis, None)].
Proof.
  intros Hv Hs Hm Hl Ha. unfold ControllerPublishVolume. rewrite Hv. psimpl.
  rewrite Hs, Hm. psimpl. unfold IsVolumeAttachedToOtherVMI. psimpl. cbn [exec].
  rewrite Hl. psimpl. rewrite Ha. by psimpl.
Qed.

Lemma publish_refuses_second_node_witness :
  let req := mkControllerPublishVolumeRequest "pvc-1" "tenant/vm2" demo_rwo false ∅ in
  run_out (exec cluster_client (ControllerPublishVolume demo_service (Some req)) demo_attached []) =
  Val (None, Some (StatusError FailedPrecondition ErrVolumeAttachedMessage [])).
Proof.
  apply (publish_refuses_second_node cluster_client demo_attached demo_service
    (mkControllerPublishVolumeRequest "pvc-1" "tenant/vm2" demo_rwo false ∅) "tenant" "vm2"
    (snd <$> map_to_list (vmiMap demo_attached))); vm_compute; reflexivity.
Defined.

(** Repeating a publish or an unpublish changes nothing.  Against a client that
    reports the disk in the VM spec a publish asks for no change; against one
    that reports it on neither surface an unpublish asks for no change. *)
Theorem attach_detach_idempotent {W} (h : handler clientE W) (w : W) c preq ureq :
  let ns := infraClusterNamespace c in
  (forall w, (h (EnsureVolumeAvailableVM ns (vmNameOf (cp_NodeId preq)) (cp_VolumeId preq)) w).1 = (true, None)) ->
  (forall w, (h (EnsureVolumeRemovedVM ns (vmNameOf (cu_NodeId ureq)) (cu_VolumeId ureq)) w).1 = (true, None)) ->
  (forall w, (h (EnsureVolumeRemovedVMI ns (vmNameOf (cu_NodeId ureq)) (cu_VolumeId ureq)) w).1 = (true, None)) ->
  writes (run_trace (exec h (ControllerPublishVolume c (Some preq)) w [])) = 0%nat /\
  writes (run_trace (exec h (ControllerUnpublishVolume c (Some ureq)) w [])) = 0%nat.
Proof.
  intros ns Ha Hr1 Hr2. split.
  - destruct (wp_exec (reports_attached ns (vmNameOf (cp_NodeId preq)) (cp_VolumeId preq)) h (fun _ _ => True)
      (ControllerPublishVolume c (Some preq)) w [] (fun t _ => writes t = 0%nat)) as [H _]; [|done|..|done].
    + intros w' t m _ _. split; [|done]. destruct m; simpl; try done. intros -> -> ->. apply Ha.
    + apply wp_publish_attached.
  - destruct (wp_exec (reports_detached ns (vmNameOf (cu_NodeId ureq)) (cu_VolumeId ureq)) h (fun _ _ => True)
      (ControllerUnpublishVolume c (Some ureq)) w [] (fun t _ => writes t = 0%nat)) as [H _]; [|done|..|done].
    + intros w' t m _ _. split; [|done]. destruct m; simpl; try done; intros -> -> ->; [apply Hr1|apply Hr2].
    + apply wp_unpublish_detached.
Qed.

Lemma attach_detach_idempotent_witness :
  let h : handler clientE unit := fun m _ => (match m return Client.answer m with
    | EnsureVolumeAvailableVM _ _ _ | EnsureVolumeRemovedVM _ _ _ | EnsureVolumeRemovedVMI _ _ _ => (true, None)
    | GetDataVolume _ _ => (Some demo_dv, None)
    | GetWorkloadManagingVirtualMachine _ n => (Some (demo_vm n), None)
    | m => (cluster_client m demo).1
    end, tt) in
  writes (run_trace (exec h (ControllerPublishVolume demo_service (Some demo_publish)) tt [])) = 0%nat /\
  writes (run_trace (exec h (ControllerUnpublishVolume demo_service (Some demo_unpublish)) tt [])) = 0%nat.
Proof. apply (attach_detach_idempotent _ tt demo_service demo_publish demo_unpublish); reflexivity. Defined.
