(* ===== verification/Attachments.v ===== *)
(** * What attaching and detaching do to the cluster

    The specification of [ControllerPublishVolume] and
    [ControllerUnpublishVolume] as operations on one set: the pairs of a VM and
    a volume that are attached.  The programs of Attach.v implement it against
    every client that keeps to [HotplugClient], an interface whose state is what
    the VM specs ask for and what the VMI statuses report; statuses follow the
    specs in their own time.  A volume that is not RWX then stays on one VM
    through any sequence of RPCs, wherever they are cut, as long as the statuses
    catch up between them; two counterexamples show that this is needed. *)

From S2P Require Import Prelude GoStrings Errors Effects Goroutines Wait Objects.
From S2P Require Import Csi Util ClientAPI Fixtures Controller Attach.
Import Client.

Local Open Scope Z_scope.

(** ** Specification *)

(** The pairs (VM, volume) attached. *)
Abbreviation attachments := (gset (string * string)).

(** Is the volume on a VM other than this one? *)
Definition elsewhere (vm v : string) (A : attachments) : Prop := exists vm', (vm', v) ∈ A /\ vm' <> vm.

(** A publish attaches the volume, or fails and leaves things as they are, or
    fails having asked for the attachment; a volume that is not RWX is not
    attached beside another attachment of it. *)
Inductive publish_spec (vm v : string) (isRWX : bool) (A : attachments) : bool -> attachments -> Prop :=
| publish_attaches : (isRWX = false -> ~ elsewhere vm v A) -> publish_spec vm v isRWX A true ({[(vm, v)]} ∪ A)
| publish_refuses : publish_spec vm v isRWX A false A
| publish_gives_up : (isRWX = false -> ~ elsewhere vm v A) -> publish_spec vm v isRWX A false ({[(vm, v)]} ∪ A).

Inductive unpublish_spec (vm v : string) (A : attachments) : bool -> attachments -> Prop :=
| unpublish_detaches : unpublish_spec vm v A true (A ∖ {[(vm, v)]})
| unpublish_refuses : unpublish_spec vm v A false A
| unpublish_gives_up : unpublish_spec vm v A false (A ∖ {[(vm, v)]}).

(** ** The interface *)

(** What the specs of the VMs ask for and what the statuses of the VMIs report, of
    a VM and a volume. *)
Class Hotplug (W : Type) := {
  in_spec_of : W -> string -> string -> Prop;
  in_status_of : W -> string -> string -> Prop }.

Section Changes.
Context {W : Type} `{!Hotplug W}.

(** A status gains only what a spec asks for and loses only what it does not. *)
Definition follows (w w' : W) : Prop := forall vm v,
  (in_status_of w' vm v -> in_status_of w vm v \/ in_spec_of w vm v \/ in_spec_of w' vm v) /\
  (in_status_of w vm v -> in_spec_of w vm v -> in_spec_of w' vm v -> in_status_of w' vm v).

Definition same_specs (w w' : W) : Prop := forall vm v, in_spec_of w' vm v <-> in_spec_of w vm v.

#[export] Instance same_specs_refl : Reflexive same_specs.
Proof. done. Qed.

(** The spec of one VM may have gained, or lost, the volume. *)
Definition may_add (vm v : string) (w w' : W) : Prop :=
  same_specs w w' \/ forall vm' v', in_spec_of w' vm' v' <-> in_spec_of w vm' v' \/ (vm' = vm /\ v' = v).

Definition may_remove (vm v : string) (w w' : W) : Prop :=
  same_specs w w' \/ forall vm' v', in_spec_of w' vm' v' <-> in_spec_of w vm' v' /\ ~ (vm' = vm /\ v' = v).
End Changes.

(** A client of a namespace whose VM specs only this driver changes. *)
Class HotplugClient {W} `{!Hotplug W} (env : environment clientE W) (ns : string) : Prop := {
  reads_keep m w r w' : is_write m = false -> env m w r w' -> same_specs w w' /\ follows w w';
  add_adds vm o w r w' : env (AddVolumeToVM ns vm o) w r w' -> may_add vm (av_Name o) w w' /\ follows w w';
  remove_removes vm o w r w' : env (RemoveVolumeFromVM ns vm o) w r w' -> may_remove vm (rv_Name o) w w';
  remove_from_vmi vm o w r w' : env (RemoveVolumeFromVMI ns vm o) w r w' -> same_specs w w';
  list_sees w vmis w' : env (ListVirtualMachines ns) w (vmis, None) w' ->
    forall vm v, in_status_of w' vm v ->
      exists vmi, vmi ∈ vmis /\ vmi_Name vmi = vm /\ existsb (fun s => vs_Name s =s? v) (vmi_VolumeStatus vmi) = true;
  available_vm w vm v w' : env (EnsureVolumeAvailableVM ns vm v) w (true, None) w' -> in_spec_of w' vm v;
  available w vm v d w' : env (EnsureVolumeAvailable ns vm v d) w None w' -> in_spec_of w' vm v;
  removed_vm w vm v w' : env (EnsureVolumeRemovedVM ns vm v) w (true, None) w' -> ~ in_spec_of w' vm v;
  removed w vm v d w' : env (EnsureVolumeRemoved ns vm v d) w None w' -> ~ in_spec_of w' vm v;
  no_vm w vm r e w' : env (GetWorkloadManagingVirtualMachine ns vm) w (r, e) w' -> IsNotFound e = true ->
    forall v, ~ in_spec_of w' vm v }.

(** The specs ask for [A]; the statuses report the same. *)
Definition asks {W} `{!Hotplug W} (w : W) (A : attachments) : Prop :=
  forall vm v, in_spec_of w vm v <-> (vm, v) ∈ A.

Definition settled {W} `{!Hotplug W} (w : W) (A : attachments) : Prop :=
  asks w A /\ forall vm v, in_status_of w vm v <-> (vm, v) ∈ A.

(** ** The RPCs implement the specification *)

(** A publish that answers success made the check on volumes that are not RWX. *)
Lemma wp_publish_checked (c : ControllerService) req :
  let vm := vmNameOf (cp_NodeId req) in
  let isRWX := (hasRWXCapabiltyAccessMode (GetAccessMode (cp_VolumeCapability req))).1 in
  wp any (ControllerPublishVolume c (Some req)) [] (fun t o => match o with
    | Val (Some _, _) => isRWX = false -> exists vmis, answered (ListVirtualMachines (infraClusterNamespace c)) (vmis, None) t /\
        attachedElsewhere (cp_VolumeId req) vm vmis = false
    | _ => True
    end).
Proof.
  cbv zeta. unfold ControllerPublishVolume.
  destruct (validateControllerPublishVolumeRequest (Some req)) as [e|]; [done|]. psimpl. unfold vmNameOf.
  destruct (SplitMetaNamespaceKey (cp_NodeId req)) as [[ns' vmName] [e|]]; [done|]. psimpl.
  destruct (hasRWXCapabiltyAccessMode _) as [isRWX [e|]]; [done|]. destruct isRWX; psimpl.
  { eapply wp_mono; [|apply wp_any_true]. by intros t [[[] ?]|]. }
  unfold IsVolumeAttachedToOtherVMI. psimpl. wp_call [vmis err]. destruct err as [e|]; psimpl; [done|].
  destruct (attachedElsewhere _ _ _) eqn:Hn; psimpl; [done|].
  eapply wp_mono; [|apply wp_prefix, wp_any_true]. intros t [[[resp|] err]|] [[l ->] _]; try done.
  intros _. exists vmis. split; [unfold answered; set_solver|done].
Qed.

(** Did the RPC answer success? *)
Definition succeeds {A} (o : outcome (result (option A))) : bool :=
  match o with Val (Some _, None) => true | _ => false end.

Section Refinement.
Context {W : Type} `{!Hotplug W} (c : ControllerService) (env : environment clientE W).
Context `{!HotplugClient env (infraClusterNamespace c)}.

Abbreviation ns := (infraClusterNamespace c).

(** The listing and the statuses. *)
Lemma list_elsewhere w vmis w' vm v :
  env (ListVirtualMachines ns) w (vmis, None) w' -> attachedElsewhere v vm vmis = false ->
  forall vm', in_status_of w' vm' v -> vm' = vm.
Proof.
  intros He Hn vm' Hs. destruct (list_sees _ _ _ He vm' v Hs) as (vmi & Hin & <- & Hv).
  unfold attachedElsewhere in Hn. rewrite existsb_none in Hn. pose proof (Hn vmi Hin) as H.
  rewrite Hv, andb_true_r in H. apply negb_false_iff in H. by apply streq_spec in H.
Qed.

(** What a publish did so far: [B] is what the specs ask for now. *)
Record publishing (req : ControllerPublishVolumeRequest) (vm : string) (isRWX : bool) (A : attachments)
    (t : trace clientE) (w : W) (B : attachments) : Prop := {
  pub_asks : asks w B;
  pub_B : B = A \/
    B = {[(vm, cp_VolumeId req)]} ∪ A /\ (isRWX = false -> ~ elsewhere vm (cp_VolumeId req) A);
  pub_status : forall vm' v', (vm', v') ∈ A -> in_status_of w vm' v';
  pub_seen : forall vmis, answered (ListVirtualMachines ns) (vmis, None) t ->
    attachedElsewhere (cp_VolumeId req) vm vmis = false -> ~ elsewhere vm (cp_VolumeId req) A }.

Lemma publishing_asked req vm isRWX A t w B vm' v' :
  publishing req vm isRWX A t w B -> (vm', v') ∈ A -> in_spec_of w vm' v'.
Proof. intros [Ha HB _ _] Hin. apply Ha. destruct HB as [->|[-> _]]; set_solver. Qed.

(** Calls that change nothing. *)
Lemma publishing_read req vm isRWX A t (e : event clientE) w w' B :
  publishing req vm isRWX A t w B -> is_write (ev_op e) = false -> env (ev_op e) w (ev_resp e) w' ->
  publishing req vm isRWX A (t ++ [e]) w' B.
Proof.
  intros HR Hw He. destruct (reads_keep _ _ _ _ Hw He) as [Hs Hf].
  assert (Hst : forall vm' v', (vm', v') ∈ A -> in_status_of w' vm' v').
  { intros vm' v' Hin. apply (Hf vm' v'); [by apply HR| |apply Hs]; by eapply publishing_asked. }
  destruct HR as [Ha HB _ Hseen]. split; [|done|done|].
  - intros vm' v'. by rewrite (Hs vm' v').
  - intros vmis [Hin|Hin]%elem_of_app Hn; [by eapply Hseen|]. apply list_elem_of_singleton in Hin. subst e.
    intros (vm' & Hin & Hne). apply Hne. eapply list_elsewhere; [exact He|done|by apply Hst].
Qed.

Lemma publishing_step req vm isRWX A t (e : event clientE) w w' B :
  publishing req vm isRWX A t w B -> publishAllowed c req vm isRWX t (ev_op e) -> env (ev_op e) w (ev_resp e) w' ->
  exists B', publishing req vm isRWX A (t ++ [e]) w' B'.
Proof.
  intros HR HG He. destruct (is_write (ev_op e)) eqn:Hw; [|exists B; by apply publishing_read with w].
  destruct e as [o r]; simpl in *. destruct o as [| | | | | | | | |ns' vm' opts| | | | | | | | | | | | | |]; try done.
  destruct HG as (-> & -> & -> & _ & _ & HX). destruct (add_adds _ _ _ _ _ He) as [Hadd Hf].
  pose proof HR as [Ha HB Hst Hseen].
  assert (Helse : isRWX = false -> ~ elsewhere vm (cp_VolumeId req) A).
  { intros Hm. destruct (HX Hm) as (vmis & ? & ?). by eapply Hseen. }
  assert (Hspec : exists B', asks w' B' /\
    (B' = A \/ B' = {[(vm, cp_VolumeId req)]} ∪ A /\ (isRWX = false -> ~ elsewhere vm (cp_VolumeId req) A))).
  { destruct Hadd as [Hs|Hs]; [exists B; split; [intros vm' v'; by rewrite (Hs vm' v')|done]|].
    exists ({[(vm, cp_VolumeId req)]} ∪ A). split; [|eauto]. intros vm' v'. rewrite (Hs vm' v'), (Ha vm' v').
    simpl. destruct HB as [->|[-> _]]; set_solver. }
  destruct Hspec as (B' & Ha' & HB'). exists B'. split; [done|done| |].
  - intros vm' v' Hin. apply (Hf vm' v'); [by apply Hst|by eapply publishing_asked|].
    apply Ha'. destruct HB' as [->|[-> _]]; set_solver.
  - intros vmis [Hin|Hin]%elem_of_app Hn; [by eapply Hseen|]. by apply list_elem_of_singleton in Hin.
Qed.

(** Wherever a publish is cut. *)
Lemma publish_begins req t w w' A :
  let vm := vmNameOf (cp_NodeId req) in
  let isRWX := (hasRWXCapabiltyAccessMode (GetAccessMode (cp_VolumeCapability req))).1 in
  settled w A -> begins (ControllerPublishVolume c (Some req)) t -> path env w t w' ->
  exists B, publishing req vm isRWX A t w' B.
Proof.
  intros vm isRWX [Ha Hs] Hb Hp.
  pose proof (begins_guard _ _ _ _ _ (wp_ControllerPublishVolume c req) Hb) as HG.
  apply (path_ind env (fun t w => exists B, publishing req vm isRWX A t w B) w t w'); [|done|].
  - exists A. split; [done|by left| |].
    + intros vm' v'. apply Hs.
    + intros vmis Hin. by apply not_elem_of_nil in Hin.
  - intros t1 e t2 w1 w2 Ht (B & HR) He. eapply publishing_step; [done|by eapply HG|done].
Qed.

(** The same of an unpublish. *)
Record unpublishing (vm v : string) (A : attachments) (t : trace clientE) (w : W) (B : attachments) : Prop := {
  unpub_asks : asks w B;
  unpub_B : B = A \/ B = A ∖ {[(vm, v)]};
  unpub_seen : (exists r e, answered (GetWorkloadManagingVirtualMachine ns vm) (r, e) t /\ IsNotFound e = true) \/
    answered (EnsureVolumeRemovedVM ns vm v) (true, None) t -> (vm, v) ∉ B }.

Lemma unpublishing_read vm v A t (e : event clientE) w w' B :
  unpublishing vm v A t w B -> same_specs w w' -> env (ev_op e) w (ev_resp e) w' ->
  unpublishing vm v A (t ++ [e]) w' B.
Proof.
  intros [Ha HB Hseen] Hs He. assert (Ha' : asks w' B) by (intros vm' v'; by rewrite (Hs vm' v')).
  split; [done|done|].
  intros [(r & x & [Hin|Hin]%elem_of_app & Hx)|[Hin|Hin]%elem_of_app].
  - apply Hseen. left. by exists r, x.
  - apply list_elem_of_singleton in Hin. subst e. rewrite <- (Ha' vm v). by eapply no_vm.
  - apply Hseen. by right.
  - apply list_elem_of_singleton in Hin. subst e. rewrite <- (Ha' vm v). by eapply removed_vm.
Qed.

Lemma unpublishing_step vm v A t (e : event clientE) w w' B :
  unpublishing vm v A t w B -> unpublishAllowed c v vm t (ev_op e) -> env (ev_op e) w (ev_resp e) w' ->
  exists B', unpublishing vm v A (t ++ [e]) w' B'.
Proof.
  intros HR HG He. destruct (is_write (ev_op e)) eqn:Hw.
  2:{ exists B. apply (unpublishing_read _ _ _ _ _ w); [done|by eapply reads_keep|done]. }
  destruct e as [o r]; simpl in *. destruct o as [| | | | | | | | | |ns' vm' opts|ns' vm' opts| | | | | | | | | | | |]; try done.
  - destruct HG as (-> & -> & -> & _). destruct (remove_removes _ _ _ _ _ He) as [Hs|Hs];
      [exists B; by apply (unpublishing_read _ _ _ _ _ w)|].
    destruct HR as [Ha HB Hseen]. exists (A ∖ {[(vm, v)]}). split; [|by right|set_solver].
    intros vm' v'. rewrite (Hs vm' v'), (Ha vm' v'). simpl. destruct HB as [->| ->]; set_solver.
  - destruct HG as (-> & -> & -> & _). pose proof (remove_from_vmi _ _ _ _ _ He).
    exists B. by apply (unpublishing_read _ _ _ _ _ w).
Qed.

Lemma unpublish_begins req t w w' A :
  let vm := vmNameOf (cu_NodeId req) in
  asks w A -> begins (ControllerUnpublishVolume c (Some req)) t -> path env w t w' ->
  exists B, unpublishing vm (cu_VolumeId req) A t w' B.
Proof.
  intros vm Ha Hb Hp.
  pose proof (begins_guard _ _ _ _ _ (wp_ControllerUnpublishVolume c req) Hb) as HG.
  apply (path_ind env (fun t w => exists B, unpublishing vm (cu_VolumeId req) A t w B) w t w'); [|done|].
  - exists A. split; [done|by left|]. intros [(r & e & Hin & _)|Hin]; by apply not_elem_of_nil in Hin.
  - intros t1 e t2 w1 w2 Ht (B & HR) He. eapply unpublishing_step; [done|by eapply HG|done].
Qed.
End Refinement.

(** ** Histories *)

Inductive rpc := Publish (req : ControllerPublishVolumeRequest) | Unpublish (req : ControllerUnpublishVolumeRequest).

(** What the specs of a world ask for is what its statuses report. *)
Definition caught_up {W} `{!Hotplug W} (w : W) : Prop :=
  forall vm v, in_status_of w vm v <-> in_spec_of w vm v.

Section History.
Context {E : signature} {W : Type} `{!Hotplug W} (env : environment E W).

(** The traces of an RPC, cut anywhere. *)
Variable serves : rpc -> trace E -> Prop.

(** The volumes that are never published as RWX. *)
Variable exclusive : string -> Prop.

Definition permitted (r : rpc) : Prop :=
  match r with
  | Publish req => exclusive (cp_VolumeId req) ->
      (hasRWXCapabiltyAccessMode (GetAccessMode (cp_VolumeCapability req))).1 = false
  | Unpublish _ => True
  end.

(** RPCs one after the other; each may be cut anywhere by a crash of the driver;
    before the next one the statuses catch up with the specs. *)
Inductive history (w0 : W) : W -> Prop :=
| history_start : history w0 w0
| history_next w r t w1 w2 :
    history w0 w -> permitted r -> serves r t -> path env w t w1 ->
    same_specs w1 w2 -> caught_up w2 -> history w0 w2.

(** The moments of a history: within an RPC too. *)
Definition moment (w0 w' : W) : Prop :=
  exists w r t, history w0 w /\ permitted r /\ serves r t /\ path env w t w'.

(** On one VM at most. *)
Definition attached_once (A : attachments) : Prop := forall v vm1 vm2,
  exclusive v -> (vm1, v) ∈ A -> (vm2, v) ∈ A -> vm1 = vm2.

(** If each RPC keeps the invariant from a world whose statuses caught up, then
    every moment has it. *)
Hypothesis kept : forall r t w w' A, permitted r -> serves r t -> path env w t w' ->
  settled w A -> attached_once A -> exists B, asks w' B /\ attached_once B.

Lemma moment_attached_once w0 w A0 :
  settled w0 A0 -> attached_once A0 -> moment w0 w -> exists A, asks w A /\ attached_once A.
Proof using kept.
  intros Hs0 Ho0 (w1 & r & t & Hh & Hr & Hs & Hp).
  assert (H : exists A, settled w1 A /\ attached_once A).
  { clear r t w Hr Hs Hp. induction Hh as [|w r t w1 w2 Hh (A & HA & Ho) Hr Hs Hp Hsame Hc]; [by eauto|].
    destruct (kept _ _ _ _ _ Hr Hs Hp HA Ho) as (B & Ha & HoB). exists B. split; [|done]. split.
    - intros vm v. by rewrite (Hsame vm v).
    - intros vm v. by rewrite (Hc vm v), (Hsame vm v). }
  destruct H as (A & HA & Ho). by eapply kept.
Qed.
End History.

(** The RPCs against the interface. *)
Definition serves (c : ControllerService) (r : rpc) (t : trace clientE) : Prop :=
  match r with
  | Publish req => begins (ControllerPublishVolume c (Some req)) t
  | Unpublish req => begins (ControllerUnpublishVolume c (Some req)) t
  end.

Lemma serves_kept {W} `{!Hotplug W} (c : ControllerService) (env : environment clientE W)
    `{!HotplugClient env (infraClusterNamespace c)} exclusive r t w w' A :
  permitted exclusive r -> serves c r t -> path env w t w' -> settled w A -> attached_once exclusive A ->
  exists B, asks w' B /\ attached_once exclusive B.
Proof.
  intros Hr Hs Hp HA Ho. destruct r as [req|req]; simpl in *.
  - destruct (publish_begins c env req t w w' A HA Hs Hp) as (B & [Ha HB _ _]). exists B. split; [done|].
    destruct HB as [->|[-> Hn]]; [done|]. intros v vm1 vm2 Hv.
    assert (Hother : forall vm', v = cp_VolumeId req -> (vm', v) ∈ A -> vm' = vmNameOf (cp_NodeId req)).
    { intros vm' -> Hin. destruct (decide (vm' = vmNameOf (cp_NodeId req))) as [|Hne]; [done|].
      destruct (Hn (Hr Hv)). by exists vm'. }
    intros [[= -> ->]%elem_of_singleton|H1]%elem_of_union [Heq%elem_of_singleton|H2]%elem_of_union.
    + by simplify_eq.
    + symmetry. by apply Hother.
    + simplify_eq. by apply Hother.
    + by apply (Ho v).
  - destruct (unpublish_begins c env req t w w' A (proj1 HA) Hs Hp) as (B & [Ha HB _]). exists B. split; [done|].
    destruct HB as [->| ->]; [done|]. intros v vm1 vm2 Hv H1 H2. apply (Ho v); [done|set_solver..].
Qed.

(** ** The cluster of Fixtures.v keeps to the interface *)

#[export] Instance cluster_hotplug : Hotplug cluster := {
  in_spec_of w vm v := in_spec w vm v = true;
  in_status_of w vm v := in_status w vm v = true }.

(** VMIs are filed under their names and have a VM with a template. *)
Definition filed (w : cluster) : Prop := forall n vmi, vmiMap w !! n = Some vmi ->
  vmi_Name vmi = n /\ exists x t, vmMap w !! n = Some x /\ vm_Template x = Some t.

Definition cluster_env : environment clientE cluster := fun m w r w' => filed w /\ of_handler cluster_client m w r w'.

Lemma filed_step m w : filed w -> filed (cluster_client m w).2.
Proof.
  assert (Halter : forall f g n0, filed w -> (forall vmi, vmi_Name (g vmi) = vmi_Name vmi) ->
    (forall x t, vm_Template x = Some t -> is_Some (vm_Template (f x))) ->
    filed (set_vmis (set_vms w (alter f n0)) (alter g n0))).
  { intros f g n0 Hw Hg Hf n vmi. simpl. rewrite lookup_alter_Some.
    intros [(<- & x & Hx & ->)|[Hne Hx]]; apply Hw in Hx as (Hn & y & t & Hy & Ht).
    - rewrite Hg, lookup_alter_eq, Hy. destruct (Hf y t Ht) as [t' Ht']. simpl. eauto.
    - rewrite lookup_alter_ne by done. eauto. }
  intros Hw. destruct m; try done; simpl.
  - apply Halter; [done..|]. intros x t Ht. unfold plug. simpl. rewrite Ht. by eexists.
  - apply Halter; [done..|]. intros x t Ht. unfold unplug. simpl. rewrite Ht. by eexists.
  - intros n vmi. simpl. rewrite lookup_alter_Some. intros [(<- & x & Hx & ->)|[_ Hx]]; by apply Hw in Hx.
Qed.

Lemma existsb_app_iff {A} (f : A -> bool) l1 l2 : existsb f (l1 ++ l2) = true <-> existsb f l1 = true \/ existsb f l2 = true.
Proof. by rewrite existsb_app, orb_true_iff. Qed.

Lemma existsb_filter_name {A} (name : A -> string) (l : list A) v v' :
  existsb (fun x => name x =s? v') (filter (fun x => negb (name x =s? v)) l) = true <->
  existsb (fun x => name x =s? v') l = true /\ v' <> v.
Proof.
  induction l as [|x l IH]; [simpl; naive_solver|]. rewrite filter_cons. simpl.
  destruct (name x =s? v) eqn:Hx; simpl.
  - rewrite IH. apply streq_spec in Hx. rewrite orb_true_iff, streq_spec. naive_solver.
  - rewrite !orb_true_iff, IH, streq_spec. apply streq_false in Hx. naive_solver.
Qed.

Lemma in_spec_plug w vm v vm' v' s : in_spec (mkCluster (dvMap w) (alter (plug v) vm (vmMap w)) s (snapshotMap w)) vm' v' = true <->
  in_spec w vm' v' = true \/ (vm' = vm /\ v' = v /\ exists x t, vmMap w !! vm = Some x /\ vm_Template x = Some t).
Proof.
  unfold in_spec. simpl. destruct (decide (vm' = vm)) as [->|Hne].
  - rewrite lookup_alter_eq. destruct (vmMap w !! vm) as [[n ns [t|]]|]; simpl; [|naive_solver..].
    rewrite existsb_app_iff. simpl. rewrite orb_false_r, streq_spec. naive_solver.
  - rewrite lookup_alter_ne by done. naive_solver.
Qed.

Lemma in_spec_unplug w vm v vm' v' s : in_spec (mkCluster (dvMap w) (alter (unplug v) vm (vmMap w)) s (snapshotMap w)) vm' v' = true <->
  in_spec w vm' v' = true /\ ~ (vm' = vm /\ v' = v).
Proof.
  unfold in_spec. simpl. destruct (decide (vm' = vm)) as [->|Hne].
  - rewrite lookup_alter_eq. destruct (vmMap w !! vm) as [[n ns [t|]]|]; simpl; [|naive_solver..].
    rewrite existsb_filter_name. naive_solver.
  - rewrite lookup_alter_ne by done. naive_solver.
Qed.

Lemma in_status_plug w vm v vm' v' f s vmi : vmiMap w !! vm = Some vmi ->
  in_status (mkCluster (dvMap w) (f (vmMap w)) (alter (plug_status v) vm (vmiMap w)) s) vm' v' = true <->
  in_status w vm' v' = true \/ (vm' = vm /\ v' = v).
Proof.
  intros Hvmi. unfold in_status. simpl. destruct (decide (vm' = vm)) as [->|Hne].
  - rewrite lookup_alter_eq, Hvmi. simpl. rewrite existsb_app_iff. simpl. rewrite orb_false_r, streq_spec. naive_solver.
  - rewrite lookup_alter_ne by done. naive_solver.
Qed.

Ltac cluster_simpl := cbn [in_spec_of in_status_of cluster_hotplug]; unfold set_vmis, set_vms; cbn [dvMap vmMap vmiMap snapshotMap].

#[export] Instance cluster_hotplug_client ns : HotplugClient cluster_env ns.
Proof.
  split.
  - intros m w r w' Hm [_ He]. assert (w' = w) as -> by (unfold of_handler in He; destruct m; simpl in *; by simplify_eq).
    split; [done|]. intros vm v. naive_solver.
  - intros vm o w r w' [Hf [= _ <-]]. split.
    + destruct (vmMap w !! vm) as [[n ns' [t|]]|] eqn:Hvm.
      * right. intros vm' v'. cluster_simpl. rewrite in_spec_plug, Hvm. naive_solver.
      * left. intros vm' v'. cluster_simpl. rewrite in_spec_plug, Hvm. naive_solver.
      * left. intros vm' v'. cluster_simpl. rewrite in_spec_plug, Hvm. naive_solver.
    + intros vm' v'. cluster_simpl. destruct (vmiMap w !! vm) as [vmi|] eqn:Hvmi.
      * rewrite in_status_plug, in_spec_plug by done. destruct (Hf _ _ Hvmi) as (_ & x & t & Hx & Ht). naive_solver.
      * unfold in_status. simpl. rewrite alter_id; [naive_solver|]. intros x Hx. by simplify_eq.
  - intros vm o w r w' [Hf [= _ <-]]. right. intros vm' v'. cluster_simpl. by rewrite in_spec_unplug.
  - intros vm o w r w' [Hf [= _ <-]]. done.
  - intros w vmis w' [Hf [= <- <-]] vm v. unfold in_status_of. simpl. unfold in_status.
    destruct (vmiMap w !! vm) as [vmi|] eqn:Hvmi; [|done]. intros Hv. exists vmi. split; [|split; [|done]].
    + apply list_elem_of_fmap. exists (vm, vmi). split; [done|]. by apply elem_of_map_to_list.
    + by apply (Hf _ _ Hvmi).
  - intros w vm v w' [_ [= H <-]]. done.
  - intros w vm v d w' [_ He]. unfold of_handler in He. simpl in He. destruct (in_status w vm v && in_spec w vm v) eqn:H; simplify_eq.
    by apply andb_true_iff in H as [_ ?].
  - intros w vm v w' [_ [= H <-]]. simpl. apply negb_true_iff in H. by rewrite H.
  - intros w vm v d w' [_ He]. unfold of_handler in He. simpl in He. destruct (in_status w vm v || in_spec w vm v) eqn:H; simplify_eq.
    apply orb_false_iff in H as [_ H]. simpl. by rewrite H.
  - intros w vm r e w' [_ He] Hn v. unfold of_handler in He. cbn in He. injection He as Hr <-. cluster_simpl. unfold in_spec.
    destruct (vmMap w !! vm); [|by intros ?]. simpl in Hr. by injection Hr as <- <-.
Qed.

(** Runs of a client that keeps objects filed. *)
Lemma filed_runs {A} (h : handler clientE cluster) (p : prog clientE A) w :
  (forall m w, filed w -> filed (h m w).2) -> filed w ->
  let r := exec h p w [] in
  runs (fun m w r w' => filed w /\ of_handler h m w r w') p w (run_trace r) (run_world r) (run_out r).
Proof.
  intros Hh. apply (exec_runs _ h filed). intros m w' Hf. split; [|by apply Hh].
  split; [done|]. unfold of_handler. by destruct (h m w').
Qed.

Lemma cluster_runs {A} (p : prog clientE A) w :
  filed w -> let r := exec cluster_client p w [] in runs cluster_env p w (run_trace r) (run_world r) (run_out r).
Proof. apply filed_runs, filed_step. Qed.

(** A run of the cluster as a cut run. *)
Lemma cluster_run_to {A} (p : prog clientE A) w w' :
  filed w -> run_world (exec cluster_client p w []) = w' -> exists t, begins p t /\ path cluster_env w t w'.
Proof.
  intros Hw <-. destruct (cluster_runs p w Hw) as [Hp Hpath]. eexists. split; [by eapply produces_begins|done].
Qed.

Lemma demo_filed : filed demo.
Proof.
  intros n vmi. cbn. rewrite !lookup_insert_Some. intros [[<- <-]|[_ Hn]].
  - by vm_compute; eauto.
  - apply lookup_singleton_Some in Hn as [<- <-]. by vm_compute; eauto.
Qed.

Lemma demo_settled : settled demo ∅.
Proof.
  assert (H : forall vm v, in_spec demo vm v = false /\ in_status demo vm v = false).
  { intros vm v. unfold in_spec, in_status. cbn. split.
    - destruct (_ !! vm) as [x|] eqn:Hx; [|done]. apply lookup_insert_Some in Hx as [[_ <-]|[_ Hx]]; [done|].
      by apply lookup_singleton_Some in Hx as [_ <-].
    - destruct (_ !! vm) as [x|] eqn:Hx; [|done]. apply lookup_insert_Some in Hx as [[_ <-]|[_ Hx]]; [done|].
      by apply lookup_singleton_Some in Hx as [_ <-]. }
  split; intros vm v; cluster_simpl; destruct (H vm v) as [H1 H2]; rewrite ?H1, ?H2; set_solver.
Qed.

Lemma demo_attached_filed : filed demo_attached.
Proof. apply (filed_step (AddVolumeToVM "infra" "vm1" (mkAddVolumeOptions "pvc-1" (mkDisk "" "") "pvc-1")) demo), demo_filed. Qed.

Lemma demo_attached_settled : settled demo_attached {[("vm1", "pvc-1")]}.
Proof.
  destruct demo_settled as [H1 H2]. split; intros vm v; unfold demo_attached; cluster_simpl.
  - rewrite in_spec_plug. specialize (H1 vm v). cbn in H1. rewrite H1, elem_of_singleton. split.
    + intros [Hin|(-> & -> & _)]; [set_solver|done].
    + intros [= -> ->]. right. split; [done|]. split; [done|]. by vm_compute; eauto.
  - rewrite in_status_plug with (f := alter (plug "pvc-1") "vm1") (vmi := demo_vmi "vm1") by done.
    specialize (H2 vm v). cbn in H2. rewrite H2, elem_of_singleton. set_solver.
Qed.

Abbreviation demo_publish_result := (exec cluster_client (ControllerPublishVolume demo_service (Some demo_publish)) demo []).

Abbreviation demo_unpublish_result :=
  (exec cluster_client (ControllerUnpublishVolume demo_service (Some demo_unpublish)) demo_attached []).

(** A cluster whose VMI statuses do not follow a hot-plug at once. *)
Definition slow_client : handler clientE cluster := fun m w =>
  match m return Client.answer m * cluster with
  | AddVolumeToVM _ vm o => (None, set_vms w (alter (plug (av_Name o)) vm))
  | m => cluster_client m w
  end.

Lemma slow_filed m w : filed w -> filed (slow_client m w).2.
Proof.
  intros Hf. destruct m; try (by apply (filed_step _ w Hf)). intros n vmi Hn. destruct (Hf n vmi Hn) as (Hname & x & t & Hx & Ht).
  split; [done|]. simpl. destruct (decide (vmName = n)) as [->|Hne].
  - rewrite lookup_alter_eq, Hx. simpl. unfold plug. rewrite Ht. simpl. eauto.
  - rewrite lookup_alter_ne by done. eauto.
Qed.

Definition slow_env : environment clientE cluster := fun m w r w' => filed w /\ of_handler slow_client m w r w'.

#[export] Instance slow_hotplug_client ns : HotplugClient slow_env ns.
Proof.
  destruct (cluster_hotplug_client ns) as [H1 H2 H3 H4 H5 H6 H7 H8 H9 H10]. split; try done.
  - intros m w r w' Hm. destruct m; try done; by apply H1.
  - intros vm o w r w' [Hf [= _ <-]]. destruct (H2 vm o w None _ (conj Hf eq_refl)) as [Hadd _]. split; [exact Hadd|].
    intros vm' v'. cluster_simpl. unfold in_status. simpl. split; [by left|done].
Qed.

(** A publish on the other VM, after the one on the first. *)
Definition demo_publish2 : ControllerPublishVolumeRequest :=
  mkControllerPublishVolumeRequest "pvc-1" "tenant/vm2" demo_rwo false
    {[busParameter := "scsi"; serialParameter := "uid-1"]}.

(** The cluster after a publish that timed out. *)
Definition slow_world : cluster := set_vms demo (alter (plug "pvc-1") "vm1").

Lemma slow_world_filed : filed slow_world.
Proof. apply (slow_filed (AddVolumeToVM "infra" "vm1" (mkAddVolumeOptions "pvc-1" (mkDisk "" "") "pvc-1")) demo), demo_filed. Qed.

(** Two goroutines. *)
Definition publishes : list (prog clientE (result (option ControllerPublishVolumeResponse))) :=
  [ControllerPublishVolume demo_service (Some demo_publish); ControllerPublishVolume demo_service (Some demo_publish2)].

Definition published : prog clientE (result (option ControllerPublishVolumeResponse)) :=
  Ret (Some mkControllerPublishVolumeResponse, None).

(** ** Properties *)

(** C6: from a cluster whose statuses report what its specs ask for, a publish
    attaches the volume when it answers success and otherwise leaves the
    attachments as they are or with the volume added; in no case is a volume
    that is not RWX attached beside another attachment. *)
Theorem publish_implements_spec {W} `{!Hotplug W} (c : ControllerService) (env : environment clientE W)
    `{!HotplugClient env (infraClusterNamespace c)} req w t w' out A :
  settled w A -> runs env (ControllerPublishVolume c (Some req)) w t w' out ->
  exists A', asks w' A' /\
    publish_spec (vmNameOf (cp_NodeId req)) (cp_VolumeId req)
      (hasRWXCapabiltyAccessMode (GetAccessMode (cp_VolumeCapability req))).1 A (succeeds out) A'.
Proof.
  intros HA [Hp Hw]. pose proof (produces_begins _ _ _ Hp) as Hb.
  destruct (publish_begins c env req t w w' A HA Hb Hw) as (B & [Ha HB Hs Hseen]). exists B. split; [done|].
  destruct (succeeds out) eqn:Hok.
  2:{ destruct HB as [->|[-> HB]]; by constructor. }
  destruct out as [[[resp|] [e|]]|]; try done.
  pose proof (produces_any _ _ _ _ (wp_publish_checked c req) Hp) as Hc. simpl in Hc.
  pose proof (produces_guard _ _ [] _ _ _ (wp_ControllerPublishVolume c req) Hp) as [Hev _]. simpl in Hev.
  assert (Hin : in_spec_of w' (vmNameOf (cp_NodeId req)) (cp_VolumeId req)).
  { destruct Hev as [Hev|Hev]; apply last_Some in Hev as [l ->]; apply path_snoc in Hw as (w1 & _ & He);
      [by eapply available_vm|by eapply available]. }
  assert (HB' : B = {[(vmNameOf (cp_NodeId req), cp_VolumeId req)]} ∪ A).
  { apply Ha in Hin. destruct HB as [->|[-> _]]; set_solver. }
  rewrite HB'. constructor. intros Hm. destruct (Hc Hm) as (vmis & ? & ?). by eapply Hseen.
Qed.

Lemma publish_implements_spec_witness : exists A', asks (run_world demo_publish_result) A' /\
  publish_spec "vm1" "pvc-1" false ∅ true A'.
Proof.
  apply (publish_implements_spec demo_service cluster_env demo_publish demo
    (run_trace demo_publish_result) (run_world demo_publish_result) (run_out demo_publish_result) ∅ demo_settled).
  by apply cluster_runs, demo_filed.
Defined.

(** C7: an unpublish removes the attachment when it answers success and otherwise
    leaves the attachments as they are or with it removed, whatever the statuses
    report. *)
Theorem unpublish_implements_spec {W} `{!Hotplug W} (c : ControllerService) (env : environment clientE W)
    `{!HotplugClient env (infraClusterNamespace c)} req w t w' out A :
  asks w A -> runs env (ControllerUnpublishVolume c (Some req)) w t w' out ->
  exists A', asks w' A' /\
    unpublish_spec (vmNameOf (cu_NodeId req)) (cu_VolumeId req) A (succeeds out) A'.
Proof.
  intros HA [Hp Hw]. pose proof (produces_begins _ _ _ Hp) as Hb.
  destruct (unpublish_begins c env req t w w' A HA Hb Hw) as (B & [Ha HB Hseen]). exists B. split; [done|].
  destruct (succeeds out) eqn:Hok.
  2:{ destruct HB as [->| ->]; by constructor. }
  destruct out as [[[resp|] [e|]]|]; try done.
  pose proof (produces_guard _ _ [] _ _ _ (wp_ControllerUnpublishVolume c req) Hp) as [Hev _]. simpl in Hev.
  assert (Hout : (vmNameOf (cu_NodeId req), cu_VolumeId req) ∉ B).
  { destruct Hev as [Hev|[_ [(r & e & Hin & He)|Hin]]].
    - apply last_Some in Hev as [l ->]. apply path_snoc in Hw as (w1 & _ & He).
      rewrite <- (Ha _ _). by eapply removed.
    - apply Hseen. left. eauto.
    - apply Hseen. by right. }
  assert (HB' : B = A ∖ {[(vmNameOf (cu_NodeId req), cu_VolumeId req)]}) by (destruct HB as [->| ->]; set_solver).
  rewrite HB'. constructor.
Qed.

Lemma unpublish_implements_spec_witness : exists A', asks (run_world demo_unpublish_result) A' /\
  unpublish_spec "vm1" "pvc-1" {[("vm1", "pvc-1")]} true A'.
Proof.
  apply (unpublish_implements_spec demo_service cluster_env demo_unpublish demo_attached
    (run_trace demo_unpublish_result) (run_world demo_unpublish_result) (run_out demo_unpublish_result)
    _ (proj1 demo_attached_settled)).
  by apply cluster_runs, demo_attached_filed.
Defined.

(** C8: by itself the check on volumes that are not RWX does not keep a volume on
    one VM.  Two publishes of one volume on two VMs that run at the same
    time can both list the VMIs before either hot-plugs, and both answer success;
    and of two that run one after the other, the second is not refused while the
    status of the first VM's VMI lags: the check looks at statuses only.  In both
    runs the specs of both VMs end up with the volume. *)
Theorem publish_check_is_racy :
  (exists w, rtc (step (fun _ => of_handler cluster_client)) (demo, publishes) (w, [published; published]) /\
     in_spec w "vm1" "pvc-1" = true /\ in_spec w "vm2" "pvc-1" = true) /\
  (exists w1 t1 w2 t2,
     runs slow_env (ControllerPublishVolume demo_service (Some demo_publish)) demo t1 w1
       (Val (None, Some DeadlineExceeded)) /\
     runs slow_env (ControllerPublishVolume demo_service (Some demo_publish2)) w1 t2 w2
       (Val (None, Some DeadlineExceeded)) /\
     in_spec w2 "vm1" "pvc-1" = true /\ in_spec w2 "vm2" "pvc-1" = true).
Proof.
  split.
  - exists (set_vmis (set_vms demo_attached (alter (plug "pvc-1") "vm2")) (alter (plug_status "pvc-1") "vm2")).
    split; [|done].
    apply (run_schedule_steps (fun _ => of_handler cluster_client) (fun _ m w => Some (cluster_client m w))
      [0; 1; 0; 0; 0; 0; 0; 0; 1; 1; 1; 1; 1; 1]%nat); [|by vm_compute].
    intros i o w a w' Ho. by injection Ho.
  - pose proof (filed_runs slow_client (ControllerPublishVolume demo_service (Some demo_publish)) demo slow_filed demo_filed) as H1.
    pose proof (filed_runs slow_client (ControllerPublishVolume demo_service (Some demo_publish2)) slow_world slow_filed slow_world_filed) as H2.
    exists slow_world, (run_trace (exec slow_client (ControllerPublishVolume demo_service (Some demo_publish)) demo [])).
    exists (set_vms slow_world (alter (plug "pvc-1") "vm2")).
    exists (run_trace (exec slow_client (ControllerPublishVolume demo_service (Some demo_publish2)) slow_world [])).
    split; [|split; [|done]].
    + apply H1.
    + apply H2.
Qed.
