(* ===== verification/DataPath.v ===== *)
(** * The path of a volume from the controller to the node

    What ties the disk that the controller hot-plugs to the device that the node
    formats and mounts is a string: CreateVolume puts the UID of the DataVolume
    into the volume context, ControllerPublishVolume makes it the serial number of
    the disk, and the node looks for a device with that serial number
    (pkg/service/controller.go and node.go).  This file composes the three: what
    the infra cluster promises about UIDs is the class [UIDs], what a guest shows
    of its disks is the class [Guest]. *)

From S2P Require Import Prelude GoStrings Errors Effects Goroutines Objects Csi ClientAPI.
From S2P Require Import Controller Volumes Attach Fixtures Json Mounter Node.
Import Client.

Local Open Scope string_scope.
Local Open Scope list_scope.
Local Open Scope Z_scope.

(** ** UIDs *)

(** The answers about DataVolumes of the namespace have the UIDs [uid]. *)
Definition names_uid (ns : string) (uid : string -> string) (e : event clientE) : Prop :=
  match e with
  | Ev (GetDataVolume ns' n) r => ns' = ns -> forall dv, r = (Some dv, None) -> dv_UID dv = uid n
  | Ev (CreateDataVolume ns' d) r => ns' = ns -> forall dv, r = (Some dv, None) -> dv_UID dv = uid (dv_Name d)
  | _ => True
  end.

(** An infra cluster as long as no DataVolume is deleted and made again under its
    name: the UID of a DataVolume stays, is not empty and is that of no other.
    [holds] is what the cluster keeps. *)
Class UIDs {W} (h : handler clientE W) (holds : W -> Prop) (ns : string) (uid : string -> string) : Prop := {
  uids_kept o w : holds w -> holds (h o w).2;
  uids_named o w : holds w -> names_uid ns uid (Ev o (h o w).1);
  uid_inj n n' : uid n = uid n' -> n = n' }.

Section Infra.
Context {W : Type} {h : handler clientE W} {holds : W -> Prop} {ns : string} {uid : string -> string}.
Context {Huid : UIDs h holds ns uid}.

Lemma trace_named {A} (p : prog clientE A) w : holds w -> Forall (names_uid ns uid) (run_trace (exec h p w [])).
Proof using Huid.
  intros Hw.
  destruct (wp_exec any h (fun w t => holds w /\ Forall (names_uid ns uid) t) p w [] (fun _ _ => True)) as [_ [_ H]];
    [|done|apply wp_any_true|done].
  intros w' t o [H1 H2] _. split; [done|]. split; [by apply uids_kept|]. apply Forall_app. split; [done|].
  constructor; [by apply uids_named|done].
Qed.

Lemma world_kept {A} (p : prog clientE A) w : holds w -> holds (run_world (exec h p w [])).
Proof using Huid.
  intros Hw. destruct (wp_exec any h (fun w _ => holds w) p w [] (fun _ _ => True)) as [_ H];
    [by intros; split; [|apply uids_kept]|done|apply wp_any_true|done].
Qed.

(** A create answered success with the name and the context, which has a serial
    number. *)
Definition issued (name : string) (context : gmap string string) : Prop :=
  exists w c req v, holds w /\ infraClusterNamespace c = ns /\
    run_out (exec h (CreateVolume c (Some req)) w []) = Val (Some (mkCreateVolumeResponse v), None) /\
    v_VolumeId v = name /\ v_VolumeContext v = context /\ mapget context serialParameter <> "".

(** The disk was hot-plugged by a publish that was given an issued context. *)
Definition plugged (o : AddVolumeOptions) : Prop :=
  exists w c req vm, holds w /\ infraClusterNamespace c = ns /\ issued (cp_VolumeId req) (cp_VolumeContext req) /\
    (AddVolumeToVM ns vm o : op clientE) ∈ map ev_op (run_trace (exec h (ControllerPublishVolume c (Some req)) w [])).

Lemma issued_serial name context : issued name context -> mapget context serialParameter = uid name.
Proof using Huid.
  intros (w & c & req & v & Hw & Hns & Hr & <- & <- & Hne).
  pose proof (trace_named (CreateVolume c (Some req)) w Hw) as Hn.
  destruct (wp_exec_guard _ h _ w _ _ (wp_CreateVolume c req)) as [Hpost Hg]. rewrite Hr in Hpost.
  destruct Hpost as (serial & [= ->] & Hs). cbn [v_VolumeId v_VolumeContext] in *.
  unfold mapget in *. rewrite lookup_insert_ne, lookup_singleton_eq in * by done. cbn [default] in *.
  destruct Hs as [(dv0 & dv & Hl & ->)|[(dv & st & Hl & _ & _ & ->)|(dv & _ & _ & ->)]]; [| |done].
  - apply last_Some in Hl as [t1 Ht]. rewrite Ht in *. destruct (Hg t1 _ [] eq_refl) as (_ & Hdv & _); [simpl; lia|].
    destruct Hdv as (isRWX & source & _ & _ & ->). apply Forall_app in Hn as [_ Hn]. inversion_clear Hn as [|? ? H0 _].
    rewrite (H0 Hns dv eq_refl). f_equal. unfold newDataVolume. by destruct (src_PVC source).
  - apply last_Some in Hl as [t1 Ht]. rewrite Ht in *. apply Forall_app in Hn as [_ Hn]. inversion_clear Hn as [|? ? H0 _].
    by apply H0.
Qed.

Lemma plugged_serial o : plugged o -> disk_Serial (av_Disk o) = uid (av_Name o).
Proof using Huid.
  intros (w & c & req & vm & Hw & Hns & Hi & Ho). apply issued_serial in Hi.
  apply list_elem_of_fmap in Ho as (e & He & Hin). apply list_elem_of_split in Hin as (t1 & t2 & Ht).
  destruct (wp_exec_guard _ h _ w _ _ (wp_ControllerPublishVolume c req)) as [_ Hg].
  specialize (Hg t1 e t2 Ht). rewrite <- He in Hg. destruct Hg as (_ & _ & -> & _); [simpl; lia|]. done.
Qed.
End Infra.
Arguments issued {W} h holds ns name context.
Arguments plugged {W} h holds ns o.

(** ** The guest *)

(** A guest: [backs n o] says that the disk [o] is behind its device [n].  A device
    that lsblk lists with the UID of a DataVolume as its serial number has a
    hot-plugged disk with that serial number behind it. *)
Class Guest {Wn} (hn : handler nodeE Wn) (backs : string -> AddVolumeOptions -> Prop)
    (hotplugged : AddVolumeOptions -> Prop) (uid : string -> string) : Prop :=
  guest_shows w out ds d n :
    (hn Node.List w).1 = (out, None) -> Unmarshal out = inl ds -> d ∈ ds -> SerialID d = uid n ->
    exists o, backs (Name d) o /\ hotplugged o /\ disk_Serial (av_Disk o) = SerialID d.

(** The calls that write to a device have the volume behind it. *)
Definition touches (backs : string -> AddVolumeOptions -> Prop) (hotplugged : AddVolumeOptions -> Prop) (name : string)
    (m : Node.method) : Prop :=
  match m with
  | Node.MakeFs dev _ | Node.Mount dev _ _ _ | Node.Resize dev _ =>
      exists n o, dev = "/dev/" +:+ n /\ backs n o /\ hotplugged o /\ av_Name o = name
  | _ => True
  end.

(** A listing in a trace is one that the node answered. *)
Lemma lists_answered {Wn A} (hn : handler nodeE Wn) (p : prog nodeE A) w r :
  saw Node.List r (run_trace (exec hn p w [])) -> exists w', (hn Node.List w').1 = r.
Proof.
  set (P := fun e : event nodeE => match e with Ev Node.List r => exists w', (hn Node.List w').1 = r | _ => True end).
  intros H. destruct (wp_exec any hn (fun _ t => Forall P t) p w [] (fun _ _ => True)) as [_ HP];
    [|done|apply wp_any_true|].
  - intros w' t o Ht _. split; [done|]. apply Forall_app. split; [done|]. constructor; [|done]. destruct o; simpl; eauto.
  - rewrite Forall_forall in HP. exact (HP _ H).
Qed.

Section Composition.
Context {W Wn : Type} {h : handler clientE W} {holds : W -> Prop} {ns : string} {uid : string -> string}.
Context {Huid : UIDs h holds ns uid}.
Context {hn : handler nodeE Wn} {backs : string -> AddVolumeOptions -> Prop}.
Context {Hguest : Guest hn backs (plugged h holds ns) uid}.

(** The device found by the serial number of an issued context. *)
Lemma found_backed {A} (p : prog nodeE A) w t name context d :
  t `prefix_of` run_trace (exec hn p w []) -> issued h holds ns name context ->
  deviceFound (mapget context serialParameter) d t ->
  exists o, backs (Name d) o /\ plugged h holds ns o /\ av_Name o = name.
Proof using Huid Hguest.
  intros Ht Hi (out & ds & Hl & Hu & Hf). apply (saw_prefix _ _ _ _ Ht), lists_answered in Hl as [w' Hl].
  apply findDevice_spec in Hf as (_ & _ & before & d' & after & -> & Hs & -> & _).
  apply issued_serial in Hi. rewrite Hi in Hs.
  destruct (guest_shows w' out _ d' name Hl Hu) as (o & Hb & Hp & Ho); [set_solver|done|].
  exists o. split_and!; [done|done|]. apply uid_inj. by rewrite <- (plugged_serial o Hp), Ho.
Qed.

(** A guarded run, of which each writing call had found its device. *)
Lemma touched {A} (G : trace nodeE -> Node.method -> Prop) (p : prog nodeE A) w name context :
  issued h holds ns name context -> guarded G (run_trace (exec hn p w [])) ->
  (forall t m, G t m -> match m with
     | Node.MakeFs dev _ | Node.Mount dev _ _ _ | Node.Resize dev _ =>
         exists d, deviceFound (mapget context serialParameter) d t /\ dev = "/dev/" +:+ Name d
     | _ => True end) ->
  Forall (touches backs (plugged h holds ns) name) (map ev_op (run_trace (exec hn p w []))).
Proof using Huid Hguest.
  intros Hi Hg HG. apply Forall_map, Forall_forall. intros e He. apply list_elem_of_split in He as (t1 & t2 & Ht).
  pose proof (HG _ _ (Hg _ _ _ Ht)) as H.
  assert (Hpre : t1 `prefix_of` run_trace (exec hn p w [])) by (rewrite Ht; by apply prefix_app_r).
  unfold touches, compose. destruct (ev_op e); try done; destruct H as (d & Hd & ->);
    destruct (found_backed p w t1 name context d Hpre Hi Hd) as (o & ? & ? & ?); by exists (Name d), o.
Qed.
End Composition.


(** *** A volume made, hot-plugged and staged *)

Definition path_world : cluster :=
  mkCluster ∅ {["vm1" := demo_vm "vm1"]} {["vm1" := demo_vmi "vm1"]} ∅.

Definition path_holds (w : cluster) : Prop := forall n d, dvMap w !! n = Some d -> dv_UID d = "uid-" +:+ n.

#[local] Instance cluster_uids : UIDs cluster_client path_holds "infra" (fun n => "uid-" +:+ n).
Proof.
  split.
  - intros [] w Hw; try exact Hw; intros n d; cbn.
    + intros [_ H]%lookup_delete_Some. by apply Hw.
    + intros [[<- <-]|[_ H]]%lookup_insert_Some; [done|by apply Hw].
  - intros [] w Hw; cbn; try done.
    + by intros _ dv [= <-].
    + intros _ dv. destruct (dvMap w !! _) as [d|] eqn:E; [|done]. intros [= <-]. by apply Hw.
  - intros n n' H. cbn in H. by simplify_eq.
Qed.

Definition path_cap : option VolumeCapability :=
  Some (mkVolumeCapability (Some (AccessMount (mkMountVolume "ext4" []))) (Some SINGLE_NODE_WRITER)).
Definition path_create : CreateVolumeRequest :=
  mkCreateVolumeRequest "pvc-1" (Some (mkCapacityRange 10 0)) (Some [path_cap]) ∅ None.
Definition path_context : gmap string string := {["bus" := "scsi"; "serial" := "uid-pvc-1"]}.
Definition path_publish : ControllerPublishVolumeRequest :=
  mkControllerPublishVolumeRequest "pvc-1" "tenant/vm1" path_cap false path_context.
Definition path_stage : NodeStageVolumeRequest := mkNodeStageVolumeRequest "pvc-1" "/staging" path_cap path_context.

(** The node: a root disk without a serial number, and the hot-plugged one. *)
Definition path_rows : list row := [mkRow None (Some "ext4") "vda" []; mkRow (Some "uid-pvc-1") None "sda" []].
Definition path_node : handler nodeE unit := fun o w =>
  match o return Node.answer o * unit with
  | Node.List => ((print (table_json path_rows), None), tt)
  | o => demo_node o w
  end.
Definition path_backs (n : string) (o : AddVolumeOptions) : Prop := n = "sda" /\ o = publishOptions path_publish.

Lemma path_holds_world : path_holds path_world.
Proof. intros n d H. cbn in H. by rewrite lookup_empty in H. Qed.

Lemma path_issued : issued cluster_client path_holds "infra" "pvc-1" path_context.
Proof.
  exists path_world, demo_service, path_create, (mkCsiVolume 10 "pvc-1" path_context None).
  split_and!; [apply path_holds_world|done|vm_compute; reflexivity|done|done|done].
Qed.

Lemma path_plugged : plugged cluster_client path_holds "infra" (publishOptions path_publish).
Proof.
  set (w := run_world (exec cluster_client (CreateVolume demo_service (Some path_create)) path_world [])).
  exists w, demo_service, path_publish, "vm1".
  split_and!; [|done|apply path_issued|].
  - apply world_kept, path_holds_world.
  - unfold w. vm_compute. set_solver.
Qed.

#[local] Instance path_guest :
  Guest path_node path_backs (plugged cluster_client path_holds "infra") (fun n => "uid-" +:+ n).
Proof.
  intros w out ds d n Hout Hu Hd Hs. assert (out = print (table_json path_rows)) as ->.
  { symmetry. exact (f_equal fst Hout). }
  rewrite Unmarshal_table in Hu by repeat constructor. injection Hu as <-.
  cbn in Hd. apply list_elem_of_In in Hd as [<-|[<-|[]]]; [done|]. cbn in Hs |- *.
  exists (publishOptions path_publish). split_and!; [done|apply path_plugged|done].
Qed.

