(* ===== verification/Snapshots.v ===== *)
(** * Snapshots: creation, deletion, paginated listing

    The snapshot RPCs of pkg/service/controller.go as programs over the
    [Client] interface, and what they guarantee. *)

From S2P Require Import Prelude GoStrings Errors Effects Wait Objects Csi Util ClientAPI Fixtures Controller.
Import Client.

(** [snapshotSourceMatchesVolume] *)
Definition snapshotSourceMatchesVolume (snapshot : VolumeSnapshot) (volumeID : string) : bool :=
  match snap_PersistentVolumeClaimName snapshot with
  | Some claim => claim =s? volumeID
  | None => false
  end.

(** [createCsiSnapshot]: dereferences the claim name. *)
Definition createCsiSnapshot (snapshot : VolumeSnapshot) : prog clientE CsiSnapshot :=
  claim ← deref "snapshot.Spec.Source.PersistentVolumeClaimName" (snap_PersistentVolumeClaimName snapshot);
  let ready := match snap_Status snapshot with
    | Some st => default false (ss_ReadyToUse st) | None => false end in
  let size := match snap_Status snapshot with
    | Some (mkVolumeSnapshotStatus _ (Some q)) => Value q | _ => 0 end in
  Ret (mkCsiSnapshot size (snap_Name snapshot) claim (snap_CreationTimestamp snapshot) ready).

Definition createSnapshotResponse (snapshot : VolumeSnapshot) : prog clientE CreateSnapshotResponse :=
  s ← createCsiSnapshot snapshot; Ret (mkCreateSnapshotResponse s).

(** ** The page of a listing: [createSnapshotResponseFromItems] *)

(** [req.StartingToken] after the function normalised it (in the request). *)
Definition normalizeToken (token : string) : string :=
  if (token =s? "") || (token =s? "0") then "1" else token.

Definition createSnapshotResponseFromItems (req : ListSnapshotsRequest) (items : list VolumeSnapshot)
    : prog clientE (result (option ListSnapshotsResponse)) :=
  if Nat.eqb (length items) 0 then Ret (Some (mkListSnapshotsResponse [] ""), None)
  else
    let startingToken := normalizeToken (ls_StartingToken req) in
    let snapshotLength := Z.of_nat (length items) in
    let maxLength := if ls_MaxEntries req =? 0 then snapshotLength else ls_MaxEntries req in
    match ParseUint startingToken 32 with
    | inr e => Ret (None, Some (NumError "ParseUint" startingToken e))
    | inl start =>
        let start := uint64 (start - 1) in
        let end_ := int64 (int64 start + maxLength) in
        let end_ := if snapshotLength <? end_ then snapshotLength else end_ in
        if (end_ <? 0) || (end_ <? start) then Panic "slice bounds out of range"
        else
          entries ← for_append (subslice (Z.to_nat start) (Z.to_nat end_) items) createCsiSnapshot;
          Ret (Some (mkListSnapshotsResponse entries
                 (if end_ <? snapshotLength - 1 then FormatInt (end_ + 1) else "")), None)
    end.

Section Service.
Variable c : ControllerService.

(** ** CreateSnapshot *)

Definition validateCreateSnapshotRequest (req : option CreateSnapshotRequest) : option error :=
  match req with
  | None => Some (status_Error InvalidArgument "missing request")
  | Some req =>
      if is_empty (crs_Name req) then Some (status_Error InvalidArgument "name missing in request")
      else if is_empty (crs_SourceVolumeId req) then
        Some (status_Error InvalidArgument "source volume id missing in request")
      else None
  end.

Definition verifySourceVolumeExists (volumeID : string) : prog clientE (result bool) :=
  '(dv, err) ← invoke (GetDataVolume (infraClusterNamespace c) volumeID);
  if IsNotFound err then Ret (false, None) else Ret (negb (is_nil dv), err).

Definition CreateSnapshot (req : option CreateSnapshotRequest)
    : prog clientE (result (option CreateSnapshotResponse)) :=
  let err := validateCreateSnapshotRequest req in
  if negb (is_nil err) then Ret (None, err) else
  req ← deref "req" req;
  let ns := infraClusterNamespace c in
  '(existingSnapshot, err) ← invoke (GetVolumeSnapshot ns (crs_Name req));
  if IsNotFound err then
    '(exists_, err) ← verifySourceVolumeExists (crs_SourceVolumeId req);
    if negb (is_nil err) then Ret (None, err)
    else if negb exists_ then
      Ret (None, Some (StatusError NotFound "source volume %s not found" [AStr (crs_SourceVolumeId req)]))
    else
      let snapshotClassName := mapget (crs_Parameters req) InfraSnapshotClassNameParameter in
      '(volumeSnapshot, err) ←
        invoke (CreateVolumeSnapshot ns (crs_Name req) (crs_SourceVolumeId req) snapshotClassName);
      if negb (is_nil err) then Ret (None, err) else
      volumeSnapshot ← deref "volumeSnapshot" volumeSnapshot;
      err ← invoke (EnsureSnapshotReady ns (snap_Name volumeSnapshot) (Minute * 2));
      if negb (is_nil err) then Ret (None, err) else
      '(volumeSnapshot, err) ← invoke (GetVolumeSnapshot ns (snap_Name volumeSnapshot));
      if negb (is_nil err) then Ret (None, err) else
      volumeSnapshot ← deref "volumeSnapshot" volumeSnapshot;
      response ← createSnapshotResponse volumeSnapshot;
      Ret (Some response, None)
  else if negb (is_nil err) then Ret (None, err)
  else
    existingSnapshot ← deref "existingSnapshot" existingSnapshot;
    if negb (snapshotSourceMatchesVolume existingSnapshot (crs_SourceVolumeId req)) then
      Ret (None, Some (StatusError AlreadyExists
        "snapshot with the same name: %s but with different SourceVolumeId already exist"
        [AStr (crs_Name req)]))
    else
      response ← createSnapshotResponse existingSnapshot;
      Ret (Some response, None).

(** ** DeleteSnapshot *)

Definition DeleteSnapshot (req : option DeleteSnapshotRequest)
    : prog clientE (result (option DeleteSnapshotResponse)) :=
  match req with
  | None => Ret (None, Some (status_Error InvalidArgument "missing request"))
  | Some req =>
      if is_empty (ds_SnapshotId req) then
        Ret (None, Some (status_Error InvalidArgument "snapshot id missing in request"))
      else
        err ← invoke (DeleteVolumeSnapshot (infraClusterNamespace c) (ds_SnapshotId req));
        if negb (is_nil err) then Ret (None, err) else Ret (Some mkDeleteSnapshotResponse, None)
  end.

(** ** ListSnapshots *)

(** The snapshots the request selects. *)
Definition selectSnapshots (req : ListSnapshotsRequest) : prog clientE (result (list VolumeSnapshot)) :=
  let ns := infraClusterNamespace c in
  if negb (ls_SnapshotId req =s? "") then
    '(snapshot, err) ← invoke (GetVolumeSnapshot ns (ls_SnapshotId req));
    if negb (is_nil err) && negb (IsNotFound err) then Ret ([], err)
    else match snapshot with
         | Some snapshot => Ret ([snapshot], None)
         | None => Ret ([], None)
         end
  else
    '(snapshots, err) ← invoke (ListVolumeSnapshots ns);
    if negb (is_nil err) then Ret ([], err) else
    snapshots ← deref "snapshots" snapshots;
    if negb (is_empty (ls_SourceVolumeId req)) then
      Ret (filter (fun snapshot => snapshotSourceMatchesVolume snapshot (ls_SourceVolumeId req)) snapshots, None)
    else Ret (snapshots, None).

Definition ListSnapshots (req : option ListSnapshotsRequest)
    : prog clientE (result (option ListSnapshotsResponse)) :=
  match req with
  | None => Ret (None, Some (status_Error InvalidArgument "missing request"))
  | Some req =>
      '(items, err) ← selectSnapshots req;
      if negb (is_nil err) then Ret (None, err) else
      '(snapshotRes, err) ← createSnapshotResponseFromItems req items;
      if negb (is_nil err) then Ret (None, err) else Ret (snapshotRes, None)
  end.
End Service.

(** ** Conversion to CSI *)

(** A snapshot that names its claim, as all those the driver makes. *)
Definition has_claim (s : VolumeSnapshot) : Prop := is_Some (snap_PersistentVolumeClaimName s).

(** The CSI view of such a snapshot. *)
Definition csi_of (s : VolumeSnapshot) : CsiSnapshot :=
  mkCsiSnapshot
    (match snap_Status s with Some (mkVolumeSnapshotStatus _ (Some q)) => Value q | _ => 0 end)
    (snap_Name s) (default "" (snap_PersistentVolumeClaimName s)) (snap_CreationTimestamp s)
    (match snap_Status s with Some st => default false (ss_ReadyToUse st) | None => false end).

Lemma createCsiSnapshot_spec s : has_claim s -> createCsiSnapshot s = Ret (csi_of s).
Proof. intros [claim H]. unfold createCsiSnapshot, csi_of. by rewrite H. Qed.

(** The dereference of a claim name that is not there. *)
Definition no_claim : string := "snapshot.Spec.Source.PersistentVolumeClaimName".

Lemma createCsiSnapshots_spec l :
  for_append l createCsiSnapshot = if decide (Forall has_claim l) then Ret (csi_of <$> l) else Panic no_claim.
Proof.
  induction l as [|s l IH]; [done|]. cbn [for_append]. rewrite IH.
  destruct (decide (has_claim s)) as [Hs|Hs].
  - rewrite createCsiSnapshot_spec by done. cbn [bind].
    destruct (decide (Forall has_claim l)) as [Hl|Hl]; destruct (decide (Forall has_claim (s :: l))) as [Hsl|Hsl]; try done.
    + destruct Hsl. by constructor.
    + destruct Hl. by inversion Hsl.
  - destruct (decide (Forall has_claim (s :: l))) as [Hsl|Hsl]; [by inversion Hsl|].
    unfold createCsiSnapshot. destruct (snap_PersistentVolumeClaimName s) eqn:E; [|done].
    destruct Hs. by eexists.
Qed.

(** ** Pages *)

(** The page that starts at the item of index [s], as the code cuts it: a
    further page is announced only when at least two items remain. *)
Definition page_end (n m s : Z) : Z := Z.min (s + m) n.

Definition page_items (items : list VolumeSnapshot) (m s : Z) : list VolumeSnapshot :=
  subslice (Z.to_nat s) (Z.to_nat (page_end (Z.of_nat (length items)) m s)) items.

Definition page (items : list VolumeSnapshot) (m s : Z) : ListSnapshotsResponse :=
  let n := Z.of_nat (length items) in
  mkListSnapshotsResponse (csi_of <$> page_items items m s)
    (if page_end n m s <? n - 1 then FormatInt (page_end n m s + 1) else "").

(** The number of entries asked for: all of them when [MaxEntries] is 0. *)
Definition page_size (req : ListSnapshotsRequest) (items : list VolumeSnapshot) : Z :=
  if ls_MaxEntries req =? 0 then Z.of_nat (length items) else ls_MaxEntries req.

(** What the listing function returns for every token and every [int32]
    [MaxEntries]. *)
Lemma createSnapshotResponseFromItems_spec req items :
  items <> [] -> Z.of_nat (length items) < 2 ^ 62 ->
  - 2 ^ 31 <= ls_MaxEntries req < 2 ^ 31 ->
  createSnapshotResponseFromItems req items =
    match ParseUint (normalizeToken (ls_StartingToken req)) 32 with
    | inr e => Ret (None, Some (NumError "ParseUint" (normalizeToken (ls_StartingToken req)) e))
    | inl k =>
        if (k =? 0) || (Z.of_nat (length items) <? k - 1) || (ls_MaxEntries req <? 0)
        then Panic "slice bounds out of range"
        else if decide (Forall has_claim (page_items items (page_size req items) (k - 1)))
        then Ret (Some (page items (page_size req items) (k - 1)), None)
        else Panic no_claim
    end.
Proof.
  intros Hne Hn Hm. unfold createSnapshotResponseFromItems, page, page_items, page_size, page_end.
  destruct items as [|i items]; [done|]. set (l := i :: items) in *. cbn [length Nat.eqb].
  destruct (Nat.eqb (length l) 0) eqn:E0; [done|]. set (n := Z.of_nat (length l)) in *.
  assert (0 < n) by (subst n l; simpl; lia). clearbody n. set (m := if ls_MaxEntries req =? 0 then n else _).
  assert (Hm2 : (ls_MaxEntries req <? 0) = (m <? 0) /\ - 2 ^ 31 <= m < 2 ^ 62).
  { subst m. destruct (ls_MaxEntries req =? 0) eqn:E; reflect_bools; [|lia]. rewrite E.
    split; [symmetry; apply Z.ltb_ge; lia|lia]. }
  clearbody m. destruct Hm2 as [-> Hm2].
  destruct (ParseUint _ 32) as [k|e] eqn:Hk; [|done]. apply ParseUint_range in Hk; [|lia].
  assert (Hend : forall st, - 2 ^ 31 <= st < 2 ^ 32 -> int64 (st + m) = st + m).
  { intros st Hst. apply int64_id. unfold is_int64, minInt64, maxInt64. lia. }
  destruct (k =? 0) eqn:E1; reflect_bools.
  - subst k. change (uint64 (0 - 1)) with (2 ^ 64 - 1). change (int64 (2 ^ 64 - 1)) with (-1). cbn [orb].
    rewrite Hend by lia. destruct (n <? -1 + m) eqn:E2; reflect_bools.
    + destruct (n <? 2 ^ 64 - 1) eqn:E3; reflect_bools; [by rewrite orb_true_r|lia].
    + destruct (-1 + m <? 2 ^ 64 - 1) eqn:E3; reflect_bools; [by rewrite orb_true_r|lia].
  - rewrite uint64_id by (unfold is_uint64, maxUint64; lia).
    rewrite (int64_id (k - 1)) by (unfold is_int64, minInt64, maxInt64; lia). rewrite Hend by lia. cbn [orb].
    replace (if n <? k - 1 + m then n else k - 1 + m) with (Z.min (k - 1 + m) n)
      by (destruct (n <? k - 1 + m) eqn:E2; reflect_bools; lia).
    replace ((Z.min (k - 1 + m) n <? 0) || (Z.min (k - 1 + m) n <? k - 1)) with ((n <? k - 1) || (m <? 0))
      by (apply eq_bool_prop_intro; rewrite !orb_True, !Is_true_true, !Z.ltb_lt; lia).
    destruct (_ || _); [done|]. rewrite createCsiSnapshots_spec. by destruct (decide _).
Qed.

(** ** Walking the pages *)

Section Walk.
Variable c : ControllerService.

(** A caller that asks for pages of [m] entries from [token] on, and follows the
    tokens until one is empty. *)
Fixpoint list_all (fuel : nat) (m : Z) (token : string) : prog clientE (result (list CsiSnapshot)) :=
  match fuel with
  | O => Ret ([], None)
  | S f =>
      '(resp, err) ← ListSnapshots c (Some (mkListSnapshotsRequest m token "" ""));
      match resp with
      | None => Ret ([], err)
      | Some resp =>
          if is_empty (lsr_NextToken resp) then Ret (lsr_Entries resp, None)
          else '(rest, err) ← list_all f m (lsr_NextToken resp); Ret (lsr_Entries resp ++ rest, err)
      end
  end.

(** How many of [n] snapshots the pages of [m] entries show. *)
Definition visible (n m : Z) : Z := if ((n - 1) mod m =? 0) && (m <? n) then n - 1 else n.

Lemma normalizeToken_FormatInt k : 0 < k < 2 ^ 32 -> normalizeToken (FormatInt k) = FormatInt k.
Proof.
  intros Hk. pose proof (ParseUint_FormatInt k 32 ltac:(lia)) as Hp. unfold normalizeToken.
  destruct (FormatInt k =s? "") eqn:E1; destruct (FormatInt k =s? "0") eqn:E2; reflect_bools; try done.
  all: rewrite ?E1, ?E2 in Hp; vm_compute in Hp; simplify_eq; lia.
Qed.

Context {W} (h : handler clientE W) (items : list VolumeSnapshot) (m : Z).
Hypothesis Hlist : forall w, (h (ListVolumeSnapshots (infraClusterNamespace c)) w).1 = (Some items, None).
Hypothesis Hclaims : Forall has_claim items.
Hypothesis Hm : 0 < m < 2 ^ 31.
Notation n := (Z.of_nat (length items)).
Hypothesis Hn : 0 < n < 2 ^ 31.

Lemma exec_page tok s w t :
  ParseUint (normalizeToken tok) 32 = inl (s + 1) -> 0 <= s <= n ->
  run_out (exec h (ListSnapshots c (Some (mkListSnapshotsRequest m tok "" ""))) w t) =
  Val (Some (page items m s), None).
Proof using Hlist Hclaims Hm Hn.
  intros Htok Hs. unfold ListSnapshots, selectSnapshots. cbn [ls_SnapshotId ls_SourceVolumeId]. rewrite streq_refl. xsimpl. rewrite Hlist. xsimpl. cbn [is_empty]. xsimpl.
  rewrite createSnapshotResponseFromItems_spec; [|intros Hi; rewrite Hi in Hn; simpl in Hn; lia|lia|cbn [ls_MaxEntries]; lia].
  cbn [ls_StartingToken ls_MaxEntries]. rewrite Htok. replace (s + 1 - 1) with s by lia.
  destruct (s + 1 =? 0) eqn:E1; reflect_bools; [lia|].
  destruct (n <? s) eqn:E2; reflect_bools; [lia|].
  destruct (m <? 0) eqn:E3; reflect_bools; [lia|]. xsimpl. unfold page_size. cbn [ls_MaxEntries].
  destruct (m =? 0) eqn:E4; reflect_bools; [lia|].
  rewrite decide_True by (unfold page_items, subslice; by apply Forall_take, Forall_drop). done.
Qed.

(** When the end of a page announces no further page, it is the end of what is
    visible. *)
Lemma last_page j : 0 <= j -> j * m = 0 \/ j * m <= n - 2 ->
  n - 1 <= page_end n m (j * m) -> page_end n m (j * m) = visible n m.
Proof using Hm Hn.
  unfold page_end, visible. intros Hj Hs Hend.
  destruct (decide (j * m + m = n - 1)) as [He|He].
  - replace (n - 1) with ((j + 1) * m) by lia. rewrite Z.mod_mul by lia. simpl.
    destruct (m <? n) eqn:E; reflect_bools; nia.
  - destruct (((n - 1) mod m =? 0) && (m <? n)) eqn:E; reflect_bools; [|lia].
    exfalso. pose proof (Z.div_mod (n - 1) m ltac:(lia)) as Hd. set (q := (n - 1) / m) in *.
    assert (j * m + m >= n) by lia. assert (j < q) by nia. nia.
Qed.

Lemma subslice_visible j : 0 <= j -> j * m = 0 \/ j * m <= n - 2 -> page_end n m (j * m) < n - 1 ->
  page_end n m (j * m) = (j + 1) * m /\ (j + 1) * m <= visible n m.
Proof using Hm Hn. unfold page_end, visible. intros. destruct (_ && _); lia. Qed.

(** From the page [j] on, the walk shows what remains of what is visible. *)
Lemma list_all_from fuel j tok w t :
  0 <= j -> j * m = 0 \/ j * m <= n - 2 -> n - j * m < Z.of_nat fuel ->
  ParseUint (normalizeToken tok) 32 = inl (j * m + 1) ->
  run_out (exec h (list_all fuel m tok) w t) =
  Val (csi_of <$> subslice (Z.to_nat (j * m)) (Z.to_nat (visible n m)) items, None).
Proof using Hlist Hclaims Hm Hn.
  revert j tok w t. induction fuel as [|f IH]; intros j tok w t Hj Hs Hf Htok; [lia|].
  cbn [list_all]. rewrite exec_bind. cbv zeta. rewrite (exec_page tok (j * m)) by (done || nia).
  set (w1 := run_world _). set (t1 := run_trace _). clearbody w1 t1. unfold page, page_items. cbn [lsr_NextToken lsr_Entries].
  destruct (page_end n m (j * m) <? n - 1) eqn:E; reflect_bools.
  - destruct (subslice_visible j Hj Hs E) as [He Hv]. rewrite He in E |- *.
    destruct (is_empty (FormatInt ((j + 1) * m + 1))) eqn:E0.
    { reflect_bools. pose proof (ParseUint_FormatInt ((j + 1) * m + 1) 32 ltac:(lia)) as Hp. by rewrite E0 in Hp. }
    rewrite exec_bind. cbv zeta. rewrite (IH (j + 1)); [|lia|lia|lia|].
    { xsimpl. rewrite <- fmap_app, subslice_app by lia. done. }
    rewrite normalizeToken_FormatInt by lia. apply ParseUint_FormatInt. lia.
  - rewrite (last_page j) by lia. done.
Qed.
End Walk.

(** ** What a listing selects *)

(** The snapshots a listing shows are among those the client answered, and match
    the snapshot or the source volume asked for. *)
Definition selected (req : ListSnapshotsRequest) (ns : string) (items : list VolumeSnapshot)
    (t : trace clientE) : Prop :=
  if ls_SnapshotId req =s? "" then
    exists all, answered (ListVolumeSnapshots ns) (Some all, None) t /\
      items = if ls_SourceVolumeId req =s? "" then all
              else filter (fun s => snap_PersistentVolumeClaimName s = Some (ls_SourceVolumeId req)) all
  else exists s err, answered (GetVolumeSnapshot ns (ls_SnapshotId req)) (s, err) t /\
    items = option_list s /\ (err = None \/ IsNotFound err = true).

Lemma snapshotSourceMatchesVolume_spec s v :
  snapshotSourceMatchesVolume s v = true <-> snap_PersistentVolumeClaimName s = Some v.
Proof.
  unfold snapshotSourceMatchesVolume. destruct (snap_PersistentVolumeClaimName s) as [x|]; [|done].
  rewrite streq_spec. naive_solver.
Qed.

Lemma filter_matches v (l : list VolumeSnapshot) :
  filter (fun s => snapshotSourceMatchesVolume s v) l =
  filter (fun s => snap_PersistentVolumeClaimName s = Some v) l.
Proof.
  apply list_filter_iff. intros s. rewrite Is_true_true. apply snapshotSourceMatchesVolume_spec.
Qed.

Lemma wp_selectSnapshots c req :
  wp any (selectSnapshots c req) [] (fun t o => match o with
    | Val (items, None) => selected req (infraClusterNamespace c) items t
    | Val (_, Some _) => True
    | Panicked _ => answered (ListVolumeSnapshots (infraClusterNamespace c)) (None, None) t
    end).
Proof.
  unfold selectSnapshots, selected. destruct (ls_SnapshotId req =s? "") eqn:E; psimpl.
  - wp_call [all err]. destruct err; psimpl; [done|]. destruct all as [all|]; psimpl; [|eauto with go].
    replace (is_empty (ls_SourceVolumeId req)) with (ls_SourceVolumeId req =s? "")
      by (by destruct (ls_SourceVolumeId req)).
    destruct (ls_SourceVolumeId req =s? ""); psimpl; eexists; (split; [apply answered_snoc|]); [done|].
    apply filter_matches.
  - wp_call [s err]. destruct err as [e|]; psimpl.
    + destruct (IsNotFound (Some e)) eqn:He; psimpl; [|done].
      destruct s; psimpl; do 2 eexists; (split; [apply answered_snoc|]); eauto.
    + destruct s; psimpl; do 2 eexists; (split; [apply answered_snoc|]); eauto.
Qed.

(** ** Creating a snapshot *)

(** When a create may create: the name was not found, then the source volume was
    seen to exist. *)
Definition createSnapshotAllowed (c : ControllerService) (req : CreateSnapshotRequest) (t : trace clientE)
    (m : op clientE) : Prop :=
  let ns := infraClusterNamespace c in
  match m with
  | CreateVolumeSnapshot ns' name claim class =>
      ns' = ns /\ name = crs_Name req /\ claim = crs_SourceVolumeId req /\
      class = mapget (crs_Parameters req) InfraSnapshotClassNameParameter /\
      (exists s err, answered (GetVolumeSnapshot ns (crs_Name req)) (s, err) t /\ IsNotFound err = true) /\
      (exists dv, just_answered (GetDataVolume ns (crs_SourceVolumeId req)) (Some dv, None) t)
  | _ => is_write m = false
  end.

Definition createSnapshotPost (c : ControllerService) (req : CreateSnapshotRequest) (t : trace clientE)
    (o : outcome (result (option CreateSnapshotResponse))) : Prop :=
  let ns := infraClusterNamespace c in
  match o with
  | Val (Some resp, None) => exists s, has_claim s /\ csr_Snapshot resp = csi_of s /\
      ((just_answered (GetVolumeSnapshot ns (crs_Name req)) (Some s, None) t /\ t = [Ev (E := clientE) (GetVolumeSnapshot ns (crs_Name req)) (Some s, None)] /\
        snap_PersistentVolumeClaimName s = Some (crs_SourceVolumeId req)) \/
       (exists s0, answered (CreateVolumeSnapshot ns (crs_Name req) (crs_SourceVolumeId req)
            (mapget (crs_Parameters req) InfraSnapshotClassNameParameter)) (Some s0, None) t /\
          answered (EnsureSnapshotReady ns (snap_Name s0) (Minute * 2)) None t /\
          just_answered (GetVolumeSnapshot ns (snap_Name s0)) (Some s, None) t))
  | Val (Some _, Some _) => False
  | Val (None, err) => err <> None
  | Panicked _ => True
  end.

Lemma wp_CreateSnapshot c req :
  wp (guard (createSnapshotAllowed c req)) (CreateSnapshot c (Some req)) [] (createSnapshotPost c req).
Proof.
  unfold CreateSnapshot. destruct (validateCreateSnapshotRequest _) as [e|]; psimpl; [done|].
  wp_call [s err]. destruct (IsNotFound err) eqn:Hnf; psimpl.
  - unfold verifySourceVolumeExists. psimpl. wp_call [dv err1]. destruct (IsNotFound err1); psimpl; [done|].
    destruct err1; psimpl; [done|]. destruct dv as [dv|]; psimpl; [|done]. split.
    { do 4 (split; [done|]). split; [|exists dv; apply (just_answered_snoc _ _ [_])].
      exists s, err. unfold answered. set_solver. }
    intros [s0 err2] _. psimpl. destruct err2; psimpl; [done|]. destruct s0 as [s0|]; psimpl; [|done].
    wp_call err3. destruct err3; psimpl; [done|]. wp_call [s1 err4]. destruct err4; psimpl; [done|].
    destruct s1 as [s1|]; psimpl; [|done]. unfold createSnapshotResponse.
    destruct (snap_PersistentVolumeClaimName s1) as [claim|] eqn:Hcl.
    + assert (Hc : has_claim s1) by (by eexists). rewrite createCsiSnapshot_spec by done. psimpl.
      exists s1. split; [done|]. split; [done|]. right. exists s0. split; [unfold answered; set_solver|].
      split; [unfold answered; set_solver|]. by rewrite app_assoc_reverse.
    + unfold createCsiSnapshot. by rewrite Hcl.
  - destruct err; psimpl; [done|]. destruct s as [s|]; psimpl; [|done].
    destruct (snapshotSourceMatchesVolume _ _) eqn:Hm; psimpl; [|done].
    apply snapshotSourceMatchesVolume_spec in Hm. unfold createSnapshotResponse.
    assert (Hc : has_claim s) by (by eexists). rewrite createCsiSnapshot_spec by done. psimpl.
    exists s. split; [done|]. split; [done|]. left. split; [|done]. done.
Qed.

(** A listing asks for nothing beyond what the selection asked for, and shows
    items of the selection only. *)
Lemma wp_createSnapshotResponseFromItems req items t :
  wp any (createSnapshotResponseFromItems req items) t (fun t' o => t' = t /\ match o with
    | Val (Some resp, None) => (forall e, e ∈ lsr_Entries resp -> exists s, s ∈ items /\ has_claim s /\ e = csi_of s)
    | Val (Some _, Some _) | Val (None, None) => False
    | _ => True
    end).
Proof.
  unfold createSnapshotResponseFromItems. destruct (Nat.eqb _ _).
  { split; [done|]. intros e He. by apply not_elem_of_nil in He. }
  destruct (ParseUint _ _) as [k|e]; [|done]. cbv zeta. destruct (_ || _); [done|].
  rewrite createCsiSnapshots_spec. destruct (decide _) as [Hc|Hc]; [|done].
  split; [done|]. cbn [lsr_Entries]. intros e (s & -> & Hs)%list_elem_of_fmap. exists s.
  rewrite Forall_forall in Hc. split; [|split; [by apply Hc|done]].
  by eapply elem_of_subslice.
Qed.

Lemma wp_ListSnapshots c req :
  wp any (ListSnapshots c (Some req)) [] (fun t o => match o with
    | Val (Some resp, None) => exists items, selected req (infraClusterNamespace c) items t /\
        forall e, e ∈ lsr_Entries resp -> exists s, s ∈ items /\ has_claim s /\ e = csi_of s
    | Val (Some _, Some _) => False
    | _ => True
    end).
Proof.
  unfold ListSnapshots. apply wp_bind. eapply wp_mono; [|apply wp_selectSnapshots].
  intros t [[items e]|m]; psimpl; [|done]. destruct e; psimpl; [done|]. intros Hsel.
  apply wp_bind. eapply wp_mono; [|apply wp_createSnapshotResponseFromItems].
  intros t' [[r e]|m] [-> H]; psimpl; [|done].
  destruct r as [r|], e as [e|]; psimpl; try done. eauto.
Qed.

(** ** No panic against a client that keeps to the contract *)

Section Contract.
Variable c : ControllerService.
Context (P : protocol clientE) `{HP : !ClientContract P}.

Lemma create_snapshot_no_panic req t : wp P (CreateSnapshot c req) t no_panic.
Proof using HP.
  unfold CreateSnapshot, createSnapshotResponse. destruct req as [req|]; [|by eexists].
  destruct (validateCreateSnapshotRequest _); psimpl; [by eexists|].
  split; [apply contract_pre|]. intros [s err] Hr. psimpl. destruct (IsNotFound err); psimpl.
  - unfold verifySourceVolumeExists. psimpl. split; [apply contract_pre|]. intros [dv err1] _. psimpl.
    destruct (IsNotFound err1); psimpl; [by eexists|]. destruct err1; psimpl; [by eexists|].
    destruct dv; psimpl; [|by eexists]. split; [apply contract_pre|]. intros [s0 err2] Hr2. psimpl.
    destruct err2; psimpl; [by eexists|]. apply contract_create_snapshot in Hr2 as [s0' ->]. psimpl.
    split; [apply contract_pre|]. intros err3 _. psimpl. destruct err3; psimpl; [by eexists|].
    split; [apply contract_pre|]. intros [s1 err4] Hr4. psimpl. destruct err4; psimpl; [by eexists|].
    apply contract_snapshot in Hr4 as (s1' & -> & Hc). psimpl. rewrite createCsiSnapshot_spec by done. psimpl.
    by eexists.
  - destruct err; psimpl; [by eexists|]. apply contract_snapshot in Hr as (s' & -> & Hc). psimpl.
    destruct (snapshotSourceMatchesVolume _ _); psimpl; [|by eexists].
    rewrite createCsiSnapshot_spec by done. psimpl. by eexists.
Qed.

Lemma delete_snapshot_no_panic req t : wp P (DeleteSnapshot c req) t no_panic.
Proof using HP.
  unfold DeleteSnapshot. destruct req as [req|]; [|by eexists]. destruct (is_empty _); [by eexists|]. psimpl.
  split; [apply contract_pre|]. intros r _. destruct r; psimpl; by eexists.
Qed.
End Contract.

(** ** Properties *)

(** C35: a caller that follows the tokens of pages of [m] entries is shown the
    snapshots in order, each once: all of them, except that the last one is
    never shown when exactly one would be left for the last page. *)
Theorem list_pages_enumerate {W} (h : handler clientE W) c (items : list VolumeSnapshot) m w :
  (forall w, (h (ListVolumeSnapshots (infraClusterNamespace c)) w).1 = (Some items, None)) ->
  Forall has_claim items -> 0 < m < 2 ^ 31 -> 0 < Z.of_nat (length items) < 2 ^ 31 ->
  let n := Z.of_nat (length items) in
  run_out (exec h (list_all c (S (length items)) m "") w []) =
  Val (csi_of <$> take (if ((n - 1) mod m =? 0) && (m <? n) then Nat.pred (length items) else length items) items, None).
Proof.
  intros Hl Hc Hm Hn n. rewrite (list_all_from c h items m Hl Hc Hm Hn _ 0); [|lia..|done].
  change (Z.to_nat (0 * m)) with 0%nat. rewrite subslice_0. unfold visible. fold n.
  replace (Z.to_nat (if ((n - 1) mod m =? 0) && (m <? n) then n - 1 else n))
    with (if ((n - 1) mod m =? 0) && (m <? n) then Nat.pred (length items) else length items); [done|].
  subst n. destruct (_ && _); lia.
Qed.

Definition demo_snapshots : list VolumeSnapshot :=
  (fun n => new_snapshot "infra" n "pvc-1" "") <$> ["s1"; "s2"; "s3"; "s4"; "s5"].

Definition snapshot_world : handler clientE unit := fun m _ =>
  (match m return Client.answer m with
   | ListVolumeSnapshots _ => (Some demo_snapshots, None)
   | m => (cluster_client m demo).1
   end, tt).

(** Five snapshots in pages of two: the fifth is lost. *)
Lemma list_pages_enumerate_witness :
  let c := NewControllerService "infra" ∅ (mkStorageClassEnforcement [] true true []) in
  run_out (exec snapshot_world (list_all c 6 2 "") tt []) = Val (csi_of <$> take 4 demo_snapshots, None).
Proof.
  apply (list_pages_enumerate snapshot_world _ demo_snapshots 2 tt); [done| |done|done].
  apply Forall_forall. intros s Hs. unfold has_claim.
  repeat (apply elem_of_cons in Hs as [->|Hs]; [by eexists|]). by apply not_elem_of_nil in Hs.
Defined.

(** C36: what a listing answers once its snapshots are selected, for every token
    and every [MaxEntries] an [int32] can be: nothing to show; a token that is
    not a number; a token of 0 written otherwise than "0", beyond the end, or a
    negative size, which is a panic; a snapshot of the page without a claim name,
    which is a panic; or the page. *)
Theorem list_snapshots_outcome {W} (h : handler clientE W) c req w items :
  run_out (exec h (selectSnapshots c req) w []) = Val (items, None) ->
  Z.of_nat (length items) < 2 ^ 62 -> - 2 ^ 31 <= ls_MaxEntries req < 2 ^ 31 ->
  run_out (exec h (ListSnapshots c (Some req)) w []) =
    if decide (items = []) then Val (Some (mkListSnapshotsResponse [] ""), None)
    else match ParseUint (normalizeToken (ls_StartingToken req)) 32 with
    | inr e => Val (None, Some (NumError "ParseUint" (normalizeToken (ls_StartingToken req)) e))
    | inl k =>
        if (k =? 0) || (Z.of_nat (length items) <? k - 1) || (ls_MaxEntries req <? 0)
        then Panicked "slice bounds out of range"
        else if decide (Forall has_claim (page_items items (page_size req items) (k - 1)))
        then Val (Some (page items (page_size req items) (k - 1)), None)
        else Panicked no_claim
    end.
Proof.
  intros Hsel Hn Hm. unfold ListSnapshots. rewrite exec_bind. cbv zeta. rewrite Hsel. xsimpl.
  destruct (decide (items = [])) as [->|Hne]; [done|].
  rewrite createSnapshotResponseFromItems_spec by done.
  destruct (ParseUint _ 32) as [k|e]; [|done]. destruct (_ || _); [done|]. by destruct (decide _).
Qed.

Lemma list_snapshots_outcome_witness :
  let c := NewControllerService "infra" ∅ (mkStorageClassEnforcement [] true true []) in
  run_out (exec snapshot_world (ListSnapshots c (Some (mkListSnapshotsRequest 2 "9" "" ""))) tt []) =
  Panicked "slice bounds out of range".
Proof.
  apply (list_snapshots_outcome snapshot_world (NewControllerService "infra" ∅ (mkStorageClassEnforcement [] true true []))
    (mkListSnapshotsRequest 2 "9" "" "") tt demo_snapshots); [vm_compute; reflexivity|done|done].
Defined.

(** A listing that answers shows only snapshots the client just answered,
    those of the source volume or of the identifier asked for when one is given. *)
Theorem list_snapshots_shows_matching {W} (h : handler clientE W) c req w resp err :
  let r := exec h (ListSnapshots c (Some req)) w [] in
  run_out r = Val (Some resp, err) ->
  err = None /\ exists items, selected req (infraClusterNamespace c) items (run_trace r) /\
    forall e, e ∈ lsr_Entries resp -> exists s, s ∈ items /\ has_claim s /\ e = csi_of s.
Proof.
  cbv zeta. intros Hout. pose proof (wp_exec_any h _ w _ _ (wp_ListSnapshots c req)) as H.
  rewrite Hout in H. simpl in H. by destruct err.
Qed.

Lemma list_snapshots_shows_matching_witness :
  let c := NewControllerService "infra" ∅ (mkStorageClassEnforcement [] true true []) in
  exists items : list VolumeSnapshot, (forall e, e ∈ csi_of <$> demo_snapshots -> exists s, s ∈ items /\ has_claim s /\ e = csi_of s).
Proof.
  destruct (list_snapshots_shows_matching snapshot_world
    (NewControllerService "infra" ∅ (mkStorageClassEnforcement [] true true []))
    (mkListSnapshotsRequest 0 "" "pvc-1" "") tt (mkListSnapshotsResponse (csi_of <$> demo_snapshots) "") None)
    as (_ & items & _ & H); [vm_compute; reflexivity|]. exists items. exact H.
Defined.

(** A create asks the cluster for at most the snapshot that the request
    describes, after its name was looked up and not found and right after its
    source volume was seen to exist. *)
Theorem create_snapshot_creates_as_allowed {W} (h : handler clientE W) (w : W) c req t1 e t2 :
  run_trace (exec h (CreateSnapshot c (Some req)) w []) = t1 ++ e :: t2 ->
  createSnapshotAllowed c req t1 (ev_op e).
Proof.
  intros Htr. destruct (wp_exec_guard _ h _ w _ _ (wp_CreateSnapshot c req)) as [_ H].
  eapply H; [done|]. simpl. lia.
Qed.

Definition demo_create_snapshot : CreateSnapshotRequest := mkCreateSnapshotRequest "pvc-1" "snap-1" ∅.

Lemma create_snapshot_creates_as_allowed_witness :
  let c := NewControllerService "infra" ∅ (mkStorageClassEnforcement [] true true []) in
  createSnapshotAllowed c demo_create_snapshot
    (take 2 (run_trace (exec cluster_client (CreateSnapshot c (Some demo_create_snapshot)) demo [])))
    (CreateVolumeSnapshot "infra" "snap-1" "pvc-1" "").
Proof.
  apply (create_snapshot_creates_as_allowed cluster_client demo _ demo_create_snapshot _
    (Ev (E := clientE) (CreateVolumeSnapshot "infra" "snap-1" "pvc-1" "")
       (Some (new_snapshot "infra" "snap-1" "pvc-1" ""), None))
    (drop 3 (run_trace (exec cluster_client (CreateSnapshot
       (NewControllerService "infra" ∅ (mkStorageClassEnforcement [] true true [])) (Some demo_create_snapshot)) demo [])))).
  vm_compute. reflexivity.
Defined.

(** A create that answers success answers the snapshot it last read: either the
    existing one of that name, whose source is the volume asked for, with
    nothing else asked of the cluster, or the one it created, read again after
    it was seen to be ready. *)
Theorem create_snapshot_response {W} (h : handler clientE W) (w : W) c req :
  let r := exec h (CreateSnapshot c (Some req)) w [] in
  createSnapshotPost c req (run_trace r) (run_out r).
Proof. by destruct (wp_exec_guard _ h _ w _ _ (wp_CreateSnapshot c req)) as [H _]. Qed.
