(* ===== verification/Clientsets.v ===== *)
(** * The API servers and the generated clientsets

    The operations of the infra client on its environment: REST requests to the
    API servers of the infra and tenant clusters, the clock, and the fields of
    the client shared between goroutines.  A request is the record that the
    chain of builder calls of client-go makes
    (vendor/k8s.io/client-go/rest/request.go).  The typed clients of
    pkg/generated (one file per resource, all from one template) and of
    vendor/k8s.io/client-go/kubernetes build their requests from it. *)

From S2P Require Import Prelude GoStrings Errors Effects Wait Objects ClientAPI.

(** ** Resources *)

(** Kinds of the generated clients that the driver does not use. *)
Inductive other_kind :=
| KKubeVirt | KVirtualMachineInstanceMigration | KVirtualMachineInstancePreset | KVirtualMachineInstanceReplicaSet
| KDataImportCron | KDataSource | KVolumeImportSource | KVolumeUploadSource | KVolumeCloneSource
| KCDI | KCDIConfig | KObjectTransfer | KStorageProfile | KVolumeSnapshotContent.

Inductive kind :=
| KVirtualMachine | KVirtualMachineInstance | KDataVolume | KVolumeSnapshot | KVolumeSnapshotClass
| KPersistentVolumeClaim | KPersistentVolume
| KOther (o : other_kind).

(** Of an object of another kind, what its client reads. *)
Record OtherObject := mkOtherObject { oo_Name : string; oo_Namespace : string; oo_Labels : gmap string string }.

Definition object (k : kind) : Type :=
  match k with
  | KVirtualMachine => VirtualMachine
  | KVirtualMachineInstance => VirtualMachineInstance
  | KDataVolume => DataVolume
  | KVolumeSnapshot => VolumeSnapshot
  | KVolumeSnapshotClass => VolumeSnapshotClass
  | KPersistentVolumeClaim => PersistentVolumeClaim
  | KPersistentVolume => PersistentVolume
  | KOther _ => OtherObject
  end.

(** [&T{}], what a response is decoded into. *)
Definition zero (k : kind) : object k :=
  match k with
  | KVirtualMachine => zeroVM
  | KVirtualMachineInstance => zeroVMI
  | KDataVolume => zeroDataVolume
  | KVolumeSnapshot => zeroVolumeSnapshot
  | KVolumeSnapshotClass => mkVolumeSnapshotClass "" "" ∅
  | KPersistentVolumeClaim => zeroPVC
  | KPersistentVolume => zeroPV
  | KOther _ => mkOtherObject "" "" ∅
  end.

Definition other_resource (o : other_kind) : string :=
  match o with
  | KKubeVirt => "kubevirts"
  | KVirtualMachineInstanceMigration => "virtualmachineinstancemigrations"
  | KVirtualMachineInstancePreset => "virtualmachineinstancepresets"
  | KVirtualMachineInstanceReplicaSet => "virtualmachineinstancereplicasets"
  | KDataImportCron => "dataimportcrons"
  | KDataSource => "datasources"
  | KVolumeImportSource => "volumeimportsources"
  | KVolumeUploadSource => "volumeuploadsources"
  | KVolumeCloneSource => "volumeclonesources"
  | KCDI => "cdis"
  | KCDIConfig => "cdiconfigs"
  | KObjectTransfer => "objecttransfers"
  | KStorageProfile => "storageprofiles"
  | KVolumeSnapshotContent => "volumesnapshotcontents"
  end.

Definition resource (k : kind) : string :=
  match k with
  | KVirtualMachine => "virtualmachines"
  | KVirtualMachineInstance => "virtualmachineinstances"
  | KDataVolume => "datavolumes"
  | KVolumeSnapshot => "volumesnapshots"
  | KVolumeSnapshotClass => "volumesnapshotclasses"
  | KPersistentVolumeClaim => "persistentvolumeclaims"
  | KPersistentVolume => "persistentvolumes"
  | KOther o => other_resource o
  end.

Definition object_Name {k : kind} : object k -> string :=
  match k with
  | KVirtualMachine => vm_Name
  | KVirtualMachineInstance => vmi_Name
  | KDataVolume => dv_Name
  | KVolumeSnapshot => snap_Name
  | KVolumeSnapshotClass => vsc_Name
  | KPersistentVolumeClaim => pvc_Name
  | KPersistentVolume => pv_Name
  | KOther _ => oo_Name
  end.

(** ** Requests *)

Inductive verb := GET | POST | PUT | DELETE | PATCH (patchType : string).

Inductive body (k : kind) :=
| NoBody
| ObjectBody (o : object k)
| OptionsBody            (* &metav1.DeleteOptions{} *)
| BytesBody (data : string).
Arguments NoBody {k}.
Arguments ObjectBody {k} o.
Arguments OptionsBody {k}.
Arguments BytesBody {k} data.

(** [rest.Request], as far as the generated clients set it. *)
Record Request (k : kind) := mkRequest {
  rq_verb : verb;
  rq_namespace : option string;
  rq_resource : string;
  rq_name : option string;
  rq_subresource : list string;
  rq_labelSelector : string;   (* of the ListOptions in VersionedParams *)
  rq_body : body k }.
Arguments mkRequest {k} _ _ _ _ _ _ _.
Arguments rq_verb {k} _.
Arguments rq_namespace {k} _.
Arguments rq_resource {k} _.
Arguments rq_name {k} _.
Arguments rq_subresource {k} _.
Arguments rq_labelSelector {k} _.
Arguments rq_body {k} _.

(** The builder calls. *)
Definition NewRequest {k} (v : verb) : Request k := mkRequest v None "" None [] "" NoBody.
Definition Namespace {k} (ns : option string) (r : Request k) : Request k :=
  mkRequest (rq_verb r) ns (rq_resource r) (rq_name r) (rq_subresource r) (rq_labelSelector r) (rq_body r).
Definition Resource {k} (res : string) (r : Request k) : Request k :=
  mkRequest (rq_verb r) (rq_namespace r) res (rq_name r) (rq_subresource r) (rq_labelSelector r) (rq_body r).
Definition Name {k} (name : string) (r : Request k) : Request k :=
  mkRequest (rq_verb r) (rq_namespace r) (rq_resource r) (Some name) (rq_subresource r) (rq_labelSelector r) (rq_body r).
Definition SubResource {k} (sub : list string) (r : Request k) : Request k :=
  mkRequest (rq_verb r) (rq_namespace r) (rq_resource r) (rq_name r) sub (rq_labelSelector r) (rq_body r).
Definition LabelSelector {k} (sel : string) (r : Request k) : Request k :=
  mkRequest (rq_verb r) (rq_namespace r) (rq_resource r) (rq_name r) (rq_subresource r) sel (rq_body r).
Definition Body {k} (b : body k) (r : Request k) : Request k :=
  mkRequest (rq_verb r) (rq_namespace r) (rq_resource r) (rq_name r) (rq_subresource r) (rq_labelSelector r) b.

(** The JSON encoding of a hot-plug request. *)
Inductive hotplugBody := AddJSON (o : AddVolumeOptions) | RemoveJSON (o : RemoveVolumeOptions).

Inductive server := Infra | Tenant.

(** ** The environment of the infra client *)

(** The mapping cached in the client: [InfraTenantStorageSnapshotMapping]. *)
Record InfraToTenantMapping := mkInfraToTenantMapping { itm_Infra : string; itm_Tenant : string }.
Record InfraTenantStorageSnapshotMapping := mkInfraTenantStorageSnapshotMapping {
  itsm_VolumeSnapshotClasses : list InfraToTenantMapping;
  itsm_StorageClasses : list string }.

Module Kube.
Inductive operation : Type :=
| Do (s : server) (k : kind) (r : Request k)         (* Do(ctx).Into(&T{}) *)
| DoList (s : server) (k : kind) (r : Request k)     (* Do(ctx).Into(&TList{}) *)
| DoError (s : server) (k : kind) (r : Request k)    (* Do(ctx).Error() *)
| DoWatch (s : server) (k : kind) (r : Request k)    (* Watch(ctx) *)
| PutAbsPath (uri : string) (json : hotplugBody)     (* restClient.Put().AbsPath(uri).Body(json).Do(ctx).Error() *)
| ServerVersion
| Window (interval timeout : Z)                      (* the ticks of a poll before its context ends *)
| Sleep (d : Z)
| Lock | Unlock                                      (* c.mu *)
| LoadPopulated | LoadMapping
| StoreMapping (m : list InfraTenantStorageSnapshotMapping)
| StorePopulated (b : bool).

(** A request that decodes answers an object or an error, never both. *)
Definition answer (o : operation) : Type :=
  match o with
  | Do _ k _ => object k + error
  | DoList _ k _ => list (object k) + error
  | DoWatch _ _ _ => unit + error     (* the stream itself is not modelled *)
  | DoError _ _ _ | PutAbsPath _ _ | ServerVersion => option error
  | Window _ _ => nat * error
  | Sleep _ | Lock | Unlock | StoreMapping _ | StorePopulated _ => unit
  | LoadPopulated => bool
  | LoadMapping => list InfraTenantStorageSnapshotMapping
  end.
End Kube.

Definition kubeE : signature := Signature Kube.operation Kube.answer.

Definition kube (o : Kube.operation) : prog kubeE (Kube.answer o) := call (E := kubeE) o.

(** [rest.Result.Into(result)] with [result] a fresh [&T{}]: the object decoded, or the
    error and the object left as it was. *)
Definition Into {T} (obj : T) (r : T + error) : result T :=
  match r with inl v => (v, None) | inr e => (obj, Some e) end.

(** ** The template of the typed clients *)

Section Typed.
Variables (s : server) (k : kind) (ns : option string).

Definition Get (name : string) : prog kubeE (result (object k)) :=
  r ← kube (Kube.Do s k (Name name (Resource (resource k) (Namespace ns (NewRequest GET)))));
  Ret (Into (zero k) r).

Definition List (labelSelector : string) : prog kubeE (result (list (object k))) :=
  r ← kube (Kube.DoList s k (LabelSelector labelSelector (Resource (resource k) (Namespace ns (NewRequest GET)))));
  Ret (Into [] r).

(** [opts.Watch = true] is what the operation [DoWatch] stands for. *)
Definition Watch (labelSelector : string) : prog kubeE (unit + error) :=
  kube (Kube.DoWatch s k (LabelSelector labelSelector (Resource (resource k) (Namespace ns (NewRequest GET))))).

Definition Create (o : object k) : prog kubeE (result (object k)) :=
  r ← kube (Kube.Do s k (Body (ObjectBody o) (Resource (resource k) (Namespace ns (NewRequest POST)))));
  Ret (Into (zero k) r).

Definition Update (o : object k) : prog kubeE (result (object k)) :=
  r ← kube (Kube.Do s k (Body (ObjectBody o)
        (Name (object_Name o) (Resource (resource k) (Namespace ns (NewRequest PUT))))));
  Ret (Into (zero k) r).

Definition UpdateStatus (o : object k) : prog kubeE (result (object k)) :=
  r ← kube (Kube.Do s k (Body (ObjectBody o) (SubResource ["status"]
        (Name (object_Name o) (Resource (resource k) (Namespace ns (NewRequest PUT)))))));
  Ret (Into (zero k) r).

Definition Delete (name : string) : prog kubeE (option error) :=
  kube (Kube.DoError s k (Body OptionsBody (Name name (Resource (resource k) (Namespace ns (NewRequest DELETE)))))).

Definition DeleteCollection (labelSelector : string) : prog kubeE (option error) :=
  kube (Kube.DoError s k (Body OptionsBody
    (LabelSelector labelSelector (Resource (resource k) (Namespace ns (NewRequest DELETE)))))).

Definition Patch (name patchType data : string) (subresources : list string) : prog kubeE (result (object k)) :=
  r ← kube (Kube.Do s k (Body (BytesBody data) (SubResource subresources
        (Name name (Resource (resource k) (Namespace ns (NewRequest (PATCH patchType))))))));
  Ret (Into (zero k) r).
End Typed.

(** The interface of a typed client ([VirtualMachineInterface] and the like); a
    resource without a status has no [UpdateStatus].  Of the options the driver
    sets only the label selector: no timeout, no resource version. *)
Record Interface (k : kind) := mkInterface {
  i_Get : string -> prog kubeE (result (object k));
  i_List : string -> prog kubeE (result (list (object k)));
  i_Watch : string -> prog kubeE (unit + error);
  i_Create : object k -> prog kubeE (result (object k));
  i_Update : object k -> prog kubeE (result (object k));
  i_UpdateStatus : option (object k -> prog kubeE (result (object k)));
  i_Delete : string -> prog kubeE (option error);
  i_DeleteCollection : string -> prog kubeE (option error);
  i_Patch : string -> string -> string -> list string -> prog kubeE (result (object k)) }.
Arguments i_Get {k} _ _.
Arguments i_List {k} _ _.
Arguments i_Watch {k} _ _.
Arguments i_Create {k} _ _.
Arguments i_Update {k} _ _.
Arguments i_UpdateStatus {k} _.
Arguments i_Delete {k} _ _.
Arguments i_DeleteCollection {k} _ _.
Arguments i_Patch {k} _ _ _ _ _.

(** The client of a kind on a server: [ns] is the namespace, if the kind has one;
    not every kind has a status. *)
Definition typed_client (s : server) (k : kind) (ns : option string) (status : bool) : Interface k :=
  mkInterface k (Get s k ns) (List s k ns) (Watch s k ns) (Create s k ns) (Update s k ns)
    (if status then Some (UpdateStatus s k ns) else None) (Delete s k ns) (DeleteCollection s k ns) (Patch s k ns).

(** virtualmachine.go, virtualmachineinstance.go, datavolume.go,
    volumesnapshot.go, volumesnapshotclass.go; persistentvolumeclaim.go and
    persistentvolume.go of client-go. *)
Definition VirtualMachines (ns : string) : Interface KVirtualMachine :=
  typed_client Infra KVirtualMachine (Some ns) true.
Definition VirtualMachineInstances (ns : string) : Interface KVirtualMachineInstance :=
  typed_client Infra KVirtualMachineInstance (Some ns) true.
Definition DataVolumes (ns : string) : Interface KDataVolume := typed_client Infra KDataVolume (Some ns) true.
Definition VolumeSnapshots (ns : string) : Interface KVolumeSnapshot := typed_client Infra KVolumeSnapshot (Some ns) true.
Definition VolumeSnapshotClasses (s : server) : Interface KVolumeSnapshotClass :=
  typed_client s KVolumeSnapshotClass None false.
Definition PersistentVolumeClaims (ns : string) : Interface KPersistentVolumeClaim :=
  typed_client Infra KPersistentVolumeClaim (Some ns) true.
Definition PersistentVolumes : Interface KPersistentVolume := typed_client Infra KPersistentVolume None true.
