(* ===== verification/Generated.v ===== *)
(** * The generated clients that the driver does not use

    pkg/generated holds one file per resource, all made by client-gen from one
    template: with or without a namespace, with or without a status.  Clientsets.v
    has the template and the clients that the driver uses; this file has the other
    ones, and shows that every client stays with its own resource. *)

From S2P Require Import Prelude GoStrings Errors Effects Goroutines Wait Objects ClientAPI Clientsets.
Import Kube.

(** ** pkg/generated/kubevirt *)

Definition KubeVirts (s : server) (ns : string) : Interface (KOther KKubeVirt) :=
  typed_client s (KOther KKubeVirt) (Some ns) true.
Definition VirtualMachineInstanceMigrations (s : server) (ns : string) : Interface (KOther KVirtualMachineInstanceMigration) :=
  typed_client s (KOther KVirtualMachineInstanceMigration) (Some ns) true.
Definition VirtualMachineInstancePresets (s : server) (ns : string) : Interface (KOther KVirtualMachineInstancePreset) :=
  typed_client s (KOther KVirtualMachineInstancePreset) (Some ns) false.
Definition VirtualMachineInstanceReplicaSets (s : server) (ns : string) : Interface (KOther KVirtualMachineInstanceReplicaSet) :=
  typed_client s (KOther KVirtualMachineInstanceReplicaSet) (Some ns) true.

(** ** pkg/generated/containerized-data-importer *)

Definition DataImportCrons (s : server) (ns : string) : Interface (KOther KDataImportCron) :=
  typed_client s (KOther KDataImportCron) (Some ns) true.
Definition DataSources (s : server) (ns : string) : Interface (KOther KDataSource) :=
  typed_client s (KOther KDataSource) (Some ns) true.
Definition VolumeImportSources (s : server) (ns : string) : Interface (KOther KVolumeImportSource) :=
  typed_client s (KOther KVolumeImportSource) (Some ns) true.
Definition VolumeUploadSources (s : server) (ns : string) : Interface (KOther KVolumeUploadSource) :=
  typed_client s (KOther KVolumeUploadSource) (Some ns) true.
Definition VolumeCloneSources (s : server) (ns : string) : Interface (KOther KVolumeCloneSource) :=
  typed_client s (KOther KVolumeCloneSource) (Some ns) false.
Definition CDIs (s : server) : Interface (KOther KCDI) := typed_client s (KOther KCDI) None true.
Definition CDIConfigs (s : server) : Interface (KOther KCDIConfig) := typed_client s (KOther KCDIConfig) None true.
Definition ObjectTransfers (s : server) : Interface (KOther KObjectTransfer) := typed_client s (KOther KObjectTransfer) None true.
Definition StorageProfiles (s : server) : Interface (KOther KStorageProfile) := typed_client s (KOther KStorageProfile) None true.

(** ** pkg/generated/external-snapshotter *)

Definition VolumeSnapshotContents (s : server) : Interface (KOther KVolumeSnapshotContent) := typed_client s (KOther KVolumeSnapshotContent) None true.

(** ** Interfaces

    The interface of the clients of each kind and its getter, over the interface
    [I k] of the clients of a kind [k]: that of the real clients or of the fake
    ones. *)

Definition KubeVirtInterface (I : kind -> Type) : Type := I (KOther KKubeVirt).
Definition KubeVirtsGetter (I : kind -> Type) : Type := string -> KubeVirtInterface I.
Definition VirtualMachineInterface (I : kind -> Type) : Type := I KVirtualMachine.
Definition VirtualMachinesGetter (I : kind -> Type) : Type := string -> VirtualMachineInterface I.
Definition VirtualMachineInstanceInterface (I : kind -> Type) : Type := I KVirtualMachineInstance.
Definition VirtualMachineInstancesGetter (I : kind -> Type) : Type := string -> VirtualMachineInstanceInterface I.
Definition VirtualMachineInstanceMigrationInterface (I : kind -> Type) : Type := I (KOther KVirtualMachineInstanceMigration).
Definition VirtualMachineInstanceMigrationsGetter (I : kind -> Type) : Type := string -> VirtualMachineInstanceMigrationInterface I.
Definition VirtualMachineInstancePresetInterface (I : kind -> Type) : Type := I (KOther KVirtualMachineInstancePreset).
Definition VirtualMachineInstancePresetsGetter (I : kind -> Type) : Type := string -> VirtualMachineInstancePresetInterface I.
Definition VirtualMachineInstanceReplicaSetInterface (I : kind -> Type) : Type := I (KOther KVirtualMachineInstanceReplicaSet).
Definition VirtualMachineInstanceReplicaSetsGetter (I : kind -> Type) : Type := string -> VirtualMachineInstanceReplicaSetInterface I.

Definition CDIInterface (I : kind -> Type) : Type := I (KOther KCDI).
Definition CDIsGetter (I : kind -> Type) : Type := CDIInterface I.
Definition CDIConfigInterface (I : kind -> Type) : Type := I (KOther KCDIConfig).
Definition CDIConfigsGetter (I : kind -> Type) : Type := CDIConfigInterface I.
Definition DataImportCronInterface (I : kind -> Type) : Type := I (KOther KDataImportCron).
Definition DataImportCronsGetter (I : kind -> Type) : Type := string -> DataImportCronInterface I.
Definition DataSourceInterface (I : kind -> Type) : Type := I (KOther KDataSource).
Definition DataSourcesGetter (I : kind -> Type) : Type := string -> DataSourceInterface I.
Definition DataVolumeInterface (I : kind -> Type) : Type := I KDataVolume.
Definition DataVolumesGetter (I : kind -> Type) : Type := string -> DataVolumeInterface I.
Definition ObjectTransferInterface (I : kind -> Type) : Type := I (KOther KObjectTransfer).
Definition ObjectTransfersGetter (I : kind -> Type) : Type := ObjectTransferInterface I.
Definition StorageProfileInterface (I : kind -> Type) : Type := I (KOther KStorageProfile).
Definition StorageProfilesGetter (I : kind -> Type) : Type := StorageProfileInterface I.
Definition VolumeCloneSourceInterface (I : kind -> Type) : Type := I (KOther KVolumeCloneSource).
Definition VolumeCloneSourcesGetter (I : kind -> Type) : Type := string -> VolumeCloneSourceInterface I.
Definition VolumeImportSourceInterface (I : kind -> Type) : Type := I (KOther KVolumeImportSource).
Definition VolumeImportSourcesGetter (I : kind -> Type) : Type := string -> VolumeImportSourceInterface I.
Definition VolumeUploadSourceInterface (I : kind -> Type) : Type := I (KOther KVolumeUploadSource).
Definition VolumeUploadSourcesGetter (I : kind -> Type) : Type := string -> VolumeUploadSourceInterface I.

Definition VolumeSnapshotInterface (I : kind -> Type) : Type := I KVolumeSnapshot.
Definition VolumeSnapshotsGetter (I : kind -> Type) : Type := string -> VolumeSnapshotInterface I.
Definition VolumeSnapshotClassInterface (I : kind -> Type) : Type := I KVolumeSnapshotClass.
Definition VolumeSnapshotClassesGetter (I : kind -> Type) : Type := VolumeSnapshotClassInterface I.
Definition VolumeSnapshotContentInterface (I : kind -> Type) : Type := I (KOther KVolumeSnapshotContent).
Definition VolumeSnapshotContentsGetter (I : kind -> Type) : Type := VolumeSnapshotContentInterface I.

(** Which of them declare [UpdateStatus]. *)
Definition has_status (k : kind) : bool :=
  match k with
  | KOther KVirtualMachineInstancePreset | KOther KVolumeCloneSource | KVolumeSnapshotClass => false
  | _ => true
  end.

(** ** The groups

    [KubevirtV1Interface], [CdiV1beta1Interface] and [SnapshotV1Interface]: the
    getters of the clients of a group, which the real and the fake groups share;
    [I k] is the interface of the clients of [k]. *)

Record KubevirtV1Interface (I : kind -> Type) := mkKubevirtV1Interface {
  kv_KubeVirts : KubeVirtsGetter I;
  kv_VirtualMachines : VirtualMachinesGetter I;
  kv_VirtualMachineInstances : VirtualMachineInstancesGetter I;
  kv_VirtualMachineInstanceMigrations : VirtualMachineInstanceMigrationsGetter I;
  kv_VirtualMachineInstancePresets : VirtualMachineInstancePresetsGetter I;
  kv_VirtualMachineInstanceReplicaSets : VirtualMachineInstanceReplicaSetsGetter I }.

Record CdiV1beta1Interface (I : kind -> Type) := mkCdiV1beta1Interface {
  cdi_CDIs : CDIsGetter I;
  cdi_CDIConfigs : CDIConfigsGetter I;
  cdi_DataImportCrons : DataImportCronsGetter I;
  cdi_DataSources : DataSourcesGetter I;
  cdi_DataVolumes : DataVolumesGetter I;
  cdi_ObjectTransfers : ObjectTransfersGetter I;
  cdi_StorageProfiles : StorageProfilesGetter I;
  cdi_VolumeCloneSources : VolumeCloneSourcesGetter I;
  cdi_VolumeImportSources : VolumeImportSourcesGetter I;
  cdi_VolumeUploadSources : VolumeUploadSourcesGetter I }.

Record SnapshotV1Interface (I : kind -> Type) := mkSnapshotV1Interface {
  snap_VolumeSnapshots : VolumeSnapshotsGetter I;
  snap_VolumeSnapshotClasses : VolumeSnapshotClassesGetter I;
  snap_VolumeSnapshotContents : VolumeSnapshotContentsGetter I }.

(** core_client.go and volumesnapshot_client.go: the clients of the infra cluster. *)
Definition KubevirtV1Client : KubevirtV1Interface Interface :=
  mkKubevirtV1Interface Interface (KubeVirts Infra) VirtualMachines VirtualMachineInstances (VirtualMachineInstanceMigrations Infra) (VirtualMachineInstancePresets Infra) (VirtualMachineInstanceReplicaSets Infra).
Definition CdiV1beta1Client : CdiV1beta1Interface Interface :=
  mkCdiV1beta1Interface Interface (CDIs Infra) (CDIConfigs Infra) (DataImportCrons Infra) (DataSources Infra) DataVolumes (ObjectTransfers Infra) (StorageProfiles Infra) (VolumeCloneSources Infra) (VolumeImportSources Infra) (VolumeUploadSources Infra).
Definition SnapshotV1Client : SnapshotV1Interface Interface :=
  mkSnapshotV1Interface Interface VolumeSnapshots (VolumeSnapshotClasses Infra) (VolumeSnapshotContents Infra).

(** The clients of the groups have the methods that their interfaces declare. *)
Definition implements {k} (i : Interface k) : Prop := is_Some (i_UpdateStatus i) <-> has_status k = true.

Lemma typed_client_implements s k ns : implements (typed_client s k ns (has_status k)).
Proof. unfold implements, typed_client. cbn. destruct (has_status k); split; [done|by eexists|by intros []|done]. Qed.

Lemma groups_implement ns :
  implements (kv_KubeVirts _ KubevirtV1Client ns) /\ implements (kv_VirtualMachines _ KubevirtV1Client ns) /\
  implements (kv_VirtualMachineInstances _ KubevirtV1Client ns) /\ implements (kv_VirtualMachineInstanceMigrations _ KubevirtV1Client ns) /\
  implements (kv_VirtualMachineInstancePresets _ KubevirtV1Client ns) /\ implements (kv_VirtualMachineInstanceReplicaSets _ KubevirtV1Client ns) /\
  implements (cdi_CDIs _ CdiV1beta1Client) /\ implements (cdi_CDIConfigs _ CdiV1beta1Client) /\
  implements (cdi_DataImportCrons _ CdiV1beta1Client ns) /\ implements (cdi_DataSources _ CdiV1beta1Client ns) /\
  implements (cdi_DataVolumes _ CdiV1beta1Client ns) /\ implements (cdi_ObjectTransfers _ CdiV1beta1Client) /\
  implements (cdi_StorageProfiles _ CdiV1beta1Client) /\ implements (cdi_VolumeCloneSources _ CdiV1beta1Client ns) /\
  implements (cdi_VolumeImportSources _ CdiV1beta1Client ns) /\ implements (cdi_VolumeUploadSources _ CdiV1beta1Client ns) /\
  implements (snap_VolumeSnapshots _ SnapshotV1Client ns) /\ implements (snap_VolumeSnapshotClasses _ SnapshotV1Client) /\
  implements (snap_VolumeSnapshotContents _ SnapshotV1Client).
Proof. split_and!; apply (typed_client_implements Infra). Qed.

(** ** Addresses *)

(** A request to the resource of the kind, in the namespace, at the server; by
    name exactly when it is not about the whole collection. *)
Definition addressed {k} (ns : option string) (collection : bool) (r : Request k) : Prop :=
  rq_resource r = resource k /\ rq_namespace r = ns /\ (collection = true <-> rq_name r = None).

Definition stays (s : server) (k : kind) (ns : option string) (o : op kubeE) : Prop :=
  match o with
  | Do s' k' r => s' = s /\ k' = k /\ addressed ns (match rq_verb r with POST => true | _ => false end) r
  | DoList s' k' r | DoWatch s' k' r => s' = s /\ k' = k /\ addressed ns true r /\ rq_verb r = GET
  | DoError s' k' r => s' = s /\ k' = k /\ rq_verb r = DELETE /\ rq_resource r = resource k /\ rq_namespace r = ns
  | _ => False
  end.

(** The programs of the methods of a client. *)
Definition methods_stay {k} (s : server) (ns : option string) (i : Interface k) : Prop :=
  (forall name, only (stays s k ns) (i_Get i name)) /\
  (forall sel, only (stays s k ns) (i_List i sel)) /\
  (forall sel, only (stays s k ns) (i_Watch i sel)) /\
  (forall o, only (stays s k ns) (i_Create i o)) /\
  (forall o, only (stays s k ns) (i_Update i o)) /\
  (forall f o, i_UpdateStatus i = Some f -> only (stays s k ns) (f o)) /\
  (forall name, only (stays s k ns) (i_Delete i name)) /\
  (forall sel, only (stays s k ns) (i_DeleteCollection i sel)) /\
  (forall name pt data subs, only (stays s k ns) (i_Patch i name pt data subs)).

Lemma resource_inj k k' : resource k = resource k' -> k = k'.
Proof.
  destruct k as [| | | | | | |o], k' as [| | | | | | |o']; try done; try destruct o; try destruct o'; done.
Qed.

(** Every method of a generated client asks only for its own resource, in its own
    namespace; no two kinds share a resource. *)
Theorem generated_clients_stay s k ns status :
  methods_stay s ns (typed_client s k ns status) /\ forall k', resource k' = resource k -> k' = k.
Proof.
  split; [|intros k'; apply resource_inj]. unfold methods_stay. split_and!; intros; simpl in *; repeat case_match; simplify_eq; simpl; repeat split; simpl; try done.
Qed.
