(* ===== verification/Labels.v ===== *)
(** * Label selectors

    The part of vendor/k8s.io/apimachinery/pkg/labels (selector.go) and
    pkg/util/validation the client uses to list its snapshots:
    [ValidatedSelectorFromSet] and what the selector it makes selects; and
    [containsLabels] of pkg/kubevirt/client.go, the test the client does itself
    on an object it fetched. *)

From S2P Require Import Prelude GoStrings Errors ClientAPI.
From Stdlib Require Import Sorting.Permutation.

(** ** Validation *)

Definition in_range (lo hi c : ascii) : bool :=
  (N_of_ascii lo <=? N_of_ascii c)%N && (N_of_ascii c <=? N_of_ascii hi)%N.

Definition is_lower_alnum (c : ascii) : bool := in_range "a" "z" c || in_range "0" "9" c.
Definition is_alnum (c : ascii) : bool := is_lower_alnum c || in_range "A" "Z" c.
Definition is_name_char (c : ascii) : bool :=
  is_alnum c || Ascii.eqb c "-" || Ascii.eqb c "_" || Ascii.eqb c ".".

(** [first last] of the regular expressions [A([B]*A)?]: the first and the last
    byte are in [edge], every byte in [inner] or [edge]. *)
Fixpoint ends_with (edge inner : ascii -> bool) (s : string) : bool :=
  match s with
  | EmptyString => false
  | String c EmptyString => edge c
  | String c s' => (edge c || inner c) && ends_with edge inner s'
  end.

Definition matches_edges (edge inner : ascii -> bool) (s : string) : bool :=
  match s with
  | EmptyString => false
  | String c _ => edge c && ends_with edge inner s
  end.

Definition qualifiedNameRegexp (s : string) : bool := matches_edges is_alnum is_name_char s.
Definition dns1123Label (s : string) : bool := matches_edges is_lower_alnum (fun c => Ascii.eqb c "-") s.

Definition IsDNS1123Subdomain (s : string) : bool :=
  (Z.of_nat (String.length s) <=? 253) && forallb dns1123Label (Split s ".").

Definition valid_name_part (name : string) : bool :=
  (Z.of_nat (String.length name) <=? 63) && qualifiedNameRegexp name.

(** [len(IsQualifiedName(value)) == 0]. *)
Definition IsQualifiedName (value : string) : bool :=
  match Split value "/" with
  | [name] => valid_name_part name
  | [prefix; name] => negb (is_empty prefix) && IsDNS1123Subdomain prefix && valid_name_part name
  | _ => false
  end.

(** [len(IsValidLabelValue(value)) == 0]. *)
Definition IsValidLabelValue (value : string) : bool :=
  (Z.of_nat (String.length value) <=? 63) && (is_empty value || qualifiedNameRegexp value).

(** ** Selectors *)

(** A requirement of operator [selection.Equals]. *)
Record Requirement := mkRequirement { r_key : string; r_value : string }.

(** The messages of validation errors are not modelled. *)
Definition NewRequirement (key value : string) : Requirement + error :=
  if IsQualifiedName key && IsValidLabelValue value then inl (mkRequirement key value)
  else inr (Errorf "invalid label" [AStr key; AStr value]).

Fixpoint newRequirements (ls : list (string * string)) : list Requirement + error :=
  match ls with
  | [] => inl []
  | (label, value) :: ls' =>
      match NewRequirement label value with
      | inr e => inr e
      | inl r => match newRequirements ls' with inr e => inr e | inl rs => inl (r :: rs) end
      end
  end.

(** [sort.Sort(ByKey(requirements))]. *)
Fixpoint insert_by_key (r : Requirement) (l : list Requirement) : list Requirement :=
  match l with
  | [] => [r]
  | r' :: l' => if String.ltb (r_key r') (r_key r) then r' :: insert_by_key r l' else r :: l
  end.

Definition sort_by_key (l : list Requirement) : list Requirement := foldr insert_by_key [] l.

Definition ValidatedSelectorFromSet (ls : gmap string string) : list Requirement + error :=
  match newRequirements (map_to_list ls) with
  | inr e => inr e
  | inl requirements => inl (sort_by_key requirements)
  end.

(** [Requirement.String] and [internalSelector.String]. *)
Definition Requirement_String (r : Requirement) : string := r_key r +:+ "=" +:+ r_value r.
Definition Selector_String (sel : list Requirement) : string := Join (Requirement_String <$> sel) ",".

(** [Requirement.Matches] and [internalSelector.Matches]. *)
Definition Requirement_Matches (r : Requirement) (ls : gmap string string) : bool :=
  match ls !! r_key r with Some v => v =s? r_value r | None => false end.
Definition Matches (sel : list Requirement) (ls : gmap string string) : bool :=
  forallb (fun r => Requirement_Matches r ls) sel.

(** ** [containsLabels] *)

(** Does [a] hold the labels of [b]?  An absent key reads as the empty string. *)
Definition containsLabels (a b : gmap string string) : bool :=
  forallb (fun '(k, v) => mapget a k =s? v) (map_to_list b).

(** ** Lemmas *)

Lemma containsLabels_spec a b : containsLabels a b = true <-> forall k v, b !! k = Some v -> mapget a k = v.
Proof.
  unfold containsLabels. rewrite forallb_forall. split.
  - intros H k v Hk. apply elem_of_map_to_list, list_elem_of_In, H, streq_spec in Hk. done.
  - intros H [k v] Hk. apply streq_spec, H. by apply elem_of_map_to_list, list_elem_of_In.
Qed.

Lemma newRequirements_spec ls rs :
  newRequirements ls = inl rs -> rs = (fun '(k, v) => mkRequirement k v) <$> ls.
Proof.
  revert rs. induction ls as [|[k v] ls IH]; intros rs; simpl; [by intros [= <-]|].
  unfold NewRequirement. destruct (_ && _); [|done]. destruct (newRequirements ls); [|done].
  intros [= <-]. by rewrite (IH _ eq_refl).
Qed.

Lemma insert_by_key_perm r l : insert_by_key r l ≡ₚ r :: l.
Proof.
  induction l as [|r' l IH]; simpl; [done|]. destruct (String.ltb _ _); [|done].
  rewrite IH. by constructor.
Qed.

Lemma sort_by_key_perm l : sort_by_key l ≡ₚ l.
Proof. induction l as [|r l IH]; simpl; [done|]. by rewrite insert_by_key_perm, IH. Qed.

Lemma forallb_Permutation {A} (f : A -> bool) l l' : l ≡ₚ l' -> forallb f l = forallb f l'.
Proof.
  intros H. apply eq_bool_prop_intro. rewrite !Is_true_true, !forallb_forall.
  split; intros Hf x Hx; apply Hf; [by rewrite H|by rewrite <- H].
Qed.

(** The selector built from a set of labels selects exactly the objects that
    hold each of them. *)
Lemma Matches_spec ls sel labels :
  ValidatedSelectorFromSet ls = inl sel -> Matches sel labels = true <-> ls ⊆ labels.
Proof.
  unfold ValidatedSelectorFromSet. destruct (newRequirements _) as [rs|e] eqn:Hr; [|done].
  intros [= <-]. apply newRequirements_spec in Hr as ->.
  unfold Matches. rewrite (forallb_Permutation _ _ _ (sort_by_key_perm _)), forallb_forall, map_subseteq_spec.
  unfold Requirement_Matches. split.
  - intros H k v Hk. specialize (H (mkRequirement k v)).
    rewrite <- list_elem_of_In, list_elem_of_fmap in H. simpl in H.
    destruct (labels !! k) as [v'|] eqn:Hl; [|discriminate H].
    + f_equal. apply streq_spec, H. exists (k, v). split; [done|]. by apply elem_of_map_to_list.
    + exists (k, v). split; [done|]. by apply elem_of_map_to_list.
  - intros H r Hr. apply list_elem_of_In, list_elem_of_fmap in Hr as ([k v] & -> & Hk).
    apply elem_of_map_to_list, H in Hk. simpl. rewrite Hk. apply streq_refl.
Qed.

(** ** Properties *)

(** The labels the client lists its snapshots with agree with the labels it
    checks on a snapshot it reads: what the selector selects passes the check,
    and what passes the check is selected when no label of the driver has an
    empty value (the check takes an absent label for an empty one). *)
Theorem selector_agrees_with_check infraLabelMap sel labels :
  ValidatedSelectorFromSet infraLabelMap = inl sel ->
  (Matches sel labels = true -> containsLabels labels infraLabelMap = true) /\
  ((forall k, infraLabelMap !! k <> Some "") -> Matches sel labels = containsLabels labels infraLabelMap).
Proof.
  intros Hs. assert (Hsub : infraLabelMap ⊆ labels -> containsLabels labels infraLabelMap = true).
  { intros H. apply containsLabels_spec. intros k v Hk. unfold mapget.
    by rewrite (lookup_weaken _ _ _ _ Hk H). }
  pose proof (Matches_spec infraLabelMap sel labels Hs) as HM. split; [rewrite HM; done|].
  intros Hne. apply eq_bool_prop_intro. rewrite !Is_true_true, HM. split; [done|].
  rewrite containsLabels_spec, map_subseteq_spec. intros H k v Hk. specialize (H k v Hk).
  unfold mapget in H. destruct (labels !! k) as [v'|]; [by f_equal|]. simpl in H. subst v. by destruct (Hne k).
Qed.

Lemma selector_agrees_with_check_witness :
  let labels : gmap string string := {["csi-driver/cluster" := "tenant-a"; "app" := "db"]} in
  Matches [mkRequirement "csi-driver/cluster" "tenant-a"] labels =
  containsLabels labels {["csi-driver/cluster" := "tenant-a"]}.
Proof.
  apply selector_agrees_with_check; [vm_compute; reflexivity|].
  intros k. rewrite lookup_singleton. by destruct (decide _).
Defined.
