(* ===== verification/SnapshotClass.v ===== *)
(** * Snapshot classes

    The choice of the infra snapshot class of a new snapshot, and the mapping of
    storage classes to snapshot classes the choice is made from: the client
    builds the mapping once, under its mutex, from the storage class policy and
    the snapshot classes of the tenant cluster
    (pkg/kubevirt/client.go, from [getStorageSnapshotMapping] to
    [appendVolumeSnapshotInfraTenantMapping]). *)

From S2P Require Import Prelude GoStrings Errors Effects Wait Objects Util ClientAPI Controller Clientsets.
Import Kube.

(** ** Building the mapping *)

(** The tenant class that names the infra class, by the loop's [break] the first
    one; empty when there is none. *)
Definition tenantClassFor (infraVolumeSnapshotClass : string) (tenantVolumeSnapshotClasses : list VolumeSnapshotClass)
    : string :=
  match list_find (fun cl => vsc_Parameters cl !! InfraSnapshotClassNameParameter = Some infraVolumeSnapshotClass)
          tenantVolumeSnapshotClasses with
  | Some (_, cl) => vsc_Name cl
  | None => ""
  end.

Definition appendVolumeSnapshotInfraTenantMapping (mapping : InfraTenantStorageSnapshotMapping)
    (infraVolumeSnapshotClasses : list string) (tenantVolumeSnapshotClasses : list VolumeSnapshotClass)
    : InfraTenantStorageSnapshotMapping :=
  fold_left (fun mapping infraVolumeSnapshotClass =>
    mkInfraTenantStorageSnapshotMapping
      (itsm_VolumeSnapshotClasses mapping ++
        [mkInfraToTenantMapping infraVolumeSnapshotClass (tenantClassFor infraVolumeSnapshotClass tenantVolumeSnapshotClasses)])
      (itsm_StorageClasses mapping)) infraVolumeSnapshotClasses mapping.

Definition buildStorageClassSnapshotClassMapping (infraStorageSnapMapping : list StorageSnapshotMapping)
    : prog kubeE (result (list InfraTenantStorageSnapshotMapping)) :=
  '(volumeSnapshotClassList, err) ← i_List (VolumeSnapshotClasses Tenant) "";
  if negb (is_nil err) then Ret ([], err)
  else Ret ((fun storageSnapshotMapping =>
         appendVolumeSnapshotInfraTenantMapping
           (mkInfraTenantStorageSnapshotMapping [] (StorageClasses storageSnapshotMapping))
           (Util.VolumeSnapshotClasses storageSnapshotMapping) volumeSnapshotClassList) <$> infraStorageSnapMapping, None).

Section Client.
Variable enforcement : StorageClassEnforcement.

(** The critical section of [getStorageSnapshotMapping]: the deferred [Unlock]
    runs on both returns. *)
Definition getStorageSnapshotMapping : prog kubeE (result (list InfraTenantStorageSnapshotMapping)) :=
  _ ← kube Lock;
  populated ← kube LoadPopulated;
  if negb populated then
    '(storageSnapshotMapping, err) ← buildStorageClassSnapshotClassMapping (StorageSnapshotMappings enforcement);
    if negb (is_nil err) then _ ← kube Unlock; Ret ([], err)
    else
      _ ← kube (StoreMapping storageSnapshotMapping);
      _ ← kube (StorePopulated true);
      m ← kube LoadMapping; _ ← kube Unlock; Ret (m, None)
  else m ← kube LoadMapping; _ ← kube Unlock; Ret (m, None).

(** The first entry of the mapping that lists the storage class. *)
Definition mappingOf (storageClassName : string) (mapping : list InfraTenantStorageSnapshotMapping)
    : option InfraTenantStorageSnapshotMapping :=
  snd <$> list_find (fun m => existsb (fun storageClass => storageClassName =s? storageClass) (itsm_StorageClasses m)) mapping.

Definition getInfraSnapshotClassesFromInfraStorageClassName (storageClassName : string)
    : prog kubeE (result (list string)) :=
  '(mapping, err) ← getStorageSnapshotMapping;
  if negb (is_nil err) then Ret ([], err)
  else match mappingOf storageClassName mapping with
       | Some m => Ret (itm_Infra <$> itsm_VolumeSnapshotClasses m, None)
       | None => Ret ([], None)
       end.

Definition getTenantSnapshotClassesFromInfraStorageClassName (storageClassName : string)
    : prog kubeE (result (list string)) :=
  '(mapping, err) ← getStorageSnapshotMapping;
  if negb (is_nil err) then Ret ([], err)
  else match mappingOf storageClassName mapping with
       | Some m => Ret (itm_Tenant <$> itsm_VolumeSnapshotClasses m, None)
       | None => Ret ([], None)
       end.

Definition getStorageClassNameFromClaimName (namespace claimName : string) : prog kubeE (result string) :=
  '(volumeClaim, err) ← i_Get (PersistentVolumeClaims namespace) claimName;
  if negb (is_nil err) then Ret ("", err)
  else Ret (default "" (pvc_StorageClassName volumeClaim), None).

Definition getSnapshotClassNameFromVolumeClaimName (namespace claimName snapshotClassName : string)
    : prog kubeE (result string) :=
  '(storageClassName, err) ← getStorageClassNameFromClaimName namespace claimName;
  if negb (is_nil err) then
    Ret ("", Some (errors_New "unable to determine volume snapshot class name for infra source volume"))
  else if AllowDefault enforcement then Ret ("", None)
  else if storageClassName =s? "" then
    Ret ("", Some (errors_New
      "unable to determine volume snapshot class name for snapshot creation, and default not allowed"))
  else if negb (storageClassName =s? "") && negb (Contains (AllowList enforcement) storageClassName)
          && negb (AllowAll enforcement) then
    Ret ("", Some (Errorf
      "unable to determine volume snapshot class name for snapshot creation, no valid snapshot classes found based on storage class [%s]"
      [AStr storageClassName]))
  else
    '(snapshotClassNames, err) ← getInfraSnapshotClassesFromInfraStorageClassName storageClassName;
    if negb (is_nil err) then Ret ("", err)
    else if Contains snapshotClassNames snapshotClassName then Ret (snapshotClassName, None)
    else if negb (AllowAll enforcement) && negb (AllowDefault enforcement) then
      '(tenantSnapshotClasses, err) ← getTenantSnapshotClassesFromInfraStorageClassName storageClassName;
      if negb (is_nil err) then Ret ("", err)
      else if Nat.ltb 0 (length tenantSnapshotClasses) then
        if snapshotClassName =s? "" then
          Ret ("", Some (Errorf
            "unable to determine volume snapshot class name for snapshot creation, valid snapshot classes are %v"
            [AStrs tenantSnapshotClasses]))
        else
          Ret ("", Some (Errorf
            "volume snapshot class %s is not compatible with PVC with storage class %s, valid snapshot classes for this pvc are %v"
            [AStr snapshotClassName; AStr storageClassName; AStrs tenantSnapshotClasses]))
      else Ret ("", Some (errors_New
        "unable to determine volume snapshot class name for snapshot creation, no valid snapshot classes found"))
    else Ret ("", None).
End Client.
