(* ===== verification/KubeClient.v ===== *)
(** * The infra client

    [type client struct] of pkg/kubevirt/client.go: the implementation of the
    [Client] interface by requests to the API servers.  [implementation] gives
    the program of every method; what the controller does against the real
    client is its programs interpreted by it. *)

From S2P Require Import Prelude GoStrings Errors Effects Wait Objects Util ClientAPI.
From S2P Require Import Controller Clientsets Labels SnapshotClass.
Import Kube.

(** The fields of [client] that do not change. *)
Record client := mkClient {
  infraLabelMap : gmap string string;
  volumePrefix : string;
  enforcement : StorageClassEnforcement }.

(** [NewClient]: the volume prefix is [fmt.Sprintf("%s-", prefix)]. *)
Definition NewClient (infraClusterLabelMap : gmap string string) (storageClassEnforcement : StorageClassEnforcement)
    (prefix : string) : client :=
  mkClient infraClusterLabelMap (prefix +:+ "-") storageClassEnforcement.

Definition kube_sleep (d : Z) : prog kubeE unit := kube (Sleep d).
Definition kube_window (interval timeout : Z) : prog kubeE (nat * error) := kube (Window interval timeout).

(** [kubevirtv1.ApiStorageVersion] *)
Definition ApiStorageVersion : string := "v1".

(** [fmt.Sprintf(vmSubresourceURL, version, namespace, vmName, sub)]. *)
Definition vmSubresourceURL (version namespace vmName sub : string) : string :=
  "/apis/subresources.kubevirt.io/" +:+ version +:+ "/namespaces/" +:+ namespace +:+
  "/virtualmachines/" +:+ vmName +:+ "/" +:+ sub.
Definition vmiSubresourceURL (version namespace vmName sub : string) : string :=
  "/apis/subresources.kubevirt.io/" +:+ version +:+ "/namespaces/" +:+ namespace +:+
  "/virtualmachineinstances/" +:+ vmName +:+ "/" +:+ sub.

(** The body of the JSON patch of an expansion. *)
Definition quoted (s : string) : string := String "034" (s +:+ String "034" "").
Definition patchData (desiredSize : Z) : string :=
  "[{" +:+ quoted "op" +:+ ":" +:+ quoted "add" +:+ "," +:+ quoted "path" +:+ ":" +:+
  quoted "/spec/resources/requests/storage" +:+ "," +:+ quoted "value" +:+ ":" +:+
  quoted (FormatInt desiredSize) +:+ " }]".

Section Methods.
Variable c : client.

(** ** VMs and VMIs *)

Definition ListVirtualMachines (namespace : string) : prog kubeE (result (list VirtualMachineInstance)) :=
  '(items, err) ← i_List (VirtualMachineInstances namespace) "";
  if negb (is_nil err) then Ret ([], err) else Ret (items, None).

Definition GetVirtualMachine (namespace name : string) : prog kubeE (result (option VirtualMachineInstance)) :=
  '(vmi, err) ← i_Get (VirtualMachineInstances namespace) name; Ret (Some vmi, err).

Definition GetWorkloadManagingVirtualMachine (namespace name : string) : prog kubeE (result (option VirtualMachine)) :=
  '(vm, err) ← i_Get (VirtualMachines namespace) name; Ret (Some vm, err).

Definition AddVolumeToVM (namespace vmName : string) (hotPlugRequest : AddVolumeOptions) : prog kubeE (option error) :=
  kube (PutAbsPath (vmSubresourceURL ApiStorageVersion namespace vmName "addvolume") (AddJSON hotPlugRequest)).

Definition RemoveVolumeFromVM (namespace vmName : string) (hotPlugRequest : RemoveVolumeOptions)
    : prog kubeE (option error) :=
  kube (PutAbsPath (vmSubresourceURL ApiStorageVersion namespace vmName "removevolume") (RemoveJSON hotPlugRequest)).

Definition RemoveVolumeFromVMI (namespace vmName : string) (hotPlugRequest : RemoveVolumeOptions)
    : prog kubeE (option error) :=
  kube (PutAbsPath (vmiSubresourceURL ApiStorageVersion namespace vmName "removevolume") (RemoveJSON hotPlugRequest)).

(** Is the volume a claim or a DataVolume of the VM spec?  The loop of
    [EnsureVolumeRemovedVM] and [EnsureVolumeAvailableVM]. *)
Definition volumeInSpec (volumeName : string) (volumes : list Volume) : bool :=
  existsb (fun volume =>
    negb (is_nil (vol_PersistentVolumeClaim volume) && is_nil (vol_DataVolume volume)) &&
    (vol_Name volume =s? volumeName)) volumes.

Definition EnsureVolumeRemovedVM (namespace name volumeName : string) : prog kubeE (result bool) :=
  '(vm, err) ← i_Get (VirtualMachines namespace) name;
  if negb (is_nil err) then
    if negb (IsNotFound err) then Ret (false, err) else Ret (true, None)
  else
    template ← deref "vm.Spec.Template" (vm_Template vm);
    Ret (negb (volumeInSpec volumeName (tpl_Volumes template)), None).

Definition EnsureVolumeAvailableVM (namespace name volumeName : string) : prog kubeE (result bool) :=
  '(vm, err) ← i_Get (VirtualMachines namespace) name;
  if negb (is_nil err) then
    if negb (IsNotFound err) then Ret (false, err) else Ret (false, None)
  else
    template ← deref "vm.Spec.Template" (vm_Template vm);
    Ret (volumeInSpec volumeName (tpl_Volumes template), None).

(** Does the VMI report the volume as a hot-plug? *)
Definition hotplugInStatus (volumeName : string) (vmi : VirtualMachineInstance) : bool :=
  existsb (fun volumeStatus =>
    negb (is_nil (vs_HotplugVolume volumeStatus)) && (vs_Name volumeStatus =s? volumeName)) (vmi_VolumeStatus vmi).

Definition EnsureVolumeRemovedVMI (namespace name volumeName : string) : prog kubeE (result bool) :=
  '(vmi, err) ← i_Get (VirtualMachineInstances namespace) name;
  if negb (is_nil err) then
    if negb (IsNotFound err) then Ret (false, err) else Ret (true, None)
  else Ret (negb (hotplugInStatus volumeName vmi), None).

(** The condition polled by [EnsureVolumeAvailable]. *)
Definition volumeAvailable (namespace vmName volumeName : string) : prog kubeE (result bool) :=
  '(vmi, err) ← GetVirtualMachine namespace vmName;
  if negb (is_nil err) then Ret (false, err)
  else
    vmi ← deref "vmi" vmi;
    if existsb (fun volume => (vs_Name volume =s? volumeName) && (vs_Phase volume =s? VolumeReady)) (vmi_VolumeStatus vmi)
    then EnsureVolumeAvailableVM namespace vmName volumeName
    else Ret (false, None).

Definition EnsureVolumeAvailable (namespace vmName volumeName : string) (timeout : Z) : prog kubeE (option error) :=
  PollUntilContextTimeout kube_window Second timeout true (volumeAvailable namespace vmName volumeName).

(** The condition polled by [EnsureVolumeRemoved]. *)
Definition volumeRemoved (namespace vmName volumeName : string) : prog kubeE (result bool) :=
  '(vmi, err) ← GetVirtualMachine namespace vmName;
  if negb (is_nil err) then
    if negb (IsNotFound err) then Ret (false, err)
    else EnsureVolumeRemovedVM namespace vmName volumeName
  else
    vmi ← deref "vmi" vmi;
    if existsb (fun volume => vs_Name volume =s? volumeName) (vmi_VolumeStatus vmi) then Ret (false, None)
    else EnsureVolumeRemovedVM namespace vmName volumeName.

Definition EnsureVolumeRemoved (namespace vmName volumeName : string) (timeout : Z) : prog kubeE (option error) :=
  PollUntilContextTimeout kube_window Second timeout true (volumeRemoved namespace vmName volumeName).

(** ** Volumes *)

(** The labels and the name of the volumes this driver owns. *)
Definition ownedVolume (labels : gmap string string) (name : string) : bool :=
  containsLabels labels (infraLabelMap c) && HasPrefix name (volumePrefix c).

Definition CreateDataVolume (namespace : string) (dataVolume : DataVolume) : prog kubeE (result (option DataVolume)) :=
  if negb (HasPrefix (dv_Name dataVolume) (volumePrefix c)) then Ret (None, Some ErrInvalidVolume)
  else '(dv, err) ← i_Create (DataVolumes namespace) dataVolume; Ret (Some dv, err).

Definition Ping : prog kubeE (option error) := kube ServerVersion.

Definition GetDataVolume (namespace name : string) : prog kubeE (result (option DataVolume)) :=
  '(dv, err) ← i_Get (DataVolumes namespace) name;
  if negb (is_nil err) then Ret (None, err)
  else if negb (containsLabels (dv_Labels dv) (infraLabelMap c)) || negb (HasPrefix (dv_Name dv) (volumePrefix c)) then
    Ret (None, Some ErrInvalidVolume)
  else Ret (Some dv, None).

Definition DeleteDataVolume (namespace name : string) : prog kubeE (option error) :=
  '(dv, err) ← GetDataVolume namespace name;
  if IsNotFound err then Ret None
  else if negb (is_nil err) then Ret err
  else match dv with
       | Some dv => i_Delete (DataVolumes namespace) (dv_Name dv)
       | None => Ret None
       end.

Definition GetPersistentVolumeClaim (namespace claimName : string) : prog kubeE (result (option PersistentVolumeClaim)) :=
  '(pvc, err) ← i_Get (PersistentVolumeClaims namespace) claimName;
  if negb (is_nil err) then Ret (None, err)
  else if negb (containsLabels (pvc_Labels pvc) (infraLabelMap c)) || negb (HasPrefix (pvc_Name pvc) (volumePrefix c)) then
    Ret (None, Some ErrInvalidVolume)
  else Ret (Some pvc, None).

Definition ExpandPersistentVolumeClaim (namespace claimName : string) (desiredSize : Z) : prog kubeE (option error) :=
  '(currentPVC, err) ← GetPersistentVolumeClaim namespace claimName;
  if negb (is_nil err) then Ret err
  else
    currentPVC ← deref "currentPVC" currentPVC;
    let desiredQuantity := NewQuantity desiredSize in
    let currentQuantity := storage_of (pvc_Requests currentPVC) in
    match Cmp currentQuantity desiredQuantity with
    | Lt =>
        '(_, err) ← i_Patch (PersistentVolumeClaims namespace) claimName "application/json-patch+json"
          (patchData desiredSize) [];
        if negb (is_nil err) then Ret err else Ret None
    | _ => Ret None
    end.

(** The condition polled by [EnsureControllerResize]: the size asked for is the
    one read before the poll. *)
Definition controllerResized (pvc : PersistentVolumeClaim) : prog kubeE (result bool) :=
  let pvName := pvc_VolumeName pvc in
  let pvcSize := storage_of (pvc_Requests pvc) in
  '(pv, err) ← i_Get PersistentVolumes pvName;
  match err with
  | Some e => Ret (false, Some (Errorf "error fetching pv %q for resizing %v" [AStr pvName; AErr e]))
  | None =>
      match Cmp (storage_of (pv_Capacity pv)) pvcSize with
      | Lt => Ret (false, None)
      | _ => Ret (true, None)
      end
  end.

Definition EnsureControllerResize (namespace claimName : string) (timeout : Z) : prog kubeE (option error) :=
  '(pvc, err) ← GetPersistentVolumeClaim namespace claimName;
  if negb (is_nil err) then Ret err
  else
    pvc ← deref "pvc" pvc;
    PollUntilContextTimeout kube_window Second timeout true (controllerResized pvc).

(** ** Snapshots *)

Definition GetVolumeSnapshot (namespace name : string) : prog kubeE (result (option VolumeSnapshot)) :=
  '(s, err) ← i_Get (VolumeSnapshots namespace) name;
  if negb (is_nil err) then Ret (None, err)
  else if negb (containsLabels (snap_Labels s) (infraLabelMap c)) then Ret (None, Some ErrInvalidSnapshot)
  else Ret (Some s, None).

(** The snapshot object [CreateVolumeSnapshot] sends. *)
Definition newVolumeSnapshot (namespace name claimName snapshotClassName : string) : VolumeSnapshot :=
  mkVolumeSnapshot name namespace (infraLabelMap c) 0 (Some claimName)
    (if snapshotClassName =s? "" then None else Some snapshotClassName) None.

Definition CreateVolumeSnapshot (namespace name claimName snapshotClassName : string)
    : prog kubeE (result (option VolumeSnapshot)) :=
  '(dv, err) ← GetDataVolume namespace claimName;
  if negb (is_nil err) then Ret (None, err)
  else
    dv ← deref "dv" dv;
    '(snapshotClassNameFromStorage, err) ←
      getSnapshotClassNameFromVolumeClaimName (enforcement c) namespace (dv_Name dv) snapshotClassName;
    if negb (is_nil err) then Ret (None, err)
    else
      '(s, err) ← i_Create (VolumeSnapshots namespace)
        (newVolumeSnapshot namespace name claimName snapshotClassNameFromStorage);
      Ret (Some s, err).

Definition DeleteVolumeSnapshot (namespace name : string) : prog kubeE (option error) :=
  '(s, err) ← GetVolumeSnapshot namespace name;
  if IsNotFound err then Ret None
  else if negb (is_nil err) then Ret err
  else
    s ← deref "s" s;
    i_Delete (VolumeSnapshots (snap_Namespace s)) (snap_Name s).

Definition ListVolumeSnapshots (namespace : string) : prog kubeE (result (option (list VolumeSnapshot))) :=
  match ValidatedSelectorFromSet (infraLabelMap c) with
  | inr e => Ret (None, Some e)
  | inl sl =>
      '(l, err) ← i_List (VolumeSnapshots namespace) (Selector_String sl);
      Ret (Some l, err)
  end.

(** The condition polled by [EnsureSnapshotReady]. *)
Definition snapshotReady (namespace name : string) : prog kubeE (result bool) :=
  '(snapshot, err) ← GetVolumeSnapshot namespace name;
  if negb (is_nil err) then Ret (false, err)
  else
    snapshot ← deref "snapshot" snapshot;
    match snap_Status snapshot with
    | Some (mkVolumeSnapshotStatus (Some ready) _) => Ret (ready, None)
    | _ => Ret (false, None)
    end.

Definition EnsureSnapshotReady (namespace name : string) (timeout : Z) : prog kubeE (option error) :=
  PollUntilContextTimeout kube_window Second timeout true (snapshotReady namespace name).

(** ** The implementation of the interface *)

Definition implementation (m : op clientE) : prog kubeE (resp m) :=
  match (m : Client.method) as m' return prog kubeE (Client.answer m') with
  | Client.Ping => Ping
  | Client.ListVirtualMachines ns => ListVirtualMachines ns
  | Client.GetVirtualMachine ns n => GetVirtualMachine ns n
  | Client.GetWorkloadManagingVirtualMachine ns n => GetWorkloadManagingVirtualMachine ns n
  | Client.DeleteDataVolume ns n => DeleteDataVolume ns n
  | Client.CreateDataVolume ns d => CreateDataVolume ns d
  | Client.GetDataVolume ns n => GetDataVolume ns n
  | Client.GetPersistentVolumeClaim ns n => GetPersistentVolumeClaim ns n
  | Client.ExpandPersistentVolumeClaim ns n size => ExpandPersistentVolumeClaim ns n size
  | Client.AddVolumeToVM ns vm o => AddVolumeToVM ns vm o
  | Client.RemoveVolumeFromVM ns vm o => RemoveVolumeFromVM ns vm o
  | Client.RemoveVolumeFromVMI ns vm o => RemoveVolumeFromVMI ns vm o
  | Client.EnsureVolumeAvailable ns vm v timeout => EnsureVolumeAvailable ns vm v timeout
  | Client.EnsureVolumeAvailableVM ns vm v => EnsureVolumeAvailableVM ns vm v
  | Client.EnsureVolumeRemoved ns vm v timeout => EnsureVolumeRemoved ns vm v timeout
  | Client.EnsureVolumeRemovedVM ns vm v => EnsureVolumeRemovedVM ns vm v
  | Client.EnsureVolumeRemovedVMI ns vm v => EnsureVolumeRemovedVMI ns vm v
  | Client.EnsureSnapshotReady ns n timeout => EnsureSnapshotReady ns n timeout
  | Client.EnsureControllerResize ns n timeout => EnsureControllerResize ns n timeout
  | Client.CreateVolumeSnapshot ns n claim class => CreateVolumeSnapshot ns n claim class
  | Client.GetVolumeSnapshot ns n => GetVolumeSnapshot ns n
  | Client.DeleteVolumeSnapshot ns n => DeleteVolumeSnapshot ns n
  | Client.ListVolumeSnapshots ns => ListVolumeSnapshots ns
  | Client.Sleep d => kube_sleep d
  end.
End Methods.
