(* ===== verification/ApiServer.v ===== *)
(** * Small API servers for concrete runs

    Objects behind the requests of the infra client, in the manner of the fake
    clientsets of pkg/kubevirt/client_test.go: one namespace, objects by name,
    the fields the client keeps.  It serves to run the real client on concrete
    inputs; no theorem assumes it. *)

From S2P Require Import Prelude GoStrings Errors Effects Wait Objects ClientAPI Fixtures Clientsets KubeClient.
Import Kube.

Record api := mkApi {
  a_dvs : gmap string DataVolume;
  a_vms : gmap string VirtualMachine;
  a_vmis : gmap string VirtualMachineInstance;
  a_snaps : gmap string VolumeSnapshot;
  a_pvcs : gmap string PersistentVolumeClaim;
  a_pvs : gmap string PersistentVolume;
  a_classes : list VolumeSnapshotClass;
  a_populated : bool;
  a_mapping : list InfraTenantStorageSnapshotMapping }.

Definition get_object (k : kind) (w : api) (n : string) : option (object k) :=
  match k with
  | KVirtualMachine => a_vms w !! n
  | KVirtualMachineInstance => a_vmis w !! n
  | KDataVolume => a_dvs w !! n
  | KVolumeSnapshot => a_snaps w !! n
  | KVolumeSnapshotClass => None
  | KPersistentVolumeClaim => a_pvcs w !! n
  | KPersistentVolume => a_pvs w !! n
  | KOther _ => None
  end.

Definition list_objects (k : kind) (w : api) : list (object k) :=
  match k with
  | KVirtualMachine => snd <$> map_to_list (a_vms w)
  | KVirtualMachineInstance => snd <$> map_to_list (a_vmis w)
  | KDataVolume => snd <$> map_to_list (a_dvs w)
  | KVolumeSnapshot => snd <$> map_to_list (a_snaps w)
  | KVolumeSnapshotClass => a_classes w
  | KPersistentVolumeClaim => snd <$> map_to_list (a_pvcs w)
  | KPersistentVolume => snd <$> map_to_list (a_pvs w)
  | KOther _ => []
  end.

Definition set_a_dvs (w : api) f := mkApi (f (a_dvs w)) (a_vms w) (a_vmis w) (a_snaps w) (a_pvcs w) (a_pvs w)
  (a_classes w) (a_populated w) (a_mapping w).
Definition set_a_vms (w : api) f := mkApi (a_dvs w) (f (a_vms w)) (a_vmis w) (a_snaps w) (a_pvcs w) (a_pvs w)
  (a_classes w) (a_populated w) (a_mapping w).
Definition set_a_vmis (w : api) f := mkApi (a_dvs w) (a_vms w) (f (a_vmis w)) (a_snaps w) (a_pvcs w) (a_pvs w)
  (a_classes w) (a_populated w) (a_mapping w).
Definition set_a_snaps (w : api) f := mkApi (a_dvs w) (a_vms w) (a_vmis w) (f (a_snaps w)) (a_pvcs w) (a_pvs w)
  (a_classes w) (a_populated w) (a_mapping w).
Definition set_a_populated (w : api) b := mkApi (a_dvs w) (a_vms w) (a_vmis w) (a_snaps w) (a_pvcs w) (a_pvs w)
  (a_classes w) b (a_mapping w).
Definition set_a_mapping (w : api) m := mkApi (a_dvs w) (a_vms w) (a_vmis w) (a_snaps w) (a_pvcs w) (a_pvs w)
  (a_classes w) (a_populated w) m.

Definition post_object (k : kind) (w : api) : object k -> object k * api :=
  match k with
  | KDataVolume => fun d => (set_uid d, set_a_dvs w (<[dv_Name d := set_uid d]>))
  | KVolumeSnapshot => fun s =>
      let s' := mkVolumeSnapshot (snap_Name s) (snap_Namespace s) (snap_Labels s) 1000
        (snap_PersistentVolumeClaimName s) (snap_VolumeSnapshotClassName s)
        (Some (mkVolumeSnapshotStatus (Some true) (Some (NewQuantity 10)))) in
      (s', set_a_snaps w (<[snap_Name s := s']>))
  | _ => fun o => (o, w)
  end.

Definition not_found : error := NewNotFound "not found".

Definition do_request (k : kind) (r : Request k) (w : api) : (object k + error) * api :=
  match rq_verb r, rq_name r, rq_body r with
  | GET, Some n, _ => (match get_object k w n with Some o => inl o | None => inr not_found end, w)
  | POST, _, ObjectBody o =>
      match get_object k w (object_Name o) with
      | Some _ => (inr (APIError "AlreadyExists" 409 ""), w)
      | None => let '(o', w') := post_object k w o in (inl o', w')
      end
  | PATCH _, Some n, _ => (match get_object k w n with Some o => inl o | None => inr not_found end, w)
  | _, _, _ => (inr (APIError "MethodNotAllowed" 405 ""), w)
  end.

Definition delete_request (k : kind) (n : string) (w : api) : option error * api :=
  match get_object k w n with
  | None => (Some not_found, w)
  | Some _ =>
      match k with
      | KDataVolume => (None, set_a_dvs w (delete n))
      | KVolumeSnapshot => (None, set_a_snaps w (delete n))
      | _ => (Some (APIError "MethodNotAllowed" 405 ""), w)
      end
  end.

Definition hotplug_request (uri : string) (json : hotplugBody) (w : api) : api :=
  let on (kindURL : string -> string -> string -> string -> string) (sub name : string) :=
    uri =s? kindURL ApiStorageVersion "infra" name sub in
  match json with
  | AddJSON o =>
      set_a_vmis (set_a_vms w
        (map_imap (fun n vm => Some (if on vmSubresourceURL "addvolume" n then plug (av_Name o) vm else vm))))
        (map_imap (fun n vmi => Some (if on vmSubresourceURL "addvolume" n then plug_status (av_Name o) vmi else vmi)))
  | RemoveJSON o =>
      set_a_vmis (set_a_vms w
        (map_imap (fun n vm => Some (if on vmSubresourceURL "removevolume" n then unplug (rv_Name o) vm else vm))))
        (map_imap (fun n vmi => Some (if on vmSubresourceURL "removevolume" n || on vmiSubresourceURL "removevolume" n
           then unplug_status (rv_Name o) vmi else vmi)))
  end.

Definition api_server : handler kubeE api := fun o w =>
  match o return Kube.answer o * api with
  | Do _ k r => do_request k r w
  | DoList _ k _ => (inl (list_objects k w), w)
  | DoError _ k r => match rq_name r with Some n => delete_request k n w | None => (None, w) end
  | DoWatch _ _ _ => (inl tt, w)
  | PutAbsPath uri json => (None, hotplug_request uri json w)
  | ServerVersion => (None, w)
  | Window interval timeout => ((Z.to_nat (timeout / interval), DeadlineExceeded), w)
  | Sleep _ | Lock | Unlock => (tt, w)
  | LoadPopulated => (a_populated w, w)
  | LoadMapping => (a_mapping w, w)
  | StoreMapping m => (tt, set_a_mapping w m)
  | StorePopulated b => (tt, set_a_populated w b)
  end.

(** A driver with the prefix "pvc" and one label. *)
Definition demo_labels : gmap string string := {["csi-driver/cluster" := "tenant-a"]}.
Definition api_dv (n : string) : DataVolume :=
  mkDataVolume n "infra" ("uid-" +:+ n) demo_labels ∅
    (Some (mkStorageSpec {[ResourceStorage := NewQuantity 10]} [] None None)) None.
Definition api_pvc (n : string) : PersistentVolumeClaim :=
  mkPVC n "infra" demo_labels ("pv-" +:+ n) {[ResourceStorage := NewQuantity 10]} (Some "gold").

(** Two VMs, one owned volume, a volume of somebody else, a tenant snapshot
    class. *)
Definition demo_api : api := {|
  a_dvs := {["pvc-1" := api_dv "pvc-1"; "other" := demo_dv]};
  a_vms := {["vm1" := demo_vm "vm1"; "vm2" := demo_vm "vm2"]};
  a_vmis := {["vm1" := demo_vmi "vm1"; "vm2" := demo_vmi "vm2"]};
  a_snaps := ∅;
  a_pvcs := {["pvc-1" := api_pvc "pvc-1"]};
  a_pvs := {["pv-pvc-1" := mkPV "pv-pvc-1" "" {[ResourceStorage := NewQuantity 20]}]};
  a_classes := [mkVolumeSnapshotClass "tenant-snap" "" {["infraSnapshotClassName" := "gold-snap"]}];
  a_populated := false;
  a_mapping := [] |}.
