(* ===== verification/Memo.v ===== *)
(** * The mapping cached between goroutines

    [getStorageSnapshotMapping] of pkg/kubevirt/client.go is called by every
    [CreateSnapshot] in flight; each RPC runs in a goroutine of the gRPC server.
    This file gives the interleaving semantics of goroutines that share the
    client's mutex and cache, and shows what the mutex is for: the mapping is
    built successfully at most once, and all callers get that mapping. *)

From S2P Require Import Prelude GoStrings Errors Effects Wait Objects Util ClientAPI.
From S2P Require Import Controller Clientsets Fixtures Goroutines SnapshotClass KubeClient ApiServer.
Import Kube.

Abbreviation mapping_t := (list InfraTenantStorageSnapshotMapping).

(** ** Goroutines *)

(** The mutex ([None]: unlocked) and the cached fields. *)
Record shared := mkShared { mu : option nat; populated : bool; cached : mapping_t }.

(** Goroutine [i] makes the operation [o], is answered [a], and leaves the shared
    state [s'].  Requests to the API servers may be answered anything; [Lock]
    waits for the mutex. *)
Definition shared_step (i : nat) (o : Kube.operation) (s : shared) : Kube.answer o -> shared -> Prop :=
  match o return Kube.answer o -> shared -> Prop with
  | Lock => fun _ s' => mu s = None /\ s' = mkShared (Some i) (populated s) (cached s)
  | Unlock => fun _ s' => s' = mkShared None (populated s) (cached s)
  | LoadPopulated => fun b s' => b = populated s /\ s' = s
  | LoadMapping => fun m s' => m = cached s /\ s' = s
  | StoreMapping m => fun _ s' => s' = mkShared (mu s) (populated s) m
  | StorePopulated b => fun _ s' => s' = mkShared (mu s) b (cached s)
  | _ => fun _ s' => s' = s
  end.

Abbreviation goroutine := (prog kubeE (result mapping_t)).

Abbreviation step := (Goroutines.step (A := result mapping_t) (shared_step : nat -> environment kubeE shared)).

Inductive reachable (e : StorageClassEnforcement) (n : nat) : shared * list goroutine -> Prop :=
| reachable_init : reachable e n (mkShared None false [], replicate n (getStorageSnapshotMapping e))
| reachable_step st st' : reachable e n st -> step st st' -> reachable e n st'.

(** ** Where a goroutine can be *)

(** The mapping built from the tenant classes listed. *)
Definition built (e : StorageClassEnforcement) (classes : list VolumeSnapshotClass) : mapping_t :=
  (fun m => appendVolumeSnapshotInfraTenantMapping
     (mkInfraTenantStorageSnapshotMapping [] (StorageClasses m)) (Util.VolumeSnapshotClasses m) classes)
  <$> StorageSnapshotMappings e.

Inductive point :=
| AtLock                              (* before c.mu.Lock() *)
| AtCheck                             (* the test of the flag *)
| AtList                              (* the request to the tenant cluster *)
| AtStoreMapping (l : list VolumeSnapshotClass)
| AtStorePopulated
| AtLoad
| AtUnlock (r : result mapping_t)     (* the deferred Unlock, with the results set *)
| Returned (r : result mapping_t).

Definition classesRequest : Request KVolumeSnapshotClass :=
  mkRequest GET None (resource KVolumeSnapshotClass) None [] "" NoBody.

Section Points.
Variable e : StorageClassEnforcement.

Definition code_at (p : point) : goroutine :=
  let unlock (r : result mapping_t) : goroutine := Vis (E := kubeE) Unlock (fun _ => Ret r) in
  let load : goroutine := Vis (E := kubeE) LoadMapping (fun m => unlock (m, None)) in
  let store_populated : goroutine := Vis (E := kubeE) (StorePopulated true) (fun _ => load) in
  let store l : goroutine := Vis (E := kubeE) (StoreMapping (built e l)) (fun _ => store_populated) in
  let list_classes : goroutine := Vis (E := kubeE) (DoList Tenant KVolumeSnapshotClass classesRequest)
    (fun a => match a with inl l => store l | inr err => unlock ([], Some err) end) in
  let check : goroutine := Vis (E := kubeE) LoadPopulated (fun b => if b then load else list_classes) in
  match p with
  | AtLock => Vis (E := kubeE) Lock (fun _ => check)
  | AtCheck => check
  | AtList => list_classes
  | AtStoreMapping l => store l
  | AtStorePopulated => store_populated
  | AtLoad => load
  | AtUnlock r => unlock r
  | Returned r => Ret r
  end.

Lemma getStorageSnapshotMapping_start : getStorageSnapshotMapping e ≡ code_at AtLock.
Proof.
  unfold getStorageSnapshotMapping. simpl. constructor. intros []. constructor. intros [].
  - constructor. intros m. constructor. intros []. done.
  - simpl. constructor. intros [l|err]; simpl; by repeat (constructor; intros ?).
Qed.
End Points.

(** ** The machine of points *)

Section Machine.
Variable e : StorageClassEnforcement.

Definition pstep (i : nat) (p : point) (s : shared) (p' : point) (s' : shared) : Prop :=
  match p with
  | AtLock => mu s = None /\ s' = mkShared (Some i) (populated s) (cached s) /\ p' = AtCheck
  | AtCheck => s' = s /\ p' = if populated s then AtLoad else AtList
  | AtList => s' = s /\ ((exists l, p' = AtStoreMapping l) \/ (exists err, p' = AtUnlock ([], Some err)))
  | AtStoreMapping l => s' = mkShared (mu s) (populated s) (built e l) /\ p' = AtStorePopulated
  | AtStorePopulated => s' = mkShared (mu s) true (cached s) /\ p' = AtLoad
  | AtLoad => s' = s /\ p' = AtUnlock (cached s, None)
  | AtUnlock r => s' = mkShared None (populated s) (cached s) /\ p' = Returned r
  | Returned _ => False
  end.

(** The next step of goroutine [i]. *)
Abbreviation steps_to i := (Goroutines.steps_to (shared_step i : environment kubeE shared)).

(** It respects the equivalence of programs. *)
Lemma steps_to_proper i s q q' (R : goroutine -> shared -> Prop) :
  (forall s, Proper ((≡) ==> iff) (fun q => R q s)) -> q ≡ q' -> steps_to i s q' R -> steps_to i s q R.
Proof.
  intros HR Hq. destruct Hq as [a|m|o k k' Hk]; [done..|]. simpl. intros H a s' Hs.
  apply (HR s' _ _ (Hk a)). by apply H.
Qed.

(** A goroutine at a point steps as the machine does. *)
Lemma code_steps i p s :
  steps_to i s (code_at e p) (fun q s' => exists p', q ≡ code_at e p' /\ pstep i p s p' s').
Proof.
  destruct p as [| | |l| | |r|r]; simpl.
  - intros a s' [Hm ->]. by exists AtCheck.
  - intros b s' [-> ->]. exists (if populated s then AtLoad else AtList). by destruct (populated s).
  - intros [l|err] s' ->; [exists (AtStoreMapping l)|exists (AtUnlock ([], Some err))]; eauto.
  - intros a s' ->. by exists AtStorePopulated.
  - intros a s' ->. by exists AtLoad.
  - intros m s' [-> ->]. by exists (AtUnlock (cached s, None)).
  - intros a s' ->. by exists (Returned r).
  - done.
Qed.

(** And it can step, unless it returned or waits for the mutex. *)
Definition can_step (i : nat) (s : shared) (q : goroutine) : Prop :=
  match q with
  | Vis o _ => exists a s', shared_step i o s a s'
  | _ => False
  end.

Lemma can_step_proper i s q q' : q ≡ q' -> can_step i s q' -> can_step i s q.
Proof. by intros [a|m|o k k' Hk]. Qed.

Lemma code_can_step i p s :
  (forall r, p <> Returned r) -> (p = AtLock -> mu s = None) -> can_step i s (code_at e p).
Proof.
  intros Hr Hl. destruct p as [| | |l| | |r|r]; simpl.
  - exists tt. eauto.
  - eauto.
  - exists (inl []). eauto.
  - exists tt. eauto.
  - exists tt. eauto.
  - eauto.
  - exists tt. eauto.
  - by destruct (Hr r).
Qed.

(** ** The invariant *)

Definition critical (p : point) : bool :=
  match p with AtLock | Returned _ => false | _ => true end.

Definition local (p : point) (s : shared) : Prop :=
  match p with
  | AtList | AtStoreMapping _ => populated s = false
  | AtStorePopulated => populated s = false /\ exists l, cached s = built e l
  | AtLoad => populated s = true
  | AtUnlock (m, None) | Returned (m, None) => populated s = true /\ m = cached s
  | _ => True
  end.

Record inv (s : shared) (ps : list point) : Prop := {
  inv_owner i p : ps !! i = Some p -> critical p = true -> mu s = Some i;
  inv_held i : mu s = Some i -> exists p, ps !! i = Some p /\ critical p = true;
  inv_local i p : ps !! i = Some p -> local p s;
  inv_built : populated s = true -> exists l, cached s = built e l;
}.

(** What is cached once flagged stays. *)
Lemma pstep_cached i p s p' s' :
  local p s -> pstep i p s p' s' -> populated s = true -> populated s' = true /\ cached s' = cached s.
Proof.
  intros Hl Hp Hs. destruct p; simpl in *; destruct_and?; subst; simpl; try done; congruence.
Qed.

(** After a step the mutex is held by the goroutine exactly when it is in the
    critical section. *)
Lemma pstep_owner i p s p' s' :
  (critical p = true -> mu s = Some i) -> pstep i p s p' s' ->
  mu s' = if critical p' then Some i else None.
Proof.
  intros Hc. destruct p; simpl in *; try specialize (Hc eq_refl); intros Hp; destruct_and?; subst; simpl; auto.
  - by destruct (populated s).
  - destruct_or?; by match goal with H : exists _, _ |- _ => destruct H as [? ->] end.
  - done.
Qed.

Lemma pstep_enters i p s p' s' :
  pstep i p s p' s' -> mu s = None \/ critical p = true.
Proof. destruct p; simpl; naive_solver. Qed.

Lemma pstep_local i p s p' s' :
  local p s -> (populated s = true -> exists l, cached s = built e l) -> pstep i p s p' s' ->
  local p' s' /\ (populated s' = true -> exists l, cached s' = built e l).
Proof.
  intros Hl Hb. destruct p as [| | |l| | |r|r]; simpl in *; intros Hp; destruct_and?; subst; simpl.
  - done.
  - by destruct (populated s) eqn:E.
  - destruct_or?; match goal with H : exists _, _ |- _ => destruct H as [? ->] end; simpl; auto.
  - split; [|congruence]. eauto.
  - eauto.
  - eauto.
  - split; [|done]. destruct r as [m [err|]]; simpl in *; auto.
  - done.
Qed.

(** A goroutine outside the critical section does not notice. *)
Lemma pstep_others i p s p' s' q :
  local p s -> pstep i p s p' s' -> critical q = false -> local q s -> local q s'.
Proof.
  intros Hl Hp Hq Hlq. destruct q as [| | |l| | |r|[m [err|]]]; try done. destruct Hlq as [Hs ->].
  destruct (pstep_cached _ _ _ _ _ Hl Hp Hs) as [H1 H2]. simpl. by rewrite H1, H2.
Qed.

Lemma pstep_inv i p s p' s' ps :
  inv s ps -> ps !! i = Some p -> pstep i p s p' s' -> inv s' (<[i := p']> ps).
Proof.
  intros [Ho Hh Hl Hb] Hi Hp. pose proof (Hl i p Hi) as Hlp.
  pose proof (pstep_owner _ _ _ _ _ (Ho i p Hi) Hp) as Hmu.
  pose proof (pstep_local _ _ _ _ _ Hlp Hb Hp) as [Hlp' Hb'].
  assert (Hothers : forall j q, j <> i -> ps !! j = Some q -> critical q = false).
  { intros j q Hne Hj. destruct (critical q) eqn:Hc; [|done]. pose proof (Ho j q Hj Hc) as Hm.
    destruct (pstep_enters _ _ _ _ _ Hp) as [Hn|Hcp]; [congruence|]. pose proof (Ho i p Hi Hcp). congruence. }
  pose proof (lookup_lt_Some _ _ _ Hi) as Hlt. split.
  - intros j q Hj Hc. destruct (decide (j = i)) as [->|Hne].
    + rewrite list_lookup_insert_eq in Hj by done. injection Hj as <-. by rewrite Hc in Hmu.
    + rewrite list_lookup_insert_ne in Hj by done. by rewrite (Hothers j q Hne Hj) in Hc.
  - intros j Hj. rewrite Hmu in Hj. destruct (critical p') eqn:Hc; [|done]. injection Hj as <-.
    exists p'. by rewrite list_lookup_insert_eq.
  - intros j q Hj. destruct (decide (j = i)) as [->|Hne].
    + rewrite list_lookup_insert_eq in Hj by done. by injection Hj as <-.
    + rewrite list_lookup_insert_ne in Hj by done.
      by apply (pstep_others i p s p' s' q); [..|eapply Hothers|eapply Hl].
  - done.
Qed.

(** ** The goroutines implement the machine *)

Definition implements (ths : list goroutine) (ps : list point) : Prop :=
  Forall2 (fun th p => th ≡ code_at e p) ths ps.

#[local] Instance at_point_proper p i s :
  forall s' : shared, Proper ((≡) ==> iff) (fun q : goroutine => exists p', q ≡ code_at e p' /\ pstep i p s p' s').
Proof. intros s' q q' Hq. by setoid_rewrite Hq. Qed.

Lemma step_implements s ths s' ths' ps :
  implements ths ps -> step (s, ths) (s', ths') ->
  exists i p p', ps !! i = Some p /\ pstep i p s p' s' /\ implements ths' (<[i := p']> ps).
Proof.
  intros Hi Hstep. inversion Hstep as [i o k a s1 s2 ths1 Hth Hs Heq1 Heq2]. simplify_eq.
  destruct (Forall2_lookup_l _ _ _ _ _ Hi Hth) as (p & Hp & Hq).
  pose proof (steps_to_proper i s (Vis (E := kubeE) o k) (code_at e p)
    (fun q s' => exists p', q ≡ code_at e p' /\ pstep i p s p' s') _ Hq (code_steps i p s)) as Hst.
  destruct (Hst a s' Hs) as (p' & Hq' & Hp'). exists i, p, p'. split; [done|]. split; [done|].
  by apply Forall2_insert.
Qed.

Lemma reachable_inv n s ths :
  reachable e n (s, ths) -> exists ps, implements ths ps /\ inv s ps.
Proof.
  remember (s, ths) as st eqn:Hst. intros H. revert s ths Hst.
  induction H as [|[s0 ths0] [s1 ths1] Hr IH Hs]; intros s ths Hst; simplify_eq.
  - exists (replicate n AtLock). split.
    + apply Forall2_replicate, getStorageSnapshotMapping_start.
    + split; simpl.
      * intros i p Hp Hc. apply lookup_replicate in Hp as [-> _]. done.
      * done.
      * intros i p Hp. by apply lookup_replicate in Hp as [-> _].
      * done.
  - destruct (IH _ _ eq_refl) as (ps & Hi & Hinv).
    destruct (step_implements _ _ _ _ _ Hi Hs) as (i & p & p' & Hp & Hps & Hi').
    exists (<[i := p']> ps). split; [done|]. by eapply pstep_inv.
Qed.

(** A goroutine that returned is at [Returned]. *)
Lemma returned_at th p r : th ≡ code_at e p -> th = Ret r -> p = Returned r.
Proof. intros H ->. destruct p; inversion H; by simplify_eq. Qed.

Lemma returned_local n s ths i m :
  reachable e n (s, ths) -> ths !! i = Some (Ret (m, None)) ->
  populated s = true /\ m = cached s /\ exists l, m = built e l.
Proof.
  intros Hr Hi. destruct (reachable_inv _ _ _ Hr) as (ps & Himp & [_ _ Hl Hb]).
  destruct (Forall2_lookup_l _ _ _ _ _ Himp Hi) as (p & Hp & Hq).
  apply (returned_at _ _ (m, None)) in Hq as ->; [|done]. destruct (Hl _ _ Hp) as [Hs ->]. auto.
Qed.
End Machine.

(** Any number of further steps. *)
Abbreviation steps := (rtc step).

Lemma reachable_steps e n st st' : reachable e n st -> steps st st' -> reachable e n st'.
Proof. intros Hr Hs. induction Hs as [|st1 st2 st3 Hs _ IH]; [done|]. apply IH. by eapply reachable_step. Qed.

Lemma cached_kept e n st st' :
  reachable e n st -> steps st st' -> populated st.1 = true -> populated st'.1 = true /\ cached st'.1 = cached st.1.
Proof.
  intros Hr Hs. induction Hs as [|[s ths] [s1 ths1] st3 Hs _ IH]; [done|]. intros Hp. simpl in *.
  destruct (reachable_inv _ _ _ _ Hr) as (ps & Hi & Hinv).
  destruct (step_implements _ _ _ _ _ _ Hi Hs) as (i & p & p' & Hlp & Hps & _).
  destruct (pstep_cached _ _ _ _ _ _ (inv_local _ _ _ Hinv _ _ Hlp) Hps Hp) as [H1 H2].
  destruct (IH (reachable_step _ _ _ _ Hr Hs) H1) as [H3 H4]. split; [done|]. congruence.
Qed.

(** ** Progress *)

(** Steps left at most. *)
Definition rank (p : point) : nat :=
  match p with
  | AtLock => 7 | AtCheck => 6 | AtList => 5 | AtStoreMapping _ => 4 | AtStorePopulated => 3
  | AtLoad => 2 | AtUnlock _ => 1 | Returned _ => 0
  end.

Lemma pstep_rank e i p s p' s' : pstep e i p s p' s' -> (rank p' < rank p)%nat.
Proof.
  destruct p; simpl; intros Hp; destruct_and?; subst; simpl; try lia; try done.
  - destruct (populated s); simpl; lia.
  - destruct_or?; match goal with H : exists _, _ |- _ => destruct H as [? ->] end; simpl; lia.
Qed.

Lemma sum_list_insert (f : point -> nat) ps i p p' :
  ps !! i = Some p -> (sum_list_with f (<[i := p']> ps) + f p = sum_list_with f ps + f p')%nat.
Proof.
  revert i. induction ps as [|q ps IH]; intros [|i] Hi; simpl in *; simplify_eq; [lia|].
  specialize (IH i Hi). lia.
Qed.

(** Each step lowers the steps left. *)
Lemma nsteps_rank e n k s ths ps st' :
  reachable e n (s, ths) -> implements e ths ps -> inv e s ps -> nsteps step k (s, ths) st' ->
  (k <= sum_list_with rank ps)%nat.
Proof.
  revert s ths ps. induction k as [|k IH]; intros s ths ps Hr Hi Hinv Hk; [lia|].
  inversion Hk as [|? ? [s1 ths1] ? Hs Hk']; simplify_eq.
  destruct (step_implements _ _ _ _ _ _ Hi Hs) as (i & p & p' & Hp & Hps & Hi').
  pose proof (IH s1 ths1 _ (reachable_step _ _ _ _ Hr Hs) Hi' (pstep_inv _ _ _ _ _ _ _ Hinv Hp Hps) Hk') as Hle.
  pose proof (sum_list_insert rank ps i p p' Hp). pose proof (pstep_rank _ _ _ _ _ _ Hps). lia.
Qed.

(** In a state where the mutex is held its holder can step; where it is free
    anyone can. *)
Lemma progress e n s ths :
  reachable e n (s, ths) ->
  (forall i th, ths !! i = Some th -> exists r, th = Ret r) \/ exists st', step (s, ths) st'.
Proof.
  intros Hr. destruct (reachable_inv _ _ _ _ Hr) as (ps & Hi & [Ho Hh Hl Hb]).
  assert (Hcan : forall i p, ps !! i = Some p -> (forall r, p <> Returned r) -> (p = AtLock -> mu s = None) ->
    exists st', step (s, ths) st').
  { intros i p Hp Hnr Hlk. destruct (Forall2_lookup_r _ _ _ _ _ Hi Hp) as (th & Hth & Hq).
    pose proof (can_step_proper i s _ _ Hq (code_can_step e i p s Hnr Hlk)) as Hc.
    destruct th as [a|m|o k]; [done..|]. destruct Hc as (a & s' & Hs). eexists. by eapply step_run. }
  destruct (mu s) as [i|] eqn:Hm.
  - destruct (Hh i eq_refl) as (p & Hp & Hc). right. apply (Hcan i p Hp); [|by intros ->].
    by intros r ->.
  - destruct (decide (Exists (fun p => rank p <> 0%nat) ps)) as [Hex|Hn].
    + right. apply Exists_exists in Hex as (p & Hin & Hrk). apply list_elem_of_lookup_1 in Hin as [i Hp].
      apply (Hcan i p Hp); [|done]. by intros r ->.
    + left. intros i th Hth. destruct (Forall2_lookup_l _ _ _ _ _ Hi Hth) as (p & Hp & Hq).
      assert (Hrk : rank p = 0%nat).
      { destruct (decide (rank p = 0%nat)); [done|]. destruct Hn. apply Exists_exists. exists p.
        split; [by eapply list_elem_of_lookup_2|done]. }
      destruct p; try done. simpl in Hq. exists r. by inversion Hq.
Qed.

(** ** Properties *)

(** C33: however the goroutines interleave and whatever the tenant cluster answers,
    all calls that succeed get the same mapping, at whatever moments, and that
    mapping was built from one list of the tenant's snapshot classes. *)
Theorem mapping_built_once e n st st' i j m1 m2 :
  reachable e n st -> steps st st' ->
  st.2 !! i = Some (Ret (m1, None)) -> st'.2 !! j = Some (Ret (m2, None)) ->
  m1 = m2 /\ exists l, m1 = built e l.
Proof.
  intros Hr Hs Hi Hj. destruct st as [s ths], st' as [s' ths']. simpl in *.
  destruct (returned_local _ _ _ _ _ _ Hr Hi) as (Hp & -> & l & Hl).
  destruct (returned_local _ _ _ _ _ _ (reachable_steps _ _ _ _ Hr Hs) Hj) as (_ & -> & _).
  destruct (cached_kept _ _ _ _ Hr Hs Hp) as [_ Hc]. simpl in Hc. rewrite Hc. eauto.
Qed.

Definition demo_enforcement : StorageClassEnforcement :=
  mkStorageClassEnforcement ["gold"] false false [mkStorageSnapshotMapping ["gold-snap"] ["gold"]].

(** A schedule run against the API servers of the demo. *)
Definition run_op (i : nat) (o : Kube.operation) (s : shared) : option (Kube.answer o * shared) :=
  match o return option (Kube.answer o * shared) with
  | Lock => match mu s with None => Some (tt, mkShared (Some i) (populated s) (cached s)) | Some _ => None end
  | Unlock => Some (tt, mkShared None (populated s) (cached s))
  | LoadPopulated => Some (populated s, s)
  | LoadMapping => Some (cached s, s)
  | StoreMapping m => Some (tt, mkShared (mu s) (populated s) m)
  | StorePopulated b => Some (tt, mkShared (mu s) b (cached s))
  | o => Some ((api_server o demo_api).1, s)
  end.

Abbreviation run_schedule := (Goroutines.run_schedule (A := result mapping_t) (run_op : nat -> forall o : op kubeE, shared -> option (resp o * shared))).

Lemma run_op_sound i o s a s' : run_op i o s = Some (a, s') -> shared_step i o s a s'.
Proof.
  destruct o; simpl; intros H; try (by injection H as <- <-).
  destruct (mu s) eqn:Hm; [done|]. by injection H as <- <-.
Qed.

Definition schedule_steps l st st' : run_schedule l st = Some st' -> rtc step st st' :=
  run_schedule_steps _ _ l st st' run_op_sound.

Definition demo_start : shared * list goroutine :=
  (mkShared None false [], replicate 2 (getStorageSnapshotMapping demo_enforcement)).

(** Two goroutines: the first one builds the mapping, the second one, whose lock
    comes later, finds it. *)
Lemma mapping_built_once_witness :
  let m := built demo_enforcement (a_classes demo_api) in
  exists st, run_schedule [0; 0; 0; 0; 0; 0; 0]%nat demo_start = Some st /\ m = m /\ exists l, m = built demo_enforcement l.
Proof.
  eexists. split; [vm_compute; reflexivity|].
  eapply (mapping_built_once demo_enforcement 2 _ _ 0 1).
  - eapply reachable_steps; [apply reachable_init|].
    apply (schedule_steps [0; 0; 0; 0; 0; 0; 0]%nat). vm_compute. reflexivity.
  - apply (schedule_steps [1; 1; 1; 1]%nat). vm_compute. reflexivity.
  - vm_compute. reflexivity.
  - vm_compute. reflexivity.
Defined.

(** [n] goroutines never deadlock, and no interleaving is longer than seven
    steps per goroutine: every call returns. *)
Theorem mapping_calls_return e n st k st' :
  reachable e n st ->
  ((forall i th, st.2 !! i = Some th -> exists r, th = Ret r) \/ exists st1, step st st1) /\
  (nsteps step k (mkShared None false [], replicate n (getStorageSnapshotMapping e)) st' -> (k <= 7 * n)%nat).
Proof.
  intros Hr. split; [destruct st as [s ths]; by eapply progress|].
  intros Hk. pose proof (reachable_init e n) as H0. destruct (reachable_inv _ _ _ _ H0) as (ps & Hi & Hinv).
  pose proof (nsteps_rank e n k _ _ ps st' H0 Hi Hinv Hk) as Hle.
  assert (Hlen : length ps = n) by (rewrite <- (Forall2_length _ _ _ Hi); apply length_replicate).
  assert (Hmax : forall l, (sum_list_with rank l <= 7 * length l)%nat).
  { induction l as [|p l IH]; simpl; [lia|]. destruct p; simpl; lia. }
  specialize (Hmax ps). lia.
Qed.

Lemma mapping_calls_return_witness :
  (forall i th, demo_start.2 !! i = Some th -> exists r, th = Ret r) \/ exists st1, step demo_start st1.
Proof. apply (mapping_calls_return demo_enforcement 2 demo_start 0 demo_start), reachable_init. Defined.
