(* ===== verification/Fakes.v ===== *)
(** * The fake clients

    The fake clientsets of pkg/generated (the fake packages, one file per
    resource from one template), which the tests of the driver run against.  A
    fake client turns each method into an action for an object tracker of
    client-go's testing package; the tracker is the environment.  A fake client
    gives a nil object beside an error, where the real one gives a pointer to an
    empty object.  FakeClientset.v implements the tracker; FakeStore.v says what the
    clients do over it. *)

From S2P Require Import Prelude GoStrings Errors Effects Wait Objects ClientAPI.
From S2P Require Import Clientsets Generated.
Import Kube.

(** ** Actions *)

(** The actions of client-go's testing package: [None] for the namespace in the
    [NewRoot...Action]s. *)
Inductive action (k : kind) :=
| GetAction (ns : option string) (name : string)
| ListAction (ns : option string) (labelSelector : string)
| WatchAction (ns : option string) (labelSelector : string)
| CreateAction (ns : option string) (o : object k)
| UpdateAction (ns : option string) (o : object k)
| UpdateSubresourceAction (subresource : string) (ns : option string) (o : object k)
| DeleteAction (ns : option string) (name : string)
| DeleteCollectionAction (ns : option string) (labelSelector : string)
| PatchSubresourceAction (ns : option string) (name patchType data : string) (subresources : list string).
Arguments GetAction {k} ns name.
Arguments ListAction {k} ns labelSelector.
Arguments WatchAction {k} ns labelSelector.
Arguments CreateAction {k} ns o.
Arguments UpdateAction {k} ns o.
Arguments UpdateSubresourceAction {k} subresource ns o.
Arguments DeleteAction {k} ns name.
Arguments DeleteCollectionAction {k} ns labelSelector.
Arguments PatchSubresourceAction {k} ns name patchType data subresources.

Module Fake.
Inductive operation : Type := Invokes (k : kind) (a : action k).

(** An object or a list, possibly nil, and an error. *)
Definition action_answer {k} (a : action k) : Type :=
  match a with
  | ListAction _ _ => option (list (object k)) * option error
  | WatchAction _ _ => unit + error
  | _ => option (object k) * option error
  end.

Definition answer (o : operation) : Type := match o with Invokes k a => action_answer a end.
End Fake.

Definition fakeE : signature := Signature Fake.operation Fake.answer.

Definition invokes {k} (a : action k) : prog fakeE (Fake.action_answer a) := call (E := fakeE) (Fake.Invokes k a).

(** ** The template of the fake clients *)

(** The interface again: a fake client may give a nil pointer. *)
Record FakeInterface (k : kind) := mkFakeInterface {
  f_Get : string -> prog fakeE (result (option (object k)));
  f_List : string -> prog fakeE (result (option (list (object k))));
  f_Watch : string -> prog fakeE (unit + error);
  f_Create : object k -> prog fakeE (result (option (object k)));
  f_Update : object k -> prog fakeE (result (option (object k)));
  f_UpdateStatus : option (object k -> prog fakeE (result (option (object k))));
  f_Delete : string -> prog fakeE (option error);
  f_DeleteCollection : string -> prog fakeE (option error);
  f_Patch : string -> string -> string -> list string -> prog fakeE (result (option (object k))) }.
Arguments f_Get {k} _ _.
Arguments f_List {k} _ _.
Arguments f_Watch {k} _ _.
Arguments f_Create {k} _ _.
Arguments f_Update {k} _ _.
Arguments f_UpdateStatus {k} _.
Arguments f_Delete {k} _ _.
Arguments f_DeleteCollection {k} _ _.
Arguments f_Patch {k} _ _ _ _ _.

Section Fakes.
(** The labels of an object, and [ExtractFromListOptions] of client-go: the label
    selector of the options, or nil. *)
Variable labels_of : forall k, object k -> gmap string string.
Variable ExtractFromListOptions : string -> option (gmap string string -> bool).

(** [if obj == nil { return nil, err }; return obj.( *T), err] *)
Definition fake_object {A} (r : option A * option error) : result (option A) :=
  match r.1 with None => (None, r.2) | Some obj => (Some obj, r.2) end.

(** [label, _, _ := ExtractFromListOptions(opts); if label == nil { label = labels.Everything() }] *)
Definition label_matches (labelSelector : string) : gmap string string -> bool :=
  default (fun _ => true) (ExtractFromListOptions labelSelector).

Section Methods.
Variables (k : kind) (ns : option string).

Definition fake_Get (name : string) : prog fakeE (result (option (object k))) :=
  r ← invokes (GetAction (k := k) ns name); Ret (fake_object r).

Definition fake_List (labelSelector : string) : prog fakeE (result (option (list (object k)))) :=
  '(obj, err) ← invokes (ListAction (k := k) ns labelSelector);
  match obj with
  | None => Ret (None, err)
  | Some items => Ret (Some (filter (fun item => label_matches labelSelector (labels_of k item)) items), err)
  end.

Definition fake_Watch (labelSelector : string) : prog fakeE (unit + error) :=
  invokes (WatchAction (k := k) ns labelSelector).

Definition fake_Create (o : object k) : prog fakeE (result (option (object k))) :=
  r ← invokes (CreateAction ns o); Ret (fake_object r).

Definition fake_Update (o : object k) : prog fakeE (result (option (object k))) :=
  r ← invokes (UpdateAction ns o); Ret (fake_object r).

Definition fake_UpdateStatus (o : object k) : prog fakeE (result (option (object k))) :=
  r ← invokes (UpdateSubresourceAction "status" ns o); Ret (fake_object r).

Definition fake_Delete (name : string) : prog fakeE (option error) :=
  r ← invokes (DeleteAction (k := k) ns name); Ret (snd r).

Definition fake_DeleteCollection (labelSelector : string) : prog fakeE (option error) :=
  r ← invokes (DeleteCollectionAction (k := k) ns labelSelector); Ret (snd r).

Definition fake_Patch (name patchType data : string) (subresources : list string)
    : prog fakeE (result (option (object k))) :=
  r ← invokes (PatchSubresourceAction (k := k) ns name patchType data subresources); Ret (fake_object r).

Definition fake_client (status : bool) : FakeInterface k :=
  mkFakeInterface k fake_Get fake_List fake_Watch fake_Create fake_Update (if status then Some fake_UpdateStatus else None)
    fake_Delete fake_DeleteCollection fake_Patch.
End Methods.

(** pkg/generated/kubevirt *)
Definition FakeKubeVirts (ns : string) : FakeInterface (KOther KKubeVirt) := fake_client (KOther KKubeVirt) (Some ns) true.
Definition FakeVirtualMachines (ns : string) : FakeInterface KVirtualMachine := fake_client KVirtualMachine (Some ns) true.
Definition FakeVirtualMachineInstances (ns : string) : FakeInterface KVirtualMachineInstance := fake_client KVirtualMachineInstance (Some ns) true.
Definition FakeVirtualMachineInstanceMigrations (ns : string) : FakeInterface (KOther KVirtualMachineInstanceMigration) := fake_client (KOther KVirtualMachineInstanceMigration) (Some ns) true.
Definition FakeVirtualMachineInstancePresets (ns : string) : FakeInterface (KOther KVirtualMachineInstancePreset) := fake_client (KOther KVirtualMachineInstancePreset) (Some ns) false.
Definition FakeVirtualMachineInstanceReplicaSets (ns : string) : FakeInterface (KOther KVirtualMachineInstanceReplicaSet) := fake_client (KOther KVirtualMachineInstanceReplicaSet) (Some ns) true.

(** pkg/generated/containerized-data-importer *)
Definition FakeDataVolumes (ns : string) : FakeInterface KDataVolume := fake_client KDataVolume (Some ns) true.
Definition FakeDataImportCrons (ns : string) : FakeInterface (KOther KDataImportCron) := fake_client (KOther KDataImportCron) (Some ns) true.
Definition FakeDataSources (ns : string) : FakeInterface (KOther KDataSource) := fake_client (KOther KDataSource) (Some ns) true.
Definition FakeVolumeImportSources (ns : string) : FakeInterface (KOther KVolumeImportSource) := fake_client (KOther KVolumeImportSource) (Some ns) true.
Definition FakeVolumeUploadSources (ns : string) : FakeInterface (KOther KVolumeUploadSource) := fake_client (KOther KVolumeUploadSource) (Some ns) true.
Definition FakeVolumeCloneSources (ns : string) : FakeInterface (KOther KVolumeCloneSource) := fake_client (KOther KVolumeCloneSource) (Some ns) false.
Definition FakeCDIs : FakeInterface (KOther KCDI) := fake_client (KOther KCDI) None true.
Definition FakeCDIConfigs : FakeInterface (KOther KCDIConfig) := fake_client (KOther KCDIConfig) None true.
Definition FakeObjectTransfers : FakeInterface (KOther KObjectTransfer) := fake_client (KOther KObjectTransfer) None true.
Definition FakeStorageProfiles : FakeInterface (KOther KStorageProfile) := fake_client (KOther KStorageProfile) None true.

(** pkg/generated/external-snapshotter *)
Definition FakeVolumeSnapshots (ns : string) : FakeInterface KVolumeSnapshot := fake_client KVolumeSnapshot (Some ns) true.
Definition FakeVolumeSnapshotClasses : FakeInterface KVolumeSnapshotClass := fake_client KVolumeSnapshotClass None false.
Definition FakeVolumeSnapshotContents : FakeInterface (KOther KVolumeSnapshotContent) := fake_client (KOther KVolumeSnapshotContent) None true.

(** fake_core_client.go, fake_volumesnapshot_client.go *)
Definition FakeKubevirtV1 : KubevirtV1Interface FakeInterface :=
  mkKubevirtV1Interface FakeInterface FakeKubeVirts FakeVirtualMachines FakeVirtualMachineInstances FakeVirtualMachineInstanceMigrations FakeVirtualMachineInstancePresets FakeVirtualMachineInstanceReplicaSets.
Definition FakeCdiV1beta1 : CdiV1beta1Interface FakeInterface :=
  mkCdiV1beta1Interface FakeInterface FakeCDIs FakeCDIConfigs FakeDataImportCrons FakeDataSources FakeDataVolumes FakeObjectTransfers FakeStorageProfiles FakeVolumeCloneSources FakeVolumeImportSources FakeVolumeUploadSources.
Definition FakeSnapshotV1 : SnapshotV1Interface FakeInterface :=
  mkSnapshotV1Interface FakeInterface FakeVolumeSnapshots FakeVolumeSnapshotClasses FakeVolumeSnapshotContents.
End Fakes.
