(* ===== verification/Ownership.v ===== *)
(** * What the infra client may change

    Whatever program runs against the real client, the requests that change the
    clusters are those of [kubeAllowed]: only volumes and snapshots this driver
    owns (its label set, its name prefix), claims that only grow, and hot-plug
    requests.  The tenant cluster is only read. *)

From S2P Require Import Prelude GoStrings Errors Effects Wait Objects Csi Util.
From S2P Require Import ClientAPI Controller Volumes Clientsets Labels SnapshotClass KubeClient Fixtures ApiServer.
Import Kube.

(** ** The requests of the typed clients *)

Definition getRequest (k : kind) (ns : option string) (name : string) : Request k :=
  mkRequest GET ns (resource k) (Some name) [] "" NoBody.
Definition createRequest (k : kind) (ns : option string) (o : object k) : Request k :=
  mkRequest POST ns (resource k) None [] "" (ObjectBody o).
Definition deleteRequest (k : kind) (ns : option string) (name : string) : Request k :=
  mkRequest DELETE ns (resource k) (Some name) [] "" OptionsBody.
Definition patchRequest (k : kind) (ns : option string) (name data : string) : Request k :=
  mkRequest (PATCH "application/json-patch+json") ns (resource k) (Some name) [] "" (BytesBody data).

(** The object of that name was read, at some point or by the last request. *)
Definition got (k : kind) (ns : option string) (name : string) (o : object k) (t : trace kubeE) : Prop :=
  Ev (E := kubeE) (Do Infra k (getRequest k ns name)) (inl o) ∈ t.
Definition just_got (k : kind) (ns : option string) (name : string) (o : object k) (t : trace kubeE) : Prop :=
  last t = Some (Ev (E := kubeE) (Do Infra k (getRequest k ns name)) (inl o)).

Lemma got_snoc k ns name o t : got k ns name o (t ++ [Ev (E := kubeE) (Do Infra k (getRequest k ns name)) (inl o)]).
Proof. unfold got. set_solver. Qed.

Lemma got_app k ns name o t e : got k ns name o t -> got k ns name o (t ++ [e]).
Proof. unfold got. set_solver. Qed.

Lemma got_prefix k ns name o t t' : t `prefix_of` t' -> got k ns name o t -> got k ns name o t'.
Proof. unfold got. intros [l ->]. set_solver. Qed.

Lemma just_got_snoc k ns name o t :
  just_got k ns name o (t ++ [Ev (E := kubeE) (Do Infra k (getRequest k ns name)) (inl o)]).
Proof. apply last_snoc. Qed.

#[export] Hint Resolve got_snoc got_app just_got_snoc : go.

Section Client.
Variable c : client.

Definition ownedDataVolume (dv : DataVolume) : Prop := ownedVolume c (dv_Labels dv) (dv_Name dv) = true.
Definition ownedClaim (pvc : PersistentVolumeClaim) : Prop := ownedVolume c (pvc_Labels pvc) (pvc_Name pvc) = true.
Definition ownedSnapshot (s : VolumeSnapshot) : Prop := containsLabels (snap_Labels s) (infraLabelMap c) = true.

(** Requests that create. *)
Definition createAllowed (k : kind) (t : trace kubeE) : Request k -> Prop :=
  match k with
  | KDataVolume => fun r => exists ns d,
      r = createRequest KDataVolume (Some ns) d /\ HasPrefix (dv_Name d) (volumePrefix c) = true
  | KVolumeSnapshot => fun r => exists ns name claim class dv,
      r = createRequest KVolumeSnapshot (Some ns) (newVolumeSnapshot c ns name claim class) /\
      got KDataVolume (Some ns) claim dv t /\ ownedDataVolume dv
  | _ => fun _ => False
  end.

(** Requests that patch: an owned claim just read, to a larger size. *)
Definition patchAllowed (k : kind) (t : trace kubeE) : Request k -> Prop :=
  match k with
  | KPersistentVolumeClaim => fun r => exists ns claim pvc size,
      r = patchRequest KPersistentVolumeClaim (Some ns) claim (patchData size) /\
      just_got KPersistentVolumeClaim (Some ns) claim pvc t /\ ownedClaim pvc /\
      Cmp (storage_of (pvc_Requests pvc)) (NewQuantity size) = Lt
  | _ => fun _ => False
  end.

(** Requests that delete: an owned object just read, by the name it has. *)
Definition deleteAllowed (k : kind) (t : trace kubeE) : Request k -> Prop :=
  match k with
  | KDataVolume => fun r => exists ns name dv,
      r = deleteRequest KDataVolume (Some ns) (dv_Name dv) /\
      just_got KDataVolume (Some ns) name dv t /\ ownedDataVolume dv
  | KVolumeSnapshot => fun r => exists ns name s,
      r = deleteRequest KVolumeSnapshot (Some (snap_Namespace s)) (snap_Name s) /\
      just_got KVolumeSnapshot (Some ns) name s t /\ ownedSnapshot s
  | _ => fun _ => False
  end.

Definition kubeAllowed (t : trace kubeE) (o : op kubeE) : Prop :=
  match o with
  | Do s k r =>
      s = Infra /\
      match rq_verb r with
      | GET => True
      | POST => createAllowed k t r
      | PATCH _ => patchAllowed k t r
      | PUT | DELETE => False
      end
  | DoList s k r => rq_verb r = GET /\ (s = Tenant -> k = KVolumeSnapshotClass)
  | DoError s k r => s = Infra /\ deleteAllowed k t r
  | DoWatch _ _ _ => False
  | PutAbsPath uri json => exists ns vmName,
      match json with
      | AddJSON _ => uri = vmSubresourceURL ApiStorageVersion ns vmName "addvolume"
      | RemoveJSON _ => uri = vmSubresourceURL ApiStorageVersion ns vmName "removevolume" \/
                        uri = vmiSubresourceURL ApiStorageVersion ns vmName "removevolume"
      end
  | _ => True
  end.
End Client.

(** Reduction of a program of the infra client under [wp]. *)
Ltac ksimpl := cbn [bind wp wp_then pre post guard any is_nil negb deref call kube andb orb fst snd Into
  i_Get i_List i_Create i_Delete i_Patch Get List Create Delete Patch
  typed_client VirtualMachines VirtualMachineInstances DataVolumes VolumeSnapshots VolumeSnapshotClasses
  PersistentVolumeClaims PersistentVolumes
  NewRequest Namespace Resource Name SubResource LabelSelector Body
  rq_verb rq_namespace rq_resource rq_name rq_subresource rq_labelSelector rq_body] in *.

(** The answer to a request, by case. *)
Ltac ask H := split; [|intros [H|H] _; ksimpl].

Section Methods.
Variable c : client.
Notation G := (guard (kubeAllowed c)).

(** A volume that the client hands out was just read and is owned. *)
Lemma wp_GetDataVolume ns name t :
  wp G (GetDataVolume c ns name) t (fun t' o => match o with
    | Val (Some dv, None) => just_got KDataVolume (Some ns) name dv t' /\ got KDataVolume (Some ns) name dv t' /\
        ownedDataVolume c dv
    | Val (Some _, Some _) | Val (None, None) | Panicked _ => False
    | Val (None, Some _) => True
    end).
Proof.
  unfold GetDataVolume. ksimpl. split; [done|]. intros [dv|e] _; ksimpl; [|done].
  destruct (negb _ || negb _) eqn:Ho; [done|]. ksimpl. apply orb_false_iff in Ho as [H1 H2].
  split; [apply just_got_snoc|]. split; [apply got_snoc|].
  apply negb_false_iff in H1, H2. unfold ownedDataVolume, ownedVolume. by rewrite H1, H2.
Qed.

Lemma wp_GetPersistentVolumeClaim ns name t :
  wp G (GetPersistentVolumeClaim c ns name) t (fun t' o => match o with
    | Val (Some pvc, None) => just_got KPersistentVolumeClaim (Some ns) name pvc t' /\ ownedClaim c pvc
    | Val (Some _, Some _) | Val (None, None) | Panicked _ => False
    | Val (None, Some _) => True
    end).
Proof.
  unfold GetPersistentVolumeClaim. ksimpl. split; [done|]. intros [pvc|e] _; ksimpl; [|done].
  destruct (negb _ || negb _) eqn:Ho; [done|]. ksimpl. apply orb_false_iff in Ho as [H1 H2].
  split; [apply just_got_snoc|]. apply negb_false_iff in H1, H2.
  unfold ownedClaim, ownedVolume. by rewrite H1, H2.
Qed.

Lemma wp_GetVolumeSnapshot ns name t :
  wp G (GetVolumeSnapshot c ns name) t (fun t' o => match o with
    | Val (Some s, None) => just_got KVolumeSnapshot (Some ns) name s t' /\ ownedSnapshot c s
    | Val (Some _, Some _) | Val (None, None) | Panicked _ => False
    | Val (None, Some _) => True
    end).
Proof.
  unfold GetVolumeSnapshot. ksimpl. split; [done|]. intros [s|e] _; ksimpl; [|done].
  destruct (negb (containsLabels _ _)) eqn:Ho; [done|]. ksimpl. apply negb_false_iff in Ho.
  split; [apply just_got_snoc|done].
Qed.

(** A poll whose condition is allowed is allowed. *)
Lemma wp_poll_allowed interval timeout cond t :
  (forall t, wp G cond t (fun _ _ => True)) ->
  wp G (PollUntilContextTimeout kube_window interval timeout true cond) t (fun _ _ => True).
Proof.
  intros Hc. apply wp_poll with (I := fun _ => True).
  - split; [done|]. by intros [n e] _.
  - intros t' _. eapply wp_mono; [|apply Hc]. intros t'' [[ok err]|m] _; [|done]. by destruct (_ || ok).
Qed.

Lemma wp_EnsureVolumeRemovedVM_allowed ns vm v t : wp G (EnsureVolumeRemovedVM ns vm v) t (fun _ _ => True).
Proof.
  unfold EnsureVolumeRemovedVM. ksimpl. split; [done|]. intros [x|e] _; ksimpl.
  - destruct (vm_Template x); by ksimpl.
  - by destruct (IsNotFound (Some e)).
Qed.

Lemma wp_EnsureVolumeAvailableVM_allowed ns vm v t : wp G (EnsureVolumeAvailableVM ns vm v) t (fun _ _ => True).
Proof.
  unfold EnsureVolumeAvailableVM. ksimpl. split; [done|]. intros [x|e] _; ksimpl.
  - destruct (vm_Template x); by ksimpl.
  - by destruct (IsNotFound (Some e)).
Qed.

Lemma wp_volumeAvailable_allowed ns vm v t : wp G (volumeAvailable ns vm v) t (fun _ _ => True).
Proof.
  unfold volumeAvailable, GetVirtualMachine. ksimpl. split; [done|]. intros [x|e] _; ksimpl; [|done].
  destruct (existsb _ _); [apply wp_EnsureVolumeAvailableVM_allowed|done].
Qed.

Lemma wp_volumeRemoved_allowed ns vm v t : wp G (volumeRemoved ns vm v) t (fun _ _ => True).
Proof.
  unfold volumeRemoved, GetVirtualMachine. ksimpl. split; [done|]. intros [x|e] _; ksimpl.
  - destruct (existsb _ _); [done|apply wp_EnsureVolumeRemovedVM_allowed].
  - destruct (IsNotFound (Some e)); ksimpl; [apply wp_EnsureVolumeRemovedVM_allowed|done].
Qed.

Lemma wp_snapshotReady_allowed ns name t : wp G (snapshotReady c ns name) t (fun _ _ => True).
Proof.
  unfold snapshotReady. apply wp_bind. eapply wp_mono; [|apply wp_GetVolumeSnapshot].
  intros t' [[[s|] [e|]]|m]; ksimpl; try done. intros _. by destruct (snap_Status s) as [[[r|] q]|].
Qed.

Lemma wp_controllerResized_allowed pvc t : wp G (controllerResized pvc) t (fun _ _ => True).
Proof.
  unfold controllerResized. ksimpl. split; [done|]. intros [pv|e] _; ksimpl; [|done].
  by destruct (Cmp _ _).
Qed.

Lemma wp_getStorageSnapshotMapping_allowed e t : wp G (getStorageSnapshotMapping e) t (fun _ _ => True).
Proof.
  unfold getStorageSnapshotMapping, buildStorageClassSnapshotClassMapping. ksimpl.
  split; [done|]. intros [] _. split; [done|]. intros populated _.
  destruct populated; ksimpl.
  - split; [done|]. intros m _. by split.
  - split; [done|]. intros [l|err] _; ksimpl; [|by split].
    repeat (split; [done|]; intros ? _). by split.
Qed.

Lemma wp_getInfraClasses_allowed e class t :
  wp G (getInfraSnapshotClassesFromInfraStorageClassName e class) t (fun _ _ => True).
Proof.
  apply wp_bind. eapply wp_mono; [|apply wp_getStorageSnapshotMapping_allowed].
  intros t' [[m err]|m] _; ksimpl; [|done]. destruct err; ksimpl; [done|]. by destruct (mappingOf class m).
Qed.

Lemma wp_getTenantClasses_allowed e class t :
  wp G (getTenantSnapshotClassesFromInfraStorageClassName e class) t (fun _ _ => True).
Proof.
  apply wp_bind. eapply wp_mono; [|apply wp_getStorageSnapshotMapping_allowed].
  intros t' [[m err]|m] _; ksimpl; [|done]. destruct err; ksimpl; [done|]. by destruct (mappingOf class m).
Qed.

Lemma wp_snapshotClassName_allowed e ns claim class t :
  wp G (getSnapshotClassNameFromVolumeClaimName e ns claim class) t (fun _ _ => True).
Proof.
  unfold getSnapshotClassNameFromVolumeClaimName, getStorageClassNameFromClaimName. ksimpl.
  split; [done|]. intros [pvc|err] _; ksimpl; [|done]. destruct (AllowDefault e); ksimpl; [done|].
  destruct (_ =s? ""); ksimpl; [done|]. destruct (negb (Contains _ _) && _); ksimpl; [done|].
  apply wp_bind. eapply wp_mono; [|apply wp_getInfraClasses_allowed].
  intros t' [[classes err]|m] _; ksimpl; [|done]. destruct err; ksimpl; [done|].
  destruct (Contains classes class); ksimpl; [done|]. destruct (AllowAll e); ksimpl; [done|].
  apply wp_bind. eapply wp_mono; [|apply wp_getTenantClasses_allowed].
  intros t'' [[tenant err]|m] _; ksimpl; [|done]. destruct err; ksimpl; [done|].
  destruct (Nat.ltb _ _); [|done]. by destruct (class =s? "").
Qed.

(** Every method of the real client keeps to [kubeAllowed]. *)
Lemma wp_CreateVolumeSnapshot_allowed ns name claim class t :
  wp G (CreateVolumeSnapshot c ns name claim class) t (fun _ _ => True).
Proof.
  unfold CreateVolumeSnapshot. apply wp_bind. eapply wp_mono; [|apply wp_GetDataVolume].
  intros t' [[[dv|] [e|]]|m]; ksimpl; try done. intros (_ & Hgot & Ho).
  apply wp_bind. eapply wp_mono; [|apply wp_prefix, wp_snapshotClassName_allowed].
  intros t'' [[cls err]|m] [Hpre _]; ksimpl; [|done]. destruct err; ksimpl; [done|].
  split.
  - split; [done|]. do 5 eexists. split; [done|]. split; [|exact Ho]. by eapply got_prefix.
  - by intros [s|e] _.
Qed.

Lemma wp_ExpandPersistentVolumeClaim_allowed ns claim size t :
  wp G (ExpandPersistentVolumeClaim c ns claim size) t (fun _ _ => True).
Proof.
  unfold ExpandPersistentVolumeClaim. apply wp_bind. eapply wp_mono; [|apply wp_GetPersistentVolumeClaim].
  intros t' [[[pvc|] [e|]]|m]; ksimpl; try done. intros (Hgot & Ho).
  destruct (Cmp _ _) eqn:Hc; [done| |done]. ksimpl. split.
  - split; [done|]. do 4 eexists. split; [done|]. split; [exact Hgot|]. by split.
  - by intros [x|e] _.
Qed.

Lemma wp_DeleteDataVolume_allowed ns name t : wp G (DeleteDataVolume c ns name) t (fun _ _ => True).
Proof.
  unfold DeleteDataVolume. apply wp_bind. eapply wp_mono; [|apply wp_GetDataVolume].
  intros t' [[[dv|] [e|]]|m]; ksimpl; try done.
  - intros (Hgot & _ & Ho). split; [|done]. split; [done|]. do 3 eexists. split; [done|]. by split.
  - intros _. by destruct (IsNotFound (Some e)).
Qed.

Lemma wp_DeleteVolumeSnapshot_allowed ns name t : wp G (DeleteVolumeSnapshot c ns name) t (fun _ _ => True).
Proof.
  unfold DeleteVolumeSnapshot. apply wp_bind. eapply wp_mono; [|apply wp_GetVolumeSnapshot].
  intros t' [[[s|] [e|]]|m]; ksimpl; try done.
  - intros (Hgot & Ho). split; [|done]. split; [done|]. do 3 eexists. split; [done|]. by split.
  - intros _. by destruct (IsNotFound (Some e)).
Qed.

Lemma wp_implementation_allowed m t : wp G (implementation c m) t (fun _ _ => True).
Proof.
  destruct m; cbn [implementation].
  - by split.
  - unfold KubeClient.ListVirtualMachines. ksimpl. split; [done|]. by intros [l|e] _.
  - unfold KubeClient.GetVirtualMachine. ksimpl. split; [done|]. by intros [l|e] _.
  - unfold KubeClient.GetWorkloadManagingVirtualMachine. ksimpl. split; [done|]. by intros [l|e] _.
  - apply wp_DeleteDataVolume_allowed.
  - unfold CreateDataVolume. destruct (HasPrefix _ _) eqn:Hp; ksimpl; [|done].
    split; [|by intros [d|e] _]. split; [done|]. do 2 eexists. by split.
  - eapply wp_mono; [|apply wp_GetDataVolume]. done.
  - eapply wp_mono; [|apply wp_GetPersistentVolumeClaim]. done.
  - apply wp_ExpandPersistentVolumeClaim_allowed.
  - split; [|done]. do 2 eexists. done.
  - split; [|done]. do 2 eexists. by left.
  - split; [|done]. do 2 eexists. by right.
  - apply wp_poll_allowed. intros. apply wp_volumeAvailable_allowed.
  - apply wp_EnsureVolumeAvailableVM_allowed.
  - apply wp_poll_allowed. intros. apply wp_volumeRemoved_allowed.
  - apply wp_EnsureVolumeRemovedVM_allowed.
  - unfold EnsureVolumeRemovedVMI. ksimpl. split; [done|]. intros [l|e] _; ksimpl; [done|].
    by destruct (IsNotFound (Some e)).
  - apply wp_poll_allowed. intros. apply wp_snapshotReady_allowed.
  - unfold EnsureControllerResize. apply wp_bind. eapply wp_mono; [|apply wp_GetPersistentVolumeClaim].
    intros t' [[[pvc|] [e|]]|m]; ksimpl; try done. intros _.
    apply wp_poll_allowed. intros. apply wp_controllerResized_allowed.
  - apply wp_CreateVolumeSnapshot_allowed.
  - eapply wp_mono; [|apply wp_GetVolumeSnapshot]. done.
  - apply wp_DeleteVolumeSnapshot_allowed.
  - unfold ListVolumeSnapshots. destruct (ValidatedSelectorFromSet _); [|done]. ksimpl.
    split; [done|]. by intros [l'|e] _.
  - by split.
Qed.

(** So does every program run against it. *)
Lemma wp_interp_allowed {A} (p : prog clientE A) t :
  wp G (interp (implementation c) p) t (fun _ _ => True).
Proof.
  eapply wp_mono; [|apply (wp_interp any G (fun _ _ => True) (fun _ => True)
    (implementation c) p [] t (fun _ _ => True))]; [done| |done|].
  - intros o t1 t0 _ _. eapply wp_mono; [|apply wp_implementation_allowed]. by intros t' [r|m] _.
  - clear. generalize (@nil (event clientE)). induction p as [a|m|o k IH]; intros t1; simpl; [done..|].
    split; [done|]. intros r _. apply IH.
Qed.
End Methods.

(** ** Properties *)


Definition demo_client : client := NewClient demo_labels (mkStorageClassEnforcement [] true true []) "pvc".
Definition demo_controller : ControllerService :=
  NewControllerService "infra" demo_labels (mkStorageClassEnforcement [] true true []).

Definition demo_delete_trace : trace kubeE :=
  run_trace (exec api_server (interp (implementation demo_client)
    (DeleteVolume demo_controller (Some (mkDeleteVolumeRequest "pvc-1")))) demo_api []).

