(* ===== verification/Creates.v ===== *)
(** * Concurrent creates

    Any number of CreateVolume RPCs at once, through the real client, over an API
    server that keeps DataVolumes by name: creates of one name that succeed answer
    one volume.  Nothing in the driver orders them (it has no locks); what does is
    that a DataVolume is made by one request, which the API server refuses when
    the name is taken. *)

From S2P Require Import Prelude GoStrings Errors Effects Goroutines Rely Wait Objects Csi Util.
From S2P Require Import ClientAPI Controller Volumes Clientsets Labels SnapshotClass KubeClient Fixtures ApiServer Ownership.
Import Kube.

(** ** The API server *)

(** What stays of a DataVolume while it exists. *)
Definition same_volume (d d' : DataVolume) : Prop := dv_UID d' = dv_UID d /\ dv_Storage d' = dv_Storage d.

(** The requests that leave the DataVolumes that exist as they are. *)
Definition spares (o : op kubeE) : Prop :=
  match o with
  | Do _ KDataVolume r => match rq_verb r with GET | POST => True | _ => False end
  | DoError _ KDataVolume _ => False
  | _ => True
  end.

Section Keeps.
Context {W : Type} (dvs : W -> gmap string DataVolume).

Definition keeps (w w' : W) : Prop :=
  forall n d, dvs w !! n = Some d -> exists d', dvs w' !! n = Some d' /\ same_volume d d'.

#[export] Instance keeps_preorder : PreOrder keeps.
Proof.
  split; [intros w n d H; by exists d|]. intros w1 w2 w3 H1 H2 n d (d2 & H & Hs)%H1.
  destruct (H2 n d2 H) as (d3 & H' & Hs'). exists d3. split; [done|]. unfold same_volume in *. intuition congruence.
Qed.

(** There is a DataVolume of that name that is still [d]. *)
Definition at_volume (n : string) (d : DataVolume) (w : W) : Prop := exists d', dvs w !! n = Some d' /\ same_volume d d'.

Lemma at_volume_keeps n d w w' : keeps w w' -> at_volume n d w -> at_volume n d w'.
Proof.
  intros Hk (d1 & H1 & Hs1). destruct (Hk n d1 H1) as (d2 & H2 & Hs2). exists d2. split; [done|].
  unfold same_volume in *. intuition congruence.
Qed.
End Keeps.

(** An API server for the DataVolumes [dvs] of the namespace: it answers a read
    from them; it makes one only under a name that is free, of the storage asked
    for; and only requests to change or delete DataVolumes do so. *)
Class DataVolumeServer {W} (env : environment kubeE W) (ns : string) (dvs : W -> gmap string DataVolume) : Prop := {
  server_spares o w r w' : spares o -> env o w r w' -> keeps dvs w w';
  server_get n w d w' :
    env (Do Infra KDataVolume (getRequest KDataVolume (Some ns) n)) w (inl d) w' -> dvs w' !! n = Some d;
  server_post d w d' w' :
    env (Do Infra KDataVolume (createRequest KDataVolume (Some ns) d)) w (inl d') w' ->
    dvs w !! dv_Name d = None /\ dvs w' !! dv_Name d = Some d' /\ dv_Storage d' = dv_Storage d }.

Section Creates.
Context {W : Type} {env : environment kubeE W} {ns : string} {dvs : W -> gmap string DataVolume}.
Context {server : DataVolumeServer env ns dvs}.
Variables (cl : client) (c : ControllerService).
Hypothesis in_ns : infraClusterNamespace c = ns.

(** What the calls of a create promise. *)
Definition promise (o : op clientE) : resp o -> W -> Prop :=
  match o as o' return Client.answer o' -> W -> Prop with
  | Client.GetDataVolume ns' n => fun r w =>
      r <> (None, None) /\ (ns' = ns -> forall d, r = (Some d, None) -> at_volume dvs n d w)
  | Client.CreateDataVolume ns' d => fun r w => ns' = ns -> forall d', r = (Some d', None) ->
      at_volume dvs (dv_Name d) d' w /\ dv_Storage d' = dv_Storage d
  | _ => fun _ _ => True
  end.

Definition create_call (o : op clientE) : Prop :=
  match o with
  | Client.GetDataVolume _ _ | Client.CreateDataVolume _ _ | Client.GetVolumeSnapshot _ _ => True
  | _ => False
  end.

Lemma at_volume_here n d w w' : dvs w !! n = Some d -> keeps dvs w w' -> at_volume dvs n d w'.
Proof. intros H Hk. exact (Hk n d H). Qed.

Lemma spared o w r w' : spares o -> env o w r w' -> keeps dvs w w'.
Proof using server. apply server_spares. Qed.

Lemma promises_kept o w : create_call o ->
  wpc (keeps dvs) (keeps dvs) env (implementation cl o) (fun out w' => match out with Val r => promise o r w' | Panicked _ => True end) w.
Proof using server.
  destruct o; try done; intros _; simpl.
  - unfold CreateDataVolume. destruct (negb _); [done|]. cbn. intros w1 r w2 _ He.
    split; [by apply spared in He|]. destruct r as [d|e]; [|done].
    cbn. intros w3 H3 -> d' [= <-]. apply server_post in He as (_ & Hd & Hst). split; [|done]. by eapply at_volume_here.
  - unfold GetDataVolume. cbn. intros w1 r w2 _ He. split; [by apply spared in He|].
    destruct r as [d|e]; [|done]. cbn. case_match; [done|].
    cbn. intros w3 H3. split; [done|]. intros -> d' [= <-]. apply server_get in He. by eapply at_volume_here.
  - unfold GetVolumeSnapshot. cbn. intros w1 r w2 _ He. split; [by apply spared in He|].
    destruct r; cbn; repeat case_match; cbn; done.
Qed.

(** A create that answered success. *)
Definition answers_volume (req : CreateVolumeRequest) (resp : CreateVolumeResponse) (w : W) : Prop :=
  exists d, at_volume dvs (cv_Name req) d w /\
    match dv_Storage d with
    | Some st => Cmp (NewQuantity (GetRequiredBytes (cv_CapacityRange req))) (storage_of (st_Requests st)) = Eq /\
        resp = createResponse req (dv_UID d)
    | None => resp = createResponse req ""
    end.

Definition created (req : CreateVolumeRequest) (out : outcome (result (option CreateVolumeResponse))) (w : W) : Prop :=
  match out with Val (Some resp, None) => answers_volume req resp w | _ => True end.

Lemma determineDvSource_calls req : only create_call (determineDvSource c req).
Proof.
  unfold determineDvSource. destruct (cv_VolumeContentSource req) as [[[[]|]]|]; try done.
  - split; [done|]. intros [snapshot err]. cbn. repeat case_match; done.
  - split; [done|]. intros [volume err]. cbn. repeat case_match; done.
Qed.

Lemma CreateVolume_calls req : only create_call (CreateVolume c (Some req)).
Proof.
  unfold CreateVolume. destruct (validateCreateVolumeRequest c (Some req)) as [isRWX [e|]]; [done|]. cbn [is_nil negb deref bind].
  apply only_bind; [apply determineDvSource_calls|]. intros [source [e|]]; [done|]. cbn [is_nil negb].
  destruct source as [source|]; [|done]. cbn [deref bind]. split; [done|]. intros [existing err]. cbn [bind].
  destruct (IsNotFound err); [split; [done|]; intros [[dv|] [e|]]; done|].
  destruct (negb (is_nil err)); [done|]. repeat case_match; done.
Qed.

Lemma newDataVolume_Storage req source isRWX : exists st, dv_Storage (newDataVolume c req source isRWX) = Some st /\
  storage_of (st_Requests st) = NewQuantity (GetRequiredBytes (cv_CapacityRange req)) /\
  dv_Name (newDataVolume c req source isRWX) = cv_Name req.
Proof. unfold newDataVolume. destruct (src_PVC source); eexists; (split; [reflexivity|]); done. Qed.

Lemma wpc_CreateVolume req w :
  wpc (keeps dvs) (keeps dvs) (promised (keeps dvs) promise) (CreateVolume c (Some req)) (created req) w.
Proof using server in_ns.
  unfold CreateVolume. destruct (validateCreateVolumeRequest c (Some req)) as [isRWX [e|]]; [done|]. cbn [is_nil negb deref bind].
  apply wpc_bind; [apply _|]. eapply wpc_mono.
  2:{ apply (wpc_only _ _ _ (fun _ => True)); [by intros ? ? ? ? _ []|]. clear. unfold determineDvSource.
      destruct (cv_VolumeContentSource req) as [[[[]|]]|]; simpl; try done; split; try done; intros []; repeat case_match; done. }
  intros [[source [e|]]|m] w1 _; [done| |done]. cbn [is_nil negb].
  destruct source as [source|]; [|done]. cbn [deref bind]. intros w2 [existing err] w3 _ [H3 [Hne Hget]]. split; [done|].
  cbn [bind]. destruct (IsNotFound err).
  - intros w4 [dv err'] w5 _ [H5 Hpost]. split; [done|]. cbn in Hpost. destruct err' as [e|]; [done|]. cbn [is_nil negb].
    destruct dv as [dv|]; [|done]. cbn. intros w6 H6. destruct (Hpost in_ns dv eq_refl) as [Hat Hst].
    destruct (newDataVolume_Storage req source isRWX) as (st & Hst' & Hq & Hn). rewrite Hn in Hat. rewrite Hst' in Hst.
    exists dv. split; [by eapply at_volume_keeps|]. rewrite Hst, Hq. split; [by rewrite Cmp_refl|done].
  - destruct err as [e|]; [done|]. cbn [is_nil negb]. destruct existing as [d|].
    + specialize (Hget in_ns d eq_refl). destruct d as [dn dns duid dl da [st|] ds]; cbn.
      * rewrite NewScaledQuantity_0. destruct (Cmp _ _) eqn:Hc; cbn; try done. intros w4 H4.
        exists (mkDataVolume dn dns duid dl da (Some st) ds). split; [by eapply at_volume_keeps|]. done.
      * intros w4 H4. exists (mkDataVolume dn dns duid dl da None ds). split; [by eapply at_volume_keeps|].
        cbn. by rewrite newDataVolume_UID.
    + by destruct Hne.
Qed.
End Creates.
Arguments answers_volume {W} dvs req resp w.
Arguments created {W} dvs req out w.
Arguments promise {W} ns dvs o _ _.

(** The serial number that a create answers. *)
Definition answered_serial (resp : CreateVolumeResponse) : string := mapget (v_VolumeContext (cvr_Volume resp)) serialParameter.

Lemma answered_serial_createResponse req serial : answered_serial (createResponse req serial) = serial.
Proof.
  unfold answered_serial, createResponse, mapget. cbn [cvr_Volume v_VolumeContext].
  by rewrite lookup_insert_ne, lookup_singleton_eq by done.
Qed.

(** Two answers about one volume. *)
Lemma answers_agree {W} (dvs : W -> gmap string DataVolume) r1 r2 a1 a2 w :
  answers_volume dvs r1 a1 w -> answers_volume dvs r2 a2 w -> cv_Name r1 = cv_Name r2 ->
  answered_serial a1 = answered_serial a2 /\
  (answered_serial a1 <> "" -> v_CapacityBytes (cvr_Volume a1) = v_CapacityBytes (cvr_Volume a2)).
Proof.
  intros (d1 & (d & Hd & Hu1 & Hs1) & H1) (d2 & (d' & Hd' & Hu2 & Hs2) & H2) Hn. rewrite Hn, Hd' in Hd. injection Hd as <-.
  rewrite <- Hs1 in H1. rewrite <- Hs2 in H2. destruct (dv_Storage d') as [st|].
  - destruct H1 as [Hc1 ->], H2 as [Hc2 ->]. rewrite !answered_serial_createResponse. split; [congruence|]. intros _. cbn.
    by eapply Cmp_NewQuantity_inj.
  - subst. by rewrite !answered_serial_createResponse.
Qed.

(** C5: creates of one name agree, however they interleave.  Any number of
    CreateVolume RPCs run at once through the real client, with other goroutines
    that do not change or delete DataVolumes, over an API server that makes no
    DataVolume under a name that is taken; some may be cut off anywhere.  Every
    create that answers success answers the DataVolume that the cluster has under
    the name, with the size asked for and its UID; so two of them with the same
    name answer the same serial number and, unless that is empty, the same
    size. *)
Theorem concurrent_creates_agree {W} (env : environment kubeE W) ns dvs `{!DataVolumeServer env ns dvs} cl c reqs others w w' ths :
  infraClusterNamespace c = ns -> (forall p, p ∈ others -> only spares p) ->
  rtc (step (fun _ => env))
    (w, map (fun r => interp (implementation cl) (CreateVolume c (Some r))) reqs ++ others) (w', ths) ->
  (forall i req resp, reqs !! i = Some req -> ths !! i = Some (Ret (Some resp, None)) -> answers_volume dvs req resp w') /\
  (forall i j ri rj ai aj, reqs !! i = Some ri -> reqs !! j = Some rj ->
     ths !! i = Some (Ret (Some ai, None)) -> ths !! j = Some (Ret (Some aj, None)) -> cv_Name ri = cv_Name rj ->
     answered_serial ai = answered_serial aj /\
     (answered_serial ai <> "" -> v_CapacityBytes (cvr_Volume ai) = v_CapacityBytes (cvr_Volume aj))).
Proof.
  intros <- Ho Hs.
  set (Q := fun i out w => match reqs !! i with Some req => created dvs req out w | None => True end).
  assert (H : accompanied env (fun _ => keeps dvs) (fun _ => keeps dvs) Q w' ths).
  { eapply interleaved; [by intros; apply _|done| |exact Hs].
    intros i p Hp. unfold Q. apply lookup_app_Some in Hp as [Hp|[Hlen Hp]].
    + rewrite list_lookup_fmap in Hp. destruct (reqs !! i) as [req|] eqn:Hi; simplify_eq/=.
      apply (wpc_interp env (implementation cl) (keeps dvs) (promise (infraClusterNamespace c) dvs) create_call);
        [by intros; apply promises_kept|apply CreateVolume_calls|done|by apply wpc_CreateVolume].
    + rewrite length_map in Hlen. rewrite (lookup_ge_None_2 reqs i) by done.
      apply list_elem_of_lookup_2, Ho in Hp. by apply (wpc_only _ _ _ spares); [intros; eapply server_spares|]. }
  assert (Ha : forall i req resp, reqs !! i = Some req -> ths !! i = Some (Ret (Some resp, None)) ->
      answers_volume dvs req resp w') by (intros i req resp Hi Ht; pose proof (accompanied_result env _ _ (fun _ => keeps_preorder dvs) Q _ _ i _ H Ht) as HQ; unfold Q in HQ; by rewrite Hi in HQ).
  split; [done|]. intros i j ri rj ai aj Hi Hj Hti Htj. by apply (answers_agree dvs ri rj ai aj w'); eapply Ha.
Qed.

(** *** Three creates of one volume *)

#[local] Instance api_datavolumes : DataVolumeServer (of_handler api_server) "infra" a_dvs.
Proof.
  split.
  - intros o w r w' Ho He. unfold of_handler in He.
    enough (Hk : keeps a_dvs w (api_server o w).2) by (by rewrite He in Hk). clear He. destruct o; simpl; try reflexivity; try (by intros n d Hd; exists d).
    + unfold do_request. destruct (rq_verb r0), (rq_name r0), (rq_body r0); simpl; try reflexivity; try (by destruct k).
      all: destruct (get_object k w (object_Name o)) eqn:Hg; [reflexivity|]; destruct k; try reflexivity.
      all: try (by intros n d Hd; exists d).
      all: intros n d Hd; exists d; (split; [|done]); change (<[dv_Name o := set_uid o]> (a_dvs w) !! n = Some d).
      all: rewrite lookup_insert_ne; [done|]; intros <-; cbn in Hg; congruence.
    + unfold delete_request. destruct (rq_name r0); [|reflexivity]. destruct (get_object k w s0); [|reflexivity].
      destruct k; try done; by intros n d Hd; exists d.
    + destruct json; by intros n d Hd; exists d.
  - intros n w d w' He. unfold of_handler in He. cbn in He. destruct (a_dvs w !! n) eqn:Hn; simplify_eq. done.
  - intros d w d' w' He. unfold of_handler in He. cbn in He. destruct (a_dvs w !! dv_Name d) eqn:Hn; simplify_eq/=.
    split_and!; [done|apply lookup_insert_eq|done].
Qed.

Definition creates_service : ControllerService :=
  NewControllerService "infra" demo_labels (mkStorageClassEnforcement [] true true []).
Definition creates_request : CreateVolumeRequest :=
  mkCreateVolumeRequest "pvc-9" (Some (mkCapacityRange 10 0))
    (Some [Some (mkVolumeCapability (Some AccessBlock) (Some SINGLE_NODE_WRITER))]) ∅ None.
Definition creates_threads : list (prog kubeE (result (option CreateVolumeResponse))) :=
  map (fun r => interp (implementation demo_client) (CreateVolume creates_service (Some r)))
    [creates_request; creates_request; creates_request] ++ [].

(** The first two look the name up before either creates; the third comes last. *)
Definition creates_end : api * list (prog kubeE (result (option CreateVolumeResponse))) :=
  default (demo_api, []) (run_schedule (fun _ o w => Some (api_server o w)) [0; 1; 1; 0; 2]%nat (demo_api, creates_threads)).

Lemma concurrent_creates_agree_witness :
  creates_end.2 = [Ret (None, Some (APIError "AlreadyExists" 409 "")); Ret (Some (createResponse creates_request "uid-pvc-9"), None);
                   Ret (Some (createResponse creates_request "uid-pvc-9"), None)] /\
  answers_volume a_dvs creates_request (createResponse creates_request "uid-pvc-9") creates_end.1.
Proof.
  split; [vm_compute; reflexivity|].
  refine (proj1 (concurrent_creates_agree (of_handler api_server) "infra" a_dvs demo_client creates_service
    [creates_request; creates_request; creates_request] [] demo_api creates_end.1 creates_end.2 eq_refl _ _) 1%nat
    creates_request _ eq_refl _).
  - intros p Hp. by apply elem_of_nil in Hp.
  - apply (run_schedule_steps _ (fun _ o w => Some (api_server o w)) [0; 1; 1; 0; 2]%nat).
    + intros i o w a w' H. unfold of_handler. by injection H.
    + vm_compute. reflexivity.
  - vm_compute. reflexivity.
Defined.
