(* ===== verification/ClassChoice.v ===== *)
(** * The snapshot class of a new snapshot

    What [getSnapshotClassNameFromVolumeClaimName] of pkg/kubevirt/client.go
    chooses, in terms of the storage class policy of the administrator and of
    the storage class of the claim. *)

From S2P Require Import Prelude GoStrings Errors Effects Wait Objects Util ClientAPI.
From S2P Require Import Controller Clientsets Fixtures SnapshotClass KubeClient ApiServer Memo Ownership.
Import Kube.

(** ** The mapping that is built *)

Lemma appendMapping_spec m classes tenant :
  appendVolumeSnapshotInfraTenantMapping m classes tenant =
  mkInfraTenantStorageSnapshotMapping
    (itsm_VolumeSnapshotClasses m ++ ((fun c => mkInfraToTenantMapping c (tenantClassFor c tenant)) <$> classes))
    (itsm_StorageClasses m).
Proof.
  unfold appendVolumeSnapshotInfraTenantMapping. revert m.
  induction classes as [|c classes IH]; intros m; simpl; [destruct m; simpl; by rewrite app_nil_r|].
  rewrite IH. simpl. by rewrite <- app_assoc.
Qed.

(** The infra classes of the mapping of a storage class are those that the policy
    lists for it. *)
Lemma mappingOf_built e l sc m :
  mappingOf sc (built e l) = Some m ->
  exists entry, entry ∈ StorageSnapshotMappings e /\ sc ∈ StorageClasses entry /\
    itm_Infra <$> itsm_VolumeSnapshotClasses m = Util.VolumeSnapshotClasses entry.
Proof.
  unfold mappingOf, built. intros H. apply fmap_Some in H as ([i m'] & Hf & ->).
  apply list_find_Some in Hf as (Hi & Hc & _). apply list_lookup_fmap_Some in Hi as (entry & -> & He).
  exists entry. split; [by eapply list_elem_of_lookup_2|]. simpl. rewrite appendMapping_spec in *. simpl in *.
  apply Is_true_true, existsb_In in Hc as (x & Hx & Hs). reflect_bools. subst x. split; [done|].
  rewrite <- list_fmap_compose. unfold compose. simpl. by rewrite list_fmap_id.
Qed.

(** The tenant class beside an infra class refers to it; there is none only if
    none refers to it. *)
Definition refers (tenant : list VolumeSnapshotClass) (p : InfraToTenantMapping) : Prop :=
  (exists cl, cl ∈ tenant /\ vsc_Parameters cl !! InfraSnapshotClassNameParameter = Some (itm_Infra p) /\
     itm_Tenant p = vsc_Name cl) \/
  ((forall cl, cl ∈ tenant -> vsc_Parameters cl !! InfraSnapshotClassNameParameter <> Some (itm_Infra p)) /\
     itm_Tenant p = "").

Lemma tenantClassFor_spec infra tenant :
  refers tenant (mkInfraToTenantMapping infra (tenantClassFor infra tenant)).
Proof.
  unfold refers, tenantClassFor. simpl. destruct (list_find _ tenant) as [[i cl]|] eqn:Hf.
  - apply list_find_Some in Hf as (Hi & Hc & _). left. exists cl. split; [by eapply list_elem_of_lookup_2|done].
  - apply list_find_None in Hf. right. split; [|done]. by rewrite Forall_forall in Hf.
Qed.

(** ** The choice *)

(** The cache holds nothing but a mapping built from the policy ([Memo]). *)
Definition memo (e : StorageClassEnforcement) : protocol kubeE :=
  @Protocol kubeE (fun _ _ => True) (fun _ (o : Kube.operation) =>
    match o return Kube.answer o -> Prop with
    | LoadMapping => fun m => exists l, m = built e l
    | _ => fun _ => True
    end).

Lemma wp_getStorageSnapshotMapping_memo e t t0 :
  t0 `prefix_of` t ->
  wp (memo e) (getStorageSnapshotMapping e) t (fun t' o => t0 `prefix_of` t' /\ match o with
    | Val (m, None) => exists l, m = built e l
    | Val (_, Some _) => True
    | Panicked _ => False
    end).
Proof.
  intros Hpre. assert (Hp : forall t x, t0 `prefix_of` t -> t0 `prefix_of` t ++ [x])
    by (intros; by apply prefix_app_r).
  unfold getStorageSnapshotMapping, buildStorageClassSnapshotClassMapping. ksimpl.
  split; [done|]. intros [] _. split; [done|]. intros populated _. destruct populated; ksimpl.
  - split; [done|]. intros m Hm. split; [done|]. intros [] _. split; [by repeat apply Hp|done].
  - split; [done|]. intros [l|err] _; ksimpl; [|split; [done|]; intros [] _; split; [by repeat apply Hp|done]].
    split; [done|]. intros [] _. split; [done|]. intros [] _. split; [done|]. intros m Hm.
    split; [done|]. intros [] _. split; [by repeat apply Hp|done].
Qed.

(** What the policy permits: the class and the storage class of the claim. *)
Definition permitted (e : StorageClassEnforcement) (sc class name : string) : Prop :=
  (AllowDefault e = true /\ name = "") \/
  (AllowDefault e = false /\ sc <> "" /\ (AllowAll e = true \/ sc ∈ AllowList e) /\
   ((name = class /\ exists entry, entry ∈ StorageSnapshotMappings e /\ sc ∈ StorageClasses entry /\
       class ∈ Util.VolumeSnapshotClasses entry) \/
    (name = "" /\ AllowAll e = true))).

Lemma wp_snapshotClassName e ns claim class t :
  wp (memo e) (getSnapshotClassNameFromVolumeClaimName e ns claim class) t (fun t' o => match o with
    | Val (name, None) => exists pvc, got KPersistentVolumeClaim (Some ns) claim pvc t' /\
        permitted e (default "" (pvc_StorageClassName pvc)) class name
    | Val (_, Some _) => True
    | Panicked _ => False
    end).
Proof.
  unfold getSnapshotClassNameFromVolumeClaimName, getStorageClassNameFromClaimName,
    getInfraSnapshotClassesFromInfraStorageClassName, getTenantSnapshotClassesFromInfraStorageClassName. ksimpl.
  split; [done|]. intros [pvc|err] _; ksimpl; [|done]. unfold permitted.
  destruct (AllowDefault e) eqn:Hdef; ksimpl.
  { exists pvc. split; [apply got_snoc|]. by left. }
  set (sc := default "" (pvc_StorageClassName pvc)). destruct (sc =s? "") eqn:Hsc; ksimpl; [done|]. reflect_bools.
  destruct (negb (Contains (AllowList e) sc) && negb (AllowAll e)) eqn:Hall; ksimpl; [done|].
  assert (Hallowed : AllowAll e = true \/ sc ∈ AllowList e).
  { apply andb_false_iff in Hall as [H|H]; apply negb_false_iff in H; [right; by apply Contains_spec|by left]. }
  match goal with |- wp _ _ ?t0 _ => assert (Hgot : got KPersistentVolumeClaim (Some ns) claim pvc t0) by apply got_snoc;
    generalize t0 Hgot end. clear Hgot t. intros t Hgot.
  rewrite bind_assoc. apply wp_bind. eapply wp_mono; [|by apply (wp_getStorageSnapshotMapping_memo e t t)].
  intros t' [[m err]|w] [Hpre Hm]; ksimpl; [|done]. destruct err as [err|]; ksimpl; [done|].
  destruct Hm as [l ->]. apply (got_prefix _ _ _ _ _ _ Hpre) in Hgot.
  destruct (mappingOf sc (built e l)) as [m|] eqn:Hmap; ksimpl.
  - destruct (mappingOf_built _ _ _ _ Hmap) as (entry & He & Hs & Hi).
    destruct (Contains _ class) eqn:Hc; ksimpl.
    { rewrite Hi in Hc. apply Contains_spec in Hc. exists pvc. split; [done|]. right. eauto 10. }
    destruct (AllowAll e) eqn:Hall'; ksimpl; [exists pvc; split; [done|]; right; eauto 10|].
    rewrite bind_assoc. apply wp_bind. eapply wp_mono; [|by apply (wp_getStorageSnapshotMapping_memo e t' t')].
    intros t'' [[m' err]|w] [_ Hm']; ksimpl; [|done]. destruct err; ksimpl; [done|].
    destruct (mappingOf sc m'); ksimpl; destruct (Nat.ltb _ _); try done; by destruct (class =s? "").
  - cbn [Contains]. ksimpl.
    destruct (AllowAll e) eqn:Hall'; ksimpl; [exists pvc; split; [done|]; right; eauto 10|].
    rewrite bind_assoc. apply wp_bind. eapply wp_mono; [|by apply (wp_getStorageSnapshotMapping_memo e t' t')].
    intros t'' [[m' err]|w] [_ Hm']; ksimpl; [|done]. destruct err; ksimpl; [done|].
    destruct (mappingOf sc m'); ksimpl; destruct (Nat.ltb _ _); try done; by destruct (class =s? "").
Qed.

(** ** Properties *)


(** The servers of the demo once the mapping is cached. *)
Definition cached_server : handler kubeE api := fun o w =>
  api_server o (set_a_mapping w (built demo_enforcement (a_classes demo_api))).


(** The mapping built from the policy and the tenant's classes has an entry for
    each entry of the policy, in order, with its storage classes and its infra
    snapshot classes; beside each infra class it names the first tenant class
    that refers to it, or none when none does. *)
Theorem mapping_reflects_policy e tenant i entry :
  StorageSnapshotMappings e !! i = Some entry ->
  exists m, built e tenant !! i = Some m /\
    itsm_StorageClasses m = StorageClasses entry /\
    itm_Infra <$> itsm_VolumeSnapshotClasses m = Util.VolumeSnapshotClasses entry /\
    Forall (refers tenant) (itsm_VolumeSnapshotClasses m).
Proof.
  intros Hi. unfold built. rewrite list_lookup_fmap, Hi. eexists. split; [done|].
  rewrite appendMapping_spec. simpl. split; [done|]. split.
  - rewrite <- list_fmap_compose. unfold compose. simpl. by rewrite list_fmap_id.
  - apply Forall_forall. intros p Hp. apply list_elem_of_fmap in Hp as (c & -> & _). apply tenantClassFor_spec.
Qed.

Lemma mapping_reflects_policy_witness :
  exists m, built demo_enforcement (a_classes demo_api) !! 0%nat = Some m /\ itsm_StorageClasses m = ["gold"].
Proof.
  destruct (mapping_reflects_policy demo_enforcement (a_classes demo_api) 0 (mkStorageSnapshotMapping ["gold-snap"] ["gold"]))
    as (m & H1 & H2 & _); [reflexivity|]. by exists m.
Defined.
