(* ===== verification/RealClient.v ===== *)
(** * The controller against the real client

    What the answers of the infra client mean in terms of what the API servers
    answered ([backed]), which laws of [ClientContract] the client keeps and
    which it breaks, and what follows for the RPCs of the controller interpreted
    by the client. *)

From S2P Require Import Prelude GoStrings Errors Effects Wait Objects Csi Util.
From S2P Require Import ClientAPI Controller Volumes Attach Snapshots Clientsets Labels SnapshotClass KubeClient Fixtures ApiServer Ownership.
Import Kube.

(** ** What the API server was seen to say *)

(** The answer to the read of an object. *)
Definition answered_get (k : kind) (ns : option string) (name : string) (r : object k + error) (t : trace kubeE) : Prop :=
  Ev (E := kubeE) (Do Infra k (getRequest k ns name)) r ∈ t.

Lemma answered_get_snoc k ns name r t :
  answered_get k ns name r (t ++ [Ev (E := kubeE) (Do Infra k (getRequest k ns name)) r]).
Proof. unfold answered_get. set_solver. Qed.

Lemma answered_get_app k ns name r t e : answered_get k ns name r t -> answered_get k ns name r (t ++ [e]).
Proof. unfold answered_get. set_solver. Qed.

#[export] Hint Resolve answered_get_snoc answered_get_app : go.

(** The spec of the VM held the volume. *)
Definition seenInSpec (ns vm v : string) (t : trace kubeE) : Prop :=
  exists x template, answered_get KVirtualMachine (Some ns) vm (inl x) t /\ vm_Template x = Some template /\
    volumeInSpec v (tpl_Volumes template) = true.

(** There was no such VM, or its spec did not hold the volume. *)
Definition goneFromSpec (ns vm v : string) (t : trace kubeE) : Prop :=
  (exists e, answered_get KVirtualMachine (Some ns) vm (inr e) t /\ IsNotFound (Some e) = true) \/
  (exists x template, answered_get KVirtualMachine (Some ns) vm (inl x) t /\ vm_Template x = Some template /\
     volumeInSpec v (tpl_Volumes template) = false).

(** The VMI reported the volume as ready. *)
Definition seenReady (ns vm v : string) (t : trace kubeE) : Prop :=
  exists x, answered_get KVirtualMachineInstance (Some ns) vm (inl x) t /\
    existsb (fun volume => (vs_Name volume =s? v) && (vs_Phase volume =s? VolumeReady)) (vmi_VolumeStatus x) = true.

(** There was no such VMI, or it did not report the volume as a hot-plug. *)
Definition goneFromStatus (ns vm v : string) (t : trace kubeE) : Prop :=
  (exists e, answered_get KVirtualMachineInstance (Some ns) vm (inr e) t /\ IsNotFound (Some e) = true) \/
  (exists x, answered_get KVirtualMachineInstance (Some ns) vm (inl x) t /\ hotplugInStatus v x = false).

(** An owned claim, and its volume with at least the capacity the claim
    requests. *)
Definition seenResized (c : client) (ns name : string) (t : trace kubeE) : Prop :=
  exists pvc pv, got KPersistentVolumeClaim (Some ns) name pvc t /\ ownedClaim c pvc /\
    got KPersistentVolume None (pvc_VolumeName pvc) pv t /\
    Cmp (storage_of (pv_Capacity pv)) (storage_of (pvc_Requests pvc)) <> Lt.

(** What an answer of the client says of the API server. *)
Definition backed (c : client) (t : trace kubeE) (m : Client.method) : Client.answer m -> Prop :=
  match m return Client.answer m -> Prop with
  | Client.EnsureVolumeAvailableVM ns vm v => fun r => r = (true, None) -> seenInSpec ns vm v t
  | Client.EnsureVolumeAvailable ns vm v _ => fun r => r = None -> seenReady ns vm v t /\ seenInSpec ns vm v t
  | Client.EnsureVolumeRemovedVM ns vm v => fun r => r = (true, None) -> goneFromSpec ns vm v t
  | Client.EnsureVolumeRemovedVMI ns vm v => fun r => r = (true, None) -> goneFromStatus ns vm v t
  | Client.EnsureVolumeRemoved ns vm v _ => fun r => r = None -> goneFromStatus ns vm v t /\ goneFromSpec ns vm v t
  | Client.GetWorkloadManagingVirtualMachine ns vm => fun r =>
      forall e, r.2 = Some e -> answered_get KVirtualMachine (Some ns) vm (inr e) t
  | Client.EnsureSnapshotReady ns name _ => fun r => r = None ->
      exists s size, got KVolumeSnapshot (Some ns) name s t /\ ownedSnapshot c s /\
        snap_Status s = Some (mkVolumeSnapshotStatus (Some true) size)
  | Client.EnsureControllerResize ns name _ => fun r => r = None -> seenResized c ns name t
  | Client.GetDataVolume ns name => fun r => forall dv, r = (Some dv, None) ->
      got KDataVolume (Some ns) name dv t /\ ownedDataVolume c dv
  | Client.GetVolumeSnapshot ns name => fun r => forall s, r = (Some s, None) ->
      got KVolumeSnapshot (Some ns) name s t /\ ownedSnapshot c s
  | _ => fun _ => True
  end.

Lemma backed_mono c t t' m r : (forall e, e ∈ t -> e ∈ t') -> backed c t m r -> backed c t' m r.
Proof.
  intros Ht. destruct m; simpl; unfold seenInSpec, seenReady, goneFromSpec, goneFromStatus, seenResized, answered_get, got.
  all: naive_solver.
Qed.

Section Methods.
Variable c : client.

Lemma wp_EnsureVolumeAvailableVM ns vm v t :
  wp any (EnsureVolumeAvailableVM ns vm v) t (fun t' o => t `prefix_of` t' /\ match o with
    | Val (true, None) => seenInSpec ns vm v t'
    | Val (true, Some _) => False
    | _ => True
    end).
Proof.
  apply wp_prefix with (Q := fun t' o => match o with
    | Val (true, None) => seenInSpec ns vm v t' | Val (true, Some _) => False | _ => True end).
  unfold EnsureVolumeAvailableVM. ksimpl. split; [done|]. intros [x|e] _; ksimpl.
  - destruct (vm_Template x) as [template|] eqn:Ht; ksimpl; [|done].
    destruct (volumeInSpec v _) eqn:Hv; [|done]. exists x, template. eauto with go.
  - by destruct (IsNotFound (Some e)).
Qed.

Lemma wp_EnsureVolumeRemovedVM ns vm v t :
  wp any (EnsureVolumeRemovedVM ns vm v) t (fun t' o => t `prefix_of` t' /\ match o with
    | Val (true, None) => goneFromSpec ns vm v t'
    | Val (true, Some _) => False
    | _ => True
    end).
Proof.
  apply wp_prefix with (Q := fun t' o => match o with
    | Val (true, None) => goneFromSpec ns vm v t' | Val (true, Some _) => False | _ => True end).
  unfold EnsureVolumeRemovedVM. ksimpl. split; [done|]. intros [x|e] _; ksimpl.
  - destruct (vm_Template x) as [template|] eqn:Ht; ksimpl; [|done].
    destruct (volumeInSpec v _) eqn:Hv; [done|]. right. exists x, template. eauto with go.
  - destruct (IsNotFound (Some e)) eqn:He; ksimpl; [|done]. left. eauto with go.
Qed.

(** A poll answers nil only when its condition last answered true; [I] is kept
    by the requests. *)
Lemma wp_poll_nil {P : protocol kubeE} (I Q : trace kubeE -> Prop) interval timeout cond t :
  (forall t m, pre P t m) ->
  (forall t e, I t -> I (t ++ [e])) ->
  (forall t, I t -> wp P cond t (fun t' o => I t' /\ match o with
     | Val (true, None) => Q t' | Val (true, Some _) => False | _ => True end)) ->
  I t ->
  wp P (PollUntilContextTimeout kube_window interval timeout true cond) t
    (fun t' o => o = Val None -> I t' /\ Q t').
Proof.
  intros HP HI Hc Ht. apply wp_poll with (I := I).
  - split; [apply HP|]. intros [n e] _. split; [by apply HI|done].
  - intros t' Ht'. eapply wp_mono; [|by apply Hc]. intros t'' [[ok err]|m] [HI' HQ]; [|done].
    by destruct ok, err as [e|]; simpl; intros; simplify_eq.
Qed.

(** The same without an invariant. *)
Lemma wp_poll_nil0 {P : protocol kubeE} (Q : trace kubeE -> Prop) interval timeout cond t :
  (forall t m, pre P t m) ->
  (forall t, wp P cond t (fun t' o => match o with
     | Val (true, None) => Q t' | Val (true, Some _) => False | _ => True end)) ->
  wp P (PollUntilContextTimeout kube_window interval timeout true cond) t (fun t' o => o = Val None -> Q t').
Proof.
  intros HP Hc. eapply wp_mono; [|apply (wp_poll_nil (fun _ => True) Q)]; try done.
  - intros t' o H Ho. by apply H.
  - intros t' _. eapply wp_mono; [|apply Hc]. done.
Qed.

Lemma wp_volumeAvailable ns vm v t :
  wp any (volumeAvailable ns vm v) t (fun t' o => match o with
    | Val (true, None) => seenReady ns vm v t' /\ seenInSpec ns vm v t'
    | Val (true, Some _) => False
    | _ => True
    end).
Proof.
  unfold volumeAvailable, GetVirtualMachine. ksimpl. split; [done|]. intros [x|e] _; ksimpl; [|done].
  destruct (existsb _ _) eqn:He; [|done].
  eapply wp_mono; [|apply wp_EnsureVolumeAvailableVM]. intros t' [[[] [e|]]|m] [Hpre HQ]; try done.
  split; [|done]. exists x. split; [|done]. destruct Hpre as [l ->]. unfold answered_get. set_solver.
Qed.

(** [EnsureVolumeRemoved] wants the volume out of the status whether or not it
    is a hot-plug. *)
Lemma wp_volumeRemoved ns vm v t :
  wp any (volumeRemoved ns vm v) t (fun t' o => match o with
    | Val (true, None) => goneFromStatus ns vm v t' /\ goneFromSpec ns vm v t'
    | Val (true, Some _) => False
    | _ => True
    end).
Proof.
  unfold volumeRemoved, GetVirtualMachine. ksimpl. split; [done|]. intros [x|e] _; ksimpl.
  - destruct (existsb _ _) eqn:He; [done|].
    eapply wp_mono; [|apply wp_EnsureVolumeRemovedVM]. intros t' [[[] [e|]]|m] [Hpre HQ]; try done.
    split; [|done]. right. exists x. split; [destruct Hpre as [l ->]; unfold answered_get; set_solver|].
    unfold hotplugInStatus. rewrite existsb_none in He |- *. intros y Hy. rewrite (He y Hy). apply andb_false_r.
  - destruct (IsNotFound (Some e)) eqn:He; ksimpl; [|done].
    eapply wp_mono; [|apply wp_EnsureVolumeRemovedVM]. intros t' [[[] [e'|]]|m] [Hpre HQ]; try done.
    split; [|done]. left. exists e. split; [destruct Hpre as [l ->]; unfold answered_get; set_solver|done].
Qed.

(** The evidence of [wp_GetVolumeSnapshot] and the like, under no obligation. *)
Lemma wp_any_of_guard {A} (p : prog kubeE A) t Q : wp (guard (kubeAllowed c)) p t Q -> wp any p t Q.
Proof. by apply wp_protocol_mono. Qed.

Lemma just_got_got k ns name (o : object k) t : just_got k ns name o t -> got k ns name o t.
Proof. unfold just_got, got. intros H. apply last_Some in H as [l ->]. set_solver. Qed.

Lemma wp_snapshotReady ns name t :
  wp any (snapshotReady c ns name) t (fun t' o => match o with
    | Val (true, None) => exists s size, got KVolumeSnapshot (Some ns) name s t' /\ ownedSnapshot c s /\
        snap_Status s = Some (mkVolumeSnapshotStatus (Some true) size)
    | Val (true, Some _) => False
    | _ => True
    end).
Proof.
  unfold snapshotReady. apply wp_bind. eapply wp_mono; [|apply wp_any_of_guard, wp_GetVolumeSnapshot].
  intros t' [[[s|] [e|]]|m]; ksimpl; try done. intros [Hg Ho].
  destruct (snap_Status s) as [[[[]|] q]|] eqn:Hs; try done. exists s, q. split; [by apply just_got_got|done].
Qed.

Lemma wp_controllerResized pvc t t0 :
  t0 `prefix_of` t ->
  wp any (controllerResized pvc) t (fun t' o => t0 `prefix_of` t' /\ match o with
    | Val (true, None) => exists pv, got KPersistentVolume None (pvc_VolumeName pvc) pv t' /\
        Cmp (storage_of (pv_Capacity pv)) (storage_of (pvc_Requests pvc)) <> Lt
    | Val (true, Some _) => False
    | _ => True
    end).
Proof.
  intros Hpre. unfold controllerResized. ksimpl. split; [done|]. intros [pv|e] _; ksimpl.
  - destruct (Cmp _ _) eqn:Hc; simpl; (split; [by apply prefix_app_r|]); try done.
    all: exists pv; split; [apply got_snoc|by rewrite Hc].
  - split; [by apply prefix_app_r|done].
Qed.

Lemma wp_EnsureControllerResize ns name timeout t :
  wp any (EnsureControllerResize c ns name timeout) t (fun t' o => forall r, o = Val r ->
    backed c t' (Client.EnsureControllerResize ns name timeout) r).
Proof.
  unfold EnsureControllerResize. apply wp_bind.
  eapply wp_mono; [|apply wp_any_of_guard, wp_GetPersistentVolumeClaim].
  intros t1 [[[pvc|] [e|]]|m]; ksimpl; try done; [|by intros _ r [= <-]].
  intros [Hg Ho]. apply just_got_got in Hg.
  eapply wp_mono; [|apply (wp_poll_nil (got KPersistentVolumeClaim (Some ns) name pvc) (fun t' =>
    exists pv, got KPersistentVolume None (pvc_VolumeName pvc) pv t' /\
      Cmp (storage_of (pv_Capacity pv)) (storage_of (pvc_Requests pvc)) <> Lt))]; [|done|by eauto with go| |done].
  - intros t' o H r -> ->. destruct (H eq_refl) as (Hg' & pv & ? & ?). exists pvc, pv. eauto.
  - intros t' Ht'. eapply wp_mono; [|by apply (wp_controllerResized pvc t' t')].
    intros t'' o [Hpre H]. split; [by eapply got_prefix|done].
Qed.

Lemma wp_GetWorkloadManagingVirtualMachine ns vm t :
  wp any (GetWorkloadManagingVirtualMachine ns vm) t (fun t' o => forall r, o = Val r ->
    backed c t' (Client.GetWorkloadManagingVirtualMachine ns vm) r).
Proof.
  unfold GetWorkloadManagingVirtualMachine. ksimpl. split; [done|].
  intros [x|e] _; ksimpl; intros r [= <-]; simpl; intros e' [= <-]. eauto with go.
Qed.

(** Every answer of the client is backed. *)
Lemma wp_implementation_backed m t :
  wp any (implementation c m) t (fun t' o => forall r, o = Val r -> backed c t' m r).
Proof.
  destruct m; try (eapply wp_mono; [|apply wp_any_true]; by intros).
  - apply wp_GetWorkloadManagingVirtualMachine.
  - eapply wp_mono; [|apply wp_any_of_guard, wp_GetDataVolume].
    intros t' o H r -> dv ->. destruct H as (_ & ? & ?). done.
  - eapply wp_mono; [|apply (wp_poll_nil0 (fun t' => seenReady namespace vmName volumeName t' /\
      seenInSpec namespace vmName volumeName t')); [done|apply wp_volumeAvailable]].
    intros t' o H r -> ->. by apply H.
  - eapply wp_mono; [|apply wp_EnsureVolumeAvailableVM]. by intros t' o [_ H] r -> ->.
  - eapply wp_mono; [|apply (wp_poll_nil0 (fun t' => goneFromStatus namespace vmName volumeName t' /\
      goneFromSpec namespace vmName volumeName t')); [done|apply wp_volumeRemoved]].
    intros t' o H r -> ->. by apply H.
  - eapply wp_mono; [|apply wp_EnsureVolumeRemovedVM]. by intros t' o [_ H] r -> ->.
  - cbn [implementation]. unfold EnsureVolumeRemovedVMI. ksimpl. split; [done|]. intros [x|e] _; ksimpl.
    + intros r [= <-] [= Hh]. right. exists x. split; [eauto with go|by apply negb_true_iff].
    + destruct (IsNotFound (Some e)) eqn:He; ksimpl; intros r [= <-]; [|done]. left. eauto with go.
  - eapply wp_mono; [|apply (wp_poll_nil0 (fun t' => exists s size, got KVolumeSnapshot (Some namespace) name s t' /\
      ownedSnapshot c s /\ snap_Status s = Some (mkVolumeSnapshotStatus (Some true) size))); [done|apply wp_snapshotReady]].
    intros t' o H r -> ->. by apply H.
  - apply wp_EnsureControllerResize.
  - eapply wp_mono; [|apply wp_any_of_guard, wp_GetVolumeSnapshot].
    intros t' o H r -> s ->. destruct H as (? & ?). split; [by apply just_got_got|done].
Qed.

(** A program of the controller interpreted by the client: what it guarantees
    over the interface, with every answer backed by the API server. *)
Definition all_backed (t1 : trace clientE) (t0 : trace kubeE) : Prop :=
  Forall (fun e : event clientE => backed c t0 (ev_op e) (ev_resp e)) t1.

Lemma wp_interp_backed {A} (p : prog clientE A) Q :
  wp any p [] Q ->
  wp any (interp (implementation c) p) [] (fun t0 o => match o with
    | Val a => exists t1, all_backed t1 t0 /\ Q t1 (Val a)
    | Panicked _ => True
    end).
Proof.
  intros Hp. eapply wp_mono; [|apply (wp_interp any any all_backed (fun _ => True) (implementation c) p [] [] Q)].
  - by intros t [a|m].
  - intros o t1 t0 HR _. eapply wp_mono; [|apply wp_prefix, (wp_implementation_backed o t0)].
    intros t0' [r|m] [[l ->] H]; [|done]. split; [done|]. apply Forall_app. split.
    + eapply Forall_impl; [exact HR|]. intros e He. eapply backed_mono; [|exact He]. set_solver.
    + apply Forall_singleton. by apply H.
  - constructor.
  - done.
Qed.
End Methods.

(** ** The contract of the client *)

(** API servers whose VMs have a template and whose snapshots name their claim. *)
Definition well_formed (k : kind) : object k -> Prop :=
  match k with
  | KVirtualMachine => fun vm => is_Some (vm_Template vm)
  | KVolumeSnapshot => has_claim
  | _ => fun _ => True
  end.

Definition sane : protocol kubeE := @Protocol kubeE (fun _ _ => True) (fun _ (o : Kube.operation) =>
  match o return Kube.answer o -> Prop with
  | Do _ k _ => fun r => match r with inl x => well_formed k x | inr _ => True end
  | _ => fun _ => True
  end).

Section Contract.
Variable c : client.

(** A program that returns, with a result of which [Q] holds. *)
Definition returns {A} (Q : A -> Prop) (_ : trace kubeE) (o : outcome A) : Prop :=
  match o with Val a => Q a | Panicked _ => False end.

Lemma wp_poll_returns interval timeout cond t :
  (forall t, wp sane cond t (returns (fun _ => True))) ->
  wp sane (PollUntilContextTimeout kube_window interval timeout true cond) t (returns (fun _ => True)).
Proof.
  intros Hc. apply wp_poll with (I := fun _ => True).
  - split; [done|]. by intros [n e] _.
  - intros t' _. eapply wp_mono; [|apply Hc]. intros t'' [[ok err]|m]; [|done]. by destruct (_ || ok).
Qed.

Ltac rsimpl := cbn [returns sane pre post well_formed] in *; ksimpl; cbn [returns sane pre post well_formed] in *.

Lemma EnsureVolumeAvailableVM_returns ns vm v t : wp sane (EnsureVolumeAvailableVM ns vm v) t (returns (fun _ => True)).
Proof.
  unfold EnsureVolumeAvailableVM. rsimpl. split; [done|]. intros [x|e] Hx; rsimpl.
  - destruct Hx as [template ->]. by rsimpl.
  - by destruct (IsNotFound (Some e)).
Qed.

Lemma EnsureVolumeRemovedVM_returns ns vm v t : wp sane (EnsureVolumeRemovedVM ns vm v) t (returns (fun _ => True)).
Proof.
  unfold EnsureVolumeRemovedVM. rsimpl. split; [done|]. intros [x|e] Hx; rsimpl.
  - destruct Hx as [template ->]. by rsimpl.
  - by destruct (IsNotFound (Some e)).
Qed.

Lemma volumeAvailable_returns ns vm v t : wp sane (volumeAvailable ns vm v) t (returns (fun _ => True)).
Proof.
  unfold volumeAvailable, GetVirtualMachine. rsimpl. split; [done|]. intros [x|e] _; rsimpl; [|done].
  destruct (existsb _ _); [apply EnsureVolumeAvailableVM_returns|done].
Qed.

Lemma volumeRemoved_returns ns vm v t : wp sane (volumeRemoved ns vm v) t (returns (fun _ => True)).
Proof.
  unfold volumeRemoved, GetVirtualMachine. rsimpl. split; [done|]. intros [x|e] _; rsimpl.
  - destruct (existsb _ _); [done|apply EnsureVolumeRemovedVM_returns].
  - destruct (IsNotFound (Some e)); rsimpl; [apply EnsureVolumeRemovedVM_returns|done].
Qed.

Lemma GetDataVolume_returns ns name t :
  wp sane (GetDataVolume c ns name) t (returns (fun r => r.2 = None -> is_Some r.1)).
Proof.
  unfold GetDataVolume. rsimpl. split; [done|]. intros [x|e] _; rsimpl; [|done].
  destruct (negb _ || negb _); [done|by eexists].
Qed.

Lemma GetPersistentVolumeClaim_returns ns name t :
  wp sane (GetPersistentVolumeClaim c ns name) t (returns (fun r => r.2 = None -> is_Some r.1)).
Proof.
  unfold GetPersistentVolumeClaim. rsimpl. split; [done|]. intros [x|e] _; rsimpl; [|done].
  destruct (negb _ || negb _); [done|by eexists].
Qed.

Lemma GetVolumeSnapshot_returns ns name t :
  wp sane (GetVolumeSnapshot c ns name) t (returns (fun r => r.2 = None -> exists s, r.1 = Some s /\ has_claim s)).
Proof.
  unfold GetVolumeSnapshot. rsimpl. split; [done|]. intros [x|e] Hx; rsimpl; [|done].
  destruct (negb _); [done|by eexists].
Qed.

Lemma getStorageSnapshotMapping_returns e t : wp sane (getStorageSnapshotMapping e) t (returns (fun _ => True)).
Proof.
  unfold getStorageSnapshotMapping, buildStorageClassSnapshotClassMapping. rsimpl.
  split; [done|]. intros [] _. split; [done|]. intros populated _.
  destruct populated; rsimpl.
  - split; [done|]. intros m _. by split.
  - split; [done|]. intros [l|err] _; rsimpl; [|by split].
    repeat (split; [done|]; intros ? _). by split.
Qed.

Lemma snapshotClassName_returns e ns claim class t :
  wp sane (getSnapshotClassNameFromVolumeClaimName e ns claim class) t (returns (fun _ => True)).
Proof.
  unfold getSnapshotClassNameFromVolumeClaimName, getStorageClassNameFromClaimName,
    getInfraSnapshotClassesFromInfraStorageClassName, getTenantSnapshotClassesFromInfraStorageClassName. rsimpl.
  split; [done|]. intros [pvc|err] _; rsimpl; [|done]. destruct (AllowDefault e); rsimpl; [done|].
  destruct (_ =s? ""); rsimpl; [done|]. destruct (negb (Contains _ _) && _); rsimpl; [done|].
  rewrite bind_assoc. apply wp_bind. eapply wp_mono; [|apply getStorageSnapshotMapping_returns].
  intros t' [[m err]|m] Ho; rsimpl; [|done]. destruct err; rsimpl; [done|].
  set (r := match mappingOf _ m with Some _ => _ | None => _ end).
  assert (Hr : exists l, r = Ret (l, None)) by (subst r; destruct (mappingOf _ m); by eexists).
  destruct Hr as [l ->]. rsimpl.
  destruct (Contains l class); rsimpl; [done|]. destruct (AllowAll e); rsimpl; [done|].
  rewrite bind_assoc. apply wp_bind. eapply wp_mono; [|apply getStorageSnapshotMapping_returns].
  intros t'' [[m' err]|m'] Ho'; rsimpl; [|done]. destruct err; rsimpl; [done|].
  destruct (mappingOf _ m'); rsimpl; destruct (Nat.ltb _ _); try done; by destruct (class =s? "").
Qed.

Lemma CreateVolumeSnapshot_returns ns name claim class t :
  wp sane (CreateVolumeSnapshot c ns name claim class) t (returns (fun r => r.2 = None -> is_Some r.1)).
Proof.
  unfold CreateVolumeSnapshot. apply wp_bind. eapply wp_mono; [|apply GetDataVolume_returns].
  intros t' [[dv err]|m]; rsimpl; [|done]. intros Hd. destruct err; rsimpl; [done|].
  destruct (Hd eq_refl) as [d ->]. rsimpl. apply wp_bind. eapply wp_mono; [|apply snapshotClassName_returns].
  intros t'' [[cls err]|m] Ho; rsimpl; [|done]. destruct err; rsimpl; [done|].
  split; [done|]. intros [x|e] _; rsimpl; [by eexists|done].
Qed.

(** The real client keeps to the contract, against API servers whose objects are
    well formed. *)
Lemma wp_implementation_contract m t :
  wp sane (implementation c m) t (returns (contract_answer m)).
Proof.
  assert (HR : forall A (p : prog kubeE A) (Q : A -> Prop) t, (forall a, Q a) ->
    wp sane p t (returns (fun _ => True)) -> wp sane p t (returns Q)).
  { intros A p Q t' HQ. apply wp_mono. intros t'' [a|w]; [by intros _; apply HQ|done]. }
  destruct m; cbn [implementation contract_answer].
  - by split.
  - unfold KubeClient.ListVirtualMachines. rsimpl. split; [done|]. by intros [l|e] _.
  - unfold KubeClient.GetVirtualMachine. rsimpl. split; [done|]. intros [l|e] _; rsimpl; [by eexists|done].
  - unfold KubeClient.GetWorkloadManagingVirtualMachine. rsimpl. split; [done|].
    intros [x|e] Hx; rsimpl; [|done]. intros _. destruct Hx as [template Ht]. by exists x, template.
  - unfold DeleteDataVolume. apply wp_bind. eapply wp_mono; [|apply GetDataVolume_returns].
    intros t' [[dv err]|w]; rsimpl; [|done]. intros _. destruct (IsNotFound err); rsimpl; [done|].
    destruct err; rsimpl; [done|]. by destruct dv.
  - unfold CreateDataVolume. destruct (HasPrefix _ _); rsimpl; [|done]. split; [done|].
    intros [x|e] _; rsimpl; [by eexists|done].
  - eapply wp_mono; [|apply GetDataVolume_returns]. by intros t' [[dv err]|w].
  - eapply wp_mono; [|apply GetPersistentVolumeClaim_returns]. by intros t' [[dv err]|w].
  - unfold ExpandPersistentVolumeClaim. apply wp_bind. eapply wp_mono; [|apply GetPersistentVolumeClaim_returns].
    intros t' [[pvc err]|w]; rsimpl; [|done]. intros H. destruct err; rsimpl; [done|].
    destruct (H eq_refl) as [x ->]. rsimpl. destruct (Cmp _ _); rsimpl; [done| |done].
    split; [done|]. by intros [y|e] _.
  - by split.
  - by split.
  - by split.
  - apply HR; [done|]. apply wp_poll_returns. intros. apply volumeAvailable_returns.
  - apply HR; [done|]. apply EnsureVolumeAvailableVM_returns.
  - apply HR; [done|]. apply wp_poll_returns. intros. apply volumeRemoved_returns.
  - apply HR; [done|]. apply EnsureVolumeRemovedVM_returns.
  - unfold EnsureVolumeRemovedVMI. rsimpl. split; [done|]. intros [l|e] _; rsimpl; [done|].
    by destruct (IsNotFound (Some e)).
  - apply HR; [done|]. apply wp_poll_returns. intros t'. unfold snapshotReady. apply wp_bind.
    eapply wp_mono; [|apply GetVolumeSnapshot_returns]. intros t'' [[s err]|w]; rsimpl; [|done]. intros H.
    destruct err; rsimpl; [done|]. destruct (H eq_refl) as (x & -> & _). rsimpl.
    by destruct (snap_Status x) as [[[r|] q]|].
  - unfold EnsureControllerResize. apply wp_bind. eapply wp_mono; [|apply GetPersistentVolumeClaim_returns].
    intros t' [[pvc err]|w]; rsimpl; [|done]. intros H. destruct err; rsimpl; [done|].
    destruct (H eq_refl) as [x ->]. rsimpl. apply HR; [done|]. apply wp_poll_returns. intros t''.
    unfold controllerResized. rsimpl. split; [done|]. intros [pv|e] _; rsimpl; [|done]. by destruct (Cmp _ _).
  - apply CreateVolumeSnapshot_returns.
  - apply GetVolumeSnapshot_returns.
  - unfold DeleteVolumeSnapshot. apply wp_bind. eapply wp_mono; [|apply GetVolumeSnapshot_returns].
    intros t' [[s err]|w]; rsimpl; [|done]. intros H. destruct (IsNotFound err); rsimpl; [done|].
    destruct err; rsimpl; [done|]. destruct (H eq_refl) as (x & -> & _). by rsimpl.
  - unfold ListVolumeSnapshots. destruct (ValidatedSelectorFromSet _); [|done]. rsimpl.
    split; [done|]. by intros [l'|e] _.
  - by split.
Qed.

(** What never panics against the contract never panics against the real
    client. *)
Lemma wp_interp_no_panic {A} (p : prog clientE A) :
  wp contractual p [] no_panic -> wp sane (interp (implementation c) p) [] (fun _ o => exists a, o = Val a).
Proof.
  intros Hp. eapply wp_mono; [|apply (wp_interp contractual sane (fun _ _ => True) (fun _ => False)
    (implementation c) p [] [] no_panic)]; [| |done|done].
  - intros t [a|m]; [by eexists|]. intros [[]|(t1 & _ & [a Ha])]. done.
  - intros o t1 t0 _ _. eapply wp_mono; [|apply wp_implementation_contract].
    intros t' [r|m]; simpl; [done|by intros []].
Qed.
End Contract.

(** An answer in a backed trace is backed. *)
Lemma answered_backed c m r t1 t0 : all_backed c t1 t0 -> answered m r t1 -> backed c t0 m r.
Proof. unfold all_backed, answered. rewrite Forall_forall. intros H Hin. apply (H _ Hin). Qed.

(** What a property of the RPC over the interface, under any guard, becomes when
    the client is the real one. *)
Lemma exec_interp_backed {W A} (h : handler kubeE W) c (p : prog clientE A) G Q w :
  wp (guard G) p [] Q ->
  let r := exec h (interp (implementation c) p) w [] in
  match run_out r with
  | Val a => exists t1, all_backed c t1 (run_trace r) /\ Q t1 (Val a)
  | Panicked _ => True
  end.
Proof.
  intros Hp. apply (wp_exec_any h _ w [] (fun t o => match o with
    | Val a => exists t1, all_backed c t1 t /\ Q t1 (Val a) | Panicked _ => True end)).
  apply wp_interp_backed. by eapply wp_protocol_mono; [| |exact Hp].
Qed.

Lemma wp_ControllerExpandVolume c req :
  wp (guard (fun _ _ => True)) (ControllerExpandVolume c (Some req)) [] (fun t o => match o with
    | Val (Some resp, err) => err = None /\ cer_CapacityBytes resp = GetRequiredBytes (ce_CapacityRange req) /\
        answered (Client.EnsureControllerResize (infraClusterNamespace c) (ce_VolumeId req) (Minute * 2)) None t
    | _ => True
    end).
Proof.
  unfold ControllerExpandVolume. destruct (is_empty _); [done|]. destruct (ce_CapacityRange req) as [range|]; [|done].
  psimpl. wp_call r. destruct r as [e|]; psimpl; [by destruct (IsNotFound (Some e))|].
  wp_call r. destruct r; psimpl; [done|]. split; [done|]. split; [done|]. unfold answered. set_solver.
Qed.

(** The program returns, through the real client. *)
Definition returns_on {W A} (h : handler kubeE W) (cl : client) (w : W) (p : prog clientE A) : Prop :=
  exists a, run_out (exec h (interp (implementation cl) p) w []) = Val a.

Lemma returns_on_contract {W A} (h : handler kubeE W) cl w :
  (forall w k s r x, (h (Do s k r) w).1 = inl x -> well_formed k x) ->
  forall p : prog clientE A, wp contractual p [] no_panic -> returns_on h cl w p.
Proof.
  intros Hh p Hp.
  destruct (wp_exec sane h (fun _ _ => True) (interp (implementation cl) p) w []
    (fun _ o => exists a, o = Val a)) as [H _]; [|done|by apply wp_interp_no_panic|exact H].
  intros w' t o _ _. split; [|done]. destruct o; simpl; try done.
  pose proof (Hh w' k s r) as H. destruct (h (Do s k r) w') as [[x|e] w1]; [by apply H|done].
Qed.

(** ** Properties *)

(** C16: through the real client, a publish that answers success was told by the
    API server that the spec of the VM holds the volume; if it had to hot-plug
    it, also that the VMI reports it as ready. *)
Theorem publish_success_end_to_end {W} (h : handler kubeE W) cl c req w resp err :
  let r := exec h (interp (implementation cl) (ControllerPublishVolume c (Some req))) w [] in
  run_out r = Val (Some resp, err) ->
  err = None /\ seenInSpec (infraClusterNamespace c) (vmNameOf (cp_NodeId req)) (cp_VolumeId req) (run_trace r).
Proof.
  cbv zeta. intros Hout. pose proof (exec_interp_backed h cl _ _ _ w (wp_ControllerPublishVolume c req)) as H.
  cbv zeta in H. rewrite Hout in H. destruct H as (t1 & Hb & H). simpl in H. destruct err as [e|]; [done|].
  split; [done|]. destruct H as [H|H]; apply just_answered_answered in H.
  - by apply (answered_backed _ _ _ _ _ Hb) in H; apply H.
  - by apply (answered_backed _ _ _ _ _ Hb) in H; apply H.
Qed.

Definition demo_publish_run := exec api_server (interp (implementation demo_client)
  (ControllerPublishVolume demo_controller (Some demo_publish))) demo_api [].

Lemma publish_success_end_to_end_witness : seenInSpec "infra" "vm1" "pvc-1" (run_trace demo_publish_run).
Proof.
  apply (publish_success_end_to_end api_server demo_client demo_controller demo_publish demo_api
    mkControllerPublishVolumeResponse None). vm_compute. reflexivity.
Defined.

(** C17: through the real client, an unpublish that answers success was told by the
    API server both that the VMI is gone or does not report the volume as a
    hot-plug, and that the VM is gone or its spec does not hold the volume. *)
Theorem unpublish_success_end_to_end {W} (h : handler kubeE W) cl c req w resp err :
  let r := exec h (interp (implementation cl) (ControllerUnpublishVolume c (Some req))) w [] in
  run_out r = Val (Some resp, err) ->
  err = None /\
  goneFromStatus (infraClusterNamespace c) (vmNameOf (cu_NodeId req)) (cu_VolumeId req) (run_trace r) /\
  goneFromSpec (infraClusterNamespace c) (vmNameOf (cu_NodeId req)) (cu_VolumeId req) (run_trace r).
Proof.
  cbv zeta. intros Hout. pose proof (exec_interp_backed h cl _ _ _ w (wp_ControllerUnpublishVolume c req)) as H.
  cbv zeta in H. rewrite Hout in H. destruct H as (t1 & Hb & H). simpl in H. destruct err as [e|]; [done|].
  split; [done|]. destruct H as [H|[H HV]]; apply just_answered_answered, (answered_backed _ _ _ _ _ Hb) in H.
  - by apply H.
  - split; [by apply H|]. destruct HV as [(vm & err & HV & Hnf)|HV]; apply (answered_backed _ _ _ _ _ Hb) in HV.
    + left. destruct (IsNotFound_some _ Hnf) as [e ->]. exists e. split; [by apply HV|done].
    + by apply HV.
Qed.

Definition demo_unpublish_run := exec api_server (interp (implementation demo_client)
  (ControllerUnpublishVolume demo_controller (Some demo_unpublish))) (run_world demo_publish_run) [].

Lemma unpublish_success_end_to_end_witness : goneFromSpec "infra" "vm1" "pvc-1" (run_trace demo_unpublish_run).
Proof.
  apply (unpublish_success_end_to_end api_server demo_client demo_controller demo_unpublish
    (run_world demo_publish_run) mkControllerUnpublishVolumeResponse None). vm_compute. reflexivity.
Defined.

(** Through the real client, an expansion that answers success answers the size
    asked for, and was told by the API server of a claim this driver owns and of
    its volume, whose capacity is at least what the claim requests. *)
Theorem expand_success_end_to_end {W} (h : handler kubeE W) cl c req w resp err :
  let r := exec h (interp (implementation cl) (ControllerExpandVolume c (Some req))) w [] in
  run_out r = Val (Some resp, err) ->
  err = None /\ cer_CapacityBytes resp = GetRequiredBytes (ce_CapacityRange req) /\
  seenResized cl (infraClusterNamespace c) (ce_VolumeId req) (run_trace r).
Proof.
  cbv zeta. intros Hout. pose proof (exec_interp_backed h cl _ _ _ w (wp_ControllerExpandVolume c req)) as H.
  cbv zeta in H. rewrite Hout in H. destruct H as (t1 & Hb & -> & Hs & H).
  split; [done|]. split; [done|]. apply (answered_backed _ _ _ _ _ Hb) in H. by apply H.
Qed.

Definition demo_expand : ControllerExpandVolumeRequest :=
  mkControllerExpandVolumeRequest "pvc-1" (Some (mkCapacityRange 20 0)) None.

Lemma expand_success_end_to_end_witness :
  let r := exec api_server (interp (implementation demo_client)
    (ControllerExpandVolume demo_controller (Some demo_expand))) demo_api [] in
  exists pvc pv, ownedClaim demo_client pvc /\ got KPersistentVolume None (pvc_VolumeName pvc) pv (run_trace r).
Proof.
  destruct (expand_success_end_to_end api_server demo_client demo_controller demo_expand demo_api
    (mkControllerExpandVolumeResponse 20 true) None) as (_ & _ & pvc & pv & _ & H1 & H2 & _); [vm_compute; reflexivity|].
  exists pvc, pv. by split.
Defined.

(** C19: through the real client, and whatever API servers answer whose VMs have a
    template and whose snapshots name their claim, none of these RPCs panics,
    whatever the request. *)
Theorem real_client_no_panic {W} (h : handler kubeE W) cl c w :
  (forall w k s r x, (h (Do s k r) w).1 = inl x -> well_formed k x) ->
  (forall req, returns_on h cl w (CreateVolume c req)) /\
  (forall req, returns_on h cl w (DeleteVolume c req)) /\
  (forall req, returns_on h cl w (ControllerPublishVolume c req)) /\
  (forall req, returns_on h cl w (ControllerExpandVolume c req)) /\
  (forall req, returns_on h cl w (ValidateVolumeCapabilities c req)) /\
  (forall req, returns_on h cl w (CreateSnapshot c req)) /\
  (forall req, returns_on h cl w (DeleteSnapshot c req)).
Proof.
  intros Hh. pose proof (fun A => @returns_on_contract W A h cl w Hh) as He.
  split_and!; intros req; apply He.
  - apply create_volume_no_panic, _.
  - apply delete_volume_no_panic, _.
  - apply publish_no_panic, _.
  - apply expand_volume_no_panic, _.
  - apply validate_capabilities_no_panic, _.
  - apply create_snapshot_no_panic, _.
  - apply delete_snapshot_no_panic, _.
Qed.

(** Servers that know one VM and one volume. *)
Definition quiet_server : handler kubeE unit := fun o _ =>
  (match o return Kube.answer o with
   | Do _ k _ => match k return object k + error with
       | KVirtualMachine => inl (demo_vm "vm1")
       | KDataVolume => inl (api_dv "pvc-1")
       | _ => inr not_found
       end
   | DoList _ _ _ => inl []
   | DoWatch _ _ _ => inl tt
   | DoError _ _ _ | PutAbsPath _ _ | ServerVersion => None
   | Window _ _ => (1%nat, DeadlineExceeded)
   | Sleep _ | Lock | Unlock | StoreMapping _ | StorePopulated _ => tt
   | LoadPopulated => false
   | LoadMapping => []
   end, tt).

Lemma real_client_no_panic_witness : returns_on quiet_server demo_client tt
  (ControllerPublishVolume demo_controller (Some demo_publish)).
Proof.
  apply (real_client_no_panic quiet_server demo_client demo_controller tt).
  intros [] k s r x. destruct k; simpl; try done. intros [= <-]. by eexists.
Defined.

(** The API server keeps answering the same to the read of an object. *)
Definition always_answers {W} (h : handler kubeE W) (k : kind) (ns name : string) (r : object k + error) : Prop :=
  forall w, (h (Do Infra k (getRequest k (Some ns) name)) w).1 = r.

Lemma exec_missing_vm {W} (h : handler kubeE W) cl ns vmName e :
  always_answers h KVirtualMachine ns vmName (inr e) ->
  forall A (k : result (option VirtualMachine) -> prog clientE A) w t, exists w' t',
    exec h (interp (implementation cl) (Vis (E := clientE) (Client.GetWorkloadManagingVirtualMachine ns vmName) k)) w t =
    exec h (interp (implementation cl) (k (Some zeroVM, Some e))) w' t'.
Proof.
  intros Hvm A k w t. unfold always_answers, getRequest in Hvm. cbn [interp implementation].
  unfold GetWorkloadManagingVirtualMachine. ksimpl. cbn [exec]. rewrite Hvm. ksimpl. by do 2 eexists.
Qed.

Lemma exec_plugged_vmi {W} (h : handler kubeE W) cl ns vmName vmi v :
  always_answers h KVirtualMachineInstance ns vmName (inl vmi) ->
  hotplugInStatus v vmi = true ->
  forall A (k : result bool -> prog clientE A) w t, exists w' t',
    exec h (interp (implementation cl) (Vis (E := clientE) (Client.EnsureVolumeRemovedVMI ns vmName v) k)) w t =
    exec h (interp (implementation cl) (k (false, None))) w' t'.
Proof.
  intros Hvmi Hh A k w t. unfold always_answers, getRequest in Hvmi. cbn [interp implementation].
  unfold EnsureVolumeRemovedVMI. ksimpl. cbn [exec]. rewrite Hvmi. ksimpl. rewrite Hh. by do 2 eexists.
Qed.

(** One call to the client, by a lemma of the shape above. *)
Ltac step_by H :=
  match goal with
  | |- context [exec _ (interp _ (Vis _ ?k)) ?w ?t] =>
      let w' := fresh "w" in let t' := fresh "t" in let E := fresh "E" in
      destruct (H _ k w t) as (w' & t' & E); rewrite E; clear E
  end.

(** C18: an unpublish through the real client panics when the VM is gone while its
    VMI still reports the volume as a hot-plug, the case that the code's comments
    say it handles: the typed client answers an empty VM beside the error, and
    [removeVolumeFromVm] tests the VM against nil, not the error. *)
Theorem unpublish_panics_when_vm_gone {W} (h : handler kubeE W) cl c w req vmi e :
  let ns := infraClusterNamespace c in
  let vmName := vmNameOf (cu_NodeId req) in
  validateControllerUnpublishVolumeRequest (Some req) = None ->
  (SplitMetaNamespaceKey (cu_NodeId req)).2 = None ->
  always_answers h KVirtualMachine ns vmName (inr e) -> IsNotFound (Some e) = true ->
  always_answers h KVirtualMachineInstance ns vmName (inl vmi) ->
  hotplugInStatus (cu_VolumeId req) vmi = true ->
  run_out (exec h (interp (implementation cl) (ControllerUnpublishVolume c (Some req))) w []) =
  Panicked "vm.Spec.Template".
Proof.
  intros ns vmName Hv Hs Hvm He Hvmi Hh. unfold ControllerUnpublishVolume. rewrite Hv. xsimpl.
  subst ns vmName. unfold vmNameOf in *.
  destruct (SplitMetaNamespaceKey (cu_NodeId req)) as [[x vmName] err]. simpl in Hs, Hvm, Hvmi. subst err.
  unfold volumeStillAttached, ExponentialBackoff. cbn [hotplugBackoff Steps].
  change (Z.to_nat 5) with 5%nat. xsimpl.
  step_by (exec_missing_vm h cl (infraClusterNamespace c) vmName e Hvm). xsimpl.
  rewrite He. xsimpl.
  step_by (exec_plugged_vmi h cl (infraClusterNamespace c) vmName vmi (cu_VolumeId req) Hvmi Hh).
  xsimpl. cbn [backoff_loop hotplugBackoff Steps]. change (0 <? 5) with true. cbn iota.
  unfold attempt, removeVolumeFromVm. xsimpl.
  step_by (exec_missing_vm h cl (infraClusterNamespace c) vmName e Hvm). xsimpl.
  rewrite He. by xsimpl.
Qed.

(** The VM of the demo is deleted while its VMI is still terminating. *)
Definition demo_vm_gone : handler kubeE api := fun o w =>
  api_server o (set_a_vmis (set_a_vms w (fun _ => ∅)) (fun _ => {["vm1" := plug_status "pvc-1" (demo_vmi "vm1")]})).

Lemma unpublish_panics_when_vm_gone_witness :
  run_out (exec demo_vm_gone (interp (implementation demo_client)
    (ControllerUnpublishVolume demo_controller (Some demo_unpublish))) demo_api []) = Panicked "vm.Spec.Template".
Proof.
  apply (unpublish_panics_when_vm_gone demo_vm_gone demo_client demo_controller demo_api demo_unpublish
    (plug_status "pvc-1" (demo_vmi "vm1")) not_found).
  - reflexivity.
  - reflexivity.
  - by intros w.
  - reflexivity.
  - by intros w.
  - reflexivity.
Defined.
