(* ===== verification/InfraAttach.v ===== *)
(** * Attachments through the real client

    What Attachments.v asks of a client holds of the infra client of
    pkg/kubevirt/client.go over every API server that keeps the VMs and VMIs of a
    namespace as [KubeVirt] says.  The controller service with its client
    therefore keeps a volume that is not RWX on one VM. *)

From S2P Require Import Prelude GoStrings Errors Effects Goroutines Wait Objects.
From S2P Require Import Csi Util ClientAPI Controller Attach Attachments.
From S2P Require Import Clientsets Labels SnapshotClass KubeClient Fixtures ApiServer Ownership RealClient.
Import Kube.

(** ** Requests that leave the VMs alone *)

(** No hot-plug request. *)
Definition quiet (o : op kubeE) : Prop :=
  match o with PutAbsPath _ _ => False | _ => True end.

(** A walk along the code of a method. *)
Ltac walk :=
  repeat first
    [ done
    | apply only_poll
    | apply only_bind
    | progress intros
    | match goal with |- _ /\ _ => split end
    | match goal with |- only _ (match ?x with _ => _ end) => destruct x end
    | match goal with |- only ?P ?p => let p' := eval hnf in p in progress change (only P p') end
    | progress cbn [only] ].

(** Methods of the client other than the hot-plugs. *)
Lemma only_implementation c (m : Client.method) :
  match m with
  | Client.AddVolumeToVM _ _ _ | Client.RemoveVolumeFromVM _ _ _ | Client.RemoveVolumeFromVMI _ _ _ => True
  | _ => only quiet (implementation c m)
  end.
Proof.
  destruct m; try done; cbn [implementation].
  all: walk.
Qed.

(** ** API servers with VMs *)

(** The request of a listing of VMIs. *)
Definition listRequest (k : kind) (ns : option string) : Request k := mkRequest GET ns (resource k) None [] "" NoBody.

(** What an API server keeps of a namespace: the VMs and VMIs by name. *)
Class Namespaced (W : Type) := {
  vm_at : W -> string -> option VirtualMachine;
  vmi_at : W -> string -> option VirtualMachineInstance }.

#[export] Instance namespaced_hotplug {W} `{!Namespaced W} : Hotplug W := {
  in_spec_of w vm v := exists x template, vm_at w vm = Some x /\ vm_Template x = Some template /\
    volumeInSpec v (tpl_Volumes template) = true;
  in_status_of w vm v := exists x, vmi_at w vm = Some x /\ existsb (fun s => vs_Name s =s? v) (vmi_VolumeStatus x) = true }.

(** An API server of KubeVirt: reads and listings answer what is kept, the hot-plug
    subresources change the spec of their VM, nobody else does, and statuses
    follow. *)
Class KubeVirt {W} `{!Namespaced W} (env : environment kubeE W) (ns : string) : Prop := {
  kv_quiet o w r w' : quiet o -> env o w r w' -> same_specs w w' /\ follows w w';
  kv_put uri json w r w' : env (PutAbsPath uri json) w r w' ->
    (forall vm o, uri = vmSubresourceURL ApiStorageVersion ns vm "addvolume" -> json = AddJSON o ->
       may_add vm (av_Name o) w w' /\ follows w w') /\
    (forall vm o, uri = vmSubresourceURL ApiStorageVersion ns vm "removevolume" -> json = RemoveJSON o ->
       may_remove vm (rv_Name o) w w') /\
    (forall vm o, uri = vmiSubresourceURL ApiStorageVersion ns vm "removevolume" -> json = RemoveJSON o ->
       same_specs w w');
  kv_get vm w x w' : env (Do Infra KVirtualMachine (getRequest KVirtualMachine (Some ns) vm)) w (inl x) w' ->
    vm_at w' vm = Some x;
  kv_missing vm w e w' : env (Do Infra KVirtualMachine (getRequest KVirtualMachine (Some ns) vm)) w (inr e) w' ->
    IsNotFound (Some e) = true -> vm_at w' vm = None;
  kv_list w vmis w' : env (DoList Infra KVirtualMachineInstance (listRequest KVirtualMachineInstance (Some ns))) w (inl vmis) w' ->
    forall n x, vmi_at w' n = Some x -> x ∈ vmis /\ vmi_Name x = n }.

Section Client.
Context {W : Type} `{!Namespaced W} (env : environment kubeE W) (ns : string) `{!KubeVirt env ns} (cl : client).

Definition undisturbed (w w' : W) : Prop := same_specs w w' /\ follows w w'.

#[local] Instance undisturbed_preorder : PreOrder undisturbed.
Proof.
  split; [split; [done|]; intros vm v; naive_solver|]. intros w1 w2 w3 [Hs1 Hf1] [Hs2 Hf2]. split.
  - intros vm v. specialize (Hs1 vm v). specialize (Hs2 vm v). tauto.
  - intros vm v. destruct (Hf1 vm v) as [H1 H1'], (Hf2 vm v) as [H2 H2']. specialize (Hs1 vm v). specialize (Hs2 vm v). tauto.
Qed.

Lemma path_undisturbed t w w' : Forall (fun e => quiet (ev_op e)) t -> path env w t w' -> undisturbed w w'.
Proof using All.
  intros Hq. revert w. induction Hq as [|e t He _ IH]; intros w Hp; simpl in Hp; [by subst|].
  destruct Hp as (w1 & H1 & H2). etrans; [by eapply kv_quiet|by apply IH].
Qed.

(** A fact of the state at one event of a quiet run is a fact of the end. *)
Lemma path_event e t w w' : Forall (fun e => quiet (ev_op e)) t -> path env w t w' -> e ∈ t ->
  exists w1 w2, env (ev_op e) w1 (ev_resp e) w2 /\ same_specs w2 w'.
Proof using All.
  intros Hq Hp (t1 & t2 & ->)%list_elem_of_split. apply path_app in Hp as (w1 & _ & (w2 & He & H2)).
  apply Forall_app in Hq as [_ Hq]. apply Forall_cons in Hq as [_ Hq].
  exists w1, w2. split; [done|]. by apply path_undisturbed in H2 as [? _].
Qed.

Lemma seen_in_spec vm v t w w' :
  Forall (fun e => quiet (ev_op e)) t -> path env w t w' -> seenInSpec ns vm v t -> in_spec_of w' vm v.
Proof using All.
  intros Hq Hp (x & template & Hin & Ht & Hv). destruct (path_event _ _ _ _ Hq Hp Hin) as (w1 & w2 & He & Hs).
  apply (Hs vm v). apply kv_get in He. exists x, template. done.
Qed.

Lemma gone_from_spec vm v t w w' :
  Forall (fun e => quiet (ev_op e)) t -> path env w t w' -> goneFromSpec ns vm v t -> ~ in_spec_of w' vm v.
Proof using All.
  intros Hq Hp [(e & Hin & He)|(x & template & Hin & Ht & Hv)];
    destruct (path_event _ _ _ _ Hq Hp Hin) as (w1 & w2 & Hev & Hs); rewrite (Hs vm v).
  - intros (y & tpl & Hy & _). rewrite (kv_missing _ _ _ _ Hev He) in Hy. done.
  - apply kv_get in Hev. intros (y & tpl & Hy & Htpl & Hv').
    assert (y = x) as -> by congruence. congruence.
Qed.

Lemma answer_backed m t r : produces (implementation cl m) t (Val r) -> backed cl t m r.
Proof using All. intros Hp. apply (produces_any _ _ _ _ (wp_implementation_backed cl m []) Hp). done. Qed.

Lemma implementation_quiet m :
  match m : Client.method with
  | Client.AddVolumeToVM _ _ _ | Client.RemoveVolumeFromVM _ _ _ | Client.RemoveVolumeFromVMI _ _ _ => True
  | _ => forall t, begins (implementation cl m) t -> Forall (fun e => quiet (ev_op e)) t
  end.
Proof using All.
  pose proof (only_implementation cl m) as H. destruct m; try done; intros t Hb; by eapply only_begins.
Qed.

(** The real client is a client of such a server. *)
#[export] Instance real_hotplug_client : HotplugClient (implemented (implementation cl) env) ns.
Proof using All.
  assert (Hquiet : forall m t r, produces (implementation cl m) t (Val r) -> is_write m = false ->
    Forall (fun e => quiet (ev_op e)) t).
  { intros m t r Hp Hw. pose proof (implementation_quiet m). apply produces_begins in Hp. destruct m; naive_solver. }
  assert (put : forall uri json w t (r : option error) w', runs env (kube (PutAbsPath uri json)) w t w' (Val r) ->
    _) by (intros; eapply kv_put, runs_call; eassumption).
  split.
  - intros m w r w' Hw (t & Hp & Hpath). eapply path_undisturbed; [by eapply Hquiet|exact Hpath].
  - intros vm o w r w' [t He]. apply (put (vmSubresourceURL ApiStorageVersion ns vm "addvolume") (AddJSON o)) in He as [H _]. by apply (H vm o).
  - intros vm o w r w' [t He]. apply (put (vmSubresourceURL ApiStorageVersion ns vm "removevolume") (RemoveJSON o)) in He as (_ & H & _). by apply (H vm o).
  - intros vm o w r w' [t He]. apply (put (vmiSubresourceURL ApiStorageVersion ns vm "removevolume") (RemoveJSON o)) in He as (_ & _ & H). by apply (H vm o).
  - intros w vmis w' (t & Hp & Hpath) vm v (x & Hx & Hv).
    apply produces_inv in Hp as (r & t' & -> & Hp). destruct r as [l|e]; apply produces_inv in Hp as [-> [= ->]].
    destruct Hpath as (w1 & He & <-). destruct (kv_list _ _ _ He vm x Hx) as [Hin Hn]. exists x. done.
  - intros w vm v w' (t & Hp & Hpath). eapply seen_in_spec; [by eapply Hquiet|done|].
    by apply (answer_backed (Client.EnsureVolumeAvailableVM ns vm v)) in Hp; apply Hp.
  - intros w vm v d w' (t & Hp & Hpath). eapply seen_in_spec; [by eapply Hquiet|done|].
    by apply (answer_backed (Client.EnsureVolumeAvailable ns vm v d)) in Hp; apply Hp.
  - intros w vm v w' (t & Hp & Hpath). eapply gone_from_spec; [by eapply Hquiet|done|].
    by apply (answer_backed (Client.EnsureVolumeRemovedVM ns vm v)) in Hp; apply Hp.
  - intros w vm v d w' (t & Hp & Hpath). eapply gone_from_spec; [by eapply Hquiet|done|].
    by apply (answer_backed (Client.EnsureVolumeRemoved ns vm v d)) in Hp; apply Hp.
  - intros w vm r e w' (t & Hp & Hpath) He v. destruct e as [e|]; [|done].
    eapply gone_from_spec; [by eapply Hquiet|done|]. left. exists e. split; [|done].
    by apply (answer_backed (Client.GetWorkloadManagingVirtualMachine ns vm)) in Hp; apply Hp.
Qed.
End Client.

(** The RPCs through the real client. *)
Definition real_serves (cl : client) (c : ControllerService) (r : rpc) (t : trace kubeE) : Prop :=
  match r with
  | Publish req => begins (interp (implementation cl) (ControllerPublishVolume c (Some req))) t
  | Unpublish req => begins (interp (implementation cl) (ControllerUnpublishVolume c (Some req))) t
  end.

Section Cut.
Context {W : Type} `{!Namespaced W} (env : environment kubeE W) (c : ControllerService) (cl : client).
Context `{!KubeVirt env (infraClusterNamespace c)}.

(** An implementation cut before its end changed no spec. *)
Lemma implementation_cut m t w w' :
  begins (implementation cl m) t -> path env w t w' ->
  same_specs w w' \/ exists r, produces (implementation cl m) t (Val r).
Proof using All.
  assert (Hput : forall uri json, begins (kube (PutAbsPath uri json)) t -> path env w t w' ->
    same_specs w w' \/ exists r, produces (kube (PutAbsPath uri json)) t (Val r)).
  { intros uri json [->|(r & t' & -> & [->|[]]%begins_inv)]%begins_inv Hp; [by left; simpl in Hp; subst|].
    right. exists r. constructor. constructor. }
  intros Hb Hp. pose proof (implementation_quiet env (infraClusterNamespace c) cl m) as H.
  destruct m; try (left; exact (proj1 (path_undisturbed env (infraClusterNamespace c) cl _ _ _ (H t Hb) Hp))); by apply Hput.
Qed.

Lemma real_serves_cut r t w w' :
  real_serves cl c r t -> path env w t w' ->
  exists t1 w1, serves c r t1 /\ path (implemented (implementation cl) env) w t1 w1 /\ same_specs w1 w'.
Proof using All.
  intros Hs Hp. destruct r as [req|req]; simpl in *;
    by apply (interp_begins (implementation cl) env same_specs implementation_cut _ t).
Qed.

Lemma real_serves_kept exclusive r t w w' A :
  permitted exclusive r -> real_serves cl c r t -> path env w t w' -> settled w A -> attached_once exclusive A ->
  exists B, asks w' B /\ attached_once exclusive B.
Proof using All.
  intros Hr Hs Hp HA Ho. destruct (real_serves_cut _ _ _ _ Hs Hp) as (t1 & w1 & Hs1 & Hp1 & Hsame).
  pose proof (real_hotplug_client env (infraClusterNamespace c) cl).
  destruct (serves_kept c _ exclusive _ _ _ _ _ Hr Hs1 Hp1 HA Ho) as (B & Ha & HoB).
  exists B. split; [|done]. intros vm v. by rewrite (Hsame vm v).
Qed.
End Cut.

(** ** The server of ApiServer.v is one *)

#[export] Instance api_namespaced : Namespaced api := { vm_at w n := a_vms w !! n; vmi_at w n := a_vmis w !! n }.

(** VMIs are filed under their names and have a VM with a template. *)
Definition api_filed (w : api) : Prop := forall n vmi, a_vmis w !! n = Some vmi ->
  vmi_Name vmi = n /\ exists x t, a_vms w !! n = Some x /\ vm_Template x = Some t.

Definition api_env : environment kubeE api := fun o w r w' => api_filed w /\ of_handler api_server o w r w'.

Lemma vmSubresourceURL_inj ns n1 n2 sub :
  vmSubresourceURL ApiStorageVersion ns n1 sub = vmSubresourceURL ApiStorageVersion ns n2 sub -> n1 = n2.
Proof.
  unfold vmSubresourceURL. intros H. do 5 apply (inj (String.append _)) in H. by apply append_inj_r in H.
Qed.

Lemma volumeInSpec_plug v' v l : volumeInSpec v' (l ++ [mkVolume v None (Some (mkVMDataVolumeSource v true))]) = true <->
  volumeInSpec v' l = true \/ v' = v.
Proof. unfold volumeInSpec. rewrite existsb_app_iff. simpl. rewrite orb_false_r, streq_spec. naive_solver. Qed.

Lemma volumeInSpec_unplug v' v l : volumeInSpec v' (filter (fun x => negb (vol_Name x =s? v)) l) = true <->
  volumeInSpec v' l = true /\ v' <> v.
Proof.
  unfold volumeInSpec. induction l as [|x l IH]; [simpl; naive_solver|]. rewrite filter_cons. simpl.
  destruct (vol_Name x =s? v) eqn:Hx; simpl.
  - rewrite IH. apply streq_spec in Hx. rewrite orb_true_iff, andb_true_iff, streq_spec. naive_solver.
  - rewrite !orb_true_iff, andb_true_iff, IH, streq_spec. apply streq_false in Hx. naive_solver.
Qed.
(** The objects after an update of those that [b] selects. *)
Lemma lookup_update {A} (b : string -> bool) (g : A -> A) (m : gmap string A) n :
  map_imap (fun n x => Some (if b n then g x else x)) m !! n = (fun x => if b n then g x else x) <$> m !! n.
Proof. rewrite map_lookup_imap. by destruct (m !! n). Qed.

Lemma api_add_spec (b : string -> bool) v (w w' : api) :
  a_vms w' = map_imap (fun n x => Some (if b n then plug v x else x)) (a_vms w) ->
  forall vm' v', in_spec_of w' vm' v' <-> in_spec_of w vm' v' \/
    (b vm' = true /\ v' = v /\ exists x t, a_vms w !! vm' = Some x /\ vm_Template x = Some t).
Proof.
  intros Hw vm' v'. cbn [in_spec_of namespaced_hotplug vm_at api_namespaced]. rewrite Hw, lookup_update.
  destruct (a_vms w !! vm') as [[n ns [t|]]|]; simpl; [|destruct (b vm'); naive_solver|naive_solver].
  destruct (b vm'); [|naive_solver]. split.
  - intros (x & t' & [= <-] & Ht & Hv). injection Ht as <-. apply volumeInSpec_plug in Hv. naive_solver.
  - intros H. do 2 eexists. split; [done|]. split; [done|]. apply volumeInSpec_plug. naive_solver.
Qed.

Lemma api_remove_spec (b : string -> bool) v (w w' : api) :
  a_vms w' = map_imap (fun n x => Some (if b n then unplug v x else x)) (a_vms w) ->
  forall vm' v', in_spec_of w' vm' v' <-> in_spec_of w vm' v' /\ ~ (b vm' = true /\ v' = v).
Proof.
  intros Hw vm' v'. cbn [in_spec_of namespaced_hotplug vm_at api_namespaced]. rewrite Hw, lookup_update.
  destruct (a_vms w !! vm') as [[n ns [t|]]|]; simpl; [|destruct (b vm'); naive_solver|naive_solver].
  destruct (b vm'); [|naive_solver]. split.
  - intros (x & t' & [= <-] & Ht & Hv). injection Ht as <-. apply volumeInSpec_unplug in Hv. naive_solver.
  - intros H. do 2 eexists. split; [done|]. split; [done|]. apply volumeInSpec_unplug. naive_solver.
Qed.

Lemma api_add_status (b : string -> bool) v (w w' : api) :
  a_vmis w' = map_imap (fun n x => Some (if b n then plug_status v x else x)) (a_vmis w) ->
  forall vm' v', in_status_of w' vm' v' <-> in_status_of w vm' v' \/
    (b vm' = true /\ v' = v /\ is_Some (a_vmis w !! vm')).
Proof.
  intros Hw vm' v'. cbn [in_status_of namespaced_hotplug vmi_at api_namespaced]. rewrite Hw, lookup_update.
  destruct (a_vmis w !! vm') as [x|]; simpl; [|split; [naive_solver|intros [|(_ & _ & [])]; naive_solver]].
  destruct (b vm'); [|naive_solver]. unfold plug_status. split.
  - intros (y & [= <-] & Hv). simpl in Hv. rewrite existsb_app_iff in Hv. simpl in Hv.
    rewrite orb_false_r, streq_spec in Hv. destruct Hv as [Hv| ->]; [left; eauto|right; eauto].
  - intros H. eexists. split; [done|]. simpl. rewrite existsb_app_iff. simpl.
    rewrite orb_false_r, streq_spec. naive_solver.
Qed.

(** Which VM a request to a subresource is for. *)
Abbreviation on_vm vm sub :=
  (fun n => vmSubresourceURL ApiStorageVersion "infra" vm sub =s? vmSubresourceURL ApiStorageVersion "infra" n sub).

Lemma selects vm sub n : (vmSubresourceURL ApiStorageVersion "infra" vm sub =s? vmSubresourceURL ApiStorageVersion "infra" n sub) = true <-> n = vm.
Proof. rewrite streq_spec. split; [|by intros ->]. by intros H%vmSubresourceURL_inj. Qed.

Lemma not_selects vm sub n : (vmiSubresourceURL ApiStorageVersion "infra" vm sub =s? vmSubresourceURL ApiStorageVersion "infra" n sub) = false.
Proof.
  apply streq_false. unfold vmSubresourceURL, vmiSubresourceURL. intros H. do 4 apply (inj (String.append _)) in H. done.
Qed.

#[export] Instance api_kubevirt : KubeVirt api_env "infra".
Proof.
  split.
  - intros o w r w' Hq [_ He]. unfold of_handler in He.
    assert (Hsame : a_vms w' = a_vms w /\ a_vmis w' = a_vmis w).
    { destruct o as [s k rq| |s k rq| | | | | | | | | | |]; try done; simpl in He; try (by simplify_eq).
      - unfold do_request in He. destruct (rq_verb rq), (rq_name rq), (rq_body rq); simplify_eq; try done.
        all: try (destruct (get_object k w (object_Name o)); [by simplify_eq|]); destruct k; simpl in He; by simplify_eq.
      - unfold delete_request in He. destruct (rq_name rq); simplify_eq; [|done].
        destruct (get_object k w s0); simplify_eq; [|done]. destruct k; simpl in He; by simplify_eq. }
    destruct Hsame as [H1 H2]. split; intros vm v; cbn; rewrite H1, ?H2; naive_solver.
  - intros uri json w r w' [Hf He]. unfold of_handler in He. cbn [api_server] in He. injection He as _ <-.
    split; [|split]; intros vm o -> ->.
    + pose proof (api_add_spec (on_vm vm "addvolume") (av_Name o) w (hotplug_request _ (AddJSON o) w) eq_refl) as Hs.
      pose proof (api_add_status (on_vm vm "addvolume") (av_Name o) w (hotplug_request _ (AddJSON o) w) eq_refl) as Ht.
      setoid_rewrite selects in Hs. setoid_rewrite selects in Ht. split.
      * destruct (a_vms w !! vm) as [x|] eqn:Hx; [destruct (vm_Template x) as [t|] eqn:Htpl|].
        -- right. intros vm' v'. rewrite (Hs vm' v'). split.
           ++ intros [?|(-> & -> & _)]; auto.
           ++ intros [?|[-> ->]]; [by left|right; eauto 6].
        -- left. intros vm' v'. rewrite (Hs vm' v'). split; [|by left].
           intros [?|(-> & _ & y & t & Hy & Ht')]; [done|congruence].
        -- left. intros vm' v'. rewrite (Hs vm' v'). split; [|by left].
           intros [?|(-> & _ & y & t & Hy & _)]; [done|congruence].
      * intros vm' v'. rewrite (Hs vm' v'), (Ht vm' v'). split; [|by left].
        intros [H|(-> & -> & vmi & Hvmi)]; [by left|]. destruct (Hf _ _ Hvmi) as (_ & x & t & Hx & Htpl). eauto 9.
    + pose proof (api_remove_spec (on_vm vm "removevolume") (rv_Name o) w (hotplug_request _ (RemoveJSON o) w) eq_refl) as Hs.
      setoid_rewrite selects in Hs. right. exact Hs.
    + pose proof (api_remove_spec (fun n => vmiSubresourceURL ApiStorageVersion "infra" vm "removevolume" =s?
        vmSubresourceURL ApiStorageVersion "infra" n "removevolume") (rv_Name o) w (hotplug_request
        (vmiSubresourceURL ApiStorageVersion "infra" vm "removevolume") (RemoveJSON o) w) eq_refl) as Hs.
      intros vm' v'. rewrite (Hs vm' v'), not_selects. split; [by intros [? _]|]. intros H. split; [done|]. by intros [? _].
  - intros vm w x w' [_ He]. unfold of_handler in He. cbn in He. destruct (a_vms w !! vm) eqn:Hx; simplify_eq. done.
  - intros vm w e w' [_ He] _. unfold of_handler in He. cbn in He. destruct (a_vms w !! vm) eqn:Hx; simplify_eq. done.
  - intros w vmis w' [Hf He] n x Hx. unfold of_handler in He. cbn in He, Hx. simplify_eq. split.
    + apply list_elem_of_fmap. exists (n, x). split; [done|]. by apply elem_of_map_to_list.
    + by apply Hf.
Qed.
Lemma api_filed_update (b1 b2 : string -> bool) f g w w' :
  a_vms w' = map_imap (fun n x => Some (if b1 n then f x else x)) (a_vms w) ->
  a_vmis w' = map_imap (fun n x => Some (if b2 n then g x else x)) (a_vmis w) ->
  (forall x, vmi_Name (g x) = vmi_Name x) ->
  (forall x t, vm_Template x = Some t -> is_Some (vm_Template (f x))) ->
  api_filed w -> api_filed w'.
Proof.
  intros H1 H2 Hg Hf Hw n vmi. rewrite H1, H2, !lookup_update.
  destruct (a_vmis w !! n) as [x|] eqn:Hx; [|done]. destruct (Hw _ _ Hx) as (Hn & y & t & Hy & Ht). rewrite Hy. simpl.
  intros [= <-]. split; [by destruct (b2 n); rewrite ?Hg|].
  destruct (b1 n); [|eauto]. destruct (Hf _ _ Ht). eauto.
Qed.

Lemma api_filed_step o w : api_filed w -> api_filed (api_server o w).2.
Proof.
  intros Hw. destruct o as [s k rq| |s k rq| |uri [o|o]| | | | | | | | |]; try done; simpl.
  - unfold do_request. destruct (rq_verb rq), (rq_name rq), (rq_body rq); try done;
      (destruct (get_object k w (object_Name o)); [done|by destruct k]).
  - unfold delete_request. destruct (rq_name rq); [|done]. destruct (get_object k w s0); [|done]. by destruct k.
  - eapply api_filed_update; [reflexivity|reflexivity|done| |done]. intros x t Ht. unfold plug. simpl. rewrite Ht. by eexists.
  - eapply (api_filed_update _ _ _ _ w); [reflexivity|reflexivity|done| |done].
    intros x t Ht. unfold unplug. simpl. rewrite Ht. by eexists.
Qed.

(** A run against the server as a cut run. *)
Lemma api_run_to {A} (p : prog kubeE A) w w' :
  api_filed w -> run_world (exec api_server p w []) = w' -> exists t, begins p t /\ path api_env w t w'.
Proof.
  intros Hw <-. destruct (exec_runs api_env api_server api_filed p w) as [Hp Hpath]; [|done|].
  - intros o w' Hf. split; [|by apply api_filed_step]. split; [done|]. unfold of_handler. by destruct (api_server o w').
  - eexists. split; [by eapply produces_begins|done].
Qed.

Lemma demo_api_filed : api_filed demo_api.
Proof.
  intros n vmi. cbn. rewrite !lookup_insert_Some. intros [[<- <-]|[_ Hn]].
  - by vm_compute; eauto.
  - apply lookup_singleton_Some in Hn as [<- <-]. by vm_compute; eauto.
Qed.

Lemma demo_api_settled : settled demo_api ∅.
Proof.
  split; intros vm v; (split; [|set_solver]); intros (x & H); cbn in H.
  - destruct H as (t & Hx & Ht & Hv). apply lookup_insert_Some in Hx as [[_ <-]|[_ Hx]].
    + simpl in Ht. by simplify_eq.
    + apply lookup_singleton_Some in Hx as [_ <-]. simpl in Ht. by simplify_eq.
  - destruct H as (Hx & Hv). apply lookup_insert_Some in Hx as [[_ <-]|[_ Hx]]; [done|].
    by apply lookup_singleton_Some in Hx as [_ <-].
Qed.

(** The server after the volume was hot-plugged in the first VM. *)
Definition demo_api_attached : api :=
  hotplug_request (vmSubresourceURL ApiStorageVersion "infra" "vm1" "addvolume")
    (AddJSON (mkAddVolumeOptions "pvc-1" (mkDisk "uid-1" "scsi") "pvc-1")) demo_api.

Lemma demo_api_attached_filed : api_filed demo_api_attached.
Proof. apply (api_filed_step (PutAbsPath _ (AddJSON _)) demo_api), demo_api_filed. Qed.

Lemma demo_api_caught_up : caught_up demo_api_attached.
Proof.
  destruct demo_api_settled as [H1 H2]. intros vm v. specialize (H1 vm v). specialize (H2 vm v).
  rewrite (api_add_spec (on_vm "vm1" "addvolume") "pvc-1" demo_api demo_api_attached eq_refl vm v),
    (api_add_status (on_vm "vm1" "addvolume") "pvc-1" demo_api demo_api_attached eq_refl vm v), H1, H2.
  rewrite selects. split; (intros [H|(-> & -> & _)]; [by left|right; split; [done|split; [done|]]]).
  - by vm_compute; eauto.
  - by vm_compute; eauto.
Qed.

(** ** Properties *)



Lemma demo_api_moment : moment api_env (real_serves demo_client demo_controller) (fun v => v = "pvc-1") demo_api demo_api_attached.
Proof.
  destruct (api_run_to (interp (implementation demo_client) (ControllerPublishVolume demo_controller (Some demo_publish)))
    demo_api demo_api_attached demo_api_filed) as (t1 & Hb1 & Hp1); [by vm_compute|].
  destruct (api_run_to (interp (implementation demo_client) (ControllerPublishVolume demo_controller (Some demo_publish2)))
    demo_api_attached demo_api_attached demo_api_attached_filed) as (t2 & Hb2 & Hp2); [by vm_compute|].
  exists demo_api_attached, (Publish demo_publish2), t2. split; [|done].
  apply (history_next _ _ _ _ demo_api (Publish demo_publish) t1 demo_api_attached); try done; [apply history_start|].
  apply demo_api_caught_up.
Qed.

