(* ===== verification/Progress.v ===== *)
(** * Runs that get somewhere

    Total correctness against an environment: [leads env p w Q] says that every
    run of [p] from [w], whatever the environment answers, returns, with a result
    and a state in [Q], and that the environment does answer.  A program is a finite
    tree, so that what is left to show is that it does not panic and, of the loops,
    that they find what they wait for in the time they are given. *)

From S2P Require Import Prelude GoStrings Errors Effects Goroutines Wait.

Section Leads.
Context {E : signature} {W : Type} (env : environment E W).

Fixpoint leads {A} (p : prog E A) (w : W) (Q : A -> W -> Prop) : Prop :=
  match p with
  | Ret a => Q a w
  | Panic _ => False
  | Vis o k => (exists r w', env o w r w') /\ forall r w', env o w r w' -> leads (k r) w' Q
  end.

Lemma leads_mono {A} (p : prog E A) w (Q Q' : A -> W -> Prop) :
  (forall a w', Q a w' -> Q' a w') -> leads p w Q -> leads p w Q'.
Proof.
  intros HQ. revert w. induction p as [a|m|o k IH]; intros w; simpl; [apply HQ|done|].
  intros [Ha H]. split; [done|]. intros r w' He. by apply IH, H.
Qed.

Lemma leads_bind {A B} (p : prog E A) (f : A -> prog E B) w Q :
  leads (p ≫= f) w Q <-> leads p w (fun a w' => leads (f a) w' Q).
Proof.
  revert w. induction p as [a|m|o k IH]; intros w; simpl; [done..|].
  split; intros [Ha H]; (split; [done|]); intros r w' He; apply IH, H, He.
Qed.

#[export] Instance leads_proper {A} (w : W) (Q : A -> W -> Prop) : Proper ((≡) ==> iff) (fun p => leads p w Q).
Proof.
  intros p q H. revert w. induction H as [a|m|o k k' _ IH]; intros w; simpl; [done..|].
  split; intros [Ha Hk]; (split; [done|]); intros r w' He; apply (IH r w'), Hk, He.
Qed.

(** A run that is over has returned. *)
Lemma leads_runs {A} (p : prog E A) w Q t w' out :
  leads p w Q -> runs env p w t w' out -> exists a, out = Val a /\ Q a w'.
Proof.
  intros Hp [Hprod Hpath]. revert w Hp Hpath.
  induction Hprod as [a|m|o k r t out Hprod IH]; intros w Hp Hpath; simpl in *.
  - subst. by exists a.
  - done.
  - destruct Hpath as (w1 & He & Hpath). apply (IH w1); [by apply Hp|done].
Qed.

(** ** Loops *)

Section Loops.
Context (window : Z -> Z -> prog E (nat * error)) (sleep : Z -> prog E unit).

(** A poll that needs no more than [n] further ticks: [I n] holds before the
    condition is looked at, and [I 0] where it must be true. *)
Lemma leads_poll_ticks (I : nat -> W -> Prop) (Q : option error -> W -> Prop) cond ticks e : forall n w,
  (forall n w, I n w -> leads cond w (fun r w' => (r = (true, None) /\ Q None w') \/
     (r = (false, None) /\ exists m, n = S m /\ I m w'))) ->
  I n w -> (n < ticks)%nat -> leads (poll_ticks ticks e cond) w Q.
Proof.
  induction ticks as [|ticks IH]; intros n w Hc Hi Hn; [lia|]. cbn [poll_ticks]. apply leads_bind.
  eapply leads_mono; [|by apply (Hc n)]. intros r w' [[-> HQ]|[-> (m & -> & Hm)]]; simpl; [done|].
  apply (IH m); [done|done|lia].
Qed.

Lemma leads_poll (I : nat -> W -> Prop) (Q : option error -> W -> Prop) cond interval timeout w :
  (forall n w, I n w -> leads cond w (fun r w' => (r = (true, None) /\ Q None w') \/
     (r = (false, None) /\ exists m, n = S m /\ I m w'))) ->
  leads (window interval timeout) w (fun r w' => exists n, I n w' /\ (n <= r.1)%nat) ->
  leads (PollUntilContextTimeout window interval timeout true cond) w Q.
Proof.
  intros Hc Hw. unfold PollUntilContextTimeout. apply leads_bind. eapply leads_mono; [|exact Hw].
  intros [ticks e] w' (n & Hi & Hn). simpl in Hn. apply leads_bind. eapply leads_mono; [|by apply (Hc n)].
  intros r w'' [[-> HQ]|[-> (m & -> & Hm)]]; simpl; [done|].
  apply (leads_poll_ticks I Q cond ticks e m); [done|done|lia].
Qed.

(** A retry loop whose first attempt succeeds. *)
Lemma leads_backoff (Q : option error -> W -> Prop) b cond w :
  0 < Steps b -> leads cond w (fun r w' => r = (true, None) /\ Q None w') ->
  leads (ExponentialBackoff sleep b cond) w Q.
Proof.
  intros Hb Hc. unfold ExponentialBackoff. destruct (Z.to_nat (Steps b)) as [|f] eqn:Hf; [lia|]. simpl.
  rewrite (proj2 (Z.ltb_lt _ _) Hb). apply leads_bind. eapply leads_mono; [|exact Hc]. by intros r w' [-> HQ].
Qed.
End Loops.
End Leads.

(** The calls of an interface, implemented. *)
Lemma leads_interp {E F : signature} {W A} (env : environment F W) (h : forall o : op E, prog F (resp o)) (o : op E)
    (k : resp o -> prog E A) w Q :
  leads env (interp h (Vis o k)) w Q <-> leads env (h o) w (fun r w' => leads env (interp h (k r)) w' Q).
Proof. apply leads_bind. Qed.

Lemma leads_interp_bind {E F : signature} {W A B} (env : environment F W) (h : forall o : op E, prog F (resp o))
    (p : prog E A) (f : A -> prog E B) w Q :
  leads env (interp h (p ≫= f)) w Q <-> leads env (interp h p) w (fun a w' => leads env (interp h (f a)) w' Q).
Proof. rewrite (leads_proper env w Q _ _ (interp_bind h p f)). apply leads_bind. Qed.

Lemma leads_interp_backoff {E F : signature} {W} (env : environment F W) (h : forall o : op E, prog F (resp o)) sleep
    (Q : option error -> W -> Prop) b cond w :
  0 < Steps b -> leads env (interp h cond) w (fun r w' => r = (true, None) /\ Q None w') ->
  leads env (interp h (ExponentialBackoff sleep b cond)) w Q.
Proof.
  intros Hb Hc. unfold ExponentialBackoff. destruct (Z.to_nat (Steps b)) as [|f] eqn:Hf; [lia|]. simpl.
  rewrite (proj2 (Z.ltb_lt _ _) Hb). apply leads_interp_bind. eapply leads_mono; [|exact Hc]. by intros r w' [-> HQ].
Qed.
