(* ===== verification/Lifecycle.v ===== *)
(** * The life of a volume

    The other theorems say what a success of an RPC is evidence of and what a
    failure leaves.  Here: on an infra cluster in good health the RPCs do succeed.
    What is asked of the cluster is the class [Healthy]: the API server answers
    every request, a read with what it keeps; it does what it is asked to; and the
    VMI statuses, which follow the specs in their own time, are up to date after
    [patience] further looks, no more than the ticks that a poll is given.  A volume then goes
    through its life without an error, each step twice, through the real client,
    and leaves the cluster as it was. *)

From S2P Require Import Prelude GoStrings Errors Effects Goroutines Wait Objects Csi Util.
From S2P Require Import ClientAPI Fixtures Controller Volumes Attach Clientsets Labels SnapshotClass KubeClient ApiServer Ownership InfraAttach Progress.
Import Kube.

Local Open Scope Z_scope.

(** ** A cluster in good health *)

(** What it keeps of the namespace: the DataVolumes, the volumes hot-plugged in
    the spec of each VM, those that the status of each VMI reports, and how many
    more looks at a VMI it takes at most until the statuses are up to date. *)
Class Cluster (W : Type) := {
  volumes : W -> gmap string DataVolume;
  vms : W -> gmap string (gset string);
  reported : W -> string -> gset string;
  lag : W -> nat }.

Section Cluster.
Context {W : Type} `{!Cluster W}.

Definition spec (w : W) (vm : string) : gset string := default ∅ (vms w !! vm).

(** Statuses gain only what a spec asks for, and are right where nothing lags. *)
Definition statuses_follow (w w' : W) : Prop :=
  (forall vm, reported w' vm ⊆ reported w vm ∪ spec w' vm) /\
  (lag w' = 0%nat -> forall vm, reported w' vm = spec w' vm).

(** Nothing but statuses. *)
Definition settling (w w' : W) : Prop :=
  volumes w' = volumes w /\ vms w' = vms w /\ (lag w' <= lag w)%nat /\ statuses_follow w w'.
(** The cluster keeps these DataVolumes and these VMs, and the volume shows, in
    specs and statuses, on no other VMs than [on]. *)
Definition stage (v : string) (X : gmap string DataVolume) (Y : gmap string (gset string)) (on : string -> Prop) (w : W) : Prop :=
  volumes w = X /\ vms w = Y /\ forall u, v ∈ reported w u ∪ spec w u -> on u.

Lemma stage_settling v X Y on w w' : settling w w' -> stage v X Y on w -> stage v X Y on w'.
Proof.
  intros (Hx & Hy & _ & Hs & _) (Hx' & Hy' & Hon). split_and!; [congruence..|].
  intros u Hu. apply Hon. specialize (Hs u). unfold spec in *. rewrite Hy in *. set_solver.
Qed.

(** A change that does not put the volume anywhere. *)
Lemma stage_statuses v X Y X' Y' (on : string -> Prop) w w' :
  stage v X Y on w -> statuses_follow w w' -> volumes w' = X' -> vms w' = Y' ->
  (forall u, v ∈ default ∅ (Y' !! u) -> on u) -> stage v X' Y' on w'.
Proof.
  intros (_ & _ & Hon) [Hs _] HX HY HY'. split_and!; [done..|]. intros u Hu. unfold spec in *. rewrite HY in *.
  specialize (Hs u). specialize (Hon u). specialize (HY' u). set_solver.
Qed.

End Cluster.

Class Healthy {W} `{!Cluster W} (env : environment kubeE W) (cl : client) (ns : string) (patience : nat) : Prop := {
  answers o w : exists r w', env o w r w';
  get_dv n w r w' : env (Do Infra KDataVolume (getRequest KDataVolume (Some ns) n)) w r w' -> settling w w' /\
    (forall d : DataVolume, volumes w !! n = Some d -> r = inl d) /\
    (volumes w !! n = None -> exists e, r = inr e /\ IsNotFound (Some e) = true);
  post_dv d w r w' : env (Do Infra KDataVolume (createRequest KDataVolume (Some ns) d)) w r w' ->
    volumes w !! dv_Name d = None ->
    exists d', r = inl d' /\ dv_Name d' = dv_Name d /\ dv_Labels d' = dv_Labels d /\ dv_Storage d' = dv_Storage d /\
      volumes w' = <[dv_Name d := d']> (volumes w) /\ vms w' = vms w /\ statuses_follow w w';
  delete_dv n w r w' : env (DoError Infra KDataVolume (deleteRequest KDataVolume (Some ns) n)) w r w' ->
    is_Some (volumes w !! n) ->
    r = None /\ volumes w' = delete n (volumes w) /\ vms w' = vms w /\ statuses_follow w w';
  get_vm vm S w r w' : env (Do Infra KVirtualMachine (getRequest KVirtualMachine (Some ns) vm)) w r w' ->
    vms w !! vm = Some S -> settling w w' /\
    exists x t, r = inl x /\ vm_Template x = Some t /\ forall v, HasPrefix v (volumePrefix cl) = true ->
      hotpluggedInSpec v (tpl_Volumes t) = bool_decide (v ∈ S) /\ volumeInSpec v (tpl_Volumes t) = bool_decide (v ∈ S);
  get_vmi vm w r w' : env (Do Infra KVirtualMachineInstance (getRequest KVirtualMachineInstance (Some ns) vm)) w r w' ->
    is_Some (vms w !! vm) -> settling w w' /\ (lag w' <= pred (lag w))%nat /\
    exists x, r = inl x /\ forall v, HasPrefix v (volumePrefix cl) = true ->
      existsb (fun s => vs_Name s =s? v) (vmi_VolumeStatus x) = bool_decide (v ∈ reported w' vm) /\
      (lag w' = 0%nat -> v ∈ reported w' vm ->
         existsb (fun s => (vs_Name s =s? v) && (vs_Phase s =s? VolumeReady)) (vmi_VolumeStatus x) = true);
  list_vmis w r w' : env (DoList Infra KVirtualMachineInstance (listRequest KVirtualMachineInstance (Some ns))) w r w' ->
    settling w w' /\ exists l, r = inl l /\ forall x v, x ∈ l -> HasPrefix v (volumePrefix cl) = true ->
      existsb (fun s => vs_Name s =s? v) (vmi_VolumeStatus x) = true -> v ∈ reported w' (vmi_Name x);
  put_add vm o S w r w' :
    env (PutAbsPath (vmSubresourceURL ApiStorageVersion ns vm "addvolume") (AddJSON o)) w r w' -> vms w !! vm = Some S ->
    r = None /\ volumes w' = volumes w /\ vms w' = <[vm := {[av_Name o]} ∪ S]> (vms w) /\ (lag w' <= patience)%nat /\
    statuses_follow w w';
  put_remove vm o S w r w' :
    env (PutAbsPath (vmSubresourceURL ApiStorageVersion ns vm "removevolume") (RemoveJSON o)) w r w' -> vms w !! vm = Some S ->
    r = None /\ volumes w' = volumes w /\ vms w' = <[vm := S ∖ {[rv_Name o]}]> (vms w) /\ (lag w' <= patience)%nat /\
    statuses_follow w w';
  window w n e w' : env (Window Second (Minute * 2)) w (n, e) w' -> settling w w' /\ (patience <= n)%nat }.

(** A request is answered. *)
Ltac ask := split; [match goal with |- exists r w', _ ?o ?w r w' => exact (answers o w) end|].

Section Life.
Context {W : Type} `{!Cluster W} (env : environment kubeE W) (cl : client) (c : ControllerService) (patience : nat).
Context `{!Healthy env cl (infraClusterNamespace c) patience}.

Abbreviation ns := (infraClusterNamespace c).
Abbreviation rpc p := (interp (implementation cl) p).

Section Volume.
Variable v : string.
Hypothesis mine : HasPrefix v (volumePrefix cl) = true.

(** ** The methods of the client *)

Section Reads.
Variables (X : gmap string DataVolume) (Y : gmap string (gset string)) (on : string -> Prop).
Abbreviation at_stage := (stage v X Y on).

Lemma call_leads {A} m (f : resp (m : op clientE) -> prog clientE A) w Q :
  leads env (implementation cl m) w (fun r w' => leads env (rpc (f r)) w' Q) -> leads env (rpc (invoke m ≫= f)) w Q.
Proof using Type. intros H. by apply leads_interp. Qed.

(** The driver's own DataVolume of that name. *)
Definition ours (d : DataVolume) : Prop := dv_Name d = v /\ containsLabels (dv_Labels d) (infraLabelMap cl) = true.

Lemma get_present d w (Q : resp (Client.GetDataVolume ns v : op clientE) -> W -> Prop) :
  X !! v = Some d -> ours d -> at_stage w -> (forall w', at_stage w' -> Q (Some d, None) w') ->
  leads env (implementation cl (Client.GetDataVolume ns v)) w Q.
Proof using Healthy0 mine.
  intros Hd [Hn Hl] Hw HQ. cbn -[getRequest]. unfold GetDataVolume. cbn. ask. intros r w' He. apply get_dv in He as (Hs & Hr & _).
  rewrite (Hr d) by (rewrite (proj1 Hw); done). cbn. rewrite Hl, Hn, mine. cbn. apply HQ. by eapply stage_settling.
Qed.

Lemma get_absent w (Q : resp (Client.GetDataVolume ns v : op clientE) -> W -> Prop) :
  X !! v = None -> at_stage w -> (forall e w', IsNotFound (Some e) = true -> at_stage w' -> Q (None, Some e) w') ->
  leads env (implementation cl (Client.GetDataVolume ns v)) w Q.
Proof using Healthy0.
  intros Hd Hw HQ. cbn. unfold GetDataVolume. cbn. ask. intros r w' He. apply get_dv in He as (Hs & _ & Hr).
  destruct Hr as (e & -> & He); [rewrite (proj1 Hw); done|]. cbn. apply HQ; [done|]. by eapply stage_settling.
Qed.

Variables (vm : string) (S : gset string).
Hypothesis HS : Y !! vm = Some S.

Lemma read_vm w (Q : resp (Client.GetWorkloadManagingVirtualMachine ns vm : op clientE) -> W -> Prop) :
  at_stage w -> (forall x t w', vm_Template x = Some t -> hotpluggedInSpec v (tpl_Volumes t) = bool_decide (v ∈ S) ->
     at_stage w' -> Q (Some x, None) w') ->
  leads env (implementation cl (Client.GetWorkloadManagingVirtualMachine ns vm)) w Q.
Proof using Healthy0 mine HS.
  intros Hw HQ. cbn. unfold GetWorkloadManagingVirtualMachine. cbn. ask. intros r w' He.
  apply (get_vm vm S) in He as (Hs & x & t & -> & Ht & Hv); [|by rewrite (proj1 (proj2 Hw))].
  cbn. apply (HQ x t); [done|by apply Hv|by eapply stage_settling].
Qed.

Lemma available_vm w Q : at_stage w -> (forall w', at_stage w' -> Q (bool_decide (v ∈ S), None) w') ->
  leads env (EnsureVolumeAvailableVM ns vm v) w Q.
Proof using Healthy0 mine HS.
  intros Hw HQ. unfold EnsureVolumeAvailableVM. cbn. ask. intros r w' He.
  apply (get_vm vm S) in He as (Hs & x & t & -> & Ht & Hv); [|by rewrite (proj1 (proj2 Hw))].
  cbn. rewrite Ht. cbn. rewrite (proj2 (Hv v mine)). apply HQ. by eapply stage_settling.
Qed.

Lemma removed_vm w Q : at_stage w -> (forall w', at_stage w' -> Q (negb (bool_decide (v ∈ S)), None) w') ->
  leads env (EnsureVolumeRemovedVM ns vm v) w Q.
Proof using Healthy0 mine HS.
  intros Hw HQ. unfold EnsureVolumeRemovedVM. cbn. ask. intros r w' He.
  apply (get_vm vm S) in He as (Hs & x & t & -> & Ht & Hv); [|by rewrite (proj1 (proj2 Hw))].
  cbn. rewrite Ht. cbn. rewrite (proj2 (Hv v mine)). apply HQ. by eapply stage_settling.
Qed.

(** The status of the VMI, where the volume is nowhere. *)
Lemma removed_vmi w Q : (forall u, ~ on u) -> at_stage w -> (forall w', at_stage w' -> Q (true, None) w') ->
  leads env (EnsureVolumeRemovedVMI ns vm v) w Q.
Proof using Healthy0 mine HS.
  intros Hno Hw HQ. unfold EnsureVolumeRemovedVMI. cbn. ask. intros r w' He.
  apply get_vmi in He as (Hs & _ & x & -> & Hv); [|by rewrite (proj1 (proj2 Hw)), HS].
  assert (Hw' : at_stage w') by (by eapply stage_settling). cbn.
  assert (hotplugInStatus v x = false) as ->; [|by apply HQ]. apply not_true_iff_false. intros (s & Hin & Hx')%existsb_In.
  assert (Hx : existsb (fun s => vs_Name s =s? v) (vmi_VolumeStatus x) = true).
  { apply existsb_In. exists s. split; [done|]. by apply andb_true_iff in Hx' as [_ ?]. }
  rewrite (proj1 (Hv v mine)) in Hx. apply bool_decide_eq_true in Hx. apply (Hno vm), Hw'. set_solver.
Qed.

(** The poll that waits for the status to follow the spec. *)
Lemma becomes_available w Q : v ∈ S -> (lag w <= patience)%nat -> at_stage w -> (forall w', at_stage w' -> Q None w') ->
  leads env (implementation cl (Client.EnsureVolumeAvailable ns vm v (Minute * 2))) w Q.
Proof using Healthy0 mine HS.
  intros Hv Hl Hw HQ. cbn. unfold EnsureVolumeAvailable.
  apply (leads_poll env kube_window (fun n w => (lag w <= n)%nat /\ at_stage w)).
  - clear w Hl Hw. intros n w [Hl Hw]. unfold volumeAvailable, GetVirtualMachine. cbn. ask. intros r w' He.
    apply get_vmi in He as (Hs & Hlag & x & -> & Hst); [|by rewrite (proj1 (proj2 Hw)), HS]. cbn.
    assert (Hw' : at_stage w') by (by eapply stage_settling).
    destruct (existsb _ _) eqn:Hr; cbn.
    + apply available_vm; [done|]. intros w'' Hw''. rewrite bool_decide_true by done. left. auto.
    + right. split; [done|]. destruct (decide (lag w' = 0%nat)) as [H0|H0]; [|exists (pred n); split_and!; [lia..|done]].
      assert (v ∈ reported w' vm).
      { rewrite (proj2 (proj2 (proj2 (proj2 Hs))) H0). unfold spec. by rewrite (proj1 (proj2 Hw')), HS. }
      rewrite (proj2 (Hst v mine)) in Hr; done.
  - cbn. ask. intros [n e] w' He. apply window in He as [Hs Hn]. exists patience. split; [|done].
    split; [destruct Hs as (_ & _ & ? & _); lia|]. by eapply stage_settling.
Qed.

(** The listing of a publish: no VMI reports the volume but where it is. *)
Lemma lists_vmis w (Q : resp (Client.ListVirtualMachines ns : op clientE) -> W -> Prop) :
  (forall u, on u -> u = vm) -> at_stage w ->
  (forall l w', attachedElsewhere v vm l = false -> at_stage w' -> Q (l, None) w') ->
  leads env (implementation cl (Client.ListVirtualMachines ns)) w Q.
Proof using Healthy0 mine.
  intros Hone Hw HQ. cbn. unfold ListVirtualMachines. cbn. ask. intros r w' He. apply list_vmis in He as (Hs & l & -> & Hl). cbn.
  assert (Hw' : at_stage w') by (by eapply stage_settling). apply HQ; [|done].
  apply not_true_iff_false. intros (x & Hx & [Hne Hv]%andb_true_iff)%existsb_In.
  reflect_bools. apply Hne, Hone, Hw'. apply elem_of_union. left. by apply Hl.
Qed.

End Reads.

(** ** Changes *)

Section Changes.
Variables (X : gmap string DataVolume) (Y : gmap string (gset string)) (on : string -> Prop).
Abbreviation at_stage := (stage v X Y on).

Lemma creates d w (Q : resp (Client.CreateDataVolume ns d : op clientE) -> W -> Prop) :
  dv_Name d = v -> X !! v = None -> at_stage w ->
  (forall d' w', dv_Name d' = v -> dv_Labels d' = dv_Labels d -> dv_Storage d' = dv_Storage d ->
     stage v (<[v := d']> X) Y on w' -> Q (Some d', None) w') ->
  leads env (implementation cl (Client.CreateDataVolume ns d)) w Q.
Proof using Healthy0 mine.
  intros Hn HX Hw HQ. cbn. unfold CreateDataVolume. rewrite Hn, mine. cbn. ask. intros r w' He.
  apply post_dv in He as (d' & -> & Hd & Hl & Hst & Hv & Hm & Hs); [|by rewrite Hn, (proj1 Hw)].
  cbn. rewrite Hn in *. apply HQ; [done..|]. pose proof Hw as (Hx & Hy & Hon).
  eapply stage_statuses; [exact Hw|done|by rewrite Hv, ?Hx|by rewrite Hm, ?Hy|]. intros u Hu. apply Hon. unfold spec. rewrite Hy. set_solver.
Qed.

Lemma deletes d w Q : X !! v = Some d -> ours d -> at_stage w -> (forall w', stage v (delete v X) Y on w' -> Q None w') ->
  leads env (implementation cl (Client.DeleteDataVolume ns v)) w Q.
Proof using Healthy0 mine.
  intros HX Ho Hw HQ. cbn -[GetDataVolume]. unfold DeleteDataVolume. apply leads_bind.
  eapply get_present; [done|done|exact Hw|]. clear w Hw. intros w Hw. cbn. rewrite (proj1 Ho). ask. intros r w' He.
  apply delete_dv in He as (-> & Hv & Hm & Hs); [|by rewrite (proj1 Hw), HX]. apply HQ. pose proof Hw as (Hx & Hy & Hon).
  eapply stage_statuses; [exact Hw|done|by rewrite Hv, ?Hx|by rewrite Hm, ?Hy|]. intros u Hu. apply Hon. unfold spec. rewrite Hy. set_solver.
Qed.

Lemma deletes_nothing w Q : X !! v = None -> at_stage w -> (forall w', at_stage w' -> Q None w') ->
  leads env (implementation cl (Client.DeleteDataVolume ns v)) w Q.
Proof using Healthy0.
  intros HX Hw HQ. cbn -[GetDataVolume]. unfold DeleteDataVolume. apply leads_bind.
  eapply get_absent; [done|exact Hw|]. intros e w' He Hw'. rewrite He. by apply HQ.
Qed.

Variables (vm : string) (S : gset string).
Hypothesis HS : Y !! vm = Some S.

(** The poll that waits for the status to lose the volume. *)
Lemma becomes_removed w Q : v ∉ S -> (forall u, on u -> u = vm) -> (lag w <= patience)%nat -> at_stage w ->
  (forall w', stage v X Y (fun _ => False) w' -> Q None w') ->
  leads env (implementation cl (Client.EnsureVolumeRemoved ns vm v (Minute * 2))) w Q.
Proof using Healthy0 mine HS.
  intros Hv Hone Hl Hw HQ. cbn. unfold EnsureVolumeRemoved.
  apply (leads_poll env kube_window (fun n w => (lag w <= n)%nat /\ at_stage w)).
  - clear w Hl Hw. intros n w [Hl Hw]. unfold volumeRemoved, GetVirtualMachine. cbn. ask. intros r w' He.
    apply get_vmi in He as (Hs & Hlag & x & -> & Hst); [|by rewrite (proj1 (proj2 Hw)), HS]. cbn.
    assert (Hw' : at_stage w') by (by eapply stage_settling).
    rewrite (proj1 (Hst v mine)). case_bool_decide as Hr; cbn.
    + right. split; [done|]. destruct (decide (lag w' = 0%nat)) as [H0|H0]; [|exists (pred n); split_and!; [lia..|done]].
      rewrite (proj2 (proj2 (proj2 (proj2 Hs))) H0) in Hr. unfold spec in Hr. by rewrite (proj1 (proj2 Hw')), HS in Hr.
    + assert (Hn : stage v X Y (fun _ => False) w').
      { destruct Hw' as (? & Hy & Hon). split_and!; [done..|]. intros u Hu. pose proof (Hone u (Hon u Hu)) as ->.
        unfold spec in Hu. rewrite Hy, HS in Hu. set_solver. }
      eapply removed_vm; [exact HS|exact Hn|]. intros w'' Hw''. rewrite bool_decide_false by done. left. auto.
  - cbn. ask. intros [n e] w' He. apply window in He as [Hs Hn]. exists patience. split; [|done].
    split; [destruct Hs as (_ & _ & ? & _); lia|]. by eapply stage_settling.
Qed.

Lemma plugs o w (Q : resp (Client.AddVolumeToVM ns vm o : op clientE) -> W -> Prop) :
  av_Name o = v -> (forall u, on u -> u = vm) -> at_stage w ->
  (forall w', (lag w' <= patience)%nat -> stage v X (<[vm := {[v]} ∪ S]> Y) (fun u => u = vm) w' -> Q None w') ->
  leads env (implementation cl (Client.AddVolumeToVM ns vm o)) w Q.
Proof using Healthy0 mine HS.
  intros Ho Hone Hw HQ. cbn. unfold AddVolumeToVM. cbn. ask. intros r w' He. pose proof Hw as (Hx & Hy & Hon).
  apply (put_add vm o S) in He as (-> & Hv & Hm & Hl & Hs); [|by rewrite Hy]. apply HQ; [done|]. rewrite Ho in Hm.
  assert (Hw1 : stage v X Y (fun u => u = vm) w) by (split_and!; [done..|]; intros u Hu; by apply Hone, Hon).
  eapply stage_statuses; [exact Hw1|done|by rewrite Hv, ?Hx|by rewrite Hm, ?Hy|]. intros u Hu. destruct (decide (u = vm)) as [|Hne]; [done|].
  rewrite lookup_insert_ne in Hu by done. apply Hw1. unfold spec. rewrite Hy. set_solver.
Qed.

Lemma unplugs o w (Q : resp (Client.RemoveVolumeFromVM ns vm o : op clientE) -> W -> Prop) :
  rv_Name o = v -> at_stage w ->
  (forall w', (lag w' <= patience)%nat -> stage v X (<[vm := S ∖ {[v]}]> Y) on w' -> Q None w') ->
  leads env (implementation cl (Client.RemoveVolumeFromVM ns vm o)) w Q.
Proof using Healthy0 mine HS.
  intros Ho Hw HQ. cbn. unfold RemoveVolumeFromVM. cbn. ask. intros r w' He. pose proof Hw as (Hx & Hy & Hon).
  apply (put_remove vm o S) in He as (-> & Hv & Hm & Hl & Hs); [|by rewrite Hy]. apply HQ; [done|]. rewrite Ho in Hm.
  eapply stage_statuses; [exact Hw|done|by rewrite Hv, ?Hx|by rewrite Hm, ?Hy|]. intros u Hu. destruct (decide (u = vm)) as [->|Hne].
  - rewrite lookup_insert_eq in Hu. simpl in Hu. apply Hon. unfold spec. rewrite Hy, HS. set_solver.
  - rewrite lookup_insert_ne in Hu by done. apply Hon. unfold spec. rewrite Hy. set_solver.
Qed.
End Changes.

(** ** The RPCs *)

(** A program that leads somewhere through the real client. *)
Abbreviation goes p w Q := (leads env (rpc p) w Q).

Section Create.
Variables (req : CreateVolumeRequest) (isRWX : bool) (Y : gmap string (gset string)) (on : string -> Prop).
Hypothesis named : cv_Name req = v.
Hypothesis accepted : acceptable c req isRWX.
Hypothesis blank : cv_VolumeContentSource req = None.
Hypothesis labelled : containsLabels (infraClusterLabels c) (infraLabelMap cl) = true.

(** The DataVolume is the one that the request made. *)
Definition madeFor (d : DataVolume) : Prop :=
  ours d /\ exists st, dv_Storage d = Some st /\
    storage_of (st_Requests st) = NewQuantity (GetRequiredBytes (cv_CapacityRange req)).

Lemma create_new X w Q : X !! v = None -> stage v X Y on w ->
  (forall d w', madeFor d -> stage v (<[v := d]> X) Y on w' -> Q (Some (createResponse req (dv_UID d)), None) w') ->
  goes (CreateVolume c (Some req)) w Q.
Proof using All.
  intros HX Hw HQ. unfold CreateVolume. apply validate_acceptable in accepted as ->. psimpl.
  unfold determineDvSource. rewrite blank. psimpl. rewrite named.
  apply call_leads. eapply get_absent; [done|exact Hw|]. clear w Hw. intros e w He Hw. psimpl. rewrite He. psimpl.
  apply call_leads. eapply creates; [done|done|exact Hw|]. clear w Hw. intros d w Hn Hl Hst Hw. psimpl.
  unfold createResponse in HQ. rewrite named, blank in HQ. apply HQ; [|done]. split; [split; [done|by rewrite Hl]|].
  rewrite Hst. eexists. split; [done|]. unfold storage_of. simpl. by rewrite lookup_singleton_eq.
Qed.

Lemma create_again X d w Q : X !! v = Some d -> madeFor d -> stage v X Y on w ->
  (forall w', stage v X Y on w' -> Q (Some (createResponse req (dv_UID d)), None) w') ->
  goes (CreateVolume c (Some req)) w Q.
Proof using All.
  intros HX [Ho (st & Hst & Hq)] Hw HQ. unfold CreateVolume. apply validate_acceptable in accepted as ->. psimpl.
  unfold determineDvSource. rewrite blank. psimpl. rewrite named.
  apply call_leads. eapply get_present; [done|done|exact Hw|]. clear w Hw. intros w Hw. rewrite IsNotFound_nil. psimpl.
  destruct d as [n1 n2 uid n4 n5 st' n7]. cbn [dv_Storage] in Hst. subst st'. rewrite Hq, NewScaledQuantity_0, Cmp_refl.
  unfold createResponse in HQ. rewrite named, blank in HQ. by apply HQ.
Qed.
End Create.

Lemma delete_goes X Y on d w Q : v <> "" -> X !! v = Some d -> ours d -> stage v X Y on w ->
  (forall w', stage v (delete v X) Y on w' -> Q (Some mkDeleteVolumeResponse, None) w') ->
  goes (DeleteVolume c (Some (mkDeleteVolumeRequest v))) w Q.
Proof using Healthy0 mine.
  intros Hv HX Ho Hw HQ. unfold DeleteVolume, validateDeleteVolumeRequest. cbn [delv_VolumeId].
  apply is_empty_false in Hv as ->. psimpl. apply call_leads. eapply deletes; [done|done|exact Hw|]. done.
Qed.

Lemma delete_again X Y on w Q : v <> "" -> X !! v = None -> stage v X Y on w ->
  (forall w', stage v X Y on w' -> Q (Some mkDeleteVolumeResponse, None) w') ->
  goes (DeleteVolume c (Some (mkDeleteVolumeRequest v))) w Q.
Proof using Healthy0.
  intros Hv HX Hw HQ. unfold DeleteVolume, validateDeleteVolumeRequest. cbn [delv_VolumeId].
  apply is_empty_false in Hv as ->. psimpl. apply call_leads. eapply deletes_nothing; [done|exact Hw|]. done.
Qed.

Section Publish.
Variables (X : gmap string DataVolume) (Y : gmap string (gset string)) (d : DataVolume).
Variables (req : ControllerPublishVolumeRequest) (k vm : string) (S : gset string) (isRWX : bool).
Hypothesis there : X !! v = Some d.
Hypothesis own : ours d.
Hypothesis of_volume : cp_VolumeId req = v.
Hypothesis valid : validateControllerPublishVolumeRequest (Some req) = None.
Hypothesis node : SplitMetaNamespaceKey (cp_NodeId req) = (k, vm, None).
Hypothesis mode : hasRWXCapabiltyAccessMode (GetAccessMode (cp_VolumeCapability req)) = (isRWX, None).

(** Up to the look at the spec, which decides. *)
Lemma publish_prefix on w Q : Y !! vm = Some S -> (forall u, on u -> u = vm) -> stage v X Y on w ->
  (forall w', stage v X Y on w' -> goes (
     if bool_decide (v ∈ S) then Ret (Some mkControllerPublishVolumeResponse, None) else
     err ← ExponentialBackoff client_sleep hotplugBackoff (attempt (addVolumeToVm c v vm (publishOptions req)));
     if negb (is_nil err) then Ret (None, err) else
     err ← invoke (Client.EnsureVolumeAvailable ns vm v (Minute * 2));
     if negb (is_nil err) then Ret (None, err) else Ret (Some mkControllerPublishVolumeResponse, None)) w' Q) ->
  goes (ControllerPublishVolume c (Some req)) w Q.
Proof using All.
  intros HS Hone Hw HQ. unfold ControllerPublishVolume. rewrite valid. psimpl. rewrite node. psimpl. rewrite mode.
  assert (Hgo : forall w, stage v X Y on w -> goes (publishVolume c req vm) w Q).
  { clear w Hw. intros w Hw. unfold publishVolume. rewrite of_volume.
    apply call_leads. eapply get_present; [done|done|exact Hw|]. clear w Hw. intros w Hw. rewrite IsNotFound_nil. psimpl.
    apply call_leads. eapply read_vm; [exact HS|exact Hw|]. clear w Hw. intros x t w _ _ Hw. psimpl.
    apply call_leads. eapply available_vm; [exact HS|exact Hw|]. clear w Hw. intros w Hw. psimpl.
    specialize (HQ w Hw). unfold publishOptions in HQ. rewrite of_volume in HQ. exact HQ. }
  destruct isRWX; psimpl; [by apply Hgo|]. unfold IsVolumeAttachedToOtherVMI. rewrite of_volume.
  apply call_leads. eapply lists_vmis; [exact Hone|exact Hw|]. clear w Hw. intros l w Hl Hw. psimpl. rewrite Hl. by apply Hgo.
Qed.

Lemma publish_goes on w Q : Y !! vm = Some S -> v ∉ S -> (forall u, on u -> u = vm) -> stage v X Y on w ->
  (forall w', stage v X (<[vm := {[v]} ∪ S]> Y) (fun u => u = vm) w' -> Q (Some mkControllerPublishVolumeResponse, None) w') ->
  goes (ControllerPublishVolume c (Some req)) w Q.
Proof using All.
  intros HS Hv Hone Hw HQ. eapply publish_prefix; [exact HS|exact Hone|exact Hw|]. clear w Hw. intros w Hw.
  rewrite bool_decide_false by done. apply leads_interp_bind, leads_interp_backoff; [done|].
  apply leads_interp_bind. unfold addVolumeToVm, isVolumeAttached. psimpl.
  apply call_leads. eapply read_vm; [exact HS|exact Hw|]. clear w Hw. intros x t w Ht Hx Hw. psimpl. rewrite Ht. psimpl.
  rewrite Hx, bool_decide_false by done. psimpl.
  apply call_leads. eapply plugs; [exact HS|done|exact Hone|exact Hw|]. clear w Hw. intros w Hl Hw. psimpl. split; [done|].
  apply call_leads. eapply (becomes_available X _ _ vm ({[v]} ∪ S)); [|set_solver|exact Hl|exact Hw|].
  - by rewrite lookup_insert_eq.
  - intros w' Hw'. by apply HQ.
Qed.

Lemma publish_again on w Q : Y !! vm = Some S -> v ∈ S -> (forall u, on u -> u = vm) -> stage v X Y on w ->
  (forall w', stage v X Y on w' -> Q (Some mkControllerPublishVolumeResponse, None) w') ->
  goes (ControllerPublishVolume c (Some req)) w Q.
Proof using All.
  intros HS Hv Hone Hw HQ. eapply publish_prefix; [exact HS|exact Hone|exact Hw|]. clear w Hw. intros w Hw.
  rewrite bool_decide_true by done. by apply HQ.
Qed.
End Publish.

Section Unpublish.
Variables (X : gmap string DataVolume) (Y : gmap string (gset string)) (nodeId k vm : string) (S : gset string).
Hypothesis node : SplitMetaNamespaceKey nodeId = (k, vm, None).
Hypothesis valid : validateControllerUnpublishVolumeRequest (Some (mkControllerUnpublishVolumeRequest v nodeId)) = None.
Hypothesis HS : Y !! vm = Some S.

Lemma unpublish_goes on w Q : v ∈ S -> (forall u, on u -> u = vm) -> stage v X Y on w ->
  (forall w', stage v X (<[vm := S ∖ {[v]}]> Y) (fun _ => False) w' -> Q (Some mkControllerUnpublishVolumeResponse, None) w') ->
  goes (ControllerUnpublishVolume c (Some (mkControllerUnpublishVolumeRequest v nodeId))) w Q.
Proof using All.
  intros Hv Hone Hw HQ. unfold ControllerUnpublishVolume. rewrite valid. psimpl. cbn [cu_NodeId cu_VolumeId]. rewrite node. psimpl.
  apply leads_interp_bind. unfold volumeStillAttached.
  apply call_leads. eapply read_vm; [exact HS|exact Hw|]. clear w Hw. intros x t w _ _ Hw. psimpl.
  apply call_leads. eapply removed_vm; [exact HS|exact Hw|]. clear w Hw. intros w Hw. rewrite bool_decide_true by done. psimpl.
  apply leads_interp_bind, leads_interp_backoff; [done|]. apply leads_interp_bind. unfold removeVolumeFromVm.
  apply call_leads. eapply read_vm; [exact HS|exact Hw|]. clear w Hw. intros y u w Ht Hx Hw. psimpl. rewrite Ht. psimpl.
  rewrite Hx, bool_decide_true by done. psimpl.
  apply call_leads. eapply unplugs; [exact HS|done|exact Hw|]. clear w Hw. intros w Hl Hw. psimpl. split; [done|].
  apply call_leads. eapply (becomes_removed X _ _ vm (S ∖ {[v]})); [|set_solver|exact Hone|exact Hl|exact Hw|].
  - by rewrite lookup_insert_eq.
  - intros w' Hw'. by apply HQ.
Qed.

Lemma unpublish_again w Q : v ∉ S -> stage v X Y (fun _ => False) w ->
  (forall w', stage v X Y (fun _ => False) w' -> Q (Some mkControllerUnpublishVolumeResponse, None) w') ->
  goes (ControllerUnpublishVolume c (Some (mkControllerUnpublishVolumeRequest v nodeId))) w Q.
Proof using All.
  intros Hv Hw HQ. unfold ControllerUnpublishVolume. rewrite valid. psimpl. cbn [cu_NodeId cu_VolumeId]. rewrite node. psimpl.
  apply leads_interp_bind. unfold volumeStillAttached.
  apply call_leads. eapply read_vm; [exact HS|exact Hw|]. clear w Hw. intros x t w _ _ Hw. psimpl.
  apply call_leads. eapply removed_vm; [exact HS|exact Hw|]. clear w Hw. intros w Hw. rewrite bool_decide_false by done. psimpl.
  apply call_leads. eapply (removed_vmi X Y (fun _ => False)); [exact HS|by intros ? []|exact Hw|]. clear w Hw. intros w Hw. psimpl. by apply HQ.
Qed.
End Unpublish.
End Volume.

(** ** From creation to deletion *)

(** The calls of a container orchestrator that repeats each of its calls. *)
Definition twice {A} (p : prog clientE A) : prog clientE (A * A) := a ← p; b ← p; Ret (a, b).

Definition contextOf (created : result (option CreateVolumeResponse)) : gmap string string :=
  match created.1 with Some r => v_VolumeContext (cvr_Volume r) | None => ∅ end.

Definition publishRequest (cr : CreateVolumeRequest) (cap : VolumeCapability) (nodeId : string)
    (created : result (option CreateVolumeResponse)) : ControllerPublishVolumeRequest :=
  mkControllerPublishVolumeRequest (cv_Name cr) nodeId (Some cap) false (contextOf created).

Definition volume_life (cr : CreateVolumeRequest) (cap : VolumeCapability) (nodeId : string) :=
  created ← twice (CreateVolume c (Some cr));
  published ← twice (ControllerPublishVolume c (Some (publishRequest cr cap nodeId created.1)));
  unpublished ← twice (ControllerUnpublishVolume c (Some (mkControllerUnpublishVolumeRequest (cv_Name cr) nodeId)));
  deleted ← twice (DeleteVolume c (Some (mkDeleteVolumeRequest (cv_Name cr))));
  Ret (created, published, unpublished, deleted).

Lemma leads_twice {A} (p : prog clientE A) w (Q : A * A -> W -> Prop) :
  leads env (rpc p) w (fun a w' => leads env (rpc p) w' (fun b w'' => Q (a, b) w'')) -> leads env (rpc (twice p)) w Q.
Proof using Type.
  intros H. apply leads_interp_bind. eapply leads_mono; [|exact H]. intros a w' H'. apply leads_interp_bind.
  eapply leads_mono; [|exact H']. done.
Qed.

(** Both calls succeed and answer the same. *)
Definition ok {A} (r : A) : result (option A) * result (option A) := ((Some r, None), (Some r, None)).

(** C2: On a cluster in good health a volume with a free name of the driver's can be
    created, attached to a VM, detached and deleted, without an error and with
    every call repeated: each run of the RPCs through the real client returns,
    with the same answer both times, and leaves DataVolumes and VM specs as they
    were and no VMI that reports the volume. *)
Theorem volume_life_succeeds cr cap nodeId k vm isRWX isRWX' w :
  acceptable c cr isRWX -> cv_VolumeContentSource cr = None ->
  containsLabels (infraClusterLabels c) (infraLabelMap cl) = true ->
  HasPrefix (cv_Name cr) (volumePrefix cl) = true -> volumes w !! cv_Name cr = None ->
  nodeId <> "" -> SplitMetaNamespaceKey nodeId = (k, vm, None) -> is_Some (vms w !! vm) ->
  hasRWXCapabiltyAccessMode (vc_AccessMode cap) = (isRWX', None) ->
  (forall u, cv_Name cr ∉ reported w u ∪ spec w u) ->
  leads env (interp (implementation cl) (volume_life cr cap nodeId)) w (fun answers w' =>
    (exists serial, answers = (ok (createResponse cr serial), ok mkControllerPublishVolumeResponse,
       ok mkControllerUnpublishVolumeResponse, ok mkDeleteVolumeResponse)) /\
    volumes w' = volumes w /\ vms w' = vms w /\ forall u, cv_Name cr ∉ reported w' u).
Proof using Healthy0.
  intros Ha Hb Hlab Hv Hfree Hid Hnode [S HS] Hmode Hno. set (v := cv_Name cr) in *.
  assert (Hv0 : v <> "") by apply Ha. assert (HvS : v ∉ S) by (specialize (Hno vm); unfold spec in Hno; rewrite HS in Hno; set_solver).
  assert (H0 : stage v (volumes w) (vms w) (fun _ => False) w) by (split_and!; [done..|]; exact Hno).
  apply leads_interp_bind, leads_twice.
  eapply (create_new v Hv cr isRWX); [done..|exact H0|]. intros d w1 Hd H1.
  eapply (create_again v Hv cr isRWX); [done..|apply lookup_insert_eq|exact Hd|exact H1|]. clear w1 H1. intros w1 H1.
  apply leads_interp_bind, leads_twice.
  assert (Hval : forall x, validateControllerPublishVolumeRequest (Some (publishRequest cr cap nodeId x)) = None).
  { intros x. unfold validateControllerPublishVolumeRequest, publishRequest. cbn [cp_VolumeId cp_NodeId]. fold v. by rewrite (proj2 (is_empty_false _) Hv0), (proj2 (is_empty_false _) Hid). }
  eapply (publish_goes v Hv _ _ d); [apply lookup_insert_eq|apply Hd|done|apply Hval|exact Hnode|exact Hmode|exact HS|exact HvS| |exact H1|]; [by intros ? []|].
  clear w1 H1. intros w1 H1.
  assert (HS1 : <[vm := {[v]} ∪ S]> (vms w) !! vm = Some ({[v]} ∪ S)) by apply lookup_insert_eq.
  eapply (publish_again v Hv _ _ d); [apply lookup_insert_eq|apply Hd|done|apply Hval|exact Hnode|exact Hmode|exact HS1|set_solver| |exact H1|]; [done|].
  clear w1 H1. intros w1 H1. apply leads_interp_bind, leads_twice.
  assert (Hval' : validateControllerUnpublishVolumeRequest (Some (mkControllerUnpublishVolumeRequest v nodeId)) = None).
  { unfold validateControllerUnpublishVolumeRequest. cbn [cu_VolumeId cu_NodeId]. by rewrite (proj2 (is_empty_false _) Hv0), (proj2 (is_empty_false _) Hid). }
  eapply (unpublish_goes v Hv); [exact Hnode|exact Hval'|exact HS1|set_solver| |exact H1|]; [done|]. clear w1 H1. intros w1 H1.
  assert (Hvms : <[vm := ({[v]} ∪ S) ∖ {[v]}]> (<[vm := {[v]} ∪ S]> (vms w)) = vms w).
  { rewrite insert_insert_eq. apply insert_id. rewrite HS. f_equal. set_solver. }
  rewrite Hvms in H1.
  eapply (unpublish_again v Hv); [exact Hnode|exact Hval'|exact HS|exact HvS|exact H1|]. clear w1 H1. intros w1 H1.
  apply leads_interp_bind, leads_twice.
  eapply (delete_goes v Hv); [done|apply lookup_insert_eq|apply Hd|exact H1|]. clear w1 H1. intros w1 H1.
  rewrite delete_insert_id in H1 by done.
  eapply (delete_again v); [done|exact Hfree|exact H1|]. clear w1 H1. intros w1 (HX & HY & Hno'). cbn.
  split; [by exists (dv_UID d)|]. split_and!; [done..|]. intros u Hu. apply (Hno' u). set_solver.
Qed.
End Life.

(** ** A slow cluster

    VMs whose VMI statuses are those of before the last change until they have been
    looked at twice. *)

Module Slow.
Record cluster := mkCluster {
  s_dvs : gmap string DataVolume;
  s_specs : gmap string (gset string);
  s_before : gmap string (gset string);
  s_pending : nat }.

Definition statuses (w : cluster) : gmap string (gset string) :=
  match s_pending w with O => s_specs w | _ => s_before w end.

#[export] Instance slow_cluster : Cluster cluster := {
  volumes := s_dvs; vms := s_specs; reported w u := default ∅ (statuses w !! u); lag := s_pending }.

Definition vm_of (n : string) (S : gset string) : VirtualMachine :=
  mkVM n "infra" (Some (mkTemplate (map (fun v => mkVolume v None (Some (mkVMDataVolumeSource v true))) (elements S)))).
Definition vmi_of (n : string) (S : gset string) : VirtualMachineInstance :=
  mkVMI n "infra" (map (fun v => mkVolumeStatus v VolumeReady (Some (mkHotplugVolumeStatus "hp"))) (elements S)).

Definition looked (w : cluster) : cluster := mkCluster (s_dvs w) (s_specs w) (s_before w) (pred (s_pending w)).

(** The VMs that a hot-plug request names. *)
Definition hotplug (uri : string) (json : hotplugBody) (w : cluster) : cluster :=
  let '(sub, change) := match json with
    | AddJSON o => ("addvolume", fun S => {[av_Name o]} ∪ S)
    | RemoveJSON o => ("removevolume", fun S => S ∖ {[rv_Name o]})
    end in
  mkCluster (s_dvs w)
    (map_imap (fun n S => Some (if uri =s? vmSubresourceURL ApiStorageVersion "infra" n sub then change S else S)) (s_specs w))
    (statuses w) 2.

Definition get (k : kind) (n : string) (w : cluster) : (object k + error) * cluster :=
  match k return (object k + error) * cluster with
  | KDataVolume => (match s_dvs w !! n with Some d => inl d | None => inr not_found end, w)
  | KVirtualMachine => (match s_specs w !! n with Some hp => inl (vm_of n hp) | None => inr not_found end, w)
  | KVirtualMachineInstance =>
      (match s_specs w !! n with
       | Some _ => inl (vmi_of n (default ∅ (statuses (looked w) !! n)))
       | None => inr not_found
       end, looked w)
  | _ => (inr not_found, w)
  end.

Definition list (k : kind) (w : cluster) : list (object k) :=
  match k with KVirtualMachineInstance => (fun '(n, hp) => vmi_of n hp) <$> map_to_list (statuses w) | _ => [] end.

Definition post (k : kind) (w : cluster) : object k -> object k * cluster :=
  match k with
  | KDataVolume => fun d => (set_uid d, mkCluster (<[dv_Name d := set_uid d]> (s_dvs w)) (s_specs w) (s_before w) (s_pending w))
  | _ => fun o => (o, w)
  end.

Definition server : handler kubeE cluster := fun o w =>
  match o return Kube.answer o * cluster with
  | Do _ k r => match rq_verb r, rq_name r, rq_body r with
      | GET, Some n, _ => get k n w
      | POST, _, ObjectBody o => let '(o', w') := post k w o in (inl o', w')
      | _, _, _ => (inr not_found, w)
      end
  | DoList _ k _ => (inl (list k w), w)
  | DoError _ k r => (None, match rq_name r with
      | Some n => mkCluster (delete n (s_dvs w)) (s_specs w) (s_before w) (s_pending w)
      | None => w
      end)
  | DoWatch _ _ _ => (inl tt, w)
  | PutAbsPath uri json => (None, hotplug uri json w)
  | ServerVersion => (None, w)
  | Window interval timeout => ((Z.to_nat (timeout / interval), DeadlineExceeded), w)
  | Sleep _ | Lock | Unlock | StoreMapping _ | StorePopulated _ => (tt, w)
  | LoadPopulated => (false, w)
  | LoadMapping => ([], w)
  end.

Lemma named_elements {A} (f : string -> A) (test : A -> bool) (hp : gset string) v :
  (forall x, test (f x) = true <-> x = v) -> existsb test (map f (elements hp)) = bool_decide (v ∈ hp).
Proof.
  intros Hf. case_bool_decide as Hv.
  - apply existsb_In. exists (f v). split; [|by apply Hf]. apply list_elem_of_fmap. exists v. split; [done|]. by apply elem_of_elements.
  - apply not_true_iff_false. intros (a & (x & -> & Hx)%list_elem_of_fmap & ->%Hf)%existsb_In. by apply Hv, elem_of_elements.
Qed.

Lemma settling_same w : settling w w.
Proof. split_and!; [done..|]. split; [set_solver|]. intros H0 u. cbn in *. unfold statuses, spec. cbn. by rewrite H0. Qed.

Lemma settling_looked w : settling w (looked w).
Proof.
  split_and!; [done..|cbn; lia|]. split.
  - intros u. cbn. unfold statuses, spec. cbn. destruct (s_pending w) as [|[|n]]; cbn; set_solver.
  - intros H0 u. cbn in *. unfold statuses, spec. cbn. by rewrite H0.
Qed.

(** The hot-plugs reach the VM that they name. *)
Lemma lookup_hotplug vm sub (change : gset string -> gset string) (m : gmap string (gset string)) hp : m !! vm = Some hp ->
  map_imap (fun n S => Some (if vmSubresourceURL ApiStorageVersion "infra" vm sub =s? vmSubresourceURL ApiStorageVersion "infra" n sub
    then change S else S)) m = <[vm := change hp]> m.
Proof.
  intros Hm. apply map_eq. intros n. rewrite lookup_update. destruct (decide (n = vm)) as [->|Hne].
  - rewrite lookup_insert_eq, Hm. cbn. by rewrite (proj2 (streq_spec _ _) eq_refl).
  - rewrite lookup_insert_ne by done. destruct (m !! n) as [x|]; [|done]. cbn.
    destruct (_ =s? _) eqn:He; [|done]. by apply selects in He.
Qed.

#[export] Instance slow_healthy cl : Healthy (of_handler server) cl "infra" 2.
Proof.
  assert (follow : forall uri json w, statuses_follow w (hotplug uri json w)).
  { intros uri json w. unfold hotplug. destruct json; split; cbn; set_solver. }
  split.
  - intros o w. destruct (server o w) as [r w'] eqn:He. by exists r, w'.
  - intros n w r w' He. unfold of_handler in He. cbn in He. destruct (s_dvs w !! n) eqn:Hd; injection He as <- <-; cbn; rewrite ?Hd;
      (split; [apply settling_same|]); split; [naive_solver| |naive_solver|]; try done. intros _. by eexists.
  - intros d w r w' He Hd. unfold of_handler in He. cbn in He. injection He as <- <-. exists (set_uid d). split_and!; try done. apply (settling_same w).
  - intros n w r w' He _. unfold of_handler in He. cbn in He. injection He as <- <-. split_and!; try done. apply (settling_same w).
  - intros vm hp w r w' He Hvm. unfold of_handler in He. cbn in He, Hvm. rewrite Hvm in He. injection He as <- <-. split; [apply settling_same|].
    do 2 eexists. split; [done|]. split; [done|]. intros v _. cbn. split; apply named_elements; intros x; cbn;
      rewrite ?streq_spec; naive_solver.
  - intros vm w r w' He [hp Hvm]. unfold of_handler in He. cbn in He, Hvm. rewrite Hvm in He. injection He as <- <-. split; [apply settling_looked|].
    split; [done|]. eexists. split; [done|]. intros v _. cbn. split.
    + apply named_elements. intros x. cbn. apply streq_spec.
    + intros _ Hv. rewrite (named_elements _ _ _ v); [by apply bool_decide_eq_true|]. intros x. cbn. rewrite andb_true_r. apply streq_spec.
  - intros w r w' He. unfold of_handler in He. cbn in He. injection He as <- <-. split; [apply settling_same|]. eexists. split; [done|].
    intros x v ([n hp] & -> & Hn%elem_of_map_to_list)%list_elem_of_fmap _ Hv. cbn in *. rewrite Hn. cbn.
    rewrite (named_elements _ _ _ v) in Hv; [by apply bool_decide_eq_true in Hv|]. intros x. apply streq_spec.
  - intros vm o hp w r w' He Hvm. unfold of_handler in He. cbn [server] in He. injection He as <- <-. split_and!; [done..| |done|apply follow].
    cbn. by apply lookup_hotplug.
  - intros vm o hp w r w' He Hvm. unfold of_handler in He. cbn [server] in He. injection He as <- <-. split_and!; [done..| |done|apply follow].
    cbn. by apply (lookup_hotplug vm "removevolume" (fun S => S ∖ {[rv_Name o]})).
  - intros w n e w' He. unfold of_handler in He. cbn in He. injection He as <- <- <-. split; [apply settling_same|]. apply Nat.leb_le. by vm_compute.
Qed.
End Slow.

#[export] Existing Instances Slow.slow_cluster Slow.slow_healthy.

Definition life_cluster : Slow.cluster := Slow.mkCluster ∅ {["vm1" := ∅; "vm2" := {["pvc-7"]}]} ∅ 0.
Definition life_create : CreateVolumeRequest := mkCreateVolumeRequest "pvc-8" (Some (mkCapacityRange 10 0))
  (Some [Some (mkVolumeCapability (Some AccessBlock) (Some SINGLE_NODE_WRITER))]) ∅ None.
Definition life_capability : VolumeCapability := mkVolumeCapability (Some AccessBlock) (Some SINGLE_NODE_WRITER).

Lemma volume_life_succeeds_witness :
  leads (of_handler Slow.server)
    (interp (implementation demo_client) (volume_life demo_controller life_create life_capability "infra/vm1")) life_cluster
    (fun answers w' =>
      (exists serial, answers = (ok (createResponse life_create serial), ok mkControllerPublishVolumeResponse,
         ok mkControllerUnpublishVolumeResponse, ok mkDeleteVolumeResponse)) /\
      volumes w' = volumes life_cluster /\ vms w' = vms life_cluster /\ forall u, cv_Name life_create ∉ reported w' u).
Proof.
  apply (volume_life_succeeds (of_handler Slow.server) demo_client demo_controller 2) with (k := "infra") (vm := "vm1")
    (isRWX := false) (isRWX' := false).
  - apply validate_acceptable. by vm_compute.
  - done.
  - by vm_compute.
  - by vm_compute.
  - done.
  - done.
  - by vm_compute.
  - by eexists.
  - done.
  - intros u. cbn. unfold Slow.statuses, spec. cbn.
    destruct (decide (u = "vm1")) as [->|]; [by vm_compute|]. destruct (decide (u = "vm2")) as [->|]; [by vm_compute|].
    by rewrite lookup_insert_ne, lookup_singleton_ne by done.
Defined.
