(* ===== verification/RestConfig.v ===== *)
(** * REST configurations and the constructors of clientsets

    The constructors that client-gen writes once per API group
    (pkg/generated/*/client-go/clientset/versioned: clientset.go, core_client.go and
    volumesnapshot_client.go, one template each), and what NewClient of
    pkg/kubevirt/client.go does with the configuration of the infra cluster before
    it calls them.  A rest.Config is copied and changed field by field; the fields
    that the code neither reads nor writes (host, credentials, TLS, ...) are one
    handle.  What client-go makes of a configuration is an operation of
    [configE]. *)

From S2P Require Import Prelude GoStrings Errors Effects Goroutines ClientAPI.
From Stdlib Require Floats.SpecFloat.

Local Open Scope string_scope.
Local Open Scope list_scope.
Local Open Scope Z_scope.

(** ** client-go *)

(** What the code takes from client-go: the parts of a configuration that it
    leaves alone, rate limiters, HTTP and REST clients, discovery clients, the
    clientset of the core APIs; and the user agent, which client-go makes from the
    name of the command and its version. *)
Class ClientLib := {
  Transport : Type;
  Limiter : Type;
  HTTPClient : Type;
  RESTClient : Type;
  DiscoveryClient : Type;
  Clientset : Type;
  DefaultKubernetesUserAgent : string }.

Record GroupVersion := mkGroupVersion { gv_Group : string; gv_Version : string }.

(** The API groups of pkg/generated. *)
Inductive api_group := kubevirt_v1 | cdi_v1beta1 | snapshot_v1.

Definition SchemeGroupVersion (g : api_group) : GroupVersion :=
  match g with
  | kubevirt_v1 => mkGroupVersion "kubevirt.io" "v1"
  | cdi_v1beta1 => mkGroupVersion "cdi.kubevirt.io" "v1beta1"
  | snapshot_v1 => mkGroupVersion "snapshot.storage.k8s.io" "v1"
  end.
Definition StorageGroupVersion : GroupVersion := mkGroupVersion "kubevirt.io" "v1".

(** Codecs that convert nothing: those of a generated scheme, and those of the
    scheme of the core API that [NewClient] makes. *)
Inductive NegotiatedSerializer := WithoutConversion (g : api_group) | WithoutConversionCodecFactory.

Section Lib.
Context {L : ClientLib}.

(** [rest.Config]; the rate is a float32, in the standard library's model of IEEE
    numbers. *)
Record RestConfig := mkRestConfig {
  rc_rest : Transport;
  rc_UserAgent : string;
  rc_QPS : SpecFloat.spec_float;
  rc_Burst : Z;
  rc_RateLimiter : option Limiter;
  rc_GroupVersion : option GroupVersion;
  rc_APIPath : string;
  rc_NegotiatedSerializer : option NegotiatedSerializer;
  rc_ContentType : string }.

Definition set_UserAgent (c : RestConfig) (x : string) : RestConfig :=
  mkRestConfig (rc_rest c) x (rc_QPS c) (rc_Burst c) (rc_RateLimiter c) (rc_GroupVersion c) (rc_APIPath c)
    (rc_NegotiatedSerializer c) (rc_ContentType c).
Definition set_RateLimiter (c : RestConfig) (x : option Limiter) : RestConfig :=
  mkRestConfig (rc_rest c) (rc_UserAgent c) (rc_QPS c) (rc_Burst c) x (rc_GroupVersion c) (rc_APIPath c)
    (rc_NegotiatedSerializer c) (rc_ContentType c).
Definition set_api (c : RestConfig) (gv : option GroupVersion) (path : string) (ser : option NegotiatedSerializer)
    : RestConfig :=
  mkRestConfig (rc_rest c) (rc_UserAgent c) (rc_QPS c) (rc_Burst c) (rc_RateLimiter c) gv path ser (rc_ContentType c).
Definition set_ContentType (c : RestConfig) (x : string) : RestConfig :=
  mkRestConfig (rc_rest c) (rc_UserAgent c) (rc_QPS c) (rc_Burst c) (rc_RateLimiter c) (rc_GroupVersion c) (rc_APIPath c)
    (rc_NegotiatedSerializer c) x.

(** [if config.UserAgent == "" { config.UserAgent = rest.DefaultKubernetesUserAgent() }] *)
Definition default_UserAgent (c : RestConfig) : RestConfig :=
  if is_empty (rc_UserAgent c) then set_UserAgent c DefaultKubernetesUserAgent else c.

(** [config.QPS > 0] *)
Definition QPS_positive (c : RestConfig) : bool := SpecFloat.SFltb (SpecFloat.S754_zero false) (rc_QPS c).

(** What the driver reads of a [corev1.Node]. *)
Record KNode := mkNode { ProviderID : string; Annotations : option (gmap string string) }.

(** The calls into client-go. *)
Inductive config_call :=
| InClusterConfig
| BuildConfigFromFlags (kubeconfig : string)
| HTTPClientFor (rc : RestConfig)
| NewTokenBucketRateLimiter (qps : SpecFloat.spec_float) (burst : Z)
| RESTClientForConfigAndClient (rc : RestConfig) (h : HTTPClient)
| NewDiscoveryClientForConfigAndClient (rc : RestConfig) (h : HTTPClient)
| RESTClientFor (rc : RestConfig)
| KubernetesNewForConfig (rc : RestConfig)
| AddToScheme
| GetNode (clientset : Clientset) (name : string).

Definition config_answer (o : config_call) : Type :=
  match o with
  | InClusterConfig | BuildConfigFromFlags _ => result (option RestConfig)
  | HTTPClientFor _ => HTTPClient + error
  | NewTokenBucketRateLimiter _ _ => Limiter
  | RESTClientForConfigAndClient _ _ | RESTClientFor _ => RESTClient + error
  | NewDiscoveryClientForConfigAndClient _ _ => DiscoveryClient + error
  | KubernetesNewForConfig _ => result (option Clientset)
  | AddToScheme => option error
  | GetNode _ _ => result (option KNode)
  end.

Definition configE : signature := Signature config_call config_answer.
Definition ask (o : config_call) : prog configE (config_answer o) := call (E := configE) o.

(** [x, err := p; if err != nil { return nil, err }; k] *)
Definition or_return {A B} (p : prog configE (A + error)) (k : A -> prog configE (B + error)) : prog configE (B + error) :=
  r ← p; match r with inr e => Ret (inr e) | inl a => k a end.

End Lib.

(** ** core_client.go, volumesnapshot_client.go *)

Module Group.
Section Group.
Context {L : ClientLib}.

Record Client := mkClient { restClient : RESTClient }.

Definition setConfigDefaults (g : api_group) (config : RestConfig) : result RestConfig :=
  (default_UserAgent (set_api config (Some (SchemeGroupVersion g)) "/apis" (Some (WithoutConversion g))), None).

Definition NewForConfigAndClient (g : api_group) (c : RestConfig) (h : HTTPClient) : prog configE (Client + error) :=
  let '(config, err) := setConfigDefaults g c in
  match err with Some e => Ret (inr e) | None =>
  or_return (ask (RESTClientForConfigAndClient config h)) (fun client => Ret (inl (mkClient client)))
  end.

Definition NewForConfig (g : api_group) (c : RestConfig) : prog configE (Client + error) :=
  let '(config, err) := setConfigDefaults g c in
  match err with Some e => Ret (inr e) | None =>
  or_return (ask (HTTPClientFor config)) (fun httpClient => NewForConfigAndClient g config httpClient)
  end.

Definition NewForConfigOrDie (g : api_group) (c : RestConfig) : prog configE Client :=
  client ← NewForConfig g c; match client with inr _ => Panic "err" | inl client => Ret client end.

Definition New (c : RESTClient) : Client := mkClient c.

(** [RESTClient()]; nil for a nil client. *)
Definition RESTClient_of (c : option Client) : option RESTClient := restClient <$> c.
End Group.
End Group.

(** ** clientset.go *)

Module Versioned.
Section Versioned.
Context {L : ClientLib}.

Record Clientset := mkClientset { cs_DiscoveryClient : DiscoveryClient; cs_group : Group.Client }.

Definition NewForConfigAndClient (g : api_group) (c : RestConfig) (httpClient : HTTPClient)
    : prog configE (Clientset + error) :=
  or_return
    (if is_nil (rc_RateLimiter c) && QPS_positive c then
       if rc_Burst c <=? 0
       then Ret (inr (errors_New "burst is required to be greater than 0 when RateLimiter is not set and QPS is set to greater than 0"))
       else limiter ← ask (NewTokenBucketRateLimiter (rc_QPS c) (rc_Burst c)); Ret (inl (set_RateLimiter c (Some limiter)))
     else Ret (inl c))
    (fun configShallowCopy =>
  or_return (Group.NewForConfigAndClient g configShallowCopy httpClient) (fun group =>
  or_return (ask (NewDiscoveryClientForConfigAndClient configShallowCopy httpClient)) (fun discovery =>
  Ret (inl (mkClientset discovery group))))).

Definition NewForConfig (g : api_group) (c : RestConfig) : prog configE (Clientset + error) :=
  let configShallowCopy := default_UserAgent c in
  or_return (ask (HTTPClientFor configShallowCopy)) (fun httpClient =>
  NewForConfigAndClient g configShallowCopy httpClient).

Definition NewForConfigOrDie (g : api_group) (c : RestConfig) : prog configE Clientset :=
  cs ← NewForConfig g c; match cs with inr _ => Panic "err" | inl cs => Ret cs end.

(** [New], over [discovery.NewDiscoveryClient]. *)
Definition New (NewDiscoveryClient : RESTClient -> DiscoveryClient) (c : RESTClient) : Clientset :=
  mkClientset (NewDiscoveryClient c) (Group.New c).

(** [KubevirtV1()], [CdiV1beta1()], [SnapshotV1()]; [Discovery()], nil for a nil
    clientset. *)
Definition group_of (c : Clientset) : Group.Client := cs_group c.
Definition Discovery (c : option Clientset) : option DiscoveryClient := cs_DiscoveryClient <$> c.
End Versioned.
End Versioned.

Section Packages.
Context {L : ClientLib}.

(** ** The three generated groups *)

Record group_package := mkGroupPackage {
  g_setConfigDefaults : RestConfig -> result RestConfig;
  g_NewForConfig : RestConfig -> prog configE (Group.Client + error);
  g_NewForConfigAndClient : RestConfig -> HTTPClient -> prog configE (Group.Client + error);
  g_NewForConfigOrDie : RestConfig -> prog configE Group.Client;
  g_New : RESTClient -> Group.Client;
  g_RESTClient : option Group.Client -> option RESTClient }.

Record clientset_package := mkClientsetPackage {
  c_NewForConfig : RestConfig -> prog configE (Versioned.Clientset + error);
  c_NewForConfigAndClient : RestConfig -> HTTPClient -> prog configE (Versioned.Clientset + error);
  c_NewForConfigOrDie : RestConfig -> prog configE Versioned.Clientset;
  c_New : (RESTClient -> DiscoveryClient) -> RESTClient -> Versioned.Clientset;
  c_group : Versioned.Clientset -> Group.Client;
  c_Discovery : option Versioned.Clientset -> option DiscoveryClient }.

Definition core_package (g : api_group) : group_package :=
  mkGroupPackage (Group.setConfigDefaults g) (Group.NewForConfig g) (Group.NewForConfigAndClient g)
    (Group.NewForConfigOrDie g) Group.New Group.RESTClient_of.

Definition versioned_package (g : api_group) : clientset_package :=
  mkClientsetPackage (Versioned.NewForConfig g) (Versioned.NewForConfigAndClient g) (Versioned.NewForConfigOrDie g)
    Versioned.New Versioned.group_of Versioned.Discovery.

Definition kubevirtv1 : group_package := core_package kubevirt_v1.
Definition cdiv1beta1 : group_package := core_package cdi_v1beta1.
Definition snapshotv1 : group_package := core_package snapshot_v1.
Definition kubecli : clientset_package := versioned_package kubevirt_v1.
Definition cdicli : clientset_package := versioned_package cdi_v1beta1.
Definition snapcli : clientset_package := versioned_package snapshot_v1.

(** ** NewClient: the configuration of the subresource client *)

(** [shallowCopy]: its user agent is the one that the caller's configuration had. *)
Definition subresource_config (infraConfig : RestConfig) : RestConfig :=
  set_ContentType (set_api infraConfig (Some StorageGroupVersion) "/apis" (Some WithoutConversionCodecFactory))
    "application/json".

(** ** The calls that are well formed *)

(** client-go makes a REST client only of a configuration with a group version and
    a serializer. *)
Definition complete (c : RestConfig) : Prop :=
  is_Some (rc_GroupVersion c) /\ is_Some (rc_NegotiatedSerializer c) /\ rc_APIPath c = "/apis".

(** The HTTP, group and discovery clients of a generated clientset are asked for
    with a user agent, the subresource client with JSON.  Nothing is asked of the
    configuration of a clientset of the core APIs, which client-go completes. *)
Definition call_ok (o : config_call) : Prop :=
  match o with
  | RESTClientForConfigAndClient rc _ => complete rc /\ rc_UserAgent rc <> ""
  | RESTClientFor rc => complete rc /\ rc_ContentType rc = "application/json"
  | HTTPClientFor rc | NewDiscoveryClientForConfigAndClient rc _ => rc_UserAgent rc <> ""
  | NewTokenBucketRateLimiter qps burst => SpecFloat.SFltb (SpecFloat.S754_zero false) qps = true /\ 0 < burst
  | _ => True
  end.

Lemma only_or_return {A B} (P : op configE -> Prop) (p : prog configE (A + error)) (k : A -> prog configE (B + error)) :
  only P p -> (forall a, only P (k a)) -> only P (or_return p k).
Proof. intros Hp Hk. apply only_bind; [done|]. intros [a|e]; [apply Hk|done]. Qed.

Section Agent.
Hypothesis agent : DefaultKubernetesUserAgent <> "".

Lemma default_UserAgent_set c : rc_UserAgent (default_UserAgent c) <> "".
Proof. unfold default_UserAgent. by destruct (is_empty (rc_UserAgent c)) eqn:E; reflect_bools. Qed.

Lemma default_UserAgent_keeps c x y z :
  rc_UserAgent c <> "" -> default_UserAgent (set_api c x y z) = set_api c x y z.
Proof. intros Hc. unfold default_UserAgent. cbn. by destruct (is_empty (rc_UserAgent c)) eqn:E; reflect_bools. Qed.

Lemma group_ok g c h : only (E := configE) call_ok (Group.NewForConfigAndClient g c h).
Proof using agent.
  apply only_or_return; [|done]. split; [|by intros]. split; [|apply default_UserAgent_set].
  unfold default_UserAgent. cbn. by destruct (is_empty (rc_UserAgent c)).
Qed.

Lemma versioned_ok g c : only (E := configE) call_ok (Versioned.NewForConfig g c).
Proof using agent.
  apply only_or_return; [split; [apply default_UserAgent_set|by intros]|]. intros h.
  unfold Versioned.NewForConfigAndClient. pose proof (default_UserAgent_set c) as Hc. revert Hc.
  generalize (default_UserAgent c). clear c. intros c Hc.
  assert (Hrest : forall c', rc_UserAgent c' <> "" -> only (E := configE) call_ok (or_return (Group.NewForConfigAndClient g c' h) (fun group =>
    or_return (ask (NewDiscoveryClientForConfigAndClient c' h)) (fun d => Ret (inl (Versioned.mkClientset d group)))))).
  { intros c' Hc'. apply only_or_return; [apply group_ok|]. intros group. by apply only_or_return; [split; [|by intros]|]. }
  unfold or_return at 1. destruct (is_nil (rc_RateLimiter c)); cbn [andb bind]; [|by apply Hrest].
  destruct (QPS_positive c) eqn:Eq; cbn [bind]; [|by apply Hrest].
  destruct (rc_Burst c <=? 0) eqn:Eb; cbn; [done|]. split; [split; [exact Eq|lia]|]. intros l. by apply Hrest.
Qed.
End Agent.
End Packages.
