(* ===== verification/ObjectTracker.v ===== *)
(** * The object tracker of client-go

    What the generated fake clientsets run on (vendor/k8s.io/client-go/testing):
    the tracker, a map from resources to objects by namespace and name with the
    channels of its watchers; the reaction that carries the actions of the fake
    clients over to it; and [Fake], the chain of reactors that an action goes
    through.  Patches are made by libraries: [PatchLib] is a parameter. *)

From stdpp Require Import sorting.
From S2P Require Import Prelude GoStrings Errors Effects Wait Objects ClientAPI.
From S2P Require Import Clientsets Generated Fakes RestConfig.

(** ** Kinds, resources, objects *)

#[export] Instance other_kind_eq_dec : EqDecision other_kind.
Proof. solve_decision. Defined.
#[export] Instance kind_eq_dec : EqDecision kind.
Proof. solve_decision. Defined.

(** Group, version, and kind or resource. *)
Definition GVK : Type := string * string * string.
Definition GVR : Type := string * string * string.

(** The group of the package that declares a kind. *)
Definition gv_of_kind (k : kind) : GroupVersion :=
  match k with
  | KVirtualMachine | KVirtualMachineInstance
  | KOther (KKubeVirt | KVirtualMachineInstanceMigration | KVirtualMachineInstancePreset | KVirtualMachineInstanceReplicaSet) =>
      SchemeGroupVersion kubevirt_v1
  | KVolumeSnapshot | KVolumeSnapshotClass | KOther KVolumeSnapshotContent => SchemeGroupVersion snapshot_v1
  | KPersistentVolumeClaim | KPersistentVolume => mkGroupVersion "" "v1"
  | KDataVolume | KOther _ => SchemeGroupVersion cdi_v1beta1
  end.

(** [WithKind] of the generated files. *)
Definition kind_name (k : kind) : string :=
  match k with
  | KVirtualMachine => "VirtualMachine"
  | KVirtualMachineInstance => "VirtualMachineInstance"
  | KDataVolume => "DataVolume"
  | KVolumeSnapshot => "VolumeSnapshot"
  | KVolumeSnapshotClass => "VolumeSnapshotClass"
  | KPersistentVolumeClaim => "PersistentVolumeClaim"
  | KPersistentVolume => "PersistentVolume"
  | KOther KKubeVirt => "KubeVirt"
  | KOther KVirtualMachineInstanceMigration => "VirtualMachineInstanceMigration"
  | KOther KVirtualMachineInstancePreset => "VirtualMachineInstancePreset"
  | KOther KVirtualMachineInstanceReplicaSet => "VirtualMachineInstanceReplicaSet"
  | KOther KDataImportCron => "DataImportCron"
  | KOther KDataSource => "DataSource"
  | KOther KVolumeImportSource => "VolumeImportSource"
  | KOther KVolumeUploadSource => "VolumeUploadSource"
  | KOther KVolumeCloneSource => "VolumeCloneSource"
  | KOther KCDI => "CDI"
  | KOther KCDIConfig => "CDIConfig"
  | KOther KObjectTransfer => "ObjectTransfer"
  | KOther KStorageProfile => "StorageProfile"
  | KOther KVolumeSnapshotContent => "VolumeSnapshotContent"
  end.

Definition gvk_of (k : kind) : GVK := (gv_Group (gv_of_kind k), gv_Version (gv_of_kind k), kind_name k).

(** [WithResource] of the generated files. *)
Definition gvr_of (k : kind) : GVR := (gv_Group (gv_of_kind k), gv_Version (gv_of_kind k), resource k).

(** [GetNamespace] and [SetNamespace] of metav1.Object. *)
Definition object_Namespace {k : kind} : object k -> string :=
  match k with
  | KVirtualMachine => vm_Namespace
  | KVirtualMachineInstance => vmi_Namespace
  | KDataVolume => dv_Namespace
  | KVolumeSnapshot => snap_Namespace
  | KVolumeSnapshotClass => vsc_Namespace
  | KPersistentVolumeClaim => pvc_Namespace
  | KPersistentVolume => pv_Namespace
  | KOther _ => oo_Namespace
  end.

Definition set_Namespace {k : kind} (ns : string) : object k -> object k :=
  match k with
  | KVirtualMachine => fun o => mkVM (vm_Name o) ns (vm_Template o)
  | KVirtualMachineInstance => fun o => mkVMI (vmi_Name o) ns (vmi_VolumeStatus o)
  | KDataVolume => fun o =>
      mkDataVolume (dv_Name o) ns (dv_UID o) (dv_Labels o) (dv_Annotations o) (dv_Storage o) (dv_Source o)
  | KVolumeSnapshot => fun o =>
      mkVolumeSnapshot (snap_Name o) ns (snap_Labels o) (snap_CreationTimestamp o) (snap_PersistentVolumeClaimName o)
        (snap_VolumeSnapshotClassName o) (snap_Status o)
  | KVolumeSnapshotClass => fun o => mkVolumeSnapshotClass (vsc_Name o) ns (vsc_Parameters o)
  | KPersistentVolumeClaim => fun o =>
      mkPVC (pvc_Name o) ns (pvc_Labels o) (pvc_VolumeName o) (pvc_Requests o) (pvc_StorageClassName o)
  | KPersistentVolume => fun o => mkPV (pv_Name o) ns (pv_Capacity o)
  | KOther _ => fun o => mkOtherObject (oo_Name o) ns (oo_Labels o)
  end.

(** A [runtime.Object]: an object with its type, or a list. *)
Record Object := mkObject { obj_kind : kind; obj_value : object obj_kind }.
Inductive runtimeObject := AnObject (o : Object) | AList (k : kind) (items : list (object k)).

Definition obj_Name (o : Object) : string := object_Name (obj_value o).
Definition obj_Namespace (o : Object) : string := object_Namespace (obj_value o).
Definition obj_set_Namespace (ns : string) (o : Object) : Object := mkObject (obj_kind o) (set_Namespace ns (obj_value o)).

(** The type assertion [o.( *T)]. *)
Definition as_kind (k : kind) (o : Object) : option (object k) :=
  match decide (obj_kind o = k) with
  | left e => Some (eq_rect (obj_kind o) object (obj_value o) k e)
  | right _ => None
  end.

(** ** Outcomes *)

Definition obind {A B} (m : outcome A) (f : A -> outcome B) : outcome B :=
  match m with Val a => f a | Panicked why => Panicked why end.

Notation "x <~ y ; z" := (obind y (fun x => z)) (at level 100, y at next level, z at level 200, right associativity) : go_scope.
Notation "' x <~ y ; z" := (obind y (fun x => z))
  (at level 100, x pattern, y at next level, z at level 200, right associativity) : go_scope.

(** ** The tracker *)

Module Tracker.

Inductive EventType := Added | Modified | Deleted.
Definition Event : Type := EventType * Object.

(** A watcher is the buffer of its channel; no event has been received from it. *)
Record tracker := mkTracker {
  objects : gmap GVR (gmap (string * string) Object);
  watchers : gmap GVR (gmap string (list (list Event))) }.

Definition NewObjectTracker : tracker := mkTracker ∅ ∅.

Definition DefaultChanSize : nat := 100.

(** Add, Modify and Delete of RaceFreeFakeWatcher: a [select] that panics where
    the channel is full. *)
Definition send (e : Event) (result : list Event) : outcome (list Event) :=
  if (length result <? DefaultChanSize)%nat then Val (result ++ [e]) else Panicked "channel full".

Fixpoint send_all (e : Event) (watches : list (list Event)) : outcome (list (list Event)) :=
  match watches with
  | [] => Val []
  | w :: rest => w <~ send e w; rest <~ send_all e rest; Val (w :: rest)
  end.

Definition send_at (gvr : GVR) (key : string) (e : Event) (t : tracker) : outcome tracker :=
  match watchers t !! gvr with
  | None => Val t
  | Some by_ns =>
      match by_ns !! key with
      | None => Val t
      | Some watches => ws <~ send_all e watches; Val (mkTracker (objects t) (<[gvr := <[key := ws]> by_ns]> (watchers t)))
      end
  end.

(** The loops over [getWatches]: the watchers of the namespace, then those of all
    namespaces. *)
Definition notify (gvr : GVR) (ns : string) (e : Event) (t : tracker) : outcome tracker :=
  t <~ send_at gvr ns e t;
  if is_empty ns then Val t else send_at gvr "" e t.

(** What the constructors of apierrors make; [%s] of a GroupResource. *)
Definition GroupResource_String (gvr : GVR) : string :=
  let '(g, _, r) := gvr in if is_empty g then r else r +:+ "." +:+ g.

Definition NotFoundFor (gvr : GVR) (name : string) : error :=
  NewNotFound (GroupResource_String gvr +:+ " " +:+ name +:+ " not found").
Definition NewAlreadyExists (gvr : GVR) (name : string) : error :=
  APIError "AlreadyExists" 409 (GroupResource_String gvr +:+ " " +:+ name +:+ " already exists").
Definition NewBadRequest (reason : string) : error := APIError "BadRequest" 400 reason.

Definition at_resource (gvr : GVR) (t : tracker) : gmap (string * string) Object := default ∅ (objects t !! gvr).

Definition put (gvr : GVR) (m : gmap (string * string) Object) (t : tracker) : tracker :=
  mkTracker (<[gvr := m]> (objects t)) (watchers t).

Definition tracker_add (gvr : GVR) (obj : Object) (ns : string) (replaceExisting : bool) (t : tracker)
    : outcome (option error * tracker) :=
  let obj := if is_empty (obj_Namespace obj) then obj_set_Namespace ns obj else obj in
  if negb (ns =s? obj_Namespace obj) then
    Val (Some (NewBadRequest ("request namespace does not match object namespace, request: " +:+ ns +:+
                 " object: " +:+ obj_Namespace obj)), t)
  else
    let t := match objects t !! gvr with None => put gvr ∅ t | Some _ => t end in
    let namespacedName := (obj_Namespace obj, obj_Name obj) in
    match at_resource gvr t !! namespacedName with
    | Some _ =>
        if replaceExisting then
          t <~ notify gvr ns (Modified, obj) t;
          Val (None, put gvr (<[namespacedName := obj]> (at_resource gvr t)) t)
        else Val (Some (NewAlreadyExists gvr (obj_Name obj)), t)
    | None =>
        if replaceExisting then Val (Some (NotFoundFor gvr (obj_Name obj)), t)
        else
          let t := put gvr (<[namespacedName := obj]> (at_resource gvr t)) t in
          t <~ notify gvr ns (Added, obj) t; Val (None, t)
    end.

(** No kind of the clientsets is a metav1.Status. *)
Definition tracker_Get (gvr : GVR) (ns name : string) (t : tracker) : option Object * option error :=
  match objects t !! gvr with
  | None => (None, Some (NotFoundFor gvr name))
  | Some objs =>
      match objs !! (ns, name) with
      | None => (None, Some (NotFoundFor gvr name))
      | Some obj => (Some obj, None)
      end
  end.

Definition tracker_Delete (gvr : GVR) (ns name : string) (t : tracker) : outcome (option error * tracker) :=
  match objects t !! gvr with
  | None => Val (Some (NotFoundFor gvr name), t)
  | Some objs =>
      match objs !! (ns, name) with
      | None => Val (Some (NotFoundFor gvr name), t)
      | Some obj =>
          let t := put gvr (delete (ns, name) objs) t in
          t <~ notify gvr ns (Deleted, obj) t; Val (None, t)
      end
  end.

Definition tracker_Watch (gvr : GVR) (ns : string) (t : tracker) : tracker :=
  let by_ns := default ∅ (watchers t !! gvr) in
  mkTracker (objects t) (<[gvr := <[ns := default [] (by_ns !! ns) ++ [[]]]> by_ns]> (watchers t)).

(** *** List *)

(** The comparison of [sort.Slice] in filterByNamespace, and not less. *)
Definition obj_less (a b : Object) : bool :=
  if negb (obj_Namespace a =s? obj_Namespace b) then String.ltb (obj_Namespace a) (obj_Namespace b)
  else String.ltb (obj_Name a) (obj_Name b).
Definition obj_le (a b : Object) : Prop := obj_less b a = false.

#[export] Instance obj_le_dec a b : Decision (obj_le a b).
Proof. unfold obj_le. apply _. Defined.

Definition filterByNamespace (objs : gmap (string * string) Object) (ns : string) : list Object :=
  merge_sort obj_le
    (filter (fun obj => negb (negb (is_empty ns) && negb (obj_Namespace obj =s? ns)) = true) (map_to_list objs).*2).

(** A scheme: the types it knows, each with its list type under one version. *)
Definition Scheme : Type := list kind.

(** [scheme.New] of the kind [gvk.Kind + "List"]. *)
Definition New_list (scheme : Scheme) (gvk : GVK) : option kind :=
  snd <$> list_find (fun k => gvk_of k = gvk) scheme.

Definition tracker_List (scheme : Scheme) (gvr : GVR) (gvk : GVK) (ns : string) (t : tracker)
    : option runtimeObject * option error :=
  match New_list scheme gvk with
  | None => (None, Some (Errorf "no kind is registered in the scheme for the list of" [AStr gvk.2]))
  | Some k =>
      match objects t !! gvr with
      | None => (Some (AList k []), None)
      | Some objs =>
          match mapM (as_kind k) (filterByNamespace objs ns) with
          | None => (None, Some (errors_New "can't assign or convert to an item of the list"))
          | Some items => (Some (AList k items), None)
          end
      end
  end.

(** *** Add *)

(** [strings.ToLower] on ASCII. *)
Definition lower (c : ascii) : ascii :=
  let n := N_of_ascii c in if ((65 <=? n) && (n <=? 90))%N then ascii_of_N (n + 32) else c.
Fixpoint ToLower (s : string) : string :=
  match s with EmptyString => EmptyString | String c s => String (lower c) (ToLower s) end.

Definition HasSuffix (s suffix : string) : bool :=
  (String.length suffix <=? String.length s)%nat && (string_drop (String.length s - String.length suffix) s =s? suffix).
Definition TrimSuffix (s suffix : string) : string :=
  if HasSuffix s suffix then String.substring 0 (String.length s - String.length suffix) s else s.

Definition unpluralizedSuffixes : list string := ["endpoints"].

Definition UnsafeGuessKindToResource (gvk : GVK) : GVR :=
  let '(group, version, kindName) := gvk in
  if is_empty kindName then (EmptyString, EmptyString, EmptyString) else
  let singularName := ToLower kindName in
  if existsb (HasSuffix singularName) unpluralizedSuffixes then (group, version, singularName)
  else if HasSuffix singularName "s" then (group, version, singularName +:+ "es")
  else if HasSuffix singularName "y" then (group, version, TrimSuffix singularName "y" +:+ "ies")
  else (group, version, singularName +:+ "s").

(** [scheme.ObjectKinds]. *)
Definition ObjectKinds (scheme : Scheme) (o : Object) : list GVK + error :=
  if decide (obj_kind o ∈ scheme) then inl [gvk_of (obj_kind o)]
  else inr (Errorf "no kind is registered for the type %v in scheme" [AStr (kind_name (obj_kind o))]).

Fixpoint add_kinds (gvks : list GVK) (o : Object) (t : tracker) : outcome (option error * tracker) :=
  match gvks with
  | [] => Val (None, t)
  | gvk :: rest =>
      '(err, t) <~ tracker_add (UnsafeGuessKindToResource gvk) o (obj_Namespace o) false t;
      if is_nil err then add_kinds rest o t else Val (err, t)
  end.

Definition Add_object (scheme : Scheme) (o : Object) (t : tracker) : outcome (option error * tracker) :=
  match ObjectKinds scheme o with
  | inr err => Val (Some err, t)
  | inl [] => Val (Some (errors_New "no registered kinds for %v"), t)
  | inl gvks => add_kinds gvks o t
  end.

(** addList: the items one after the other. *)
Fixpoint Add_objects (scheme : Scheme) (l : list Object) (t : tracker) : outcome (option error * tracker) :=
  match l with
  | [] => Val (None, t)
  | o :: l =>
      '(err, t) <~ Add_object scheme o t;
      if is_nil err then Add_objects scheme l t else Val (err, t)
  end.

Definition tracker_Add (scheme : Scheme) (o : runtimeObject) (t : tracker) : outcome (option error * tracker) :=
  match o with
  | AnObject o => Add_object scheme o t
  | AList k items => Add_objects scheme (mkObject k <$> items) t
  end.

(** ** The reactions *)

(** The libraries that make patches.  The first is [json.Marshal], one of the
    three kinds of patch and [json.Unmarshal] into an empty object. *)
Class PatchLib := {
  patched : forall k, string -> string -> object k -> object k + error;
  yaml_Unmarshal_name : string -> string + error;      (* the name in an apply configuration *)
  strategic_merge : forall k, string -> object k -> object k + error }.

Definition ApplyPatchType : string := "application/apply-patch+yaml".
Definition PatchTypes : list string :=
  ["application/json-patch+json"; "application/merge-patch+json"; "application/strategic-merge-patch+json"].

Section Reactions.
Context {L : PatchLib}.

(** t.Apply *)
Definition tracker_Apply (gvr : GVR) (data ns : string) (t : tracker) : outcome (option error * tracker) :=
  match yaml_Unmarshal_name data with
  | inr err => Val (Some err, t)
  | inl name =>
      match tracker_Get gvr ns name t with
      | (Some (mkObject k o), None) =>
          match strategic_merge k data o with
          | inr err => Val (Some err, t)
          | inl o' => tracker_add gvr (mkObject k o') ns true t
          end
      | (_, err) => Val (err, t)
      end
  end.

(** [err = tracker...; if err != nil { return nil, err }; return tracker.Get(...)] *)
Definition then_Get (gvr : GVR) (ns name : string) (m : outcome (option error * tracker))
    : outcome (option runtimeObject * option error * tracker) :=
  '(err, t) <~ m;
  match err with
  | Some e => Val (None, Some e, t)
  | None => let '(obj, err) := tracker_Get gvr ns name t in Val (AnObject <$> obj, err, t)
  end.

Definition react_Patch (gvr : GVR) (ns name patchType data : string) (t : tracker)
    : outcome (option runtimeObject * option error * tracker) :=
  match tracker_Get gvr ns name t with
  | (Some (mkObject k o), None) =>
      if negb (bool_decide (patchType ∈ PatchTypes)) then
        Val (None, Some (Errorf "PatchType %s is not supported" [AStr patchType]), t)
      else
        match patched k patchType data o with
        | inr err => Val (None, Some err, t)
        | inl o' =>
            '(err, t) <~ tracker_add gvr (mkObject k o') ns true t;
            match err with
            | Some e => Val (None, Some e, t)
            | None => Val (Some (AnObject (mkObject k o')), None, t)
            end
        end
  | (_, err) => Val (None, err, t)
  end.

Definition ReactionFunc : Type := forall k, action k -> tracker -> outcome (bool * option runtimeObject * option error * tracker).

Definition reacted (m : outcome (option runtimeObject * option error * tracker))
    : outcome (bool * option runtimeObject * option error * tracker) :=
  '(ret, err, t) <~ m; Val (true, ret, err, t).

Definition ObjectReaction (scheme : Scheme) : ReactionFunc := fun k a t =>
  let gvr := gvr_of k in
  match a with
  | ListAction ns _ => reacted (Val (tracker_List scheme gvr (gvk_of k) (default EmptyString ns) t, t))
  | GetAction ns name =>
      let '(obj, err) := tracker_Get gvr (default EmptyString ns) name t in reacted (Val (AnObject <$> obj, err, t))
  | CreateAction ns o =>
      let ns := default EmptyString ns in
      reacted (then_Get gvr ns (object_Name o) (tracker_add gvr (mkObject k o) ns false t))
  | UpdateAction ns o | UpdateSubresourceAction _ ns o =>
      let ns := default EmptyString ns in
      reacted (then_Get gvr ns (object_Name o) (tracker_add gvr (mkObject k o) ns true t))
  | DeleteAction ns name =>
      '(err, t) <~ tracker_Delete gvr (default EmptyString ns) name t; reacted (Val (None, err, t))
  | PatchSubresourceAction ns name patchType data _ =>
      let ns := default EmptyString ns in
      if patchType =s? ApplyPatchType then reacted (then_Get gvr ns name (tracker_Apply gvr data ns t))
      else reacted (react_Patch gvr ns name patchType data t)
  | WatchAction _ _ | DeleteCollectionAction _ _ => Val (false, None, Some (errors_New "no reaction implemented for %s"), t)
  end.
End Reactions.
End Tracker.
