(* ===== verification/FakeClientset.v ===== *)
(** * The fake clientsets

    fake/clientset_generated.go and fake/register.go of the three clientsets of
    pkg/generated, with [Fake] of client-go's testing package, which they embed: a
    clientset is a tracker, the actions it has seen, and chains of reactors.  A
    fake client (Fakes.v) runs against one by [run_fake].  The theorem says what
    the tests may rely on: a fake clientset keeps a store of objects. *)

From stdpp Require Import sorting.
From S2P Require Import Prelude GoStrings Errors Effects Wait Objects ClientAPI.
From S2P Require Import Clientsets Generated Fakes RestConfig ObjectTracker.
Import Tracker.

(** ** Fake *)

Definition GetVerb {k} (a : action k) : string :=
  match a with
  | GetAction _ _ => "get" | ListAction _ _ => "list" | WatchAction _ _ => "watch" | CreateAction _ _ => "create"
  | UpdateAction _ _ | UpdateSubresourceAction _ _ _ => "update"
  | DeleteAction _ _ => "delete" | DeleteCollectionAction _ _ => "delete-collection"
  | PatchSubresourceAction _ _ _ _ _ => "patch"
  end.

Definition GetSubresource {k} (a : action k) : string :=
  match a with
  | UpdateSubresourceAction sub _ _ => sub
  | PatchSubresourceAction _ _ _ _ subs => Join subs "/"
  | _ => EmptyString
  end.

Definition GetNamespace {k} (a : action k) : string :=
  default EmptyString
    match a with
    | GetAction ns _ | ListAction ns _ | WatchAction ns _ | CreateAction ns _ | UpdateAction ns _
    | UpdateSubresourceAction _ ns _ | DeleteAction ns _ | DeleteCollectionAction ns _
    | PatchSubresourceAction ns _ _ _ _ => ns
    end.

Definition resourceCovers {k} (res : string) (a : action k) : bool :=
  if res =s? "*" then true
  else if res =s? resource k then true
  else match SplitN2 res "/" with
       | [r; sub] => (r =s? resource k) && (sub =s? GetSubresource a)
       | _ => false
       end.

Record SimpleReactor := mkSimpleReactor { Verb : string; sr_Resource : string; Reaction : ReactionFunc }.

Definition Handles (r : SimpleReactor) {k} (a : action k) : bool :=
  ((Verb r =s? "*") || (Verb r =s? GetVerb a)) && resourceCovers (sr_Resource r) a.

(** A watch reaction: whether it was handled, and the watch or the error. *)
Definition WatchReactionFunc : Type := forall k, action k -> tracker -> bool * (unit + error) * tracker.
Record SimpleWatchReactor := mkSimpleWatchReactor { swr_Resource : string; WatchReaction : WatchReactionFunc }.

(** The clientset: its [testing.Fake], and the tracker that its reactors close
    over.  [Discovery] gives a client of the same [Fake]. *)
Record FakeClientset := mkFakeClientset {
  actions : list {k : kind & action k};
  ReactionChain : list SimpleReactor;
  WatchReactionChain : list SimpleWatchReactor;
  cs_tracker : tracker }.

Definition AddReactor (r : SimpleReactor) (c : FakeClientset) : FakeClientset :=
  mkFakeClientset (actions c) (ReactionChain c ++ [r]) (WatchReactionChain c) (cs_tracker c).
Definition AddWatchReactor (r : SimpleWatchReactor) (c : FakeClientset) : FakeClientset :=
  mkFakeClientset (actions c) (ReactionChain c) (WatchReactionChain c ++ [r]) (cs_tracker c).
Definition record_action {k} (a : action k) (c : FakeClientset) : FakeClientset :=
  mkFakeClientset (actions c ++ [existT k a]) (ReactionChain c) (WatchReactionChain c) (cs_tracker c).
Definition with_tracker (t : tracker) (c : FakeClientset) : FakeClientset :=
  mkFakeClientset (actions c) (ReactionChain c) (WatchReactionChain c) t.

Fixpoint react (chain : list SimpleReactor) {k} (a : action k) (defaultReturnObj : runtimeObject) (t : tracker)
    : outcome (option runtimeObject * option error * tracker) :=
  match chain with
  | [] => Val (Some defaultReturnObj, None, t)
  | reactor :: chain =>
      if negb (Handles reactor a) then react chain a defaultReturnObj t
      else
        '(handled, ret, err, t) <~ Reaction reactor k a t;
        if negb handled then react chain a defaultReturnObj t else Val (ret, err, t)
  end.

Definition Invokes {k} (a : action k) (defaultReturnObj : runtimeObject) (c : FakeClientset)
    : outcome (option runtimeObject * option error * FakeClientset) :=
  let c := record_action a c in
  '(ret, err, t) <~ react (ReactionChain c) a defaultReturnObj (cs_tracker c);
  Val (ret, err, with_tracker t c).

Fixpoint react_watch (chain : list SimpleWatchReactor) {k} (a : action k) (t : tracker) : (unit + error) * tracker :=
  match chain with
  | [] => (inr (Errorf "unhandled watch: %#v" []), t)
  | reactor :: chain =>
      if negb (resourceCovers (swr_Resource reactor) a) then react_watch chain a t
      else
        let '(handled, ret, t) := WatchReaction reactor k a t in
        if negb handled then react_watch chain a t else (ret, t)
  end.

Definition InvokesWatch {k} (a : action k) (c : FakeClientset) : (unit + error) * FakeClientset :=
  let c := record_action a c in
  let '(ret, t) := react_watch (WatchReactionChain c) a (cs_tracker c) in (ret, with_tracker t c).

(** ** The calls of the fake clients

    [Invokes] with the empty object or list of the method, and the assertion of
    its result to the type of the client. *)

Definition assert_object (k : kind) (ret : option runtimeObject) : outcome (option (object k)) :=
  match ret with
  | None => Val None
  | Some (AnObject o) => match as_kind k o with Some x => Val (Some x) | None => Panicked "interface conversion" end
  | Some (AList _ _) => Panicked "interface conversion"
  end.

Definition assert_list (k : kind) (ret : option runtimeObject) : outcome (option (list (object k))) :=
  match ret with
  | None => Val None
  | Some (AList k' items) =>
      match mapM (fun x => as_kind k (mkObject k' x)) items with
      | Some l => if bool_decide (k' = k) then Val (Some l) else Panicked "interface conversion"
      | None => Panicked "interface conversion"
      end
  | Some (AnObject _) => Panicked "interface conversion"
  end.

Definition call_object {k} (a : action k) (c : FakeClientset) : outcome (option (object k) * option error * FakeClientset) :=
  '(ret, err, c) <~ Invokes a (AnObject (mkObject k (zero k))) c;
  obj <~ assert_object k ret;
  Val (obj, err, c).

Definition act {k} (a : action k) (c : FakeClientset) : outcome (Fake.action_answer a * FakeClientset) :=
  match a as a return outcome (Fake.action_answer a * FakeClientset) with
  | ListAction ns sel =>
      '(ret, err, c) <~ Invokes (ListAction (k := k) ns sel) (AList k []) c;
      obj <~ assert_list k ret;
      Val (obj, err, c)
  | WatchAction ns sel => Val (InvokesWatch (WatchAction (k := k) ns sel) c)
  | DeleteAction ns name =>
      '(_, err, c) <~ Invokes (DeleteAction (k := k) ns name) (AnObject (mkObject k (zero k))) c; Val (None, err, c)
  | DeleteCollectionAction ns sel =>
      '(_, err, c) <~ Invokes (DeleteCollectionAction (k := k) ns sel) (AList k []) c; Val (None, err, c)
  | GetAction ns name => call_object (GetAction ns name) c
  | CreateAction ns o => call_object (CreateAction ns o) c
  | UpdateAction ns o => call_object (UpdateAction ns o) c
  | UpdateSubresourceAction sub ns o => call_object (UpdateSubresourceAction sub ns o) c
  | PatchSubresourceAction ns name pt data subs => call_object (PatchSubresourceAction ns name pt data subs) c
  end.

(** A program of fake clients against a clientset. *)
Fixpoint run_fake {A} (p : prog fakeE A) (c : FakeClientset) : outcome (A * FakeClientset) :=
  match p with
  | Ret a => Val (a, c)
  | Panic why => Panicked why
  | Vis (Fake.Invokes k a) f => '(r, c) <~ act a c; run_fake (f r) c
  end.

(** ** The clientsets *)

Section FakeClientsets.
Context {L : PatchLib}.

Fixpoint add_all (scheme : Scheme) (objects : list runtimeObject) (t : tracker) : outcome tracker :=
  match objects with
  | [] => Val t
  | obj :: rest =>
      '(err, t) <~ tracker_Add scheme obj t;
      if is_nil err then add_all scheme rest t else Panicked "panic(err)"
  end.

Definition watch_reaction : WatchReactionFunc := fun k a t =>
  let gvr := gvr_of k in
  let ns := GetNamespace a in
  (true, inl tt, tracker_Watch gvr ns t).

Definition NewSimpleClientset (scheme : Scheme) (objects : list runtimeObject) : outcome FakeClientset :=
  o <~ add_all scheme objects NewObjectTracker;
  let cs := mkFakeClientset [] [] [] o in
  let cs := AddReactor (mkSimpleReactor "*" "*" (ObjectReaction scheme)) cs in
  Val (AddWatchReactor (mkSimpleWatchReactor "*" watch_reaction) cs).
End FakeClientsets.

(** register.go: what AddToScheme of the API packages registers. *)
Definition kubevirt_scheme : Scheme :=
  [KVirtualMachineInstance; KOther KVirtualMachineInstanceReplicaSet; KOther KVirtualMachineInstancePreset;
   KOther KVirtualMachineInstanceMigration; KVirtualMachine; KOther KKubeVirt].
Definition cdi_scheme : Scheme :=
  [KDataVolume; KOther KCDIConfig; KOther KCDI; KOther KStorageProfile; KOther KDataSource; KOther KDataImportCron;
   KOther KObjectTransfer; KOther KVolumeImportSource; KOther KVolumeUploadSource; KOther KVolumeCloneSource].
Definition snapshot_scheme : Scheme := [KVolumeSnapshotClass; KVolumeSnapshot; KOther KVolumeSnapshotContent].

(** The three clientsets, and their getters: the clients that run against one. *)
Definition kubevirt_NewSimpleClientset {L : PatchLib} : list runtimeObject -> outcome FakeClientset := NewSimpleClientset kubevirt_scheme.
Definition cdi_NewSimpleClientset {L : PatchLib} : list runtimeObject -> outcome FakeClientset := NewSimpleClientset cdi_scheme.
Definition snapshot_NewSimpleClientset {L : PatchLib} : list runtimeObject -> outcome FakeClientset := NewSimpleClientset snapshot_scheme.

Definition Clientset_KubevirtV1 := FakeKubevirtV1.
Definition Clientset_CdiV1beta1 := FakeCdiV1beta1.
Definition Clientset_SnapshotV1 := FakeSnapshotV1.
Definition Clientset_Tracker : FakeClientset -> tracker := cs_tracker.

(** ** The store that a tracker holds *)

Lemma as_kind_same k (x : object k) : as_kind k (mkObject k x) = Some x.
Proof. unfold as_kind. cbn. destruct (decide (k = k)) as [e|]; [|done]. by rewrite (proof_irrel e eq_refl). Qed.

Lemma as_kind_inv k o x : as_kind k o = Some x -> o = mkObject k x.
Proof. unfold as_kind. destruct o as [k' y]. cbn. destruct (decide (k' = k)) as [e|]; [|done]. destruct e. cbn. by intros [= ->]. Qed.

Lemma gvr_of_inj k k' : gvr_of k = gvr_of k' -> k = k'.
Proof. destruct k as [| | | | | | |[]], k' as [| | | | | | |[]]; try reflexivity; intros H; exfalso; revert H; by vm_compute. Qed.

Lemma gvk_of_inj k k' : gvk_of k = gvk_of k' -> k = k'.
Proof. destruct k as [| | | | | | |[]], k' as [| | | | | | |[]]; try reflexivity; intros H; exfalso; revert H; by vm_compute. Qed.

(** The resource guessed for a kind is the one of its client. *)
Lemma guess_is_resource k : UnsafeGuessKindToResource (gvk_of k) = gvr_of k.
Proof. by destruct k as [| | | | | | |[]]. Qed.

Lemma set_Namespace_Name k ns (o : object k) : object_Name (set_Namespace ns o) = object_Name o.
Proof. by destruct k. Qed.
Lemma set_Namespace_Namespace k ns (o : object k) : object_Namespace (set_Namespace ns o) = ns.
Proof. by destruct k. Qed.

(** Objects by kind, namespace and name. *)
Definition store : Type := forall k, string -> string -> option (object k).

Definition held (t : tracker) : store := fun k ns n => mbind (as_kind k) (at_resource (gvr_of k) t !! (ns, n)).

(** Every object is stored under the resource of its kind, its namespace and its
    name. *)
Definition well_placed (t : tracker) : Prop := forall k key o,
  at_resource (gvr_of k) t !! key = Some o -> obj_kind o = k /\ key = (obj_Namespace o, obj_Name o).

(** The buffer of a watcher of a resource in a namespace. *)
Definition channel (t : tracker) (gvr : GVR) (ns : string) (w : list Event) : Prop := exists by_ns watches,
  watchers t !! gvr = Some by_ns /\ by_ns !! ns = Some watches /\ w ∈ watches.

(** Every channel has room for [n] more events. *)
Definition room (n : nat) (t : tracker) : Prop := forall gvr ns w,
  channel t gvr ns w -> (length w + n <= DefaultChanSize)%nat.

Lemma held_lookup t k ns n x :
  well_placed t -> held t k ns n = Some x <-> at_resource (gvr_of k) t !! (ns, n) = Some (mkObject k x).
Proof.
  intros Hw. unfold held. split.
  - intros (o & Ho & Hx)%bind_Some. apply as_kind_inv in Hx as ->. done.
  - intros ->. simpl. apply as_kind_same.
Qed.

Lemma held_none t k ns n : well_placed t -> held t k ns n = None <-> at_resource (gvr_of k) t !! (ns, n) = None.
Proof.
  intros Hw. unfold held. split; [|by intros ->]. destruct (_ !! _) as [[k' y]|] eqn:Ho; [|done].
  destruct (Hw _ _ _ Ho) as [Hk _]. simpl in Hk. subst k'. simpl. by rewrite as_kind_same.
Qed.

Lemma held_place t k ns n x : well_placed t -> held t k ns n = Some x -> object_Namespace x = ns /\ object_Name x = n.
Proof. intros Hw Hx%held_lookup; [|done]. destruct (Hw _ _ _ Hx) as [_ Hk]. by simplify_eq. Qed.

Lemma Get_held t k ns n : well_placed t ->
  tracker_Get (gvr_of k) ns n t =
    match held t k ns n with Some x => (Some (mkObject k x), None) | None => (None, Some (NotFoundFor (gvr_of k) n)) end.
Proof.
  intros Hw. unfold tracker_Get. destruct (held t k ns n) as [x|] eqn:Hx.
  - apply held_lookup in Hx; [|done]. unfold at_resource in Hx. destruct (objects t !! _) as [objs|]; [|done].
    cbn in Hx. by rewrite Hx.
  - apply held_none in Hx; [|done]. unfold at_resource in Hx. destruct (objects t !! _) as [objs|]; [|done].
    cbn in Hx. by rewrite Hx.
Qed.

(** ** Events never change the objects *)

Lemma send_all_room e ws : (forall w, w ∈ ws -> (length w < DefaultChanSize)%nat) ->
  exists ws', send_all e ws = Val ws' /\ forall w', w' ∈ ws' -> exists w, w ∈ ws /\ length w' = S (length w).
Proof.
  induction ws as [|w ws IH]; intros Hw; [exists []; split; [done|by intros w' ?%elem_of_nil]|]. destruct IH as (ws' & IH & Hl); [intros; apply Hw; by right|].
  simpl. unfold send. rewrite (proj2 (Nat.ltb_lt _ _)) by (apply Hw; by left). simpl. rewrite IH. eexists. split; [done|].
  intros w' [->|(v & Hv & Hlen)%Hl]%elem_of_cons; [|exists v; split; [by right|done]].
  exists w. split; [by left|]. rewrite length_app. simpl. lia.
Qed.

Lemma send_at_ok gvr key e t : (forall w, channel t gvr key w -> (length w < DefaultChanSize)%nat) ->
  exists t', send_at gvr key e t = Val t' /\ objects t' = objects t /\
    forall g ns w', channel t' g ns w' ->
      (g = gvr /\ ns = key /\ exists w, channel t g ns w /\ length w' = S (length w)) \/
      ((g, ns) <> (gvr, key) /\ channel t g ns w').
Proof.
  intros Hr. unfold send_at. destruct (watchers t !! gvr) as [by_ns|] eqn:Hb.
  2: { exists t. split_and!; [done..|]. intros g ns w' Hc. right. split; [|done]. intros [= -> ->]. destruct Hc as (?&?&?&?). congruence. }
  destruct (by_ns !! key) as [ws|] eqn:Hk.
  2: { exists t. split_and!; [done..|]. intros g ns w' Hc. right. split; [|done]. intros [= -> ->]. destruct Hc as (?&?&?&?&?). congruence. }
  destruct (send_all_room e ws) as (ws' & -> & Hl); [intros w Hw; apply Hr; by exists by_ns, ws|].
  simpl. eexists. split_and!; [done..|]. intros g ns w' (b & vs & Hg & Hn & Hw). cbn in Hg.
  destruct (decide (g = gvr)) as [->|]; [|rewrite lookup_insert_ne in Hg by done; right; split; [congruence|by exists b, vs]].
  rewrite lookup_insert_eq in Hg. injection Hg as <-.
  destruct (decide (ns = key)) as [->|]; [|rewrite lookup_insert_ne in Hn by done; right; split; [congruence|by exists by_ns, vs]].
  rewrite lookup_insert_eq in Hn. injection Hn as <-. left. split_and!; [done..|].
  destruct (Hl _ Hw) as (w & Hin & Hlen). exists w. split; [by exists by_ns, ws|done].
Qed.

Lemma notify_ok gvr ns e t : room 1 t -> exists t', notify gvr ns e t = Val t' /\ objects t' = objects t /\
  forall n, room (S n) t -> room n t'.
Proof.
  intros Hr. unfold notify. destruct (send_at_ok gvr ns e t) as (t1 & -> & Ho & Hc).
  { intros w Hw. specialize (Hr _ _ _ Hw). lia. }
  simpl. destruct (is_empty ns) eqn:Hn.
  { eexists. split_and!; [done..|]. intros n Hrn g k w' [(-> & -> & w & Hw & ->)|[_ Hw]]%Hc; specialize (Hrn _ _ _ Hw); lia. }
  apply is_empty_false in Hn. destruct (send_at_ok gvr "" e t1) as (t2 & -> & Ho2 & Hc2).
  { intros w [(_ & He & _)|[_ Hw]]%Hc; [congruence|]. specialize (Hr _ _ _ Hw). lia. }
  exists t2. split_and!; [done|congruence|]. intros n Hrn g k w' [(-> & -> & w & Hw & ->)|[_ Hw]]%Hc2.
  - apply Hc in Hw as [(_ & He & _)|[_ Hw]]; [congruence|]. specialize (Hrn _ _ _ Hw). lia.
  - apply Hc in Hw as [(-> & -> & w & Hw & ->)|[_ Hw]]; specialize (Hrn _ _ _ Hw); lia.
Qed.

(** ** What each operation does to the store *)

Definition same (st st' : store) : Prop := forall k ns n, st' k ns n = st k ns n.

(** One place changes. *)
Definition becomes (st st' : store) (k : kind) (ns n : string) (v : option (object k)) : Prop :=
  st' k ns n = v /\ forall k' ns' n', (k', ns', n') <> (k, ns, n) -> st' k' ns' n' = st k' ns' n'.

Lemma at_resource_objects t t' gvr : objects t = objects t' -> at_resource gvr t = at_resource gvr t'.
Proof. unfold at_resource. by intros ->. Qed.

Lemma held_objects t t' : objects t = objects t' -> held t = held t'.
Proof. intros H. unfold held, at_resource. by rewrite H. Qed.

Lemma at_resource_put gvr gvr' m t : at_resource gvr (put gvr' m t) = if decide (gvr = gvr') then m else at_resource gvr t.
Proof. unfold at_resource, put. cbn. destruct (decide _) as [->|]; [by rewrite lookup_insert_eq|by rewrite lookup_insert_ne]. Qed.

(** An update or a removal of one object. *)
Lemma put_becomes t t' k ns n v :
  objects t' = objects (put (gvr_of k)
    (match v with Some x => <[(ns, n) := mkObject k x]> | None => delete (ns, n) end (at_resource (gvr_of k) t)) t) ->
  (forall x, v = Some x -> object_Namespace x = ns /\ object_Name x = n) ->
  well_placed t -> well_placed t' /\ becomes (held t) (held t') k ns n v.
Proof.
  intros Ho Hv Hw. assert (Ha : forall gvr, at_resource gvr t' = if decide (gvr = gvr_of k)
    then match v with Some x => <[(ns, n) := mkObject k x]> | None => delete (ns, n) end (at_resource (gvr_of k) t)
    else at_resource gvr t).
  { intros gvr. by rewrite (at_resource_objects _ _ _ Ho), at_resource_put. }
  split.
  - intros k1 key o. rewrite Ha. destruct (decide _) as [->%gvr_of_inj|]; [|by apply Hw].
    destruct v as [x|].
    + rewrite lookup_insert_Some. intros [[<- <-]|[_ H]]; [|by apply Hw]. destruct (Hv x eq_refl) as [<- <-]. done.
    + rewrite lookup_delete_Some. intros [_ H]. by apply Hw.
  - split.
    + unfold held. rewrite Ha, decide_True by done. destruct v as [x|].
      * rewrite lookup_insert_eq. apply as_kind_same.
      * by rewrite lookup_delete_eq.
    + intros k' ns' n' Hne. unfold held. rewrite Ha. destruct (decide _) as [->%gvr_of_inj|]; [|done].
      destruct v; [rewrite lookup_insert_ne by congruence|rewrite lookup_delete_ne by congruence]; done.
Qed.

(** The object as it is stored in a namespace. *)
Definition placed {k} (ns : string) (o : object k) : object k :=
  if is_empty (object_Namespace o) then set_Namespace ns o else o.

Definition bad_request (err : option error) : Prop := exists msg, err = Some (NewBadRequest msg).

(** An object is stored as a new one, or in the place of another. *)
Definition stored (replace : bool) (st st' : store) (k : kind) (ns : string) (o : object k) (err : option error) : Prop :=
  if negb (ns =s? object_Namespace (placed ns o)) then bad_request err /\ same st st'
  else
    match st k ns (object_Name o), replace with
    | Some _, true | None, false => err = None /\ becomes st st' k ns (object_Name o) (Some (placed ns o))
    | Some _, false => err = Some (NewAlreadyExists (gvr_of k) (object_Name o)) /\ same st st'
    | None, true => err = Some (NotFoundFor (gvr_of k) (object_Name o)) /\ same st st'
    end.

Definition removed (st st' : store) (k : kind) (ns n : string) (err : option error) : Prop :=
  match st k ns n with
  | Some _ => err = None /\ becomes st st' k ns n None
  | None => err = Some (NotFoundFor (gvr_of k) n) /\ same st st'
  end.

Lemma placed_Name k ns (o : object k) : object_Name (placed ns o) = object_Name o.
Proof. unfold placed. destruct (is_empty _); [apply set_Namespace_Name|done]. Qed.

Lemma placed_idem k ns (o : object k) : object_Namespace o = ns -> placed ns o = o.
Proof. unfold placed. intros <-. destruct (is_empty _) eqn:He; [|done]. apply is_empty_spec in He. rewrite He. destruct k; destruct o; simpl in He; by subst. Qed.

Lemma placed_object k ns (o : object k) :
  (if is_empty (obj_Namespace (mkObject k o)) then obj_set_Namespace ns (mkObject k o) else mkObject k o) = mkObject k (placed ns o).
Proof. unfold placed, obj_Namespace, obj_set_Namespace. cbn. by destruct (is_empty _). Qed.

(** A tracker with the same objects under every resource. *)
Definition alike (t t' : tracker) : Prop := forall gvr, at_resource gvr t' = at_resource gvr t.

Lemma alike_held t t' : alike t t' -> same (held t) (held t').
Proof. intros Ha k ns n. unfold held. by rewrite Ha. Qed.

Lemma alike_well_formed t t' : alike t t' -> well_placed t -> well_placed t'.
Proof. intros Ha Hw k key o. rewrite Ha. apply Hw. Qed.

Lemma touch t gvr : let t1 := match objects t !! gvr with None => put gvr ∅ t | Some _ => t end in
  alike t t1 /\ watchers t1 = watchers t.
Proof.
  intros t1. unfold t1. destruct (objects t !! gvr) eqn:Ho; [done|]. split; [|done]. intros g.
  rewrite at_resource_put. destruct (decide _) as [->|]; [|done]. unfold at_resource. by rewrite Ho.
Qed.

Lemma becomes_alike t t1 st' k ns n v : alike t t1 -> becomes (held t1) st' k ns n v -> becomes (held t) st' k ns n v.
Proof.
  intros Ha [H1 H2]. split; [done|]. intros k' ns' n' Hne. rewrite (H2 _ _ _ Hne). by apply alike_held.
Qed.

(** The room that one event leaves. *)
Definition uses_room (t t' : tracker) : Prop := forall n, room (S n) t -> room n t'.

Lemma uses_room_refl t : uses_room t t.
Proof. intros n Hr g ns w Hw. specialize (Hr _ _ _ Hw). lia. Qed.
#[local] Hint Resolve uses_room_refl : go.

Lemma add_stores k (o : object k) ns replace t : well_placed t -> room 1 t ->
  exists err t', tracker_add (gvr_of k) (mkObject k o) ns replace t = Val (err, t') /\ well_placed t' /\ uses_room t t' /\
    stored replace (held t) (held t') k ns o err.
Proof.
  intros Hw Hr. unfold tracker_add, stored. rewrite placed_object. cbv zeta. unfold obj_Namespace, obj_Name. cbn [obj_kind obj_value].
  destruct (negb _) eqn:Hn; [eexists _, t; split_and!; [done|done|auto with go|by eexists|done]|]. reflect_bools. rewrite placed_Name, <- Hn.
  destruct (touch t (gvr_of k)) as [Ha Hwt]. set (t1 := match objects t !! gvr_of k with None => _ | Some _ => t end) in *.
  clearbody t1. assert (Hr1 : room 1 t1) by (unfold room, channel; by rewrite Hwt).
  assert (Hw1 : well_placed t1) by by eapply alike_well_formed. pose proof (alike_held _ _ Ha) as Hs.
  rewrite <- (Hs k ns (object_Name o)).
  assert (Hu1 : forall t', uses_room t1 t' -> uses_room t t') by (unfold uses_room, room, channel; by rewrite Hwt).
  assert (Hput : forall t', objects t' = objects (put (gvr_of k)
      (<[(ns, object_Name o) := mkObject k (placed ns o)]> (at_resource (gvr_of k) t1)) t1) ->
      well_placed t' /\ becomes (held t) (held t') k ns (object_Name o) (Some (placed ns o))).
  { intros t' Ho. destruct (put_becomes t1 t' k ns (object_Name o) (Some (placed ns o)) Ho) as [? Hb]; [|done|].
    - intros x [= <-]. by rewrite placed_Name.
    - split; [done|]. by eapply becomes_alike. }
  destruct (held t1 k ns (object_Name o)) as [x|] eqn:Hx; destruct replace.
  1,2: rewrite (proj1 (held_lookup _ _ _ _ _ Hw1) Hx). 3,4: rewrite (proj1 (held_none _ _ _ _ Hw1) Hx).
  - destruct (notify_ok (gvr_of k) ns (Modified, mkObject k (placed ns o)) t1 Hr1) as (t2 & -> & Ho & Hu). simpl.
    eexists _, _. split; [done|]. edestruct Hput as [? ?]; [|by split_and!; [..|apply Hu1| |]]. unfold put, at_resource. cbn. by rewrite Ho.
  - eexists _, t1. by split_and!; [..|apply Hu1; auto with go| |].
  - eexists _, t1. by split_and!; [..|apply Hu1; auto with go| |].
  - destruct (notify_ok (gvr_of k) ns (Added, mkObject k (placed ns o))
      (put (gvr_of k) (<[(ns, object_Name o) := mkObject k (placed ns o)]> (at_resource (gvr_of k) t1)) t1) Hr1) as (t2 & -> & Ho & Hu).
    simpl. eexists _, _. split; [done|]. edestruct Hput as [? ?]; [exact Ho|by split_and!; [..|apply Hu1| |]].
Qed.

Lemma Delete_removes k ns n t : well_placed t -> room 1 t ->
  exists err t', tracker_Delete (gvr_of k) ns n t = Val (err, t') /\ well_placed t' /\ uses_room t t' /\ removed (held t) (held t') k ns n err.
Proof.
  intros Hw Hr. unfold tracker_Delete, removed. destruct (held t k ns n) as [x|] eqn:Hx.
  - apply held_lookup in Hx; [|done]. unfold at_resource in Hx.
    destruct (objects t !! gvr_of k) as [objs|] eqn:Ho; [|done]. cbn in Hx. rewrite Hx.
    destruct (notify_ok (gvr_of k) ns (Deleted, mkObject k x) (put (gvr_of k) (delete (ns, n) objs) t) Hr) as (t2 & -> & Ho2 & Hu).
    simpl. eexists _, _. split; [done|]. edestruct (put_becomes t t2 k ns n None) as [? ?]; [|done|done|by split_and!].
    rewrite Ho2. unfold at_resource. by rewrite Ho.
  - apply held_none in Hx; [|done]. unfold at_resource in Hx. exists (Some (NotFoundFor (gvr_of k) n)), t.
    destruct (objects t !! gvr_of k) as [objs|] eqn:Ho; [cbn in Hx; rewrite Hx|]; split_and!; first [done|auto with go].
Qed.

(** *** Lists *)

Lemma ltb_asym a b : String.ltb a b = true -> String.ltb b a = false.
Proof. unfold String.ltb. rewrite (String.compare_antisym b a). by destruct (String.compare a b). Qed.

Lemma obj_less_asym a b : obj_less a b = true -> obj_less b a = false.
Proof.
  unfold obj_less, streq. destruct (decide (obj_Namespace a = obj_Namespace b)) as [He|He].
  - rewrite !bool_decide_eq_true_2 by done. apply ltb_asym.
  - rewrite !bool_decide_eq_false_2 by done. apply ltb_asym.
Qed.

#[export] Instance obj_le_total : Total obj_le.
Proof. intros a b. unfold obj_le. destruct (obj_less a b) eqn:H; [left; by apply obj_less_asym|by right]. Qed.

(** The objects of a kind in a namespace, or in all, sorted by namespace and name. *)
Definition listing (st : store) (k : kind) (ns : string) (items : list (object k)) : Prop :=
  Sorted obj_le (mkObject k <$> items) /\ NoDup items /\
  forall x, x ∈ items <-> st k (object_Namespace x) (object_Name x) = Some x /\ (ns = "" \/ object_Namespace x = ns).

Lemma filterByNamespace_elem m ns o : o ∈ filterByNamespace m ns <->
  (exists key, m !! key = Some o) /\ (ns = "" \/ obj_Namespace o = ns).
Proof.
  unfold filterByNamespace. rewrite merge_sort_Permutation, list_elem_of_filter, list_elem_of_fmap.
  assert (Hn : negb (negb (is_empty ns) && negb (obj_Namespace o =s? ns)) = true <-> ns = "" \/ obj_Namespace o = ns).
  { rewrite negb_true_iff, andb_false_iff, !negb_false_iff, is_empty_spec, streq_spec. done. }
  rewrite Hn. split.
  - intros [H ([key o'] & -> & Hk%elem_of_map_to_list)]. eauto.
  - intros [[key Hk] H]. split; [done|]. exists (key, o). by rewrite elem_of_map_to_list.
Qed.

Lemma filterByNamespace_NoDup m ns :
  (forall key o, m !! key = Some o -> key = (obj_Namespace o, obj_Name o)) -> NoDup (filterByNamespace m ns).
Proof.
  intros Hm. unfold filterByNamespace. rewrite merge_sort_Permutation. apply NoDup_filter, NoDup_fmap_2_strong.
  - intros [k1 o1] [k2 o2] H1%elem_of_map_to_list H2%elem_of_map_to_list. cbn. intros ->.
    by rewrite (Hm _ _ H1), (Hm _ _ H2).
  - apply NoDup_map_to_list.
Qed.

Lemma as_kinds k l : Forall (fun o => obj_kind o = k) l -> exists items, mapM (as_kind k) l = Some items /\ l = mkObject k <$> items.
Proof.
  induction 1 as [|o l Hk _ (items & IH & ->)]; [by exists []|]. destruct o as [k' x]. cbn in Hk. subst k'.
  exists (x :: items). split; [|done]. cbn -[as_kind]. by rewrite as_kind_same, IH.
Qed.

Lemma New_list_registered scheme k : k ∈ scheme -> New_list scheme (gvk_of k) = Some k.
Proof.
  intros Hk. unfold New_list. destruct (list_find _ scheme) as [[i k']|] eqn:Hf.
  - apply list_find_Some in Hf as (_ & He%gvk_of_inj & _). by subst.
  - apply list_find_None in Hf. rewrite Forall_forall in Hf. by destruct (Hf k Hk).
Qed.

Lemma List_lists scheme k ns t : k ∈ scheme -> well_placed t ->
  exists items, tracker_List scheme (gvr_of k) (gvk_of k) ns t = (Some (AList k items), None) /\ listing (held t) k ns items.
Proof.
  intros Hk Hw. unfold tracker_List. rewrite New_list_registered by done.
  set (l := filterByNamespace (at_resource (gvr_of k) t) ns).
  assert (Hl : forall o, o ∈ l -> obj_kind o = k) by (intros o [[key Ho] _]%filterByNamespace_elem; by destruct (Hw _ _ _ Ho)).
  destruct (as_kinds k l) as (items & Hi & He); [by rewrite Forall_forall|].
  exists items. split.
  - unfold l, at_resource in Hi. destruct (objects t !! gvr_of k) as [objs|]; cbn in Hi; [by rewrite Hi|].
    by injection Hi as <-.
  - split; [rewrite <- He; apply Sorted_merge_sort, _|]. split.
    + apply (NoDup_fmap_1 (mkObject k)). rewrite <- He. apply filterByNamespace_NoDup. intros key o Ho. by destruct (Hw _ _ _ Ho).
    + intros x. transitivity (mkObject k x ∈ l).
      * rewrite He, list_elem_of_fmap. split; [by exists x|]. intros (y & Hy & ?).
        assert (Some x = Some y) as [= ->]; [|done]. rewrite <- (as_kind_same k x), <- (as_kind_same k y). by rewrite Hy.
      * unfold l. rewrite filterByNamespace_elem. unfold obj_Namespace. cbn. rewrite held_lookup by done. split.
        -- intros [[key Ho] H]. split; [|done]. destruct (Hw _ _ _ Ho) as [_ ->]. done.
        -- intros [Ho H]. eauto.
Qed.

(** ** What a clientset answers *)

Section Refinement.
Context {L : PatchLib}.

Definition looked_up {k} (o : option (object k)) (n : string) : option (object k) * option error :=
  match o with Some x => (Some x, None) | None => (None, Some (NotFoundFor (gvr_of k) n)) end.

Definition unless {A} (err : option error) (a : A) : option A * option error := (if is_nil err then Some a else None, err).

(** The answers of a store.  A selector does not select; the status of an object
    is updated with all of it; and a collection is not deleted. *)
Definition store_answers {k} (st : store) (a : action k) : Fake.action_answer a -> store -> Prop :=
  match a return Fake.action_answer a -> store -> Prop with
  | GetAction ns n => fun r st' => same st st' /\ r = looked_up (st k (default EmptyString ns) n) n
  | ListAction ns _ => fun r st' => same st st' /\ exists items, r = (Some items, None) /\ listing st k (default EmptyString ns) items
  | WatchAction _ _ => fun r st' => same st st' /\ r = inl tt
  | CreateAction ns o => fun r st' => exists err,
      stored false st st' k (default EmptyString ns) o err /\ r = unless err (placed (default EmptyString ns) o)
  | UpdateAction ns o | UpdateSubresourceAction _ ns o => fun r st' => exists err,
      stored true st st' k (default EmptyString ns) o err /\ r = unless err (placed (default EmptyString ns) o)
  | DeleteAction ns n => fun r st' => removed st st' k (default EmptyString ns) n r.2
  | DeleteCollectionAction _ _ => fun r st' => same st st' /\ r.2 = None
  | PatchSubresourceAction ns n patchType data _ => fun r st' =>
      let ns := default EmptyString ns in
      let fails e := same st st' /\ r = (None, Some e) in
      if patchType =s? ApplyPatchType then
        match yaml_Unmarshal_name data with
        | inr e => fails e
        | inl m =>
            match st k ns m with
            | None => fails (NotFoundFor (gvr_of k) m)
            | Some o =>
                match strategic_merge k data o with
                | inr e => fails e
                | inl o' => exists err, stored true st st' k ns o' err /\
                    r = match err with Some e => (None, Some e) | None => looked_up (st' k ns n) n end
                end
            end
        end
      else
        match st k ns n with
        | None => fails (NotFoundFor (gvr_of k) n)
        | Some o =>
            if negb (bool_decide (patchType ∈ PatchTypes)) then fails (Errorf "PatchType %s is not supported" [AStr patchType])
            else
              match patched k patchType data o with
              | inr e => fails e
              | inl o' => exists err, stored true st st' k ns o' err /\ r = unless err o'
              end
        end
  end.

(** A clientset as NewSimpleClientset makes it. *)
Definition simple (scheme : Scheme) (c : FakeClientset) : Prop :=
  ReactionChain c = [mkSimpleReactor "*" "*" (ObjectReaction scheme)] /\
  WatchReactionChain c = [mkSimpleWatchReactor "*" watch_reaction].

(** The chain hands every action over to the tracker. *)
Lemma Invokes_simple scheme c k (a : action k) dflt : simple scheme c ->
  Invokes a dflt c =
    ('(handled, ret, err, t) <~ ObjectReaction scheme k a (cs_tracker c);
     if negb handled then Val (Some dflt, None, with_tracker t (record_action a c))
     else Val (ret, err, with_tracker t (record_action a c))).
Proof.
  intros [Hc _]. unfold Invokes, record_action. cbn [ReactionChain cs_tracker actions WatchReactionChain]. rewrite Hc. cbn [react].
  change (Handles _ a) with true. cbn [negb Reaction].
  destruct (ObjectReaction scheme k a (cs_tracker c)) as [[[[h r] e] t]|why]; [|done]. cbn. by destruct h.
Qed.

(** A channel gets at most one event from an action; a new one is empty. *)
Definition keeps_room {k} (a : action k) (t t' : tracker) : Prop :=
  match a with
  | WatchAction _ _ => forall n, (n <= DefaultChanSize)%nat -> room n t -> room n t'
  | _ => uses_room t t'
  end.

(** One action: what it answers and leaves. *)
Definition acts (scheme : Scheme) {k} (a : action k) (c : FakeClientset) : Prop := exists r c',
  act a c = Val (r, c') /\ simple scheme c' /\ well_placed (cs_tracker c') /\
  keeps_room a (cs_tracker c) (cs_tracker c') /\ actions c' = (actions c ++ [existT k a])%list /\
  store_answers (held (cs_tracker c)) a r (held (cs_tracker c')).

Lemma then_Get_ok k ns (o : object k) replace t : well_placed t -> room 1 t ->
  exists err t', then_Get (gvr_of k) ns (object_Name o) (tracker_add (gvr_of k) (mkObject k o) ns replace t) =
      Val (if is_nil err then Some (AnObject (mkObject k (placed ns o))) else None, err, t') /\
    well_placed t' /\ uses_room t t' /\ stored replace (held t) (held t') k ns o err.
Proof.
  intros Hw Hr. destruct (add_stores k o ns replace t Hw Hr) as (err & t' & He & Hw' & Hu & Hs).
  exists err, t'. split; [|done]. unfold then_Get. rewrite He. cbn [obind]. destruct err as [e|]; [done|].
  rewrite Get_held by done. unfold stored, bad_request in Hs.
  destruct (negb _); [by destruct Hs as [[? ?] _]|].
  destruct (held t k ns (object_Name o)), replace; try (by destruct Hs); destruct Hs as [_ [-> _]]; done.
Qed.

Ltac finish_act c := eexists _, _; split; [cbn; rewrite ?as_kind_same; reflexivity|];
  split; [done|]; split; [cbn; done|]; split; [cbn; auto with go|]; split; [done|].

Lemma assert_own_list k (items : list (object k)) : assert_list k (Some (AList k items)) = Val (Some items).
Proof.
  unfold assert_list. rewrite bool_decide_eq_true_2 by done. replace (mapM _ items) with (Some items); [done|].
  induction items as [|x items IH]; [done|]. cbn -[as_kind]. by rewrite as_kind_same, <- IH.
Qed.

Lemma Watch_room gvr ns t n : (n <= DefaultChanSize)%nat -> room n t -> room n (tracker_Watch gvr ns t).
Proof.
  intros Hn Hr g k w (by_ns & ws & H1 & H2 & H3). cbn in H1. destruct (decide (g = gvr)) as [->|].
  - rewrite lookup_insert_eq in H1. injection H1 as <-. destruct (decide (k = ns)) as [->|].
    + rewrite lookup_insert_eq in H2. injection H2 as <-. apply elem_of_app in H3 as [H3|H3%list_elem_of_singleton]; [|by subst].
      destruct (watchers t !! gvr) as [b|] eqn:Hb; [|by apply elem_of_nil in H3]. cbn in H3.
      destruct (b !! ns) as [vs|] eqn:Hv; [|by apply elem_of_nil in H3]. apply (Hr gvr ns). by exists b, vs.
    + rewrite lookup_insert_ne in H2 by done. destruct (watchers t !! gvr) as [b|] eqn:Hb; [|done].
      apply (Hr gvr k). by exists b, ws.
  - rewrite lookup_insert_ne in H1 by done. apply (Hr g k). by exists by_ns, ws.
Qed.

(** Objects that are stored, and read again. *)
Lemma stores_acts replace scheme k ns (o : object k) (c : FakeClientset) : simple scheme c -> well_placed (cs_tracker c) -> room 1 (cs_tracker c) ->
  exists err t',
    ('(ret, err, c) <~
      ('(handled, ret, err, t) <~
        ('(ret, err, t) <~ then_Get (gvr_of k) (default EmptyString ns) (object_Name o)
           (tracker_add (gvr_of k) (mkObject k o) (default EmptyString ns) replace (cs_tracker c)); Val (true, ret, err, t));
       if negb handled then Val (Some (AnObject (mkObject k (zero k))), None, with_tracker t c) else Val (ret, err, with_tracker t c));
     obj <~ assert_object k ret; Val (obj, err, c)) = Val (unless err (placed (default EmptyString ns) o), with_tracker t' c) /\
    well_placed t' /\ uses_room (cs_tracker c) t' /\ stored replace (held (cs_tracker c)) (held t') k (default EmptyString ns) o err.
Proof.
  intros Hc Hw Hr. destruct (then_Get_ok k (default EmptyString ns) o replace (cs_tracker c) Hw Hr) as (err & t' & -> & H).
  exists err, t'. split; [|done]. destruct err as [e|]; [done|]. cbn. by rewrite as_kind_same.
Qed.

Ltac stores scheme k c replace ns o :=
  match goal with |- context [record_action ?a _] =>
    destruct (stores_acts replace scheme k ns o (record_action a c)) as (err & t' & Hact & ? & ? & ?); [done..|];
    eexists _, _; split_and!; [exact Hact|done..|by exists err] end.

(** The walk of an action to the tracker. *)
Lemma act_acts scheme k (a : action k) c :
  k ∈ scheme -> simple scheme c -> well_placed (cs_tracker c) -> room 1 (cs_tracker c) -> acts scheme a c.
Proof.
  intros Hk Hc Hw Hr. pose proof Hc as [Hchain Hwatch]. unfold acts.
  destruct a as [ns n|ns sel|ns sel|ns o|ns o|sub ns o|ns n|ns sel|ns n pt data subs]; cbn [act store_answers];
    unfold call_object; rewrite ?(Invokes_simple scheme) by done; unfold ObjectReaction, reacted; cbn [obind].
  - rewrite Get_held by done. destruct (held _ k _ n) as [x|] eqn:Hx; cbn [obind fmap option_fmap option_map negb];
      finish_act c; split; [done..|done|done].
  - destruct (List_lists scheme k (default EmptyString ns) (cs_tracker c) Hk Hw) as (items & -> & Hl). cbn [obind negb].
    rewrite assert_own_list. finish_act c. split; [done|eauto].
  - unfold InvokesWatch, record_action. cbn [WatchReactionChain cs_tracker actions ReactionChain]. rewrite Hwatch.
    cbn [react_watch]. change (resourceCovers _ _) with true. cbn [negb WatchReaction watch_reaction].
    eexists _, _. split; [done|]. split; [done|]. split; [done|]. split; [intros n; apply Watch_room|]. done.
  - stores scheme k c false ns o.
  - stores scheme k c true ns o.
  - stores scheme k c true ns o.
  - destruct (Delete_removes k (default EmptyString ns) n (cs_tracker c) Hw Hr) as (err & t' & -> & Hw' & Hu & Hs). cbn [obind negb].
    finish_act c. exact Hs.
  - cbn [obind negb]. finish_act c. done.
  - destruct (pt =s? ApplyPatchType).
    + unfold tracker_Apply. destruct (yaml_Unmarshal_name data) as [m|e]; [|finish_act c; done].
      rewrite Get_held by done. destruct (held _ k _ m) as [o|] eqn:Hm; [|finish_act c; done].
      destruct (strategic_merge k data o) as [o'|e]; [|finish_act c; done].
      destruct (add_stores k o' (default EmptyString ns) true (cs_tracker c) Hw Hr) as (err & t' & He & Hw' & Hu & Hs).
      unfold then_Get. rewrite He. cbn [obind]. destruct err as [e|]; [finish_act c; eauto|].
      rewrite Get_held by done. destruct (held t' k _ n) as [x|] eqn:Hx; cbn [obind negb fmap option_fmap option_map];
        finish_act c; exists None; (split; [done|]); cbn; by rewrite Hx.
    + unfold react_Patch. rewrite Get_held by done. destruct (held _ k _ n) as [o|] eqn:Hm; [|finish_act c; done].
      destruct (negb (bool_decide _)); [finish_act c; done|].
      destruct (patched k pt data o) as [o'|e]; [|finish_act c; done].
      destruct (add_stores k o' (default EmptyString ns) true (cs_tracker c) Hw Hr) as (err & t' & He & Hw' & Hu & Hs).
      rewrite He. cbn [obind]. destruct err as [e|]; cbn [obind negb]; finish_act c; eauto.
Qed.

(** ** NewSimpleClientset *)

(** The objects handed over, those of lists one by one. *)
Definition flat (objects : list runtimeObject) : list Object :=
  flat_map (fun o => match o with AnObject o => [o] | AList k items => mkObject k <$> items end) objects.

Definition place (o : Object) : kind * string * string := (obj_kind o, obj_Namespace o, obj_Name o).

(** Kinds that the scheme knows, and no two objects in one place. *)
Definition addable (scheme : Scheme) (l : list Object) : Prop :=
  Forall (fun o => obj_kind o ∈ scheme) l /\ NoDup (place <$> l).

Definition free (t : tracker) (o : Object) : Prop := held t (obj_kind o) (obj_Namespace o) (obj_Name o) = None.

Definition unwatched (t : tracker) : Prop := forall n, room n t.

Lemma Add_object_adds scheme o t : well_placed t -> unwatched t ->
  exists err t', Add_object scheme o t = Val (err, t') /\
    match err with
    | None => obj_kind o ∈ scheme /\ free t o /\ well_placed t' /\ unwatched t' /\
        becomes (held t) (held t') (obj_kind o) (obj_Namespace o) (obj_Name o) (Some (obj_value o))
    | Some _ => ~ (obj_kind o ∈ scheme /\ free t o)
    end.
Proof.
  intros Hw Hr. unfold Add_object, ObjectKinds. destruct (decide _) as [Hk|Hk]; [|by eexists (Some _), t; split; [reflexivity|intros [? _]]].
  destruct o as [k x]. unfold free, obj_Namespace, obj_Name in *. cbn [obj_kind obj_value add_kinds] in *.
  rewrite guess_is_resource. destruct (add_stores k x (object_Namespace x) false t Hw (Hr 1%nat)) as (err & t' & He & Hw' & Hu & Hs).
  unfold obj_Namespace. cbn [obj_kind obj_value]. rewrite He. cbn [obind]. exists err, t'. split; [by destruct err|].
  unfold stored in Hs. rewrite placed_idem, streq_refl in Hs by done. cbn [negb] in Hs.
  destruct (held t k _ _) as [y|]; destruct Hs as [-> Hs]; [by intros [_ ?]|].
  split_and!; [done..|intros n; by apply Hu|exact Hs].
Qed.

Lemma free_after t t' o o' : becomes (held t) (held t') (obj_kind o) (obj_Namespace o) (obj_Name o) (Some (obj_value o)) ->
  free t' o' <-> place o' <> place o /\ free t o'.
Proof.
  destruct o as [k x], o' as [k' x']. intros [H1 H2]. unfold free, place, obj_Namespace, obj_Name in *. cbn [obj_kind obj_value] in *. split.
  - intros Hf. assert (Hne : (k', object_Namespace x', object_Name x') <> (k, object_Namespace x, object_Name x)).
    { intros [= -> Hns Hn]. by rewrite Hns, Hn, H1 in Hf. }
    split; [exact Hne|]. by rewrite <- H2.
  - intros [Hne Hf]. by rewrite H2.
Qed.

Lemma Add_objects_adds scheme l : forall t, well_placed t -> unwatched t ->
  exists err t', Add_objects scheme l t = Val (err, t') /\
    match err with
    | None => addable scheme l /\ Forall (free t) l /\ well_placed t' /\ unwatched t' /\
        forall k ns n x, held t' k ns n = Some x <->
          held t k ns n = Some x \/ (mkObject k x ∈ l /\ ns = object_Namespace x /\ n = object_Name x)
    | Some _ => ~ (addable scheme l /\ Forall (free t) l)
    end.
Proof.
  induction l as [|o l IH]; intros t Hw Hr.
  { exists None, t. split; [done|]. split_and!; [by split; constructor|done..|]. intros k ns n x. rewrite elem_of_nil. naive_solver. }
  cbn [Add_objects]. destruct (Add_object_adds scheme o t Hw Hr) as ([e|] & t1 & -> & H1); cbn [obind is_nil].
  { exists (Some e), t1. split; [done|]. intros [[Ha%Forall_cons _] Hf%Forall_cons]. naive_solver. }
  destruct H1 as (Hk & Hf & Hw1 & Hr1 & Hb). destruct (IH t1 Hw1 Hr1) as (err & t2 & -> & H2). exists err, t2. split; [done|].
  assert (Hfree : Forall (free t1) l <-> place o ∉ place <$> l /\ Forall (free t) l).
  { rewrite !Forall_forall, list_elem_of_fmap. setoid_rewrite (free_after _ _ _ _ Hb). split.
    - intros H. split; [intros (x & He & Hx)|intros x Hx]; by destruct (H x Hx).
    - intros [Hn H] x Hx. split; [intros He; apply Hn; by exists x|auto]. }
  assert (Hadd : addable scheme (o :: l) /\ Forall (free t) (o :: l) <-> addable scheme l /\ Forall (free t1) l)
    by (unfold addable; rewrite Hfree, !Forall_cons, fmap_cons, NoDup_cons; tauto).
  destruct err as [e|]; [by rewrite Hadd|]. destruct H2 as (Ha & Hl & ? & ? & Hh).
  destruct (proj2 Hadd (conj Ha Hl)). split_and!; [done..|]. intros k ns n x. rewrite Hh, elem_of_cons. clear -Hb Hf.
  destruct (decide ((k, ns, n) = place o)) as [He|He].
  - unfold place in He. injection He as -> -> ->. destruct Hb as [-> _]. unfold free in Hf. rewrite Hf. destruct o as [k y]. cbn.
    split; [intros [[= <-]|?]; [right; split; [by left|done]|naive_solver]|].
    intros [?|[[He|?] ?]]; [done| |naive_solver]. left. rewrite <- (as_kind_same k y), <- (as_kind_same k x). by rewrite He.
  - destruct Hb as [_ Hb]. rewrite (Hb _ _ _ He). split; [naive_solver|].
    intros [?|([Ho|?] & -> & ->)]; [by left|by destruct He; subst o|naive_solver].
Qed.

Lemma Add_objects_app scheme l1 l2 t : Add_objects scheme (l1 ++ l2) t =
  ('(err, t) <~ Add_objects scheme l1 t; if is_nil err then Add_objects scheme l2 t else Val (err, t)).
Proof.
  revert t. induction l1 as [|o l1 IH]; intros t; [done|]. cbn. destruct (Add_object scheme o t) as [[[e|] t']|]; [done| |done].
  cbn. apply IH.
Qed.

Lemma add_all_flat scheme objects t : add_all scheme objects t =
  ('(err, t) <~ Add_objects scheme (flat objects) t; if is_nil err then Val t else Panicked "panic(err)").
Proof.
  revert t. induction objects as [|o objects IH]; intros t; [done|]. cbn [add_all flat flat_map]. rewrite Add_objects_app.
  assert (Ha : tracker_Add scheme o t = Add_objects scheme (match o with AnObject o => [o] | AList k items => mkObject k <$> items end) t).
  { destruct o as [o|k items]; [|done]. cbn. destruct (Add_object scheme o t) as [[[e|] t']|]; done. }
  rewrite Ha. destruct (Add_objects scheme _ t) as [[[e|] t']|]; [done| |done]. cbn. apply IH.
Qed.

(** What NewSimpleClientset gives for objects: a fresh clientset that holds them,
    or a panic. *)
Definition starts_with (scheme : Scheme) (l : list Object) (r : outcome FakeClientset) : Prop :=
  match r with
  | Val c => addable scheme l /\ simple scheme c /\ well_placed (cs_tracker c) /\ unwatched (cs_tracker c) /\ actions c = [] /\
      forall k ns n x, held (cs_tracker c) k ns n = Some x <->
        mkObject k x ∈ l /\ ns = object_Namespace x /\ n = object_Name x
  | Panicked _ => ~ addable scheme l
  end.

Lemma new_clientset_starts scheme objects : starts_with scheme (flat objects) (NewSimpleClientset scheme objects).
Proof.
  unfold NewSimpleClientset. rewrite add_all_flat.
  assert (Hw : well_placed NewObjectTracker).
  { intros k key o. unfold at_resource. cbn. by rewrite lookup_empty. }
  assert (Hr : unwatched NewObjectTracker) by by intros n g ns w (? & ? & ? & ?).
  assert (Hn : forall k ns n, held NewObjectTracker k ns n = None).
  { intros. unfold held, at_resource. cbn. by rewrite lookup_empty. }
  destruct (Add_objects_adds scheme (flat objects) NewObjectTracker Hw Hr) as ([e|] & t & -> & H); cbn.
  - intros Ha. apply H. split; [done|]. apply Forall_true. intros o. apply Hn.
  - destruct H as (Ha & _ & Hw' & Hr' & Hh). split; [exact Ha|]. split; [by split|]. split_and!; [done..|].
    intros k ns n x. rewrite Hh, Hn. naive_solver.
Qed.

(** C38: a fake clientset keeps a store of objects.  NewSimpleClientset holds
    exactly the objects handed to it, each under the resource of the client of its
    kind, although it guesses the resource from the kind, or panics, which it does
    just for an object that the scheme does not know and for two objects of one
    kind, namespace and name.  After that every action of a client on a kind of the
    scheme returns, is recorded, passes the type assertion of the client, and
    answers and changes the objects as a store does: a get, an update, a patch or a
    deletion of what is not there is NotFound, a creation of what is there is
    AlreadyExists, an object of another namespace is a bad request, and a list is
    sorted and complete, whatever its selector; but UpdateStatus replaces the whole
    object, and DeleteCollection answers success and deletes nothing.  A channel of
    a watcher, which panics when it is full, gets at most one event per action. *)
Theorem fake_clientset_keeps_a_store scheme :
  (forall objects, starts_with scheme (flat objects) (NewSimpleClientset scheme objects)) /\
  (forall k (a : action k) c, k ∈ scheme -> simple scheme c -> well_placed (cs_tracker c) -> room 1 (cs_tracker c) -> acts scheme a c).
Proof.
  split; [apply new_clientset_starts|intros; by apply act_acts].
Qed.
End Refinement.

(** No patches. *)
#[local] Instance no_patches : PatchLib :=
  {| patched _ _ _ o := inl o; yaml_Unmarshal_name _ := inr (errors_New "no yaml"); strategic_merge _ _ o := inl o |}.

Definition demo_vm_object (ns n : string) : Object := mkObject KVirtualMachine (mkVM n ns None).

(** A creation in a fresh clientset. *)
Lemma fake_clientset_keeps_a_store_witness :
  KVirtualMachine ∈ kubevirt_scheme /\
  acts kubevirt_scheme (CreateAction (k := KVirtualMachine) (Some "infra") (mkVM "vm2" "" None))
    (mkFakeClientset [] [mkSimpleReactor "*" "*" (ObjectReaction kubevirt_scheme)] [mkSimpleWatchReactor "*" watch_reaction] NewObjectTracker).
Proof.
  assert (Hk : KVirtualMachine ∈ kubevirt_scheme) by (unfold kubevirt_scheme; rewrite !elem_of_cons; tauto).
  split; [exact Hk|]. apply (proj2 (fake_clientset_keeps_a_store kubevirt_scheme)); [exact Hk|by split| |].
  - intros k key o. unfold at_resource. cbn. by rewrite lookup_empty.
  - by intros g ns w (? & ? & ? & ?).
Defined.

(** Objects found by the client of their kind, two objects in one place, and a
    collection that is not deleted. *)
Example fake_clientset_runs :
  let vms := kv_VirtualMachines _ (Clientset_KubevirtV1 (fun _ _ => ∅) (fun _ => None)) "infra" in
  let run {A} (p : prog fakeE A) := match kubevirt_NewSimpleClientset [AnObject (demo_vm_object "infra" "vm1")] with
    | Val c => match run_fake p c with Val (a, _) => Some a | Panicked _ => None end
    | Panicked _ => None
    end in
  run (f_Get vms "vm1") = Some (Some (mkVM "vm1" "infra" None), None) /\
  run (_ ← f_DeleteCollection vms ""; f_List vms "") = Some (Some [mkVM "vm1" "infra" None], None) /\
  run (r ← f_Create vms (mkVM "vm1" "" None); Ret (is_nil r.1)) = Some true /\
  kubevirt_NewSimpleClientset [AnObject (demo_vm_object "infra" "vm1"); AnObject (demo_vm_object "infra" "vm1")]
    = Panicked "panic(err)".
Proof. by vm_compute. Qed.
