(* ===== verification/FakeStore.v ===== *)
(** * The fake clients over a fake clientset

    What a test may rely on that makes a fake clientset (FakeClientset.v) and works
    through its fake clients (Fakes.v): each of them reads what was written, in the
    place of its own resource, and lists what its selector selects. *)

From S2P Require Import Prelude GoStrings Errors Effects Wait Objects ClientAPI.
From S2P Require Import Clientsets Generated Fakes ObjectTracker FakeClientset.
Import Tracker.

Local Open Scope string_scope.
Local Open Scope list_scope.

(** A program of fake clients that returns, and what is true after it. *)
Definition yields {A} (p : prog fakeE A) (c : FakeClientset) (R : A -> FakeClientset -> Prop) : Prop :=
  exists a c', run_fake p c = Val (a, c') /\ R a c'.

(** A clientset of NewSimpleClientset whose watchers can take [n] more events. *)
Definition ready {L : PatchLib} (scheme : Scheme) (n : nat) (c : FakeClientset) : Prop :=
  simple scheme c /\ well_placed (cs_tracker c) /\ room n (cs_tracker c).

(** The objects that a clientset holds. *)
Definition store_of (c : FakeClientset) : store := held (cs_tracker c).

Definition is_watch {k} (a : action k) : bool := match a with WatchAction _ _ => true | _ => false end.

Lemma yields_ret {A} (a : A) c (R : A -> FakeClientset -> Prop) : R a c -> yields (Ret a) c R.
Proof. intros H. by exists a, c. Qed.

Lemma run_fake_bind {A B} (p : prog fakeE A) (f : A -> prog fakeE B) c :
  run_fake (p ≫= f) c = ('(a, c) <~ run_fake p c; run_fake (f a) c).
Proof.
  revert c. induction p as [a|why|[k a] g IH]; intros c; [done|done|]. cbn.
  destruct (act a c) as [[r c']|]; [|done]. cbn. apply IH.
Qed.

Lemma yields_bind {A B} (p : prog fakeE A) (f : A -> prog fakeE B) c (Q : A -> FakeClientset -> Prop) R :
  yields p c Q -> (forall a c', Q a c' -> yields (f a) c' R) -> yields (p ≫= f) c R.
Proof.
  intros (a & c' & Hp & HQ) Hf. destruct (Hf a c' HQ) as (b & c'' & Hr & HR).
  exists b, c''. split; [|done]. by rewrite run_fake_bind, Hp.
Qed.

Lemma room_le n m t : (n <= m)%nat -> room m t -> room n t.
Proof. intros Hn Hr gvr ns w Hw. specialize (Hr _ _ _ Hw). lia. Qed.

Lemma ready_le {L : PatchLib} scheme n m c : (n <= m)%nat -> ready scheme m c -> ready scheme n c.
Proof. intros Hn (? & ? & Hr). split_and!; [done..|]. by eapply room_le. Qed.

Lemma same_refl st : same st st.
Proof. by intros k ns n. Qed.

Lemma same_trans st st' st'' : same st st' -> same st' st'' -> same st st''.
Proof. intros H H' k ns n. by rewrite H', H. Qed.

Section Stores.
Context {L : PatchLib}.
Variable labels_of : forall k, object k -> gmap string string.
Variable ExtractFromListOptions : string -> option (gmap string string -> bool).

Abbreviation fake := (fake_client labels_of ExtractFromListOptions).

(** A client reads what it writes.  [r] is the answer to a creation (or, with
    [replace], an update) of [o], [g] the answer to the get after it. *)
Definition wrote (replace : bool) (st st' : store) {k} (ns : string) (o : object k) (r g : result (option (object k))) : Prop :=
  let name := object_Name o in
  if is_empty (object_Namespace o) || (object_Namespace o =s? ns) then
    match st k ns name, replace with
    | Some _, true | None, false => r = (Some (placed ns o), None) /\ g = r /\ becomes st st' k ns name (Some (placed ns o))
    | Some x, false => r = (None, Some (NewAlreadyExists (gvr_of k) name)) /\ g = (Some x, None) /\ same st st'
    | None, true => r = (None, Some (NotFoundFor (gvr_of k) name)) /\ g = r /\ same st st'
    end
  else (exists msg, r = (None, Some (NewBadRequest msg))) /\ g = looked_up (st k ns name) name /\ same st st'.

(** The objects of a namespace (of all, when it is empty) that a selector selects. *)
Definition selects (st : store) (k : kind) (ns sel : string) (items : list (object k)) : Prop :=
  exists all, listing st k ns all /\ items `sublist_of` all /\
    forall x, x ∈ items <-> x ∈ all /\ label_matches ExtractFromListOptions sel (labels_of k x) = true.

(** A client of a kind in a namespace works on a store. *)
Definition keeps_store (scheme : Scheme) {k} (ns : string) (f : FakeInterface k) : Prop := forall n c,
  ready scheme (3 + n) c ->
  let st := store_of c in
  let after {A} (p : prog fakeE A) (R : A -> store -> Prop) := yields p c (fun a c' => ready scheme n c' /\ R a (store_of c')) in
  (forall name, after (f_Get f name) (fun r st' => r = looked_up (st k ns name) name /\ same st st')) /\
  (forall o, after (r ← f_Create f o; g ← f_Get f (object_Name o); Ret (r, g))
     (fun '(r, g) st' => wrote false st st' ns o r g)) /\
  (forall o, after (r ← f_Update f o; g ← f_Get f (object_Name o); Ret (r, g))
     (fun '(r, g) st' => wrote true st st' ns o r g)) /\
  (forall o u, f_UpdateStatus f = Some u ->
     after (r ← u o; g ← f_Get f (object_Name o); Ret (r, g)) (fun '(r, g) st' => wrote true st st' ns o r g)) /\
  (forall name, let absent := Some (NotFoundFor (gvr_of k) name) in
     after (e ← f_Delete f name; g ← f_Get f name; e' ← f_Delete f name; Ret (e, g, e'))
       (fun '(e, g, e') st' => e = (if is_nil (st k ns name) then absent else None) /\ g = (None, absent) /\ e' = absent /\
          becomes st st' k ns name None)) /\
  (forall sel, after (f_List f sel) (fun r st' => same st st' /\ exists items, r = (Some items, None) /\ selects st k ns sel items)) /\
  (forall sel, after (f_DeleteCollection f sel) (fun e st' => e = None /\ same st st')).

(** *** One method *)

Section Methods.
Variables (scheme : Scheme) (k : kind) (ns : option string).
Hypothesis known : k ∈ scheme.

Lemma yields_invokes (a : action k) n c {B} (f : Fake.action_answer a -> prog fakeE B) R :
  is_watch a = false -> ready scheme (S n) c ->
  (forall r c', ready scheme n c' -> store_answers (store_of c) a r (store_of c') -> yields (f r) c' R) ->
  yields (r ← invokes a; f r) c R.
Proof using known.
  intros Ha (Hs & Hw & Hr) Hf.
  destruct (act_acts scheme k a c known Hs Hw (room_le 1 (S n) _ ltac:(lia) Hr)) as (r & c' & Hact & Hs' & Hw' & Hk & _ & Hst).
  apply (yields_bind (invokes a) f c (fun r c' => ready scheme n c' /\ store_answers (store_of c) a r (store_of c'))).
  - exists r, c'. unfold invokes, call. cbn. rewrite Hact. split; [done|]. split; [|done].
    split_and!; [done..|]. destruct a; first [done|by apply Hk].
  - intros r' c1 [? ?]. by apply Hf.
Qed.

Abbreviation N := (default EmptyString ns).

Lemma fake_object_id {A} (r : option A * option error) : fake_object r = r.
Proof. by destruct r as [[]]. Qed.

Lemma Get_yields n name c : ready scheme (S n) c ->
  yields (fake_Get k ns name) c (fun r c' => ready scheme n c' /\ r = looked_up (store_of c k N name) name /\ same (store_of c) (store_of c')).
Proof using known.
  intros Hc. apply (yields_invokes _ n); [done..|]. intros r c' Hr [Hs ->]. apply yields_ret. by rewrite fake_object_id.
Qed.

(** A write and the get after it. *)
Lemma write_yields (replace : bool) (a : action k) (o : object k) n c :
  a = (if replace then UpdateAction ns o else CreateAction ns o) \/ replace = true /\ a = UpdateSubresourceAction "status" ns o ->
  forall (F : Fake.action_answer a -> result (option (object k))),
  (forall r st st', store_answers st a r st' -> exists err, stored replace st st' k N o err /\ F r = unless err (placed N o)) ->
  ready scheme (2 + n) c ->
  yields (r ← (r ← invokes a; Ret (F r)); g ← fake_Get k ns (object_Name o); Ret (r, g)) c
    (fun '(r, g) c' => ready scheme n c' /\ wrote replace (store_of c) (store_of c') N o r g).
Proof using known.
  intros Ha F HF Hc. eapply yields_bind with (Q := fun r c' => ready scheme (S n) c' /\
    exists err, stored replace (store_of c) (store_of c') k N o err /\ r = unless err (placed N o)).
  { apply (yields_invokes _ (S n)); [by destruct Ha as [->|[_ ->]]; destruct replace|done|].
    intros r c' Hr Hst. apply yields_ret. split; [done|]. by apply HF. }
  intros r c' (Hr & err & Hst & ->). eapply yields_bind; [by apply Get_yields|].
  intros g c'' (Hr' & -> & Hs). apply yields_ret. split; [done|].
  unfold stored in Hst. unfold wrote.
  assert (Hp : (N =s? object_Namespace (placed N o)) = is_empty (object_Namespace o) || (object_Namespace o =s? N)).
  { unfold placed. destruct (is_empty (object_Namespace o)) eqn:He; cbn [orb].
    - rewrite set_Namespace_Namespace. apply streq_refl.
    - unfold streq. by apply bool_decide_ext. }
  rewrite Hp in Hst. destruct (is_empty _ || _); cbn [negb] in Hst.
  2:{ destruct Hst as [[msg ->] Hst]. split; [by exists msg|]. split; [by rewrite Hst|]. by eapply same_trans. }
  destruct (store_of c k N (object_Name o)) as [x|] eqn:Hx, replace; destruct Hst as [-> Hst].
  all: try (split; [done|]; split; [by rewrite Hst, ?Hx|by eapply same_trans]).
  all: destruct Hst as [H1 H2]; split; [done|]; rewrite H1; split; [done|]; split; [by rewrite Hs|];
    intros k' ns' n' Hne; by rewrite Hs, H2.
Qed.
End Methods.

Lemma Delete_yields scheme k ns n name c : k ∈ scheme -> ready scheme (S n) c ->
  yields (fake_Delete k ns name) c (fun e c' => ready scheme n c' /\ removed (store_of c) (store_of c') k (default EmptyString ns) name e).
Proof. intros Hk Hc. apply (yields_invokes scheme k Hk _ n); [done..|]. intros r c' Hr Hst. by apply yields_ret. Qed.

(** Deleted, it is gone; deleted again, it was not there. *)
Lemma delete_yields scheme k ns n name c : k ∈ scheme -> ready scheme (3 + n) c ->
  let st := store_of c in
  let absent := Some (NotFoundFor (gvr_of k) name) in
  yields (e ← fake_Delete k ns name; g ← fake_Get k ns name; e' ← fake_Delete k ns name; Ret (e, g, e')) c
    (fun '(e, g, e') c' => ready scheme n c' /\ e = (if is_nil (st k (default EmptyString ns) name) then absent else None) /\
       g = (None, absent) /\ e' = absent /\ becomes st (store_of c') k (default EmptyString ns) name None).
Proof.
  intros Hk Hc st absent. eapply yields_bind; [by apply (Delete_yields scheme k ns (2 + n))|]. intros e c1 [Hr1 He].
  assert (Hb : e = (if is_nil (st k (default EmptyString ns) name) then absent else None) /\
    becomes st (store_of c1) k (default EmptyString ns) name None).
  { unfold removed in He. fold st in He. destruct (st k _ name) eqn:Hx; destruct He as [-> He]; split; try done.
    split; [by rewrite He, Hx|]. intros k' ns' n' _. apply He. }
  destruct Hb as [-> [Hb1 Hb2]].
  eapply yields_bind; [by apply (Get_yields scheme k ns Hk (S n))|]. intros g c2 (Hr2 & -> & Hs2). rewrite Hb1.
  eapply yields_bind; [by apply (Delete_yields scheme k ns n)|]. intros e' c3 [Hr3 He']. apply yields_ret.
  unfold removed in He'. rewrite Hs2, Hb1 in He'. destruct He' as [-> Hs3]. split_and!; [done..|]. split.
  - by rewrite Hs3, Hs2, Hb1.
  - intros k' ns' n' Hne. by rewrite Hs3, Hs2, Hb2.
Qed.

Lemma List_yields scheme k ns n sel c : k ∈ scheme -> ready scheme (S n) c ->
  yields (fake_List labels_of ExtractFromListOptions k ns sel) c (fun r c' => ready scheme n c' /\ same (store_of c) (store_of c') /\
    exists items, r = (Some items, None) /\ selects (store_of c) k (default EmptyString ns) sel items).
Proof.
  intros Hk Hc. apply (yields_invokes scheme k Hk _ n); [done..|]. intros r c' Hr (Hs & all & -> & Hl). apply yields_ret.
  split; [done|]. split; [done|]. eexists. split; [done|]. exists all. split; [done|]. split; [apply sublist_filter|].
  intros x. rewrite list_elem_of_filter, Is_true_true. tauto.
Qed.

Lemma fake_client_keeps_store scheme k ns status : k ∈ scheme -> keeps_store scheme (default EmptyString ns) (fake k ns status).
Proof.
  intros Hk n c Hc st after. unfold after. cbn [fake_client f_Get f_List f_Create f_Update f_UpdateStatus f_Delete f_DeleteCollection].
  assert (Hle : forall m, (m <= 3 + n)%nat -> ready scheme m c) by (intros; by eapply ready_le).
  assert (Hpair : forall A B (p : prog fakeE (A * B)) R, yields p c (fun '(r, g) c' => ready scheme n c' /\ R r g (store_of c')) ->
    yields p c (fun a c' => ready scheme n c' /\ (let '(r, g) := a in fun st' => R r g st') (store_of c'))).
  { intros A B p R ([r g] & c' & ? & ?). exists (r, g), c'. done. }
  split_and!.
  - intros name. apply Get_yields; [done|]. apply Hle. lia.
  - intros o. apply (Hpair _ _ _ (fun r g st' => wrote false st st' _ o r g)).
    apply (write_yields scheme k ns Hk false (CreateAction ns o)); [by left| |apply Hle; lia].
    intros r s s' (err & ? & ->). exists err. split; [done|]. apply fake_object_id.
  - intros o. apply (Hpair _ _ _ (fun r g st' => wrote true st st' _ o r g)).
    apply (write_yields scheme k ns Hk true (UpdateAction ns o)); [by left| |apply Hle; lia].
    intros r s s' (err & ? & ->). exists err. split; [done|]. apply fake_object_id.
  - intros o u Hu. destruct status; [|done]. injection Hu as <-. apply (Hpair _ _ _ (fun r g st' => wrote true st st' _ o r g)).
    apply (write_yields scheme k ns Hk true (UpdateSubresourceAction "status" ns o)); [by right| |apply Hle; lia].
    intros r s s' (err & ? & ->). exists err. split; [done|]. apply fake_object_id.
  - intros name. destruct (delete_yields scheme k ns n name c Hk Hc) as ([[e g] e'] & c' & Hp & H).
    exists (e, g, e'), c'. done.
  - intros sel. apply List_yields; [done|]. apply Hle. lia.
  - intros sel. apply (yields_invokes scheme k Hk _ n); [done|apply Hle; lia|].
    intros r c' Hr [Hs He]. apply yields_ret. done.
Qed.

(** Every client that the getters of the three clientsets give, in its namespace. *)
Definition clients_keep_stores : Prop :=
  let kv := Clientset_KubevirtV1 labels_of ExtractFromListOptions in
  let cdi := Clientset_CdiV1beta1 labels_of ExtractFromListOptions in
  let snap := Clientset_SnapshotV1 labels_of ExtractFromListOptions in
  (forall ns,
    keeps_store kubevirt_scheme ns (kv_KubeVirts _ kv ns) /\
    keeps_store kubevirt_scheme ns (kv_VirtualMachines _ kv ns) /\
    keeps_store kubevirt_scheme ns (kv_VirtualMachineInstances _ kv ns) /\
    keeps_store kubevirt_scheme ns (kv_VirtualMachineInstanceMigrations _ kv ns) /\
    keeps_store kubevirt_scheme ns (kv_VirtualMachineInstancePresets _ kv ns) /\
    keeps_store kubevirt_scheme ns (kv_VirtualMachineInstanceReplicaSets _ kv ns) /\
    keeps_store cdi_scheme ns (cdi_DataVolumes _ cdi ns) /\
    keeps_store cdi_scheme ns (cdi_DataImportCrons _ cdi ns) /\
    keeps_store cdi_scheme ns (cdi_DataSources _ cdi ns) /\
    keeps_store cdi_scheme ns (cdi_VolumeCloneSources _ cdi ns) /\
    keeps_store cdi_scheme ns (cdi_VolumeImportSources _ cdi ns) /\
    keeps_store cdi_scheme ns (cdi_VolumeUploadSources _ cdi ns) /\
    keeps_store snapshot_scheme ns (snap_VolumeSnapshots _ snap ns)) /\
  keeps_store cdi_scheme "" (cdi_CDIs _ cdi) /\
  keeps_store cdi_scheme "" (cdi_CDIConfigs _ cdi) /\
  keeps_store cdi_scheme "" (cdi_ObjectTransfers _ cdi) /\
  keeps_store cdi_scheme "" (cdi_StorageProfiles _ cdi) /\
  keeps_store snapshot_scheme "" (snap_VolumeSnapshotClasses _ snap) /\
  keeps_store snapshot_scheme "" (snap_VolumeSnapshotContents _ snap).
End Stores.

(** ** Properties *)

(** C37: the fake clients of a fake clientset read what they write.  A clientset that
    NewSimpleClientset returns is ready for any number of actions.  On a clientset
    that is ready for three more, every client of the getters of the three
    clientsets, in its namespace: gets an object or answers NotFound; gets, after a
    creation that succeeds, the object created, with the namespace filled in, and
    after one refused with AlreadyExists the old one; gets, after an update, also of
    the status, that succeeds, the whole object of the update, and answers NotFound
    to both when there is none; refuses an object of another namespace; does not get
    an object that it has deleted, nor deletes it again; lists, sorted, just the
    objects of its kind and namespace (of all namespaces, when that is empty) that
    the label selector selects; and answers success to the deletion of a collection
    and deletes nothing.  None of these changes an object of another kind, namespace
    or name, and each leaves a clientset that is ready for as many actions as before
    but three. *)
Theorem fake_clients_read_their_writes {L : PatchLib} labels_of Extract :
  (forall scheme objects c, NewSimpleClientset scheme objects = Val c -> forall n, ready scheme n c) /\
  clients_keep_stores labels_of Extract.
Proof.
  split.
  - intros scheme objects c Hc n. pose proof (new_clientset_starts scheme objects) as H. rewrite Hc in H.
    destruct H as (_ & ? & ? & Hu & _). split_and!; [done..|apply Hu].
  - unfold clients_keep_stores. cbv zeta. split_and!; intros; split_and?;
      first [apply (fake_client_keeps_store labels_of Extract _ _ (Some ns))
            |apply (fake_client_keeps_store labels_of Extract _ _ None)]; unfold kubevirt_scheme, cdi_scheme, snapshot_scheme;
      rewrite !elem_of_cons; tauto.
Qed.

(** A clientset with a VM. *)
Definition demo_clientset : FakeClientset :=
  match kubevirt_NewSimpleClientset (L := no_patches) [AnObject (demo_vm_object "infra" "vm1")] with
  | Val c => c
  | Panicked _ => mkFakeClientset [] [] [] NewObjectTracker
  end.

Definition demo_vms (ns : string) : FakeInterface KVirtualMachine :=
  kv_VirtualMachines _ (Clientset_KubevirtV1 (fun _ _ => ∅) (fun _ => None)) ns.

(** A second VM. *)
Lemma fake_clients_read_their_writes_witness :
  yields (r ← f_Create (demo_vms "infra") (mkVM "vm2" "" None); g ← f_Get (demo_vms "infra") "vm2"; Ret (r, g)) demo_clientset
    (fun '(r, g) _ => r = (Some (mkVM "vm2" "infra" None), None) /\ g = r).
Proof.
  destruct (@fake_clients_read_their_writes no_patches (fun _ _ => ∅) (fun _ => None)) as [Hnew [Hns _]].
  destruct (Hns "infra") as (_ & Hvm & _).
  destruct (Hvm 0%nat demo_clientset) as (_ & Hcreate & _).
  { apply (Hnew kubevirt_scheme [AnObject (demo_vm_object "infra" "vm1")]). reflexivity. }
  destruct (Hcreate (mkVM "vm2" "" None)) as ([r g] & c' & Hrun & _ & Hw). exists (r, g), c'. split; [exact Hrun|].
  unfold wrote in Hw. cbn [object_Namespace object_Name vm_Namespace vm_Name] in Hw.
  assert (E : store_of demo_clientset KVirtualMachine "infra" "vm2" = None) by (vm_compute; reflexivity).
  rewrite E in Hw. cbn in Hw. destruct Hw as (-> & -> & _). split; reflexivity.
Defined.

(** Its clients in two namespaces, and one of another kind. *)
Example fake_clients_run :
  let vms := demo_vms in
  let vmis := kv_VirtualMachineInstances _ (Clientset_KubevirtV1 (fun _ _ => ∅) (fun _ => None)) in
  let run {A} (p : prog fakeE A) := match run_fake p demo_clientset with Val (a, _) => Some a | Panicked _ => None end in
  run (_ ← f_Create (vms "other") (mkVM "vm1" "" None); e ← f_Delete (vms "infra") "vm1"; g ← f_Get (vms "infra") "vm1";
       l ← f_List (vms "") ""; i ← f_Get (vmis "other") "vm1"; Ret (e, is_nil g.1, l.1, is_nil i.1))
    = Some (None, true, Some [mkVM "vm1" "other" None], true).
Proof. by vm_compute. Qed.
