(* ===== verification/Schemes.v ===== *)
(** * Schemes

    scheme/register.go and fake/register.go of the three generated clientsets: the
    [runtime.Scheme] that each clientset encodes its objects with, filled by the
    [AddToScheme] of its API package when the package is initialized.  From
    k8s.io/apimachinery the registration of types by group, version and kind is
    modelled, with its panics; conversions and defaults, which it also registers, are
    not.  Every type is given as [&T{}], so that the checks by reflection pass. *)

From S2P Require Import Prelude GoStrings Errors Effects Wait Objects ClientAPI.
From S2P Require Import Clientsets RestConfig ObjectTracker FakeClientset.

#[export] Instance GroupVersion_eq_dec : EqDecision GroupVersion.
Proof. solve_decision. Defined.
#[export] Instance api_group_eq_dec : EqDecision api_group.
Proof. solve_decision. Defined.

(** [reflect.Type] of a struct: the package that declares it and its name. *)
Definition goType : Type := string * string.

Definition WithKind (gv : GroupVersion) (kind : string) : GVK := (gv_Group gv, gv_Version gv, kind).

Module Runtime.
Record Scheme := mkScheme {
  gvkToType : gmap GVK goType;
  typeToGVK : gmap goType (list GVK);
  unversionedTypes : gmap goType GVK;
  unversionedKinds : gmap string goType;
  observedVersions : list GroupVersion }.

Definition NewScheme : Scheme := mkScheme ∅ ∅ ∅ ∅ [].

Definition APIVersionInternal : string := "__internal".

Definition addObservedVersion (version : GroupVersion) (s : Scheme) : Scheme :=
  if is_empty (gv_Version version) || (gv_Version version =s? APIVersionInternal) then s
  else if decide (version ∈ observedVersions s) then s
  else mkScheme (gvkToType s) (typeToGVK s) (unversionedTypes s) (unversionedKinds s) (observedVersions s ++ [version]).

Definition AddKnownTypeWithName (gvk : GVK) (t : goType) (s : Scheme) : outcome Scheme :=
  let s := addObservedVersion (mkGroupVersion gvk.1.1 gvk.1.2) s in
  if is_empty gvk.1.2 then Panicked "version is required on all types" else
  let register :=
    let gvks := default [] (typeToGVK s !! t) in
    Val (mkScheme (<[gvk := t]> (gvkToType s))
      (if decide (gvk ∈ gvks) then typeToGVK s else <[t := gvks ++ [gvk]]> (typeToGVK s))
      (unversionedTypes s) (unversionedKinds s) (observedVersions s)) in
  match gvkToType s !! gvk with
  | Some oldT => if decide (oldT = t) then register else Panicked "Double registration of different types"
  | None => register
  end.

Fixpoint each {A} (f : A -> Scheme -> outcome Scheme) (l : list A) (s : Scheme) : outcome Scheme :=
  match l with [] => Val s | x :: l => s <~ f x s; each f l s end.

Definition AddKnownTypes (gv : GroupVersion) (types : list goType) (s : Scheme) : outcome Scheme :=
  each (fun t => AddKnownTypeWithName (WithKind gv t.2) t) types (addObservedVersion gv s).

Definition addUnversioned (version : GroupVersion) (t : goType) (s : Scheme) : outcome Scheme :=
  let gvk := WithKind version t.2 in
  let register := Val (mkScheme (gvkToType s) (typeToGVK s) (<[t := gvk]> (unversionedTypes s))
    (<[gvk.2 := t]> (unversionedKinds s)) (observedVersions s)) in
  match unversionedKinds s !! gvk.2 with
  | Some old => if decide (t = old) then register else Panicked "kind name must be unique in scheme"
  | None => register
  end.

Definition AddUnversionedTypes (version : GroupVersion) (types : list goType) (s : Scheme) : outcome Scheme :=
  s <~ AddKnownTypes version types (addObservedVersion version s); each (addUnversioned version) types s.

(** What [scheme.New] and [scheme.ObjectKinds] look up. *)
Definition New (s : Scheme) (gvk : GVK) : option goType := gvkToType s !! gvk.
Definition GVKs (s : Scheme) (t : goType) : option (list GVK) := typeToGVK s !! t.

(** scheme_builder.go; [AddToScheme] stops at the first error. *)
Definition SchemeFunc : Type := Scheme -> outcome (Scheme * option error).
Definition SchemeBuilder : Type := list SchemeFunc.

Fixpoint AddToScheme (sb : SchemeBuilder) : SchemeFunc := fun s =>
  match sb with
  | [] => Val (s, None)
  | f :: sb => '(s, err) <~ f s; if negb (is_nil err) then Val (s, err) else AddToScheme sb s
  end.

Definition Register (sb : SchemeBuilder) (funcs : list SchemeFunc) : SchemeBuilder := sb ++ funcs.
Definition NewSchemeBuilder (funcs : list SchemeFunc) : SchemeBuilder := Register [] funcs.

(** [utilruntime.Must] *)
Definition Must (err : option error) : outcome unit := if is_nil err then Val tt else Panicked "panic(err)".
End Runtime.
Import Runtime.

(** ** The packages that declare the types *)

Definition metav1 : string := "k8s.io/apimachinery/pkg/apis/meta/v1".
Definition optionsTypes : list goType :=
  (fun n => (metav1, n)) <$> ["ListOptions"; "GetOptions"; "DeleteOptions"; "CreateOptions"; "UpdateOptions"; "PatchOptions"].
Definition statusTypes : list goType :=
  (fun n => (metav1, n)) <$> ["Status"; "APIVersions"; "APIGroupList"; "APIGroup"; "APIResourceList"].
Definition Unversioned : GroupVersion := mkGroupVersion "" "v1".

Definition AddToGroupVersion (gv : GroupVersion) (s : Scheme) : outcome Scheme :=
  s <~ AddKnownTypeWithName (WithKind gv "WatchEvent") (metav1, "WatchEvent") s;
  s <~ AddKnownTypeWithName (WithKind (mkGroupVersion (gv_Group gv) APIVersionInternal) "WatchEvent") (metav1, "InternalEvent") s;
  s <~ AddKnownTypes gv optionsTypes s;
  AddUnversionedTypes Unversioned statusTypes s.

(** The Go package of a kind of the three groups. *)
Definition package_of (g : api_group) : string :=
  match g with
  | kubevirt_v1 => "kubevirt.io/api/core/v1"
  | cdi_v1beta1 => "kubevirt.io/containerized-data-importer-api/pkg/apis/core/v1beta1"
  | snapshot_v1 => "github.com/kubernetes-csi/external-snapshotter/client/v6/apis/volumesnapshot/v1"
  end.

(** The types that [addKnownTypes] of a package registers, each with its list. *)
Definition kindsOf (g : api_group) : Tracker.Scheme :=
  match g with kubevirt_v1 => kubevirt_scheme | cdi_v1beta1 => cdi_scheme | snapshot_v1 => snapshot_scheme end.
Definition knownTypes (g : api_group) : list goType :=
  flat_map (fun k => [(package_of g, kind_name k); (package_of g, kind_name k +:+ "List")]) (kindsOf g).

Definition addKnownTypes (g : api_group) : SchemeFunc := fun s =>
  s <~ AddKnownTypes (SchemeGroupVersion g) (knownTypes g) s;
  s <~ AddToGroupVersion (SchemeGroupVersion g) s;
  Val (s, None).

(** The [SchemeBuilder] of the API packages: that of the snapshots is given its
    function once more by [init]. *)
Definition SchemeBuilderOf (g : api_group) : SchemeBuilder :=
  match g with
  | snapshot_v1 => Register (NewSchemeBuilder [addKnownTypes g]) [addKnownTypes g]
  | _ => NewSchemeBuilder [addKnownTypes g]
  end.

(** ** register.go *)

(** The template of the six files. *)
Module Register.
Definition localSchemeBuilder (g : api_group) : SchemeBuilder := [AddToScheme (SchemeBuilderOf g)].
Definition AddToScheme (g : api_group) : SchemeFunc := Runtime.AddToScheme (localSchemeBuilder g).

(** [var Scheme = runtime.NewScheme()] and [init()]. *)
Definition init (g : api_group) : outcome Scheme :=
  s <~ AddToGroupVersion (mkGroupVersion "" "v1") NewScheme;
  '(s, err) <~ AddToScheme g s;
  _ <~ Must err;
  Val s.
End Register.

(** scheme/register.go *)
Definition kubevirt_Scheme : outcome Scheme := Register.init kubevirt_v1.
Definition cdi_Scheme : outcome Scheme := Register.init cdi_v1beta1.
Definition snapshot_Scheme : outcome Scheme := Register.init snapshot_v1.

(** fake/register.go *)
Definition kubevirt_fake_scheme : outcome Scheme := Register.init kubevirt_v1.
Definition cdi_fake_scheme : outcome Scheme := Register.init cdi_v1beta1.
Definition snapshot_fake_scheme : outcome Scheme := Register.init snapshot_v1.

(** The codecs of a clientset, made from its scheme (k8s.io/apimachinery's
    serializer). *)
Record CodecFactory := NewCodecFactory { cf_scheme : outcome Scheme }.
Record ParameterCodec := NewParameterCodec { pc_scheme : outcome Scheme }.
Definition Codecs (g : api_group) : CodecFactory := NewCodecFactory (Register.init g).
Definition ParameterCodecOf (g : api_group) : ParameterCodec := NewParameterCodec (Register.init g).

(** ** What a scheme knows *)

(** The registrations [D] and no others, found from the kind and from the type. *)
Definition knows (D : list (GVK * goType)) (s : Scheme) : Prop :=
  (forall gvk t, gvkToType s !! gvk = Some t <-> (gvk, t) ∈ D) /\
  (forall gvk t, gvk ∈ default [] (typeToGVK s !! t) <-> (gvk, t) ∈ D) /\
  (forall t gvks, typeToGVK s !! t = Some gvks -> NoDup gvks /\ gvks <> []) /\
  (forall n t, unversionedKinds s !! n = Some t -> t = (metav1, n)).

(** No kind is registered for two types. *)
Definition consistent (D : list (GVK * goType)) : Prop := forall gvk t t', (gvk, t) ∈ D -> (gvk, t') ∈ D -> t = t'.

Definition consistentb (D : list (GVK * goType)) : bool :=
  forallb (fun '(gvk, t) => forallb (fun '(gvk', t') => negb (bool_decide (gvk = gvk')) || bool_decide (t = t')) D) D.

Lemma consistentb_spec D : consistentb D = true -> consistent D.
Proof.
  unfold consistentb. rewrite forallb_forall. intros H gvk t t' H1%list_elem_of_In H2%list_elem_of_In.
  specialize (H _ H1). simpl in H. rewrite forallb_forall in H. specialize (H _ H2). simpl in H.
  rewrite bool_decide_true in H by done. by apply bool_decide_eq_true in H.
Qed.

Lemma consistent_subset D D' : D ⊆ D' -> consistent D' -> consistent D.
Proof. intros Hs H gvk t t' ??. apply (H gvk); auto. Qed.

(** Membership in lists put together. *)
Ltac members := intros ?; rewrite ?elem_of_app, ?elem_of_cons, ?elem_of_nil; tauto.

(** What is registered for a clientset. *)
Definition typeRegistrations (gv : GroupVersion) (types : list goType) : list (GVK * goType) :=
  (fun t => (WithKind gv t.2, t)) <$> types.
Definition metaRegistrations (gv : GroupVersion) : list (GVK * goType) :=
  [(WithKind gv "WatchEvent", (metav1, "WatchEvent"));
   (WithKind (mkGroupVersion (gv_Group gv) APIVersionInternal) "WatchEvent", (metav1, "InternalEvent"))] ++
  typeRegistrations gv optionsTypes ++ typeRegistrations Unversioned statusTypes.
Definition registrations (g : api_group) : list (GVK * goType) :=
  typeRegistrations (SchemeGroupVersion g) (knownTypes g) ++ metaRegistrations (SchemeGroupVersion g).

(** The registrations of all three clientsets. *)
Definition allRegistrations : list (GVK * goType) :=
  metaRegistrations (mkGroupVersion "" "v1") ++ registrations kubevirt_v1 ++ registrations cdi_v1beta1 ++ registrations snapshot_v1.

Lemma all_consistent : consistent allRegistrations.
Proof. apply consistentb_spec. by vm_compute. Qed.

Lemma knows_observed D v s : knows D s -> knows D (addObservedVersion v s).
Proof. unfold addObservedVersion. destruct (_ || _); [done|]. by destruct (decide _). Qed.

Lemma knows_equiv D D' s : (forall p, p ∈ D <-> p ∈ D') -> knows D s -> knows D' s.
Proof. intros He (H1 & H2 & H3 & H4). split_and!; [|..|done|done]; intros gvk t; rewrite <- He; auto. Qed.

Lemma AddKnownTypeWithName_adds D gvk t s :
  knows D s -> consistent (D ++ [(gvk, t)]) -> gvk.1.2 <> "" ->
  exists s', AddKnownTypeWithName gvk t s = Val s' /\ knows (D ++ [(gvk, t)]) s'.
Proof.
  intros Hk Hc Hv. unfold AddKnownTypeWithName. apply is_empty_false in Hv as ->.
  apply (knows_observed _ (mkGroupVersion gvk.1.1 gvk.1.2)) in Hk. revert Hk. generalize (addObservedVersion (mkGroupVersion gvk.1.1 gvk.1.2) s).
  clear s. intros s (H1 & H2 & H3 & H4).
  assert (Hold : forall t', gvkToType s !! gvk = Some t' -> t' = t).
  { intros t' Ht%H1. apply (Hc gvk); set_solver. }
  eexists. split.
  { destruct (gvkToType s !! gvk) as [t'|] eqn:Ht; [|reflexivity]. by rewrite decide_True by (by apply Hold). }
  split_and!; cbn [gvkToType typeToGVK unversionedKinds]; [| | |done].
  - intros gvk' t'. rewrite lookup_insert_Some, elem_of_app, list_elem_of_singleton, H1. split; [naive_solver|].
    intros [Hin|[= -> ->]]; [|by left]. destruct (decide (gvk = gvk')) as [<-|]; [|by right].
    left. split; [done|]. symmetry. by apply Hold, H1.
  - intros gvk' t'. rewrite elem_of_app, list_elem_of_singleton, <- H2. destruct (decide (gvk ∈ default [] (typeToGVK s !! t))) as [Hin|Hin].
    + split; [by left|]. intros [?|[= -> ->]]; done.
    + rewrite lookup_insert. destruct (decide (t = t')) as [<-|Hne]; simpl; [|naive_solver].
      rewrite elem_of_app, list_elem_of_singleton. naive_solver.
  - intros t' l. destruct (decide (gvk ∈ default [] (typeToGVK s !! t))) as [Hin|Hin]; [apply H3|].
    intros [[<- <-]|[_ Hl]]%lookup_insert_Some; [|by eapply H3].
    split; [|by intros [_ ?]%app_nil].
    apply NoDup_app. split_and!; [|set_solver|apply NoDup_singleton].
    destruct (typeToGVK s !! t) as [l|] eqn:Hl; [by apply (H3 t)|by apply NoDup_nil].
Qed.

Lemma AddKnownTypes_adds gv types : forall D s,
  knows D s -> consistent (D ++ typeRegistrations gv types) -> gv_Version gv <> "" ->
  exists s', AddKnownTypes gv types s = Val s' /\ knows (D ++ typeRegistrations gv types) s'.
Proof.
  unfold AddKnownTypes. intros D s Hk Hc Hv. apply (knows_observed _ gv) in Hk. revert D Hk Hc.
  generalize (addObservedVersion gv s). clear s. induction types as [|t types IH]; intros s D Hk Hc; cbn [each].
  - exists s. unfold typeRegistrations. cbn. by rewrite app_nil_r.
  - change (typeRegistrations gv (t :: types)) with ([(WithKind gv t.2, t)] ++ typeRegistrations gv types) in *.
    rewrite app_assoc in *. destruct (AddKnownTypeWithName_adds D (WithKind gv t.2) t s) as (s1 & -> & H1); [done| |done|].
    { eapply consistent_subset; [|exact Hc]. set_solver. }
    cbn [obind]. exact (IH s1 _ H1 Hc).
Qed.

(** The kinds without a version are those of metav1, each of its own name. *)
Lemma addUnversioned_keeps D version names s : knows D s ->
  exists s', each (addUnversioned version) ((fun n => (metav1, n)) <$> names) s = Val s' /\ knows D s'.
Proof.
  revert s. induction names as [|n names IH]; intros s Hk; [by exists s|]. cbn [fmap list_fmap each].
  assert (exists s', addUnversioned version (metav1, n) s = Val s' /\ knows D s') as (s1 & -> & H1); [|by apply IH].
  destruct Hk as (H1 & H2 & H3 & H4). unfold addUnversioned. cbn. eexists. split.
  { destruct (unversionedKinds s !! n) as [t|] eqn:Ht; [|reflexivity]. rewrite decide_True; [reflexivity|]. by rewrite (H4 _ _ Ht). }
  split_and!; [done..|]. intros m t. cbn. intros [[<- <-]|[_ Hm]]%lookup_insert_Some; [done|by apply H4].
Qed.

Lemma AddToGroupVersion_adds gv D s :
  knows D s -> consistent (D ++ metaRegistrations gv) -> gv_Version gv <> "" ->
  exists s', AddToGroupVersion gv s = Val s' /\ knows (D ++ metaRegistrations gv) s'.
Proof.
  intros Hk Hc Hv. unfold AddToGroupVersion, AddUnversionedTypes, metaRegistrations in *.
  destruct (AddKnownTypeWithName_adds D (WithKind gv "WatchEvent") (metav1, "WatchEvent") s) as (s1 & -> & H1);
    [done|by eapply consistent_subset; [|exact Hc]; members|done|]. cbn [obind].
  destruct (AddKnownTypeWithName_adds _ (WithKind (mkGroupVersion (gv_Group gv) APIVersionInternal) "WatchEvent")
    (metav1, "InternalEvent") s1 H1) as (s2 & -> & H2); [by eapply consistent_subset; [|exact Hc]; members|done|]. cbn [obind].
  destruct (AddKnownTypes_adds gv optionsTypes _ _ H2) as (s3 & -> & H3); [by eapply consistent_subset; [|exact Hc]; members|done|]. cbn [obind].
  apply (knows_observed _ Unversioned) in H3.
  destruct (AddKnownTypes_adds Unversioned statusTypes _ _ H3) as (s4 & -> & H4); [by eapply consistent_subset; [|exact Hc]; members|done|]. cbn [obind].
  destruct (addUnversioned_keeps _ Unversioned ["Status"; "APIVersions"; "APIGroupList"; "APIGroup"; "APIResourceList"] _ H4) as (s5 & H5 & H6).
  exists s5. split; [exact H5|]. eapply knows_equiv; [|exact H6]. members.
Qed.

Lemma addKnownTypes_adds g D s : knows D s -> consistent (D ++ registrations g) ->
  exists s', addKnownTypes g s = Val (s', None) /\ knows (D ++ registrations g) s'.
Proof.
  intros Hk Hc. unfold addKnownTypes, registrations in *. assert (Hv : gv_Version (SchemeGroupVersion g) <> "") by by destruct g.
  rewrite app_assoc in Hc.
  destruct (AddKnownTypes_adds (SchemeGroupVersion g) (knownTypes g) D s) as (s1 & -> & H1);
    [done|by eapply consistent_subset; [|exact Hc]; members|done|].
  cbn [obind]. destruct (AddToGroupVersion_adds _ _ _ H1 Hc Hv) as (s2 & -> & H2). cbn [obind]. exists s2. by rewrite app_assoc.
Qed.

Lemma AddToScheme_adds g D s : knows D s -> consistent (D ++ registrations g) ->
  exists s', Register.AddToScheme g s = Val (s', None) /\ knows (D ++ registrations g) s'.
Proof.
  intros Hk Hc. unfold Register.AddToScheme, Register.localSchemeBuilder. cbn [AddToScheme].
  destruct (addKnownTypes_adds g D s Hk Hc) as (s1 & Ha & H1).
  assert (Hc1 : consistent ((D ++ registrations g) ++ registrations g))
    by (eapply consistent_subset; [|exact Hc]; members).
  destruct (addKnownTypes_adds g _ s1 H1 Hc1) as (s2 & Ha2 & H2).
  destruct g; cbn [SchemeBuilderOf NewSchemeBuilder Runtime.Register app AddToScheme]; rewrite Ha; cbn [obind is_nil negb AddToScheme].
  1-2: by exists s1.
  rewrite Ha2. cbn [obind is_nil negb]. exists s2. split; [done|]. eapply knows_equiv; [|exact H2]. members.
Qed.

(** Several clientsets in one scheme, as the comment on [AddToScheme] has it. *)
Fixpoint AddAllToScheme (gs : list api_group) : SchemeFunc := fun s =>
  match gs with
  | [] => Val (s, None)
  | g :: gs => '(s, err) <~ Register.AddToScheme g s; if negb (is_nil err) then Val (s, err) else AddAllToScheme gs s
  end.

Lemma AddAllToScheme_adds gs : forall D s, knows D s -> D ⊆ allRegistrations ->
  exists s', AddAllToScheme gs s = Val (s', None) /\ knows (D ++ (gs ≫= registrations)%stdpp) s'.
Proof.
  induction gs as [|g gs IH]; intros D s Hk HD; cbn [AddAllToScheme].
  { exists s. cbn. by rewrite app_nil_r. }
  assert (Hsub : D ++ registrations g ⊆ allRegistrations).
  { intros p [Hp|Hp]%elem_of_app; [by apply HD|]. unfold allRegistrations. rewrite !elem_of_app. destruct g; auto. }
  destruct (AddToScheme_adds g D s Hk) as (s1 & -> & H1); [eapply consistent_subset, all_consistent; done|]. cbn [obind is_nil negb].
  destruct (IH _ _ H1 Hsub) as (s2 & -> & H2). exists s2. cbn. by rewrite app_assoc.
Qed.

Lemma knows_nothing : knows [] NewScheme.
Proof.
  split_and!; intros; cbn; rewrite ?lookup_empty; cbn; [| |done..].
  - split; [done|]. by intros ?%not_elem_of_nil.
  - split; by intros ?%not_elem_of_nil.
Qed.

(** The kinds of the object tracker. *)
Definition typeOf (g : api_group) (k : kind) : goType := (package_of g, kind_name k).
Definition listTypeOf (g : api_group) (k : kind) : goType := (package_of g, kind_name k +:+ "List").
Definition listGVK (k : kind) : GVK := ((gvk_of k).1, kind_name k +:+ "List").

(** A kind is registered for its clientset alone, as are its type and its list. *)
Lemma registrations_of_kind g k : k ∈ kindsOf g ->
  (gvk_of k, typeOf g k) ∈ registrations g /\ (listGVK k, listTypeOf g k) ∈ registrations g /\
  Forall (fun p => p.2 = typeOf g k -> p.1 = gvk_of k) allRegistrations /\
  forall g', g' <> g -> Forall (fun p => p.1 <> gvk_of k /\ p.2 <> typeOf g k) (metaRegistrations (mkGroupVersion "" "v1") ++ registrations g').
Proof.
  revert k. apply (proj1 (Forall_forall _ _)).
  destruct g; cbn [kindsOf kubevirt_scheme cdi_scheme snapshot_scheme].
  all: repeat (apply Forall_cons; split); [..|apply Forall_nil; exact I].
  all: split_and!; [apply (bool_decide_unpack _); by vm_compute|apply (bool_decide_unpack _); by vm_compute|apply (bool_decide_unpack _); by vm_compute|].
  all: intros g'; destruct g'; try done; intros _; apply (bool_decide_unpack _); by vm_compute.
Qed.

Lemma list_of_one {A} (l : list A) a : NoDup l -> a ∈ l -> (forall x, x ∈ l -> x = a) -> l = [a].
Proof.
  intros Hnd Ha Hone. destruct l as [|x [|y l]]; [by apply not_elem_of_nil in Ha|f_equal; apply Hone; by left|].
  apply NoDup_cons in Hnd as [Hx _]. exfalso. apply Hx. rewrite (Hone x) by by left. rewrite (Hone y) by (right; by left). by left.
Qed.

(** What every scheme starts with. *)
Definition base : list (GVK * goType) := metaRegistrations (mkGroupVersion "" "v1").

Lemma registered_subset gs : base ++ (gs ≫= registrations)%stdpp ⊆ allRegistrations.
Proof.
  intros p [Hp|(g & Hp & _)%list_elem_of_bind]%elem_of_app; unfold allRegistrations, base in *; rewrite !elem_of_app; [auto|].
  destruct g; auto.
Qed.

#[local] Opaque registrations metaRegistrations allRegistrations.

(** Each clientset's scheme is filled without a panic or an error, and so is one to
    which any other clientsets are added, in any order and repeatedly.  It knows a
    kind of the three groups exactly if its clientset is there: then by its group,
    version and kind, as the object tracker has it, with its list, and by its type,
    once. *)
Theorem clientset_schemes_compose g gs : exists s s',
  Register.init g = Val s /\ AddAllToScheme gs s = Val (s', None) /\
  forall g' k, k ∈ kindsOf g' ->
    if decide (g' ∈ g :: gs)
    then New s' (gvk_of k) = Some (typeOf g' k) /\ New s' (listGVK k) = Some (listTypeOf g' k) /\
      GVKs s' (typeOf g' k) = Some [gvk_of k]
    else New s' (gvk_of k) = None /\ GVKs s' (typeOf g' k) = None.
Proof.
  destruct (AddToGroupVersion_adds (mkGroupVersion "" "v1") [] NewScheme) as (s0 & Hs0 & H0);
    [exact knows_nothing|eapply consistent_subset, all_consistent; rewrite <- (app_nil_r (_ ++ _)); exact (registered_subset [])|done|].
  destruct (AddToScheme_adds g base s0 H0) as (s & Hs & H).
  { eapply consistent_subset, all_consistent. pose proof (registered_subset [g]) as Hall. cbn in Hall. by rewrite app_nil_r in Hall. }
  destruct (AddAllToScheme_adds gs _ s H) as (s' & Hs' & H').
  { pose proof (registered_subset [g]) as Hall. cbn in Hall. by rewrite app_nil_r in Hall. }
  exists s, s'. split; [unfold Register.init; by rewrite Hs0; cbn [obind]; rewrite Hs|]. split; [exact Hs'|].
  rewrite <- app_assoc in H'. change (registrations g ++ (gs ≫= registrations)%stdpp) with ((g :: gs) ≫= registrations)%stdpp in H'.
  destruct H' as (Hg & Ht & Hnd & _). intros g' k Hk. destruct (registrations_of_kind g' k Hk) as (K1 & K2 & K3 & K4).
  unfold New, GVKs. rewrite Forall_forall in K3. destruct (decide (g' ∈ g :: gs)) as [Hin|Hout].
  - assert (Hreg : forall p, p ∈ registrations g' -> p ∈ base ++ ((g :: gs) ≫= registrations)%stdpp).
    { intros p Hp. apply elem_of_app. right. apply list_elem_of_bind. exists g'. split; [exact Hp|exact Hin]. }
    split; [apply Hg, Hreg, K1|]. split; [apply Hg, Hreg, K2|].
    pose proof (proj2 (Ht _ _) (Hreg _ K1)) as Hkin.
    destruct (typeToGVK s' !! typeOf g' k) as [l|] eqn:Hl.
    2: exfalso; exact (not_elem_of_nil _ Hkin).
    change (gvk_of k ∈ l) in Hkin.
    rewrite (list_of_one l (gvk_of k)); [reflexivity|exact (proj1 (Hnd _ _ Hl))|exact Hkin|].
    intros x Hx. apply (K3 (x, typeOf g' k)); [|reflexivity]. apply (registered_subset (g :: gs)), Ht. rewrite Hl. exact Hx.
  - assert (Hno : forall p, p ∈ base ++ ((g :: gs) ≫= registrations)%stdpp -> p.1 <> gvk_of k /\ p.2 <> typeOf g' k).
    { intros p [Hp|(g1 & Hp & Hg1)%list_elem_of_bind]%elem_of_app.
      - unfold base in Hp. specialize (K4 (if decide (g' = kubevirt_v1) then cdi_v1beta1 else kubevirt_v1)). rewrite Forall_forall in K4.
        apply K4; [clear; by destruct g'|]. apply elem_of_app; left; exact Hp.
      - specialize (K4 g1). rewrite Forall_forall in K4. apply K4; [intros ->; exact (Hout Hg1)|]. apply elem_of_app; right; exact Hp. }
    split.
    + destruct (gvkToType s' !! gvk_of k) as [t|] eqn:E; [|reflexivity]. apply Hg, Hno in E as [E _]. exfalso. exact (E eq_refl).
    + destruct (typeToGVK s' !! typeOf g' k) as [[|gvk l]|] eqn:E; [exfalso; exact (proj2 (Hnd _ _ E) eq_refl)| |reflexivity].
      assert (Hin : (gvk, typeOf g' k) ∈ base ++ ((g :: gs) ≫= registrations)%stdpp) by (apply Ht; rewrite E; by left).
      apply Hno in Hin as [_ Hin]. exfalso. exact (Hin eq_refl).
Qed.
