(* ===== verification/Rbac.v ===== *)
(** * The requests of the driver and its roles

    The role that the manifests give the driver in the infra cluster, and the
    requests of the infra client (KubeClient.v): which of the client's methods it
    lets pass.  Rules and requests are matched the way the documentation of RBAC
    says; the namespace that a role is bound in is not looked at. *)

From S2P Require Import Prelude GoStrings AssetData DeployData Manifests Errors Effects Goroutines Wait Objects Util.
From S2P Require Import ClientAPI Csi Controller Volumes Attach Snapshots Clientsets Labels SnapshotClass KubeClient Fixtures ApiServer Ownership RestConfig ObjectTracker.
Import Kube.

Local Open Scope string_scope.

(** ** What a request asks for *)

Record Attributes := mkAttributes { at_Verb : string; at_APIGroup : string; at_Resource : string; at_Name : string }.

Definition group_of_kind (k : kind) : string := gv_Group (gv_of_kind k).

Definition verb_of {k} (r : Request k) : string :=
  match rq_verb r, rq_name r with
  | GET, Some _ => "get" | GET, None => "list"
  | POST, _ => "create" | PUT, _ => "update" | PATCH _, _ => "patch"
  | DELETE, Some _ => "delete" | DELETE, None => "deletecollection"
  end.

Definition request_attributes {k} (r : Request k) : Attributes :=
  mkAttributes (verb_of r) (group_of_kind k) (Join (rq_resource r :: rq_subresource r) "/") (default EmptyString (rq_name r)).

(** A PUT of the path of a subresource. *)
Definition uri_attributes (uri : string) : option Attributes :=
  match Split uri "/" with
  | [EmptyString; "apis"; group; _; "namespaces"; _; res; name; sub] =>
      Some (mkAttributes "update" group (Join [res; sub] "/") name)
  | _ => None
  end.

(** ** What a role permits *)

Definition covers (l : list string) (x : string) : bool := Contains l "*" || Contains l x.

Definition rule_permits (a : Attributes) (r : PolicyRule) : bool :=
  covers (Verbs r) (at_Verb a) && covers (APIGroups r) (at_APIGroup a) && covers (Resources r) (at_Resource a) &&
  match ResourceNames r with [] => true | names => Contains names (at_Name a) end.

Definition permits (rules : list PolicyRule) (a : Attributes) : bool := existsb (rule_permits a) rules.

(** The roles in the two clusters. *)
Record Roles := mkRoles { in_infra : list PolicyRule; in_tenant : list PolicyRule }.

Definition role (roles : Roles) (s : server) : list PolicyRule :=
  match s with Infra => in_infra roles | Tenant => in_tenant roles end.

(** Operations that are not requests for a resource need no permission. *)
Definition permitted (roles : Roles) (o : op kubeE) : bool :=
  match o with
  | Do s _ r | DoList s _ r | DoError s _ r => permits (role roles s) (request_attributes r)
  | DoWatch s k r => permits (role roles s) (mkAttributes "watch" (group_of_kind k) (rq_resource r) EmptyString)
  | PutAbsPath uri _ => match uri_attributes uri with Some a => permits (in_infra roles) a | None => false end
  | _ => true
  end.

(** ** The roles of the manifests *)

Definition deployed_roles : Roles := Eval vm_compute in
  mkRoles (rules_of "kubevirt-csi" deployed_infra_cluster_service_account ++
           rules_of "kubevirt-csi-cluster" deployed_infra_cluster_service_account)
          (rules_of "kubevirt-csi-controller-cr" deployed_tenant).

Definition embedded_roles : Roles := Eval vm_compute in
  mkRoles (rules_of "kubevirt-csi" _deployInfraClusterServiceAccountYaml)
          (rules_of "kubevirt-csi-controller-cr" _deployTenantBaseDeployYaml).

(** A program that only makes permitted requests. *)
Definition within {A} (roles : Roles) (p : prog kubeE A) : Prop := only (E := kubeE) (fun o => permitted roles o = true) p.

(** A program that makes a request, and none that is permitted. *)
Definition refused {A} (roles : Roles) (p : prog kubeE A) : Prop :=
  match p with Vis o k => permitted roles o = false /\ forall r, within roles (k r) | _ => False end.

Lemma uri_attributes_of group version ns res name sub :
  has_byte "/" group = false -> has_byte "/" version = false -> has_byte "/" ns = false -> has_byte "/" res = false ->
  has_byte "/" name = false -> has_byte "/" sub = false ->
  uri_attributes ("/apis/" +:+ group +:+ String "/" (version +:+ "/namespaces/" +:+ ns +:+
    String "/" (res +:+ String "/" (name +:+ String "/" sub)))) = Some (mkAttributes "update" group (res +:+ String "/" sub) name).
Proof.
  intros Hg Hv Hn Hr Hm Hs. unfold uri_attributes.
  change ("/apis/" +:+ ?x) with ("" +:+ String "/" ("apis" +:+ String "/" x)).
  change ("/namespaces/" +:+ ?x) with (String "/" ("namespaces" +:+ String "/" x)).
  by rewrite !Split_app, Split_no_sep by done.
Qed.

(** ** Programs call by call *)

Ltac calls_ok := repeat first [done | match goal with
  | |- only _ (_ ≫= _) => apply only_bind; [|intros ?]
  | |- only _ (Vis _ _) => split; [|intros ?]
  | |- only _ (invoke _) => split; [|by intros]
  | |- only _ (kube _) => split; [|by intros]
  | |- only _ (PollUntilContextTimeout _ _ _ _ _) => apply only_poll
  | |- only _ (ExponentialBackoff _ _ _) => apply only_backoff; [intros ?|]
  | |- only _ (deref _ ?x) => destruct x
  | |- only _ (if ?b then _ else _) => destruct b
  | |- only _ (match ?x with _ => _ end) => destruct x
  | |- only _ (let _ := _ in _) => cbv zeta
  end].

(** ** The client's methods under the deployed role *)

Definition plain_path (ns name : string) : Prop := has_byte "/" ns = false /\ has_byte "/" name = false.

(** Names that are path elements, in the requests that are paths. *)
Definition plain_names (m : Client.method) : Prop :=
  match m with
  | Client.AddVolumeToVM ns vm _ | Client.RemoveVolumeFromVM ns vm _ | Client.RemoveVolumeFromVMI ns vm _ => plain_path ns vm
  | _ => True
  end.

(** The methods that the deployed role does not let pass. *)
Definition not_granted (m : Client.method) : bool :=
  match m with Client.ListVolumeSnapshots _ | Client.RemoveVolumeFromVMI _ _ _ => true | _ => false end.

Section Deployed.
Variable cl : client.
Notation ok := (within deployed_roles).

Ltac now_permitted := match goal with |- permitted _ _ = true => vm_compute; reflexivity | |- permits _ _ = _ => vm_compute; reflexivity end.

Lemma vm_attributes ns vm sub : plain_path ns vm -> has_byte "/" sub = false ->
  uri_attributes (vmSubresourceURL ApiStorageVersion ns vm sub) =
  Some (mkAttributes "update" "subresources.kubevirt.io" ("virtualmachines/" +:+ sub) vm).
Proof.
  intros [Hn Hv] Hs.
  exact (uri_attributes_of "subresources.kubevirt.io" ApiStorageVersion ns "virtualmachines" vm sub
    eq_refl eq_refl Hn eq_refl Hv Hs).
Qed.

Lemma vmi_attributes ns vm sub : plain_path ns vm -> has_byte "/" sub = false ->
  uri_attributes (vmiSubresourceURL ApiStorageVersion ns vm sub) =
  Some (mkAttributes "update" "subresources.kubevirt.io" ("virtualmachineinstances/" +:+ sub) vm).
Proof.
  intros [Hn Hv] Hs.
  exact (uri_attributes_of "subresources.kubevirt.io" ApiStorageVersion ns "virtualmachineinstances" vm sub
    eq_refl eq_refl Hn eq_refl Hv Hs).
Qed.

(** Call by call through the client. *)
Ltac requests_ok := unfold within; repeat first [now_permitted | progress calls_ok |
  progress unfold kube_window, kube_sleep, i_Get, i_List, i_Create, i_Delete, i_Patch, Get, Clientsets.List, Create, Delete, Patch ].

Lemma GetDataVolume_ok ns n : ok (GetDataVolume cl ns n).
Proof. unfold GetDataVolume. requests_ok. Qed.

Lemma GetPersistentVolumeClaim_ok ns n : ok (GetPersistentVolumeClaim cl ns n).
Proof. unfold GetPersistentVolumeClaim. requests_ok. Qed.

Lemma GetVolumeSnapshot_ok ns n : ok (GetVolumeSnapshot cl ns n).
Proof. unfold GetVolumeSnapshot. requests_ok. Qed.

Lemma getStorageSnapshotMapping_ok e : ok (getStorageSnapshotMapping e).
Proof. unfold getStorageSnapshotMapping, buildStorageClassSnapshotClassMapping. requests_ok. Qed.

Lemma snapshotClassName_ok e ns claim class : ok (getSnapshotClassNameFromVolumeClaimName e ns claim class).
Proof.
  unfold getSnapshotClassNameFromVolumeClaimName, getStorageClassNameFromClaimName,
    getInfraSnapshotClassesFromInfraStorageClassName, getTenantSnapshotClassesFromInfraStorageClassName.
  requests_ok; apply getStorageSnapshotMapping_ok.
Qed.

Lemma EnsureVolumeAvailableVM_ok ns vm v : ok (EnsureVolumeAvailableVM ns vm v).
Proof. unfold EnsureVolumeAvailableVM. requests_ok. Qed.

Lemma EnsureVolumeRemovedVM_ok ns vm v : ok (EnsureVolumeRemovedVM ns vm v).
Proof. unfold EnsureVolumeRemovedVM. requests_ok. Qed.

Lemma implementation_ok m : plain_names m -> not_granted m = false -> ok (implementation cl m).
Proof.
  intros Hp Hg. destruct m; try done; cbn [implementation plain_names] in *.
  - unfold KubeClient.ListVirtualMachines. requests_ok.
  - unfold KubeClient.GetVirtualMachine. requests_ok.
  - unfold KubeClient.GetWorkloadManagingVirtualMachine. requests_ok.
  - unfold KubeClient.DeleteDataVolume. requests_ok. apply GetDataVolume_ok.
  - unfold KubeClient.CreateDataVolume. requests_ok.
  - apply GetDataVolume_ok.
  - apply GetPersistentVolumeClaim_ok.
  - unfold KubeClient.ExpandPersistentVolumeClaim. requests_ok. apply GetPersistentVolumeClaim_ok.
  - split; [|done]. unfold permitted. rewrite (vm_attributes _ _ "addvolume") by done. now_permitted.
  - split; [|done]. unfold permitted. rewrite (vm_attributes _ _ "removevolume") by done. now_permitted.
  - unfold KubeClient.EnsureVolumeAvailable, volumeAvailable, KubeClient.GetVirtualMachine. requests_ok. apply EnsureVolumeAvailableVM_ok.
  - apply EnsureVolumeAvailableVM_ok.
  - unfold KubeClient.EnsureVolumeRemoved, volumeRemoved, KubeClient.GetVirtualMachine. requests_ok; apply EnsureVolumeRemovedVM_ok.
  - apply EnsureVolumeRemovedVM_ok.
  - unfold KubeClient.EnsureVolumeRemovedVMI. requests_ok.
  - unfold KubeClient.EnsureSnapshotReady, snapshotReady. requests_ok. apply GetVolumeSnapshot_ok.
  - unfold KubeClient.EnsureControllerResize, controllerResized. requests_ok. apply GetPersistentVolumeClaim_ok.
  - unfold KubeClient.CreateVolumeSnapshot. requests_ok; [apply GetDataVolume_ok|apply snapshotClassName_ok].
  - apply GetVolumeSnapshot_ok.
  - unfold KubeClient.DeleteVolumeSnapshot. requests_ok. apply GetVolumeSnapshot_ok.
Qed.
End Deployed.

(** ** The RPCs under the deployed role *)

Definition granted_call (m : Client.method) : Prop := plain_names m /\ not_granted m = false.

Lemma interp_ok {A} cl (p : prog clientE A) :
  only (E := clientE) granted_call p -> within deployed_roles (interp (implementation cl) p).
Proof. apply only_interp. intros m [Hp Hg]. by apply implementation_ok. Qed.

Lemma SplitMetaNamespaceKey_plain key ns name :
  SplitMetaNamespaceKey key = (ns, name, None) -> has_byte "/" ns = false /\ has_byte "/" name = false.
Proof.
  intros H. assert (Hall : Forall (fun s => has_byte "/" s = false) (Split key "/")).
  { clear H. induction key as [|a key IH]; simpl; [by repeat constructor|].
    destruct (Ascii.eqb a "/") eqn:Ha; [by constructor|]. pose proof (Split_nonempty key "/").
    destruct (Split key "/") as [|s l]; [done|]. inversion IH; subst. constructor; [|done]. cbn. by rewrite Ha. }
  unfold SplitMetaNamespaceKey in H. destruct (Split key "/") as [|x [|y [|z l]]]; simplify_eq;
    inversion Hall as [|? ? Hx Hl]; subst; [by split|]; inversion Hl as [|? ? Hy _]; subst; by split.
Qed.

Section RPCs.
Variable c : ControllerService.
Hypothesis plain_ns : has_byte "/" (infraClusterNamespace c) = false.
Notation asks := (only (E := clientE) granted_call).

Ltac rpc_ok := repeat first [progress calls_ok | match goal with |- granted_call _ => by split end].

Lemma create_volume_asks req : asks (CreateVolume c req).
Proof. unfold CreateVolume, determineDvSource. rpc_ok. Qed.
Lemma delete_volume_asks req : asks (DeleteVolume c req).
Proof. unfold DeleteVolume. rpc_ok. Qed.
Lemma validate_asks req : asks (ValidateVolumeCapabilities c req).
Proof. unfold ValidateVolumeCapabilities. rpc_ok. Qed.
Lemma expand_asks req : asks (ControllerExpandVolume c req).
Proof. unfold ControllerExpandVolume. rpc_ok. Qed.
Lemma create_snapshot_asks req : asks (CreateSnapshot c req).
Proof. unfold CreateSnapshot, verifySourceVolumeExists, createSnapshotResponse, createCsiSnapshot. rpc_ok. Qed.
Lemma delete_snapshot_asks req : asks (DeleteSnapshot c req).
Proof. unfold DeleteSnapshot. rpc_ok. Qed.

Lemma publishVolume_asks req vmName : has_byte "/" vmName = false -> asks (publishVolume c req vmName).
Proof using plain_ns.
  intros Hv. unfold publishVolume, attempt, addVolumeToVm, isVolumeAttached, client_sleep. rpc_ok.
Qed.

Lemma publish_asks req : asks (ControllerPublishVolume c req).
Proof using plain_ns.
  unfold ControllerPublishVolume. destruct (negb _); [done|]. destruct req as [req|]; [|done]. cbn [deref bind].
  destruct (SplitMetaNamespaceKey (cp_NodeId req)) as [[ns vmName] [e|]] eqn:Hk; [done|]. cbn [is_nil negb].
  apply SplitMetaNamespaceKey_plain in Hk as [_ Hv]. unfold IsVolumeAttachedToOtherVMI. rpc_ok; by apply publishVolume_asks.
Qed.
End RPCs.

(** ** Properties *)

(** C13: the deployed role lets the driver do its work but for two requests.  Of the
    RPCs of the controller, the creation, deletion, attachment, expansion and
    validation of volumes and the creation and deletion of snapshots make only
    requests, in both clusters, that the roles of the manifests permit, whatever
    the servers answer.  The methods of the client that are refused are the listing
    of snapshots, for which the role has no verb, and the hot-unplug at the VMI,
    whose subresource it does not name: their one request is not permitted. *)
Theorem deployed_role_and_the_driver cl c :
  has_byte "/" (infraClusterNamespace c) = false ->
  let does {A} (p : prog clientE A) := within deployed_roles (interp (implementation cl) p) in
  (forall req, does (CreateVolume c req)) /\ (forall req, does (DeleteVolume c req)) /\
  (forall req, does (ControllerPublishVolume c req)) /\ (forall req, does (ValidateVolumeCapabilities c req)) /\
  (forall req, does (ControllerExpandVolume c req)) /\ (forall req, does (CreateSnapshot c req)) /\
  (forall req, does (DeleteSnapshot c req)) /\
  (forall m, plain_names m -> not_granted m = false -> within deployed_roles (implementation cl m)) /\
  (forall ns vm o, plain_path ns vm -> refused deployed_roles (implementation cl (Client.RemoveVolumeFromVMI ns vm o))) /\
  (forall ns sl, ValidatedSelectorFromSet (infraLabelMap cl) = inl sl ->
     refused deployed_roles (implementation cl (Client.ListVolumeSnapshots ns))).
Proof.
  intros Hns does. split_and!; intros; try apply interp_ok.
  - apply create_volume_asks.
  - apply delete_volume_asks.
  - by apply publish_asks.
  - apply validate_asks.
  - apply expand_asks.
  - apply create_snapshot_asks.
  - apply delete_snapshot_asks.
  - by apply implementation_ok.
  - split; [|done]. unfold permitted. by rewrite (vmi_attributes _ _ "removevolume") by done.
  - cbn [implementation]. unfold ListVolumeSnapshots. rewrite H. split; [by vm_compute|]. by intros [l|e].
Qed.

Lemma deployed_role_and_the_driver_witness :
  has_byte "/" (infraClusterNamespace demo_controller) = false /\
  forall req, within deployed_roles (interp (implementation demo_client) (CreateVolume demo_controller req)).
Proof.
  split; [reflexivity|]. destruct (deployed_role_and_the_driver demo_client demo_controller eq_refl) as [H _]. exact H.
Defined.

(** A request that the role does not permit is answered with an error. *)
Definition refusal (o : op kubeE) : resp o -> Prop :=
  match o as o' return Kube.answer o' -> Prop with
  | Do _ _ _ | DoList _ _ _ | DoWatch _ _ _ => fun r => exists e, r = inr e
  | DoError _ _ _ | PutAbsPath _ _ => fun r => exists e, r = Some e
  | _ => fun _ => True
  end.

Definition enforces {W} (roles : Roles) (h : handler kubeE W) : Prop :=
  forall o w, permitted roles o = false -> refusal o (h o w).1.

Definition enforced (roles : Roles) : protocol kubeE :=
  Protocol (E := kubeE) (fun _ _ => True) (fun _ o r => permitted roles o = false -> refusal o r).

(** The RPC does not succeed. *)
Definition fails_rpc {A} (o : outcome (option A * option error)) : Prop :=
  match o with Val (Some _, _) | Val (None, None) => False | _ => True end.

Lemma enforced_fails {W A} roles (h : handler kubeE W) (p : prog kubeE (option A * option error)) w :
  enforces roles h -> wp (enforced roles) p [] (fun _ => fails_rpc) -> fails_rpc (run_out (exec h p w [])).
Proof.
  intros Hh Hp. destruct (wp_exec (enforced roles) h (fun _ _ => True) p w [] (fun _ => fails_rpc)) as [H _];
    [|done|done|exact H]. intros w' t o _ _. split; [|done]. intros Hp'. by apply Hh.
Qed.

Lemma wp_list_snapshots_refused cl c req t :
  ls_SnapshotId req = EmptyString ->
  wp (enforced deployed_roles) (interp (implementation cl) (ListSnapshots c (Some req))) t (fun _ => fails_rpc).
Proof.
  intros Hid. unfold ListSnapshots, selectSnapshots. rewrite Hid. change (negb ("" =s? "")) with false. cbn.
  unfold ListVolumeSnapshots. destruct (ValidatedSelectorFromSet (infraLabelMap cl)) as [sl|e]; [|done]. cbn.
  split; [done|]. intros r Hr. destruct Hr as [e ->]; [by vm_compute|]. done.
Qed.

Lemma wp_enforced_true {A} roles (p : prog kubeE A) t : wp (enforced roles) p t (fun _ _ => True).
Proof. eapply wp_protocol_mono; [| |apply wp_any_true]; done. Qed.

(** Whether the volume exists or not, the VM cannot be read. *)
Lemma wp_publishVolume_refused cl c req vmName t :
  wp (enforced embedded_roles) (interp (implementation cl) (publishVolume c req vmName)) t (fun _ => fails_rpc).
Proof.
  unfold publishVolume. cbn [bind invoke call interp implementation]. apply wp_bind.
  eapply wp_mono; [|apply wp_enforced_true]. intros t' [[dv err]|m] _; [|done]. cbn [wp_then].
  destruct (IsNotFound err); [done|]. destruct err as [e|]; [done|]. cbn [is_nil negb bind invoke call interp implementation].
  apply wp_bind. cbn. split; [done|]. intros r Hr. destruct Hr as [e ->]; [by vm_compute|]. cbn.
  by destruct (IsNotFound (Some e)).
Qed.

Lemma wp_publish_refused cl c req t :
  wp (enforced embedded_roles) (interp (implementation cl) (ControllerPublishVolume c req)) t (fun _ => fails_rpc).
Proof.
  unfold ControllerPublishVolume. destruct (validateControllerPublishVolumeRequest req); [done|]. cbn [is_nil negb].
  destruct req as [req|]; [|done]. cbn [deref bind].
  destruct (SplitMetaNamespaceKey (cp_NodeId req)) as [[ns vmName] [e|]]; [done|]. cbn [is_nil negb].
  destruct (hasRWXCapabiltyAccessMode _) as [isRWX [e|]]; [done|]. destruct isRWX; cbn [negb]; [apply wp_publishVolume_refused|].
  unfold IsVolumeAttachedToOtherVMI. cbn [bind invoke call interp implementation]. apply wp_bind.
  eapply wp_mono; [|apply wp_enforced_true]. intros t' [[vmis [e|]]|m] _; [done| |done]. cbn [wp_then bind].
  destruct (attachedElsewhere (cp_VolumeId req) vmName vmis); [done|apply wp_publishVolume_refused].
Qed.

(** C14: what the roles refuse fails.  Over API servers that answer the requests
    that a role does not permit with an error: under the deployed roles no listing
    of snapshots succeeds, but of one by its ID; and under the roles that
    bindata.go embeds, which are older than the hot-plug through the VM, no volume
    is ever attached. *)
Theorem refused_rpcs_fail {W} (h : handler kubeE W) cl c w :
  (enforces deployed_roles h -> forall req, ls_SnapshotId req = EmptyString ->
     fails_rpc (run_out (exec h (interp (implementation cl) (ListSnapshots c (Some req))) w []))) /\
  (enforces embedded_roles h -> forall req,
     fails_rpc (run_out (exec h (interp (implementation cl) (ControllerPublishVolume c req)) w []))).
Proof.
  split; intros Hh req; [intros Hid|]; apply (enforced_fails _ h _ w Hh).
  - by apply wp_list_snapshots_refused.
  - apply wp_publish_refused.
Qed.

(** The demonstration server, with RBAC. *)
Definition Forbidden : error := APIError "Forbidden" 403 "".

Definition with_rbac {W} (roles : Roles) (h : handler kubeE W) : handler kubeE W := fun o w =>
  if permitted roles o then h o w
  else match o return Kube.answer o * W with
       | Do _ _ _ | DoList _ _ _ | DoWatch _ _ _ => (inr Forbidden, w)
       | DoError _ _ _ | PutAbsPath _ _ => (Some Forbidden, w)
       | o => h o w
       end.

Lemma with_rbac_enforces {W} roles (h : handler kubeE W) : enforces roles (with_rbac roles h).
Proof. intros o w Hp. unfold with_rbac. rewrite Hp. destruct o; simpl; eauto. Qed.

Definition listing {W} (h : handler kubeE W) (w : W) : outcome (result (option ListSnapshotsResponse)) :=
  run_out (exec h (interp (implementation demo_client)
    (ListSnapshots demo_controller (Some (mkListSnapshotsRequest 0 "" "" "")))) w []).

Lemma refused_rpcs_fail_witness :
  fails_rpc (listing (with_rbac deployed_roles api_server) demo_api) /\
  listing (with_rbac deployed_roles api_server) demo_api = Val (None, Some Forbidden) /\
  exists resp, listing api_server demo_api = Val (Some resp, None).
Proof.
  split; [|split; [vm_compute; reflexivity|eexists; vm_compute; reflexivity]].
  unfold listing. apply (refused_rpcs_fail (with_rbac deployed_roles api_server) demo_client demo_controller demo_api);
    [apply with_rbac_enforces|reflexivity].
Defined.
