(* ===== verification/Driver.v ===== *)
(** * The driver and its configuration

    cmd/kubevirt-csi-driver (config.go and kubevirt-csi-driver.go) and
    pkg/service/driver.go: the configuration, the lazily built clients, the node
    ID, and the assembly of the services, with NewClient of pkg/kubevirt/client.go;
    the clients themselves are made by RestConfig.v.  The calls into client-go are
    the operations of [configE]; the YAML reader is a parameter. *)

From S2P Require Import Prelude GoStrings Errors Effects Util ClientAPI.
From S2P Require Import Controller Node Attach Labels KubeClient Goroutines RestConfig.

Local Open Scope string_scope.
Local Open Scope list_scope.
Local Open Scope Z_scope.

(** ** Pure functions *)

(** [label := range labelStrings] of [parseLabels]. *)
Fixpoint addLabels (m : gmap string string) (labelStrings : list string) : result (gmap string string) :=
  match labelStrings with
  | [] => (m, None)
  | label :: rest =>
      match SplitN2 label "=" with
      | [k; v] => addLabels (<[k := v]> m) rest
      | _ => (∅, Some (errors_New "bad labels format. Should be 'key=value,key=value,...'"))
      end
  end.

Definition parseLabels (infraClusterLabels : string) : result (gmap string string) :=
  if is_empty infraClusterLabels then (∅, Some (errors_New "infra-cluster-labels must be set"))
  else addLabels ∅ (Split infraClusterLabels ",").

Definition kubevirtScheme : string := "kubevirt://".
Definition clusterNamespaceAnnotation : string := "cluster.x-k8s.io/cluster-namespace".
Definition infraVmNameAnnotation : string := "csi.kubevirt.io/infra-vm-name".
Definition infraVmNamespaceAnnotation : string := "csi.kubevirt.io/infra-vm-namespace".

(** [annotations[k]] when the map is not nil. *)
Definition annotation (annotations : option (gmap string string)) (k : string) : string :=
  match annotations with Some m => mapget m k | None => "" end.

(** The names of the VM and of its namespace, possibly empty. *)
Definition vmOf (providerID : string) (annotations : option (gmap string string)) : string * string :=
  if HasPrefix providerID kubevirtScheme
  then (TrimPrefix providerID kubevirtScheme, annotation annotations clusterNamespaceAnnotation)
  else (annotation annotations infraVmNameAnnotation, annotation annotations infraVmNamespaceAnnotation).

Definition resolveNodeID (providerID : string) (annotations : option (gmap string string)) : result string :=
  let '(vmName, vmNamespace) := vmOf providerID annotations in
  if is_empty vmName || is_empty vmNamespace
  then ("", Some (errors_New ("vmName or vmNamespace not found. " +:+
    "Ensure the node has a valid providerID (kubevirt://) with annotation 'cluster.x-k8s.io/cluster-namespace', " +:+
    "or set annotations 'csi.kubevirt.io/infra-vm-name' and 'csi.kubevirt.io/infra-vm-namespace' on the node. " +:+
    "After setting the annotations, restart the kubevirt-csi-node pod on this node for the changes to take effect")))
  else (vmNamespace +:+ "/" +:+ vmName, None).

Definition configureStorageClassEnforcement (yaml_Unmarshal : string -> result StorageClassEnforcement)
    (infraStorageClassEnforcement : string) : result StorageClassEnforcement :=
  if is_empty infraStorageClassEnforcement then (mkStorageClassEnforcement [] true true [], None)
  else
    let '(storageClassEnforcement, err) := yaml_Unmarshal infraStorageClassEnforcement in
    match err with
    | Some e => (storageClassEnforcement, Some (WrapErrorf "failed to parse infra-storage-class-enforcement %w" [] e))
    | None => (storageClassEnforcement, None)
    end.

Section Config.
Context {L : ClientLib}.

(** The real client with the clients it was made from. *)
Record virt_client := mkVirtClient {
  vc_infraKubernetesClient : option Clientset;
  vc_virtClient : Versioned.Clientset;
  vc_cdiClient : Versioned.Clientset;
  vc_infraSnapClient : Versioned.Clientset;
  vc_restClient : RESTClient;
  vc_tenant : option Clientset;
  vc_tenantSnap : option Versioned.Clientset;
  vc_client : client }.

Record config := mkConfig {
  endpoint : string;
  nodeName : string;
  cfg_infraClusterNamespace : string;
  infraClusterKubeconfig : string;
  cfg_infraClusterLabels : string;
  cfg_volumePrefix : string;
  infraStorageClassEnforcement : string;
  tenantClusterKubeconfig : string;
  runNodeService : bool;
  runControllerService : bool;
  tenantConfig : option RestConfig;
  infraConfig : option RestConfig;
  tenantClientset : option Clientset;
  tenantSnapshotClientset : option Versioned.Clientset;
  infraClientset : option Clientset;
  cfg_virtClient : option virt_client }.

Definition set_tenantConfig (c : config) (x : option RestConfig) : config :=
  mkConfig (endpoint c) (nodeName c) (cfg_infraClusterNamespace c) (infraClusterKubeconfig c) (cfg_infraClusterLabels c)
    (cfg_volumePrefix c) (infraStorageClassEnforcement c) (tenantClusterKubeconfig c) (runNodeService c)
    (runControllerService c) x (infraConfig c) (tenantClientset c) (tenantSnapshotClientset c) (infraClientset c)
    (cfg_virtClient c).
Definition set_infraConfig (c : config) (x : option RestConfig) : config :=
  mkConfig (endpoint c) (nodeName c) (cfg_infraClusterNamespace c) (infraClusterKubeconfig c) (cfg_infraClusterLabels c)
    (cfg_volumePrefix c) (infraStorageClassEnforcement c) (tenantClusterKubeconfig c) (runNodeService c)
    (runControllerService c) (tenantConfig c) x (tenantClientset c) (tenantSnapshotClientset c) (infraClientset c)
    (cfg_virtClient c).
Definition set_tenantClientset (c : config) (x : option Clientset) : config :=
  mkConfig (endpoint c) (nodeName c) (cfg_infraClusterNamespace c) (infraClusterKubeconfig c) (cfg_infraClusterLabels c)
    (cfg_volumePrefix c) (infraStorageClassEnforcement c) (tenantClusterKubeconfig c) (runNodeService c)
    (runControllerService c) (tenantConfig c) (infraConfig c) x (tenantSnapshotClientset c) (infraClientset c)
    (cfg_virtClient c).
Definition set_tenantSnapshotClientset (c : config) (x : option Versioned.Clientset) : config :=
  mkConfig (endpoint c) (nodeName c) (cfg_infraClusterNamespace c) (infraClusterKubeconfig c) (cfg_infraClusterLabels c)
    (cfg_volumePrefix c) (infraStorageClassEnforcement c) (tenantClusterKubeconfig c) (runNodeService c)
    (runControllerService c) (tenantConfig c) (infraConfig c) (tenantClientset c) x (infraClientset c)
    (cfg_virtClient c).
Definition set_infraClientset (c : config) (x : option Clientset) : config :=
  mkConfig (endpoint c) (nodeName c) (cfg_infraClusterNamespace c) (infraClusterKubeconfig c) (cfg_infraClusterLabels c)
    (cfg_volumePrefix c) (infraStorageClassEnforcement c) (tenantClusterKubeconfig c) (runNodeService c)
    (runControllerService c) (tenantConfig c) (infraConfig c) (tenantClientset c) (tenantSnapshotClientset c) x
    (cfg_virtClient c).
Definition set_virtClient (c : config) (x : option virt_client) : config :=
  mkConfig (endpoint c) (nodeName c) (cfg_infraClusterNamespace c) (infraClusterKubeconfig c) (cfg_infraClusterLabels c)
    (cfg_volumePrefix c) (infraStorageClassEnforcement c) (tenantClusterKubeconfig c) (runNodeService c)
    (runControllerService c) (tenantConfig c) (infraConfig c) (tenantClientset c) (tenantSnapshotClientset c)
    (infraClientset c) x.

(** A fallible step on the configuration: [inr] returns the error. *)
Abbreviation step A := (prog configE ((A + error) * config)).

(** ** config.go *)

Definition getConfigOrInCluster (kubeconfig : string) : prog configE (option RestConfig + error) :=
  if is_empty kubeconfig then
    '(inClusterConfig, err) ← ask InClusterConfig;
    Ret match err with Some e => inr (WrapErrorf "failed to build in cluster config: %w" [] e)
                  | None => inl inClusterConfig end
  else
    '(cfg, err) ← ask (BuildConfigFromFlags kubeconfig);
    Ret match err with Some e => inr (WrapErrorf "failed to build cluster config: %w" [] e) | None => inl cfg end.

Definition getTenantConfig (c : config) : step (option RestConfig) :=
  if negb (is_nil (tenantConfig c)) then Ret (inl (tenantConfig c), c) else
  rc ← getConfigOrInCluster (tenantClusterKubeconfig c);
  Ret match rc with
      | inr e => (inr (WrapErrorf "failed to get tenant rest config: %w" [] e), c)
      | inl rc => (inl rc, set_tenantConfig c rc)
      end.

Definition getInfraConfig (c : config) : step (option RestConfig) :=
  if negb (is_nil (infraConfig c)) then Ret (inl (infraConfig c), c) else
  rc ← getConfigOrInCluster (infraClusterKubeconfig c);
  Ret match rc with
      | inr e => (inr (WrapErrorf "failed to get infra rest config: %w" [] e), c)
      | inl rc => (inl rc, set_infraConfig c rc)
      end.

(** The constructors dereference the configuration they are given. *)
Definition getTenantClientset (c : config) : step (option Clientset) :=
  if negb (is_nil (tenantClientset c)) then Ret (inl (tenantClientset c), c) else
  '(rc, c) ← getTenantConfig c;
  match rc with
  | inr e => Ret (inr e, c)
  | inl rc =>
      rc ← deref "*rest.Config" rc;
      '(tc, err) ← ask (KubernetesNewForConfig rc);
      Ret match err with
          | Some e => (inr (WrapErrorf "failed to build tenant client set: %w" [] e), c)
          | None => (inl tc, set_tenantClientset c tc)
          end
  end.

Definition getTenantSnapshotClientset (c : config) : step (option Versioned.Clientset) :=
  if negb (is_nil (tenantSnapshotClientset c)) then Ret (inl (tenantSnapshotClientset c), c) else
  '(rc, c) ← getTenantConfig c;
  match rc with
  | inr e => Ret (inr e, c)
  | inl rc =>
      rc ← deref "*rest.Config" rc;
      tc ← c_NewForConfig snapcli rc;
      Ret match tc with
          | inr e => (inr (WrapErrorf "failed to build tenant snapshot client set: %w" [] e), c)
          | inl tc => (inl (Some tc), set_tenantSnapshotClientset c (Some tc))
          end
  end.

Definition getInfraClientset (c : config) : step (option Clientset) :=
  if negb (is_nil (infraClientset c)) then Ret (inl (infraClientset c), c) else
  '(rc, c) ← getInfraConfig c;
  match rc with
  | inr e => Ret (inr e, c)
  | inl rc =>
      rc ← deref "*rest.Config" rc;
      '(tc, err) ← ask (KubernetesNewForConfig rc);
      Ret match err with
          | Some e => (inr (WrapErrorf "failed to build infra client set: %w" [] e), c)
          | None => (inl tc, set_infraClientset c tc)
          end
  end.

(** [kubevirt.NewClient]: the clients of the infra cluster are made in order, and
    the first failure is returned; also the configuration of the infra cluster
    afterwards, which the caller shares. *)
Definition kubevirt_NewClient (infraConfig : option RestConfig) (labels : gmap string string) (tc : option Clientset)
    (tsc : option Versioned.Clientset) (enforcement : StorageClassEnforcement) (prefix : string)
    : prog configE ((virt_client + error) * option RestConfig) :=
  err ← ask AddToScheme;
  match err with Some e => Ret (inr e, infraConfig) | None =>
  infraConfig ← deref "*infraConfig" infraConfig;
  let shallowCopy := subresource_config infraConfig in
  let infraConfig := default_UserAgent infraConfig in
  result ← or_return (ask (RESTClientFor shallowCopy)) (fun restClient =>
    '(clientset, err) ← ask (KubernetesNewForConfig infraConfig);
    match err with Some e => Ret (inr e) | None =>
    or_return (c_NewForConfig kubecli infraConfig) (fun kubevirtClient =>
    or_return (c_NewForConfig cdicli infraConfig) (fun cdiClient =>
    or_return (c_NewForConfig snapcli infraConfig) (fun snapClient =>
    Ret (inl (mkVirtClient clientset kubevirtClient cdiClient snapClient restClient tc tsc
                (NewClient labels enforcement prefix))))))
    end);
  Ret (result, Some infraConfig)
  end.

Definition getVirtClient (c : config) (labels : gmap string string) (enforcement : StorageClassEnforcement)
    : step (option virt_client) :=
  if negb (is_nil (cfg_virtClient c)) then Ret (inl (cfg_virtClient c), c) else
  if is_empty (cfg_volumePrefix c)
  then Ret (inr (errors_New "volume-prefix must be set when deploying the controller"), c) else
  '(rc, c) ← getInfraConfig c;
  match rc with inr e => Ret (inr e, c) | inl rc =>
  '(tc, c) ← getTenantClientset c;
  match tc with inr e => Ret (inr e, c) | inl tc =>
  '(tsc, c) ← getTenantSnapshotClientset c;
  match tsc with inr e => Ret (inr e, c) | inl tsc =>
  '(vc, rc) ← kubevirt_NewClient rc labels tc tsc enforcement (cfg_volumePrefix c);
  let c := set_infraConfig c rc in
  Ret match vc with
      | inr e => (inr (WrapErrorf "failed to initialize virt client: %w" [] e), c)
      | inl vc => (inl (Some vc), set_virtClient c (Some vc))
      end
  end end end.

(** ** pkg/service/driver.go *)

Record IdentityService := mkIdentityService { probeClientset : option Clientset }.

(** A controller service and the client it calls. *)
Record ControllerServer := mkControllerServer { cs_client : option virt_client; cs_service : ControllerService }.

Record KubevirtCSIDriver := mkKubevirtCSIDriver {
  drv_Identity : option IdentityService;
  drv_Controller : option ControllerServer;
  drv_Node : option NodeService }.

Definition NewKubevirtCSIDriver : KubevirtCSIDriver := mkKubevirtCSIDriver None None None.

Definition WithIdentityService (d : KubevirtCSIDriver) (identityClientset : option Clientset) : KubevirtCSIDriver :=
  mkKubevirtCSIDriver (Some (mkIdentityService identityClientset)) (drv_Controller d) (drv_Node d).

Definition WithControllerService (d : KubevirtCSIDriver) (virtClient : option virt_client) (ns : string)
    (labels : gmap string string) (enforcement : StorageClassEnforcement) : KubevirtCSIDriver :=
  mkKubevirtCSIDriver (drv_Identity d)
    (Some (mkControllerServer virtClient (NewControllerService ns labels enforcement))) (drv_Node d).

Definition WithNodeService (d : KubevirtCSIDriver) (nodeID : string) : KubevirtCSIDriver :=
  mkKubevirtCSIDriver (drv_Identity d) (drv_Controller d) (Some (NewNodeService nodeID)).

(** ** kubevirt-csi-driver.go *)

Definition VendorName : string := "csi.kubevirt.io".
Definition VendorVersion : string := "0.2.0".

Definition prechecks (vendorVersion : string) : option error :=
  if is_empty vendorVersion then Some (errors_New "VendorVersion must be set at compile time") else None.

Section Initialize.
Variable yaml_Unmarshal : string -> result StorageClassEnforcement.

Definition configureControllerService (c : config) (driver : KubevirtCSIDriver) : step KubevirtCSIDriver :=
  let '(labels, err) := parseLabels (cfg_infraClusterLabels c) in
  match err with Some e => Ret (inr (WrapErrorf "failed to parse labels: %w" [] e), c) | None =>
  let '(enforcement, err) := configureStorageClassEnforcement yaml_Unmarshal (infraStorageClassEnforcement c) in
  match err with
  | Some e => Ret (inr (WrapErrorf "failed to configure storage class enforcement: %w" [] e), c)
  | None =>
  '(identityClientset, c) ← getInfraClientset c;
  match identityClientset with inr e => Ret (inr e, c) | inl identityClientset =>
  '(virtClient, c) ← getVirtClient c labels enforcement;
  match virtClient with inr e => Ret (inr e, c) | inl virtClient =>
  Ret (inl (WithIdentityService
              (WithControllerService driver virtClient (cfg_infraClusterNamespace c) labels enforcement)
              identityClientset), c)
  end end end end.

Definition configureNodeService (c : config) (driver : KubevirtCSIDriver) : step KubevirtCSIDriver :=
  '(tenant, c) ← getTenantClientset c;
  match tenant with inr e => Ret (inr e, c) | inl tenant =>
  if is_empty (nodeName c) then Ret (inr (errors_New "cannot start NodeService without a node name"), c) else
  clientset ← deref "tenantClientset" tenant;
  '(kn, err) ← ask (GetNode clientset (nodeName c));
  match err with
  | Some e => Ret (inr (WrapErrorf "failed to find node by name %v: %w" [AStr (nodeName c)] e), c)
  | None =>
  kn ← deref "node" kn;
  let '(nodeID, err) := resolveNodeID (ProviderID kn) (Annotations kn) in
  match err with
  | Some e => Ret (inr (WrapErrorf "failed to resolve infra VM for node %q: %w" [AStr (nodeName c)] e), c)
  | None => Ret (inl (WithIdentityService (WithNodeService driver nodeID) tenant), c)
  end end end.

Definition initializeDriver (c : config) : step KubevirtCSIDriver :=
  let driver := NewKubevirtCSIDriver in
  '(driver, c) ← (if runControllerService c
     then '(d, c) ← configureControllerService c driver;
          Ret (match d with inr e => inr (WrapErrorf "failed to configure controller service: %w" [] e)
                       | inl d => inl d end, c)
     else Ret (inl driver, c));
  match driver with inr e => Ret (inr e, c) | inl driver =>
  if runNodeService c
  then '(d, c) ← configureNodeService c driver;
       Ret (match d with inr e => inr (WrapErrorf "failed to configure node service: %w" [] e)
                    | inl d => inl d end, c)
  else Ret (inl driver, c)
  end.
End Initialize.
End Config.

Arguments mkConfig {_} _ _ _ _ _ _ _ _ _ _ _ _ _ _ _ _.
Arguments mkKubevirtCSIDriver {_} _ _ _.

(** ** Labels *)

(** Labels as they are written on the command line. *)
Definition label_string (kv : string * string) : string := kv.1 +:+ String "=" kv.2.
Definition labels_string (l : list (string * string)) : string := Join (map label_string l) ",".

(** Neither the key nor the value of a label breaks the format. *)
Definition plain_label (kv : string * string) : Prop :=
  has_byte "=" kv.1 = false /\ has_byte "," kv.1 = false /\ has_byte "," kv.2 = false.

Lemma addLabels_plain l m :
  Forall plain_label l -> addLabels m (map label_string l) = (foldl (fun m kv => <[kv.1 := kv.2]> m) m l, None).
Proof.
  intros H. revert m. induction H as [|[k v] l (Hk & _ & _) _ IH]; intros m; [done|].
  cbn [map addLabels foldl fst snd]. unfold label_string at 1. cbn [fst snd] in *.
  by rewrite SplitN2_app.
Qed.

Lemma addLabels_error m ls :
  (addLabels m ls).2 = None <-> Forall (fun s => has_byte "=" s = true) ls.
Proof.
  assert (Hs : forall s, match SplitN2 s "=" with [_; _] => has_byte "=" s = true | _ => has_byte "=" s = false end).
  { induction s as [|a s IH]; [done|]. cbn [SplitN2 has_byte]. destruct (Ascii.eqb a "="); [done|].
    cbn [orb]. by destruct (SplitN2 s "=") as [|x [|y [|z l]]]. }
  revert m. induction ls as [|s ls IH]; intros m; [by split|]. cbn [addLabels]. specialize (Hs s).
  rewrite Forall_cons.
  destruct (SplitN2 s "=") as [|k [|v [|z l]]]; cbn [snd];
    try (split; [done|intros [? _]; congruence]).
  rewrite IH. split; [by split|by intros [_ ?]].
Qed.

Lemma foldl_insert_NoDup (l : list (string * string)) (m : gmap string string) :
  NoDup l.*1 -> foldl (fun m kv => <[kv.1 := kv.2]> m) m l = list_to_map l ∪ m.
Proof.
  revert m. induction l as [|[k v] l IH]; intros m Hl; simpl; [by rewrite map_empty_union|].
  apply NoDup_cons in Hl as [Hk Hl]. rewrite IH by done. cbn [fst snd].
  rewrite <- insert_union_r; [by rewrite insert_union_l|]. by apply not_elem_of_list_to_map_1.
Qed.

(** The labels given on the command line are the labels the driver uses.
    Labels written as [key=value,key=value,...], with distinct keys, are parsed to
    the map that holds exactly them; values may hold [=].  A text is refused when
    and only when it is empty or one of its parts between commas has no [=]. *)
Theorem labels_parse_back (l : list (string * string)) (text : string) :
  (l <> [] -> NoDup l.*1 -> Forall plain_label l -> parseLabels (labels_string l) = (list_to_map l, None)) /\
  ((parseLabels text).2 <> None <-> text = EmptyString \/ Exists (fun s => has_byte "=" s = false) (Split text ",")).
Proof.
  split.
  - intros Hne Hnd Hp. unfold parseLabels, labels_string.
    assert (Hsp : Split (Join (map label_string l) ",") "," = map label_string l).
    { apply Split_Join; [by destruct l|]. apply Forall_map. eapply Forall_impl; [exact Hp|].
      intros [k v] (_ & Hk & Hv). cbn. unfold label_string. cbn [fst snd] in *.
      rewrite has_byte_app. cbn [has_byte]. by rewrite Hk, Hv. }
    rewrite Hsp, addLabels_plain, foldl_insert_NoDup, map_union_empty by done.
    destruct l as [|[k v] l]; [done|]. destruct (is_empty _) eqn:E; [|done].
    apply is_empty_spec in E. cbn [map] in E, Hsp. rewrite E in Hsp. cbn in Hsp.
    injection Hsp as Hlab _. unfold label_string in Hlab. cbn in Hlab. by destruct k.
  - unfold parseLabels. destruct (is_empty text) eqn:E; reflect_bools.
    + subst. cbn. split; [by left|done].
    + rewrite (addLabels_error ∅ (Split text ",")). split.
      * intros Hn. right. apply not_Forall_Exists in Hn; [|apply _]. eapply Exists_impl; [exact Hn|].
        intros s Hs. by apply not_true_is_false.
      * intros [?|Hx]; [done|]. intros Hf. apply Exists_exists in Hx as (s & Hin & Hs).
        rewrite Forall_forall in Hf. specialize (Hf s Hin). congruence.
Qed.

Lemma labels_parse_back_witness :
  parseLabels (labels_string [("app", "csi"); ("eq", "a=b")]) = (list_to_map [("app", "csi"); ("eq", "a=b")], None).
Proof.
  apply (labels_parse_back [("app", "csi"); ("eq", "a=b")] EmptyString); [done| |].
  - by apply (bool_decide_unpack _); vm_compute.
  - by repeat constructor.
Defined.

(** ** The node ID *)

(** A key with two slashes or more is refused. *)
Lemma split_refused a b :
  has_byte "/" a || has_byte "/" b = true -> (SplitMetaNamespaceKey (a +:+ "/" +:+ b)).2 <> None.
Proof.
  intros H. unfold SplitMetaNamespaceKey. change (a +:+ "/" +:+ b) with (a +:+ String "/" b).
  rewrite Split_sep. pose proof (Split_nonempty a "/"). pose proof (Split_nonempty b "/").
  apply orb_true_iff in H as [H%Split_has_byte|H%Split_has_byte];
    destruct (Split a "/") as [|x [|y [|z l]]], (Split b "/") as [|x' [|y' l']]; simpl in *; first [done|lia].
Qed.

(** C30: the node ID names the VM.  [resolveNodeID] fails when and only when the
    name of the VM or of its namespace is missing; otherwise the controller, which
    splits the node ID of a request, finds the VM that the provider ID or the
    annotations of the node name, provided neither name holds a slash; when one
    does, the controller refuses the node ID. *)
Theorem node_id_names_the_vm providerID annotations :
  let '(vmName, vmNamespace) := vmOf providerID annotations in
  let '(nodeID, err) := resolveNodeID providerID annotations in
  (err <> None <-> vmName = EmptyString \/ vmNamespace = EmptyString) /\
  (err = None ->
   if has_byte "/" vmNamespace || has_byte "/" vmName
   then (SplitMetaNamespaceKey nodeID).2 <> None
   else SplitMetaNamespaceKey nodeID = (vmNamespace, vmName, None) /\ vmNameOf nodeID = vmName).
Proof.
  unfold resolveNodeID. destruct (vmOf providerID annotations) as [vmName vmNamespace].
  destruct (is_empty vmName) eqn:E1; cbn [orb]; reflect_bools; [by split; [naive_solver|]|].
  destruct (is_empty vmNamespace) eqn:E2; reflect_bools; [by split; [naive_solver|]|].
  split; [naive_solver|]. intros _.
  destruct (has_byte "/" vmNamespace || has_byte "/" vmName) eqn:Hn; [by apply split_refused|].
  apply orb_false_iff in Hn as [Hn Hv]. unfold vmNameOf.
  assert (Hsp : SplitMetaNamespaceKey (vmNamespace +:+ "/" +:+ vmName) = (vmNamespace, vmName, None)).
  { unfold SplitMetaNamespaceKey. change (vmNamespace +:+ "/" +:+ vmName) with (vmNamespace +:+ String "/" vmName).
    by rewrite Split_app, Split_no_sep. }
  by rewrite Hsp.
Qed.

Lemma node_id_names_the_vm_witness :
  vmNameOf (resolveNodeID "kubevirt://vm1" (Some {[clusterNamespaceAnnotation := "tenant"]})).1 = "vm1".
Proof. exact (proj2 (proj2 (node_id_names_the_vm "kubevirt://vm1" (Some {[clusterNamespaceAnnotation := "tenant"]})) eq_refl)). Defined.

(** ** The driver *)

Section Assembly.
Context {L : ClientLib}.
Local Abbreviation config := (@config L).
Local Abbreviation driver := (@KubevirtCSIDriver L).
Local Abbreviation configE := (@configE L).
Local Abbreviation vclient := (@virt_client L).
Implicit Types c : config.

(** The settings that the lazily built clients leave alone. *)
Definition same_settings (c c' : config) : Prop :=
  endpoint c' = endpoint c /\ nodeName c' = nodeName c /\ cfg_infraClusterNamespace c' = cfg_infraClusterNamespace c /\
  cfg_infraClusterLabels c' = cfg_infraClusterLabels c /\ cfg_volumePrefix c' = cfg_volumePrefix c /\
  infraStorageClassEnforcement c' = infraStorageClassEnforcement c /\
  runNodeService c' = runNodeService c /\ runControllerService c' = runControllerService c.

#[export] Instance same_settings_preorder : PreOrder same_settings.
Proof. split; [by intros c|]. intros c1 c2 c3. unfold same_settings. intros. destruct_and!. split_and!; congruence. Qed.

(** A step that keeps the settings and the client of the infra cluster. *)
Definition keeps {A} (c : config) (_ : trace configE) (o : outcome ((A + error) * config)) : Prop :=
  match o with
  | Val (_, c') => same_settings c c' /\ cfg_virtClient c' = cfg_virtClient c
  | Panicked _ => True
  end.

Lemma getConfigOrInCluster_any kubeconfig t (Q : trace configE -> outcome (option RestConfig + error) -> Prop) :
  (forall t o, Q t o) -> wp any (getConfigOrInCluster kubeconfig) t Q.
Proof.
  intros HQ. unfold getConfigOrInCluster, ask.
  destruct (is_empty kubeconfig); psimpl; (split; [done|]); intros [] _; apply HQ.
Qed.

(** A constructor called with a configuration: its answer is returned or cached. *)
Ltac construct rc Hk :=
  destruct rc as [rc|]; psimpl; [|done]; unfold ask; psimpl; split; [done|];
  intros [? [?|]] _; [exact Hk|]; unfold keeps, same_settings in *; cbn; tauto.

Lemma getTenantConfig_keeps c t : wp any (getTenantConfig c) t (keeps c).
Proof.
  unfold getTenantConfig. destruct (negb _); [by split|]. apply wp_bind, getConfigOrInCluster_any.
  by intros t' [[rc|e]|m]; repeat split.
Qed.

Lemma getInfraConfig_keeps c t : wp any (getInfraConfig c) t (keeps c).
Proof.
  unfold getInfraConfig. destruct (negb _); [by split|]. apply wp_bind, getConfigOrInCluster_any.
  by intros t' [[rc|e]|m]; repeat split.
Qed.

Lemma getTenantClientset_keeps c t : wp any (getTenantClientset c) t (keeps c).
Proof.
  unfold getTenantClientset. destruct (negb _); [by split|]. apply wp_bind. eapply wp_mono; [|apply getTenantConfig_keeps].
  intros t' [[[rc|e] c']|m] Hk; psimpl; try done. construct rc Hk.
Qed.

Lemma getTenantSnapshotClientset_keeps c t : wp any (getTenantSnapshotClientset c) t (keeps c).
Proof.
  unfold getTenantSnapshotClientset. destruct (negb _); [by split|]. apply wp_bind.
  eapply wp_mono; [|apply getTenantConfig_keeps].
  intros t' [[[rc|e] c']|m] Hk; psimpl; try done. destruct rc as [rc|]; psimpl; [|done].
  apply wp_bind. eapply wp_mono; [|apply wp_any_true].
  intros t2 [[tc|e]|m] _; psimpl; [|exact Hk|done]. unfold keeps, same_settings in *. cbn. tauto.
Qed.

Lemma getInfraClientset_keeps c t : wp any (getInfraClientset c) t (keeps c).
Proof.
  unfold getInfraClientset. destruct (negb _); [by split|]. apply wp_bind. eapply wp_mono; [|apply getInfraConfig_keeps].
  intros t' [[[rc|e] c']|m] Hk; psimpl; try done. construct rc Hk.
Qed.

(** One getter inside a longer step: its error is returned, its configuration
    has the settings of [c0]. *)
Lemma wp_getter {A B} (p : prog configE ((A + error) * config)) (c0 c : config) t
    (f : A -> config -> prog configE ((B + error) * config)) (Q : trace configE -> (B + error) * config -> Prop) :
  wp any p t (keeps c) -> same_settings c0 c ->
  (forall t' e c', same_settings c0 c' -> Q t' (inr e, c')) ->
  (forall a c' t', same_settings c0 c' -> cfg_virtClient c' = cfg_virtClient c ->
     wp any (f a c') t' (fun t o => match o with Val x => Q t x | Panicked _ => True end)) ->
  wp any (' x ← p; let '(r, c') := x in match r with inr e => Ret (inr e, c') | inl a => f a c' end) t
    (fun t o => match o with Val x => Q t x | Panicked _ => True end).
Proof.
  intros Hp H0 He Hf. apply wp_bind. eapply wp_mono; [|exact Hp].
  intros t' [[[a|e] c']|m] Hk; cbn [wp_then]; [| |done]; destruct Hk as [Hs Hv].
  - apply Hf; [by transitivity c|done].
  - apply He. by transitivity c.
Qed.

(** The client that [getVirtClient] builds. *)
Definition builds_client (c0 : config) labels enforcement (_ : trace configE)
    (r : (option vclient + error) * config) : Prop :=
  same_settings c0 r.2 /\
  match r.1 with
  | inl v => exists v', v = Some v' /\ vc_client v' = NewClient labels enforcement (cfg_volumePrefix c0) /\
      cfg_volumePrefix c0 <> EmptyString
  | inr _ => True
  end.

Lemma wp_or_return {A B} (p : prog configE (A + error)) (k : A -> prog configE (B + error)) t
    (Q : trace configE -> outcome (B + error) -> Prop) :
  (forall t e, Q t (Val (inr e))) -> (forall t m, Q t (Panicked m)) ->
  (forall a t, wp any (k a) t Q) -> wp any (or_return p k) t Q.
Proof.
  intros He Hm Hk. apply wp_bind. eapply wp_mono; [|apply wp_any_true]. intros t' [[a|e]|m] _; simpl; auto.
Qed.

Lemma kubevirt_NewClient_built rc labels tc tsc enforcement prefix t :
  wp any (kubevirt_NewClient rc labels tc tsc enforcement prefix) t
    (fun _ o => match o with Val (inl v, _) => vc_client v = NewClient labels enforcement prefix | _ => True end).
Proof.
  unfold kubevirt_NewClient. unfold ask at 1. psimpl. split; [done|]. intros [e|] _; psimpl; [done|].
  destruct rc as [rc|]; psimpl; [|done]. apply wp_bind.
  apply wp_mono with (Q := fun _ o => match o with Val (inl v) => vc_client v = NewClient labels enforcement prefix | _ => True end).
  { by intros t' [[v|e]|m]. }
  apply wp_or_return; [done|done|]. intros rest t1. unfold ask. psimpl. split; [done|]. intros [cs [e|]] _; psimpl; [done|].
  do 3 (apply wp_or_return; [done|done|]; intros ? ?). done.
Qed.

Lemma getVirtClient_builds c0 c labels enforcement t :
  same_settings c0 c -> cfg_virtClient c = None ->
  wp any (getVirtClient c labels enforcement) t (fun t o =>
    match o with Val x => builds_client c0 labels enforcement t x | Panicked _ => True end).
Proof.
  intros H0 Hnone. unfold getVirtClient. rewrite Hnone. cbn [is_nil negb].
  assert (Hp : cfg_volumePrefix c = cfg_volumePrefix c0) by apply H0.
  destruct (is_empty (cfg_volumePrefix c)) eqn:Ep; reflect_bools; [by split|].
  apply (wp_getter _ c0 c); [apply getInfraConfig_keeps|done|done|]. intros rc c1 t1 H1 E1.
  apply (wp_getter _ c0 c1); [apply getTenantClientset_keeps|done|done|]. intros tc c2 t2 H2 E2.
  apply (wp_getter _ c0 c2); [apply getTenantSnapshotClientset_keeps|done|done|]. intros tsc c3 t3 H3 E3.
  apply wp_bind. eapply wp_mono; [|apply kubevirt_NewClient_built].
  assert (Hp3 : cfg_volumePrefix c3 = cfg_volumePrefix c0) by apply H3.
  intros t' [[[v|e] rc']|m] Hv; cbn; try done.
  split; [|exists v; split_and!; [done|congruence..]]. exact H3.
Qed.

Section Initialized.
Variable yaml_Unmarshal : string -> result StorageClassEnforcement.
Variable c0 : config.

(** The controller service asked for: the labels and the policy of the service
    are those of the flags and of the environment, and its client has the same. *)
Definition controller_configured (d : driver) : Prop :=
  exists labels enforcement v,
    parseLabels (cfg_infraClusterLabels c0) = (labels, None) /\
    configureStorageClassEnforcement yaml_Unmarshal (infraStorageClassEnforcement c0) = (enforcement, None) /\
    cfg_volumePrefix c0 <> EmptyString /\
    drv_Controller d =
      Some (mkControllerServer (Some v) (NewControllerService (cfg_infraClusterNamespace c0) labels enforcement)) /\
    vc_client v = NewClient labels enforcement (cfg_volumePrefix c0).

(** The node service asked for: its node ID is that of the node object that the
    tenant cluster answered. *)
Definition node_configured (d : driver) (t : trace configE) : Prop :=
  exists tenant kn nodeID,
    nodeName c0 <> EmptyString /\
    Ev (E := configE) (GetNode tenant (nodeName c0)) (Some kn, None) ∈ t /\
    resolveNodeID (ProviderID kn) (Annotations kn) = (nodeID, None) /\
    drv_Node d = Some (NewNodeService nodeID) /\
    drv_Identity d = Some (mkIdentityService (Some tenant)).

(** A driver with the services asked for and no others. *)
Definition configured (t : trace configE) (r : (driver + error) * config) : Prop :=
  match r.1 with
  | inr _ => True
  | inl d =>
      (if runControllerService c0 then controller_configured d /\ is_Some (drv_Identity d)
       else drv_Controller d = None) /\
      (if runNodeService c0 then node_configured d t else drv_Node d = None) /\
      (runControllerService c0 = false -> runNodeService c0 = false -> drv_Identity d = None)
  end.

Definition controller_step (t : trace configE) (r : (driver + error) * config) : Prop :=
  same_settings c0 r.2 /\
  match r.1 with
  | inr _ => True
  | inl d => controller_configured d /\ is_Some (drv_Identity d) /\ drv_Node d = None
  end.

Lemma wp_configureControllerService t :
  cfg_virtClient c0 = None ->
  wp any (configureControllerService yaml_Unmarshal c0 NewKubevirtCSIDriver) t (fun t o =>
    match o with Val x => controller_step t x | Panicked _ => True end).
Proof.
  intros Hv. unfold configureControllerService.
  destruct (parseLabels _) as [labels [e|]] eqn:El; [by split|].
  destruct (configureStorageClassEnforcement _ _) as [enforcement [e|]] eqn:Ee; [by split|].
  apply (wp_getter _ c0 c0); [apply getInfraClientset_keeps|done|by split|]. intros ic c1 t1 H1 E1.
  apply wp_bind. eapply wp_mono; [|apply getVirtClient_builds; [exact H1|congruence]].
  intros t2 [[[v|e] c2]|m] Hb; cbn; try done; destruct Hb as [H2 Hb]; try by split.
  destruct Hb as (v' & -> & Hc & Hp). split; [done|]. split_and!; [|by eexists|done].
  exists labels, enforcement, v'. split_and!; try done. cbn.
  assert (Hns : cfg_infraClusterNamespace c2 = cfg_infraClusterNamespace c0) by apply H2.
  by rewrite Hns.
Qed.

Lemma wp_configureNodeService c d t :
  same_settings c0 c ->
  wp any (configureNodeService c d) t (fun t o =>
    match o with
    | Val (inl d', c') => same_settings c0 c' /\ node_configured d' t /\ drv_Controller d' = drv_Controller d
    | _ => True
    end).
Proof.
  intros H0. unfold configureNodeService.
  set (Q := fun (t : trace configE) (x : (driver + error) * config) => match x with
    | (inl d', c') => same_settings c0 c' /\ node_configured d' t /\ drv_Controller d' = drv_Controller d
    | _ => True end).
  apply wp_mono with (Q := fun t o => match o with Val x => Q t x | _ => True end); [by intros ? [[[]]|]|].
  apply (wp_getter _ c0 c); [apply getTenantClientset_keeps|done|done|]. intros tenant c1 t1 H1 E1.
  assert (Hn : nodeName c1 = nodeName c0) by apply H1. rewrite Hn.
  destruct (is_empty (nodeName c0)) eqn:En; reflect_bools; [done|]. destruct tenant as [tenant|]; psimpl; [|done].
  unfold ask. psimpl. split; [done|]. intros [kn [e|]] _; psimpl; [done|].
  destruct kn as [kn|]; psimpl; [|done].
  destruct (resolveNodeID _ _) as [nodeID [e|]] eqn:Er; psimpl; [done|].
  split; [done|]. split; [|done]. exists tenant, kn, nodeID. split_and!; try done. set_solver.
Qed.

Lemma wp_initializeDriver :
  cfg_virtClient c0 = None ->
  wp any (initializeDriver yaml_Unmarshal c0) [] (fun t o => match o with
    | Val x => configured t x /\ match x.1 with inl _ => same_settings c0 x.2 | inr _ => True end
    | Panicked _ => True end).
Proof.
  intros Hv. unfold initializeDriver. cbv zeta. apply wp_bind.
  apply wp_mono with (Q := fun t o => match o with
    | Val (inl d, c) => same_settings c0 c /\ drv_Node d = None /\
        (if runControllerService c0 then controller_configured d /\ is_Some (drv_Identity d)
         else drv_Controller d = None /\ drv_Identity d = None)
    | _ => True end).
  - intros t [[[d|e] c]|m] H; cbn [wp_then]; try done. destruct H as (H0 & Hn & Hc).
    assert (Hr : runNodeService c = runNodeService c0) by apply H0. rewrite Hr.
    unfold configured. destruct (runNodeService c0) eqn:Er.
    + apply wp_bind. eapply wp_mono; [|by apply wp_configureNodeService].
      intros t' [[[d'|e] c']|m]; cbn; try done. intros (Hs & Hd & Hcd). split_and!; [|done|done|done].
      assert (is_Some (drv_Identity d')) by (destruct Hd as (? & ? & ? & _ & _ & _ & _ & ->); by eexists).
      unfold controller_configured in *. rewrite Hcd. destruct (runControllerService c0); naive_solver.
    + cbn. destruct (runControllerService c0); naive_solver.
  - destruct (runControllerService c0) eqn:Er; [|done].
    apply wp_bind. eapply wp_mono; [|by apply wp_configureControllerService].
    intros t [[[d|e] c]|m]; cbn; try done. intros (H0 & Hc & Hi & Hn). naive_solver.
Qed.
End Initialized.
End Assembly.

(** C24: the driver that starts has the services it was asked for, configured
    alike.  With the controller, the labels and the storage class policy of the
    service are the ones parsed from the flags and the environment, and its client
    to the infra cluster was made with the same labels and policy and the volume
    prefix, which is not empty; with the node service, a node name was given and
    the node ID is the one
    resolved from the node object that the tenant cluster answered for the given
    name, and the identity service probes the tenant cluster.  A service not asked
    for is absent. *)
Theorem driver_is_configured_alike {L : ClientLib} {W}
    (h : handler (@configE L) W) w yaml_Unmarshal c d c' :
  cfg_virtClient c = None ->
  run_out (exec h (initializeDriver yaml_Unmarshal c) w []) = Val (inl d, c') ->
  configured yaml_Unmarshal c (run_trace (exec h (initializeDriver yaml_Unmarshal c) w [])) (inl d, c').
Proof.
  intros Hv Hr. pose proof (wp_exec_any h _ w _ _ (wp_initializeDriver yaml_Unmarshal c Hv)) as H.
  by rewrite Hr in H; destruct H as [H _].
Qed.

(** A deployment with both services; libraries that make what they are asked. *)
Definition demo_lib : ClientLib := Build_ClientLib string nat unit string unit string "kubevirt-csi-driver/v0.0.0".
#[local] Existing Instance demo_lib.

Definition demo_config : config :=
  mkConfig "unix:/csi/csi.sock" "worker-1" "infra" "" "app=csi,tenant=t1" "pvc" "" "" true true
    None None None None None None.

Definition demo_rest : RestConfig :=
  mkRestConfig "cluster" "" (SpecFloat.S754_finite false 10 0) 20 None None "" None "".

Definition demo_libraries : handler configE nat := fun o n =>
  match o return config_answer o * nat with
  | InClusterConfig | BuildConfigFromFlags _ => ((Some demo_rest, None), n)
  | HTTPClientFor _ => (inl tt, n)
  | NewTokenBucketRateLimiter _ _ => (n, S n)
  | RESTClientForConfigAndClient rc _ | RESTClientFor rc => (inl (rc_UserAgent rc), n)
  | NewDiscoveryClientForConfigAndClient _ _ => (inl tt, n)
  | KubernetesNewForConfig rc => ((Some (rc_rest rc), None), n)
  | AddToScheme => (None, n)
  | GetNode _ _ => ((Some (mkNode "kubevirt://vm1" (Some {[clusterNamespaceAnnotation := "tenant"]})), None), n)
  end.

Definition no_yaml : string -> result StorageClassEnforcement := fun _ => (mkStorageClassEnforcement [] true true [], None).

Definition demo_snapcli : Versioned.Clientset := Versioned.mkClientset tt (Group.mkClient (DefaultKubernetesUserAgent)).

Definition demo_driver : KubevirtCSIDriver :=
  let labels := (parseLabels "app=csi,tenant=t1").1 in
  let enforcement := mkStorageClassEnforcement [] true true [] in
  mkKubevirtCSIDriver (Some (mkIdentityService (Some "cluster")))
    (Some (mkControllerServer (Some (mkVirtClient (Some "cluster") demo_snapcli demo_snapcli demo_snapcli ""
         (Some "cluster") (Some demo_snapcli) (NewClient labels enforcement "pvc")))
       (NewControllerService "infra" labels enforcement)))
    (Some (NewNodeService "tenant/vm1")).

Definition demo_config_after : config :=
  set_virtClient (set_infraConfig (set_tenantSnapshotClientset (set_tenantClientset (set_tenantConfig
    (set_infraClientset (set_infraConfig demo_config (Some demo_rest)) (Some "cluster")) (Some demo_rest)) (Some "cluster"))
    (Some demo_snapcli)) (Some (default_UserAgent demo_rest))) (drv_Controller demo_driver ≫= cs_client)%stdpp.

Lemma driver_is_configured_alike_witness :
  configured no_yaml demo_config
    (run_trace (exec demo_libraries (initializeDriver no_yaml demo_config) 0%nat [])) (inl demo_driver, demo_config_after).
Proof.
  apply (driver_is_configured_alike demo_libraries 0%nat no_yaml demo_config demo_driver demo_config_after).
  - reflexivity.
  - vm_compute. reflexivity.
Defined.
