(* ===== verification/InfraClients.v ===== *)
(** * The clients that the driver makes

    What the constructors of RestConfig.v and Driver.v make of a configuration:
    one clientset (its group's REST client and its discovery client share the HTTP
    client and the rate limiter), the clients of the infra cluster that NewClient
    makes of one configuration, and that every call for a client is well formed. *)

From S2P Require Import Prelude GoStrings Errors Effects Goroutines Util ClientAPI.
From S2P Require Import KubeClient RestConfig Driver.

Local Open Scope string_scope.
Local Open Scope list_scope.
Local Open Scope Z_scope.

Section Clients.
Context {L : ClientLib}.
Implicit Types (c rc : RestConfig) (t : trace configE).

(** The answer to a call was the error [e]. *)
Definition failed (ev : event configE) (e : error) : Prop :=
  match ev with
  | Ev (HTTPClientFor _) r => r = inr e
  | Ev (RESTClientForConfigAndClient _ _) r => r = inr e
  | Ev (NewDiscoveryClientForConfigAndClient _ _) r => r = inr e
  | Ev (RESTClientFor _) r => r = inr e
  | Ev (KubernetesNewForConfig _) r => r.2 = Some e
  | Ev AddToScheme r => r = Some e
  | _ => False
  end.

Lemma failed_last t ev e : failed ev e -> exists ev', ev' ∈ t ++ [ev] /\ failed ev' e.
Proof. intros H. exists ev. split; [|done]. apply elem_of_app. right. by apply list_elem_of_singleton. Qed.

(** A rate limiter must be made, and cannot. *)
Definition burst_missing c : Prop := rc_RateLimiter c = None /\ QPS_positive c = true /\ rc_Burst c <= 0.

(** The limiter of a clientset: the one given, a new one when a rate is given, or
    the default of client-go. *)
Definition paced t c (lim : option Limiter) : Prop :=
  match rc_RateLimiter c with
  | Some l => lim = Some l
  | None =>
      if QPS_positive c
      then exists l, lim = Some l /\ 0 < rc_Burst c /\
             Ev (E := configE) (NewTokenBucketRateLimiter (rc_QPS c) (rc_Burst c)) l ∈ t
      else lim = None
  end.

(** The clientset was made of [c] for the group: one HTTP client, one limiter. *)
Definition made_of t (g : api_group) c (cs : Versioned.Clientset) : Prop :=
  exists hc lim,
    let c1 := set_RateLimiter (default_UserAgent c) lim in
    paced t c lim /\
    Ev (E := configE) (HTTPClientFor (default_UserAgent c)) (inl hc) ∈ t /\
    Ev (E := configE) (RESTClientForConfigAndClient
      (set_api c1 (Some (SchemeGroupVersion g)) "/apis" (Some (WithoutConversion g))) hc)
      (inl (Group.restClient (Versioned.cs_group cs))) ∈ t /\
    Ev (E := configE) (NewDiscoveryClientForConfigAndClient c1 hc) (inl (Versioned.cs_DiscoveryClient cs)) ∈ t.

Definition clientset_result (g : api_group) c t (o : outcome (Versioned.Clientset + error)) : Prop :=
  match o with
  | Val (inl cs) => made_of t g c cs
  | Val (inr e) => burst_missing c \/ exists ev, ev ∈ t /\ failed ev e
  | Panicked _ => False
  end.

Lemma made_of_more t l g c cs : made_of t g c cs -> made_of (t ++ l) g c cs.
Proof.
  intros (hc & lim & Hp & H1 & H2 & H3). exists hc, lim. split; [|set_solver].
  unfold paced in *. destruct (rc_RateLimiter c); [done|]. destruct (QPS_positive c); [|done].
  destruct Hp as (l' & ? & ? & ?). exists l'. set_solver.
Qed.

Lemma default_UserAgent_fields c :
  rc_RateLimiter (default_UserAgent c) = rc_RateLimiter c /\ rc_Burst (default_UserAgent c) = rc_Burst c /\
  QPS_positive (default_UserAgent c) = QPS_positive c /\ rc_QPS (default_UserAgent c) = rc_QPS c /\
  default_UserAgent (default_UserAgent c) = default_UserAgent c.
Proof.
  unfold default_UserAgent. destruct (is_empty (rc_UserAgent c)) eqn:E; [|by rewrite E].
  split_and!; try done. cbn. by destruct (is_empty DefaultKubernetesUserAgent).
Qed.

Lemma default_UserAgent_group c lim gv path ser :
  let c1 := set_RateLimiter (default_UserAgent c) lim in
  default_UserAgent (set_api c1 gv path ser) = set_api c1 gv path ser.
Proof.
  assert (H : is_empty (rc_UserAgent (default_UserAgent c)) = true -> rc_UserAgent (default_UserAgent c) = DefaultKubernetesUserAgent).
  { unfold default_UserAgent. destruct (is_empty (rc_UserAgent c)) eqn:E; [done|congruence]. }
  revert H. generalize (default_UserAgent c). intros c' H. unfold default_UserAgent. cbn.
  destruct (is_empty (rc_UserAgent c')) eqn:E; [|done]. unfold set_UserAgent. cbn. by rewrite <- H.
Qed.

Lemma set_RateLimiter_same c : set_RateLimiter c (rc_RateLimiter c) = c.
Proof. by destruct c. Qed.

(** The calls after the limiter. *)
Lemma wp_with_limiter g c lim hc t :
  paced t c lim -> Ev (E := configE) (HTTPClientFor (default_UserAgent c)) (inl hc) ∈ t ->
  let c1 := set_RateLimiter (default_UserAgent c) lim in
  wp any (or_return (Group.NewForConfigAndClient g c1 hc) (fun group =>
          or_return (ask (NewDiscoveryClientForConfigAndClient c1 hc)) (fun discovery =>
          Ret (inl (Versioned.mkClientset discovery group))))) t (clientset_result g c).
Proof.
  intros Hp Hh. cbv zeta. unfold Group.NewForConfigAndClient, Group.setConfigDefaults. rewrite default_UserAgent_group.
  unfold or_return, ask. psimpl. split; [done|]. intros [rest|e] _; psimpl.
  - split; [done|]. intros [disc|e] _; psimpl; [|right; by apply failed_last].
    exists hc, lim. split; [|set_solver]. unfold paced in *. destruct (rc_RateLimiter c); [done|].
    destruct (QPS_positive c); [|done]. destruct Hp as (l' & ? & ? & ?). exists l'. set_solver.
  - right. by apply failed_last.
Qed.

Lemma wp_NewForConfig g c t : wp any (Versioned.NewForConfig g c) t (clientset_result g c).
Proof.
  destruct (default_UserAgent_fields c) as (Hl & Hb & Hq & Hr & _).
  unfold Versioned.NewForConfig, Versioned.NewForConfigAndClient. unfold or_return at 1 2. unfold ask at 1. psimpl.
  split; [done|]. intros [hc|e] _; psimpl; [|right; by apply failed_last].
  set (t1 := t ++ _). assert (Hh : Ev (E := configE) (HTTPClientFor (default_UserAgent c)) (inl hc) ∈ t1) by set_solver.
  rewrite Hl, Hq, Hb, Hr. destruct (rc_RateLimiter c) as [l|] eqn:El; psimpl.
  { rewrite <- (set_RateLimiter_same (default_UserAgent c)), Hl. apply wp_with_limiter; [|done]. unfold paced. by rewrite El. }
  destruct (QPS_positive c) eqn:Eq; psimpl.
  - destruct (rc_Burst c <=? 0) eqn:Eb; psimpl; [left; split_and!; [done|done|lia]|]. unfold ask at 1. psimpl.
    split; [done|]. intros l _. apply wp_with_limiter; [|set_solver]. unfold paced. rewrite El, Eq.
    exists l. split_and!; [done|lia|set_solver].
  - rewrite <- (set_RateLimiter_same (default_UserAgent c)), Hl. apply wp_with_limiter; [|done]. unfold paced. by rewrite El, Eq.
Qed.

(** ** NewClient *)

(** The clients that [NewClient] made of the configuration [rc]. *)
Definition clients_of t rc (v : virt_client) : Prop :=
  Ev (E := configE) (RESTClientFor (subresource_config rc)) (inl (vc_restClient v)) ∈ t /\
  Ev (E := configE) (KubernetesNewForConfig (default_UserAgent rc)) (vc_infraKubernetesClient v, None) ∈ t /\
  made_of t kubevirt_v1 (default_UserAgent rc) (vc_virtClient v) /\
  made_of t cdi_v1beta1 (default_UserAgent rc) (vc_cdiClient v) /\
  made_of t snapshot_v1 (default_UserAgent rc) (vc_infraSnapClient v).

(** One constructor in [NewClient]: the next ones go on with a longer trace. *)
Lemma wp_clientset {B} g c (k : Versioned.Clientset -> prog configE (B + error)) t
    (Q : trace configE -> outcome (B + error) -> Prop) :
  (forall t e, burst_missing c \/ (exists ev, ev ∈ t /\ failed ev e) -> Q t (Val (inr e))) ->
  (forall cs t', t `prefix_of` t' -> made_of t' g c cs -> wp any (k cs) t' Q) ->
  wp any (or_return (Versioned.NewForConfig g c) k) t Q.
Proof.
  intros He Hk. apply wp_bind. eapply wp_mono; [|apply wp_prefix, wp_NewForConfig].
  intros t' [[cs|e]|m] [Hpre H]; simpl; [by apply Hk|by apply He|done].
Qed.
End Clients.

(** One configuration, one cluster.  [NewClient] never panics on a configuration
    that is there.  When it succeeds, the REST client of the hot-plug requests,
    the clientset of the core APIs and the clientsets of KubeVirt, of CDI and of
    snapshots were all made of that configuration, each generated one by its own
    HTTP client and, for its group's client and its discovery client, one rate
    limiter; and the caller's configuration has got the default user agent, which
    the REST client of the hot-plug requests was made without.  When it fails, a
    constructor failed, or the configuration has a rate and no burst. *)
Theorem new_client_is_of_one_cluster {L : ClientLib} {W} (h : handler configE W) w rc labels tc tsc enforcement prefix :
  let r := exec h (kubevirt_NewClient (Some rc) labels tc tsc enforcement prefix) w [] in
  match run_out r with
  | Val (inl v, rc') =>
      clients_of (run_trace r) rc v /\ vc_tenant v = tc /\ vc_tenantSnap v = tsc /\
      vc_client v = NewClient labels enforcement prefix /\ rc' = Some (default_UserAgent rc) /\
      rc_UserAgent (subresource_config rc) = rc_UserAgent rc
  | Val (inr e, _) => burst_missing (default_UserAgent rc) \/ exists ev, ev ∈ run_trace r /\ failed ev e
  | Panicked _ => False
  end.
Proof.
  cbv zeta. match goal with |- context [exec h ?p w []] => set (q := p) end.
  enough (H : wp any q [] (fun t o => match o with
    | Val (inl v, rc') => clients_of t rc v /\ vc_tenant v = tc /\ vc_tenantSnap v = tsc /\
        vc_client v = NewClient labels enforcement prefix /\ rc' = Some (default_UserAgent rc) /\
        rc_UserAgent (subresource_config rc) = rc_UserAgent rc
    | Val (inr e, _) => burst_missing (default_UserAgent rc) \/ exists ev, ev ∈ t /\ failed ev e
    | Panicked _ => False end)) by (apply (wp_exec_any h q w []) in H; by destruct (run_out _) as [[[]]|]).
  subst q. unfold kubevirt_NewClient. unfold ask at 1. psimpl. split; [done|].
  intros [e|] _; psimpl; [right; by apply failed_last|]. apply wp_bind.
  apply wp_mono with (Q := fun t o => match o with
    | Val (inl v) => clients_of t rc v /\ vc_tenant v = tc /\ vc_tenantSnap v = tsc /\ vc_client v = NewClient labels enforcement prefix
    | Val (inr e) => burst_missing (default_UserAgent rc) \/ exists ev, ev ∈ t /\ failed ev e
    | Panicked _ => False end).
  { intros t [[v|e]|m]; cbn [wp_then wp]; [|done..]. by intros (? & ? & ? & ?). }
  unfold or_return at 1. unfold ask at 1. psimpl. split; [done|].
  intros [rest|e] _; psimpl; [|right; by apply failed_last]. unfold ask at 1. psimpl. split; [done|].
  intros [kc [e|]] _; psimpl; [right; by apply failed_last|]. set (t0 := _ ++ [_]).
  apply wp_clientset; [done|]. intros vc t1 P1 M1. apply wp_clientset; [done|]. intros cc t2 P2 M2.
  apply wp_clientset; [done|]. intros sc t3 P3 M3. cbn. split; [|done].
  destruct P2 as [l2 ->], P3 as [l3 ->], P1 as [l1 ->]. subst t0.
  split_and!; [set_solver|set_solver|by apply made_of_more, made_of_more|by apply made_of_more|done].
Qed.

(** ** Well-formed calls *)

Lemma NewClient_ok {L : ClientLib} rc labels tc tsc enforcement prefix :
  DefaultKubernetesUserAgent <> "" ->
  only (E := configE) call_ok (kubevirt_NewClient rc labels tc tsc enforcement prefix).
Proof.
  intros agent. unfold kubevirt_NewClient. cbv zeta. apply only_bind; [by split|]. intros [e|]; [done|].
  destruct rc as [rc|]; [|done]. cbn [deref bind]. apply only_bind; [|by intros].
  apply only_or_return; [by split|]. intros rest. apply only_bind; [by split|]. intros [kc [e|]]; [done|].
  do 3 (apply only_or_return; [by apply versioned_ok|]; intros ?). done.
Qed.

(** Through a program call by call. *)
Ltac only_calls agent := repeat match goal with
  | |- only _ (bind (kubevirt_NewClient _ _ _ _ _ _) _) => apply only_bind; [by apply NewClient_ok|]
  | |- only _ (bind (c_NewForConfig _ _) _) => apply only_bind; [by apply (versioned_ok agent)|]
  | |- only _ (bind (ask _) _) => apply only_bind; [by split|]
  | |- only _ (bind (deref _ ?x) _) => destruct x; [cbn [deref bind]|done]
  | |- only _ (bind _ _) => apply only_bind
  | |- only _ (if ?b then _ else _) => destruct b
  | |- only _ (match ?x with _ => _ end) => destruct x
  | |- forall _, _ => intro
  | |- only _ (Ret _) => done
  end.

(** C25: the driver asks client-go for clients that can be made, given that the
    default user agent of client-go is not empty: every REST client ([RESTClientFor],
    [RESTClientForConfigAndClient]) is asked for with a group version, a serializer
    and the path of the API groups, the one of the hot-plug requests with JSON; every
    HTTP client, discovery client and client of a generated group is asked for with a
    user agent; and every rate limiter with a positive rate and a positive burst.
    (The clientset of the core APIs is made by client-go, which fills in its group
    and user agent itself.) *)
Theorem driver_calls_are_well_formed {L : ClientLib} yaml_Unmarshal (c : config) :
  DefaultKubernetesUserAgent <> "" -> only (E := configE) call_ok (initializeDriver yaml_Unmarshal c).
Proof.
  intros agent. unfold initializeDriver, configureControllerService, configureNodeService, getVirtClient,
    getInfraClientset, getTenantSnapshotClientset, getTenantClientset, getInfraConfig, getTenantConfig, getConfigOrInCluster.
  cbv zeta. by only_calls agent.
Qed.

Lemma driver_calls_are_well_formed_witness : only (E := @configE demo_lib) call_ok (initializeDriver no_yaml demo_config).
Proof. apply (@driver_calls_are_well_formed demo_lib no_yaml demo_config). discriminate. Defined.
