(* ===== verification/Flags.v ===== *)
(** * The command line and [main]

    [parseConfig] and [main] of cmd/kubevirt-csi-driver/kubevirt-csi-driver.go,
    with package flag of Go's standard library as far as they use it: a flag set
    with [ContinueOnError], string and boolean flags, and the flags of klog
    (vendor/k8s.io/klog/v2/klog.go), whose values are klog's own: which of them
    are boolean is read off its source, what they accept is a parameter. *)

From S2P Require Import Prelude GoStrings Errors Effects Util ClientAPI.
From S2P Require Import Controller Node RestConfig Driver.

Local Open Scope string_scope.
Local Open Scope list_scope.
Local Open Scope Z_scope.

(** ** Flags *)

(** The variables of [parseConfig]. *)
Inductive string_flag :=
| F_endpoint | F_nodeName | F_infraClusterNamespace | F_infraClusterKubeconfig | F_infraClusterLabels
| F_volumePrefix | F_tenantClusterKubeconfig.

Inductive bool_flag := F_runNodeService | F_runControllerService.

#[export] Instance string_flag_eq : EqDecision string_flag.
Proof. solve_decision. Defined.
#[export] Instance bool_flag_eq : EqDecision bool_flag.
Proof. solve_decision. Defined.

(** A flag of the set: one of the driver, or one of klog. *)
Inductive formal_flag := StringVar (f : string_flag) | BoolVar (f : bool_flag) | KlogVar (name : string) (isBool : bool).

Definition driver_flags : list (string * formal_flag) :=
  [("endpoint", StringVar F_endpoint); ("node-name", StringVar F_nodeName);
   ("infra-cluster-namespace", StringVar F_infraClusterNamespace);
   ("infra-cluster-kubeconfig", StringVar F_infraClusterKubeconfig);
   ("infra-cluster-labels", StringVar F_infraClusterLabels); ("volume-prefix", StringVar F_volumePrefix);
   ("tenant-cluster-kubeconfig", StringVar F_tenantClusterKubeconfig);
   ("run-node-service", BoolVar F_runNodeService); ("run-controller-service", BoolVar F_runControllerService)].

(** [klog.InitFlags]. *)
Definition klog_flags : list (string * bool) :=
  [("log_dir", false); ("log_file", false); ("log_file_max_size", false); ("logtostderr", true);
   ("alsologtostderr", true); ("v", false); ("add_dir_header", true); ("skip_headers", true); ("one_output", true);
   ("skip_log_headers", true); ("stderrthreshold", false); ("vmodule", false); ("log_backtrace_at", false)].

(** The set after the declarations. *)
Definition formal : list (string * formal_flag) :=
  map (fun x => (x.1, KlogVar x.1 x.2)) klog_flags ++ driver_flags.

Definition lookup_flag (name : string) : option formal_flag :=
  snd <$> List.find (fun x => x.1 =s? name) formal.

(** Declaring a name twice panics; no name is. *)
Lemma formal_names_distinct : NoDup formal.*1.
Proof. by apply (bool_decide_unpack _). Qed.

(** [strconv.ParseBool] *)
Definition ParseBool (s : string) : option bool :=
  if Contains ["1"; "t"; "T"; "TRUE"; "true"; "True"] s then Some true
  else if Contains ["0"; "f"; "F"; "FALSE"; "false"; "False"] s then Some false
  else None.

(** ** Package flag *)

(** What [parseOne] makes of an argument: not a flag, the terminator [--], a flag
    with a bad syntax, or a flag with its name and what follows an [=]. *)
Inductive argument := NotAFlag | Terminator | BadSyntax | Flag (name : string) (value : option string).

Definition flag_of (name : string) : argument :=
  match name with
  | EmptyString => BadSyntax
  | String a _ =>
      if Ascii.eqb a "-" || Ascii.eqb a "=" then BadSyntax
      else match SplitN2 name "=" with
           | [n; value] => Flag n (Some value)
           | _ => Flag name None
           end
  end.

Definition classify (s : string) : argument :=
  match s with
  | String a (String b name) =>
      if negb (Ascii.eqb a "-") then NotAFlag
      else if Ascii.eqb b "-" then if is_empty name then Terminator else flag_of name
      else flag_of (String b name)
  | _ => NotAFlag
  end.

Section Parse.
Context {L : ClientLib}.
Abbreviation config := (@config L).

(** What the variables are bound to. *)
Definition set_string (f : string_flag) (value : string) (c : config) : config :=
  let set (g : string_flag) (old : string) := if decide (g = f) then value else old in
  mkConfig (set F_endpoint (endpoint c)) (set F_nodeName (nodeName c))
    (set F_infraClusterNamespace (cfg_infraClusterNamespace c)) (set F_infraClusterKubeconfig (infraClusterKubeconfig c))
    (set F_infraClusterLabels (cfg_infraClusterLabels c)) (set F_volumePrefix (cfg_volumePrefix c))
    (infraStorageClassEnforcement c) (set F_tenantClusterKubeconfig (tenantClusterKubeconfig c))
    (runNodeService c) (runControllerService c) (tenantConfig c) (infraConfig c) (tenantClientset c)
    (tenantSnapshotClientset c) (infraClientset c) (cfg_virtClient c).

Definition set_bool (f : bool_flag) (value : bool) (c : config) : config :=
  let set (g : bool_flag) (old : bool) := if decide (g = f) then value else old in
  mkConfig (endpoint c) (nodeName c) (cfg_infraClusterNamespace c) (infraClusterKubeconfig c) (cfg_infraClusterLabels c)
    (cfg_volumePrefix c) (infraStorageClassEnforcement c) (tenantClusterKubeconfig c)
    (set F_runNodeService (runNodeService c)) (set F_runControllerService (runControllerService c))
    (tenantConfig c) (infraConfig c) (tenantClientset c) (tenantSnapshotClientset c) (infraClientset c) (cfg_virtClient c).

Definition set_enforcement (value : string) (c : config) : config :=
  mkConfig (endpoint c) (nodeName c) (cfg_infraClusterNamespace c) (infraClusterKubeconfig c) (cfg_infraClusterLabels c)
    (cfg_volumePrefix c) value (tenantClusterKubeconfig c) (runNodeService c) (runControllerService c)
    (tenantConfig c) (infraConfig c) (tenantClientset c) (tenantSnapshotClientset c) (infraClientset c) (cfg_virtClient c).

(** What the values of klog's flags refuse. *)
Variable klog_Set : string -> string -> option error.

(** [flag.Value.Set]: the configuration with the value, or the error. *)
Definition Set_value (f : formal_flag) (value : string) (c : config) : result config :=
  match f with
  | StringVar f => (set_string f value c, None)
  | BoolVar f =>
      match ParseBool value with
      | Some b => (set_bool f b c, None)
      | None => (set_bool f false c, Some (errors_New "parse error"))
      end
  | KlogVar name _ => (c, klog_Set name value)
  end.

Definition IsBoolFlag (f : formal_flag) : bool :=
  match f with StringVar _ => false | BoolVar _ => true | KlogVar _ b => b end.

(** [FlagSet.Parse]; the arguments that remain are not used. *)
Fixpoint Parse (args : list string) (c : config) : result config :=
  match args with
  | [] => (c, None)
  | s :: args =>
      match classify s with
      | NotAFlag | Terminator => (c, None)
      | BadSyntax => (c, Some (Errorf "bad flag syntax: %s" [AStr s]))
      | Flag name value =>
          match lookup_flag name with
          | None =>
              if (name =s? "help") || (name =s? "h") then (c, Some (errors_New "flag: help requested"))
              else (c, Some (Errorf "flag provided but not defined: -%s" [AStr name]))
          | Some f =>
              if IsBoolFlag f then
                let '(c, err) := Set_value f (default "true" value) c in
                match err with
                | Some e => (c, Some match value with
                              | Some v => Errorf "invalid boolean value %q for -%s: %v" [AStr v; AStr name; AErr e]
                              | None => Errorf "invalid boolean flag %s: %v" [AStr name; AErr e]
                              end)
                | None => Parse args c
                end
              else
                match value, args with
                | None, [] => (c, Some (Errorf "flag needs an argument: -%s" [AStr name]))
                | Some v, args | None, v :: args =>
                    let '(c, err) := Set_value f v c in
                    match err with
                    | Some e => (c, Some (Errorf "invalid value %q for flag -%s: %v" [AStr v; AStr name; AErr e]))
                    | None => Parse args c
                    end
                end
          end
      end
  end.

(** ** [parseConfig] and [main] *)

(** [&config{}] once the flags are declared. *)
Definition defaultConfig : config :=
  mkConfig "unix:/csi/csi.sock" "" "" "" "" "pvc" "" "" true true None None None None None None.

Definition parseConfig (getenv : string -> string) (args : list string) : option config * option error :=
  let '(cfg, err) := Parse args defaultConfig in
  match err with
  | Some e => (None, Some e)
  | None => (Some (set_enforcement (getenv "INFRA_STORAGE_CLASS_ENFORCEMENT") cfg), None)
  end.

(** How [main] goes on: it exits, dies, or runs the driver at an endpoint. *)
Inductive main_end :=
| Exit (code : Z)
| FatalExit (why : string)
| RunDriver (d : @KubevirtCSIDriver L) (endpoint : string).

Definition main (yaml_Unmarshal : string -> result StorageClassEnforcement) (vendorVersion : string) (getenv : string -> string) (args : list string)
    : prog (@configE L) main_end :=
  let '(cfg, err) := parseConfig getenv args in
  if negb (is_nil err) then Ret (Exit 1)
  else if negb (is_nil (prechecks vendorVersion)) then Ret (FatalExit "Prechecks failed: %s")
  else
    cfg ← deref "cfg" cfg;
    '(driver, cfg) ← initializeDriver yaml_Unmarshal cfg;
    match driver with
    | inr _ => Ret (FatalExit "Failed to initialize driver: %s")
    | inl driver => Ret (RunDriver driver (endpoint cfg))
    end.

(** ** The command lines that are accepted *)

(** What one flag on the command line sets. *)
Inductive setting := SetString (f : string_flag) (value : string) | SetBool (f : bool_flag) (value : bool) | SetKlog.

Definition accepts (f : formal_flag) (value : string) : option setting :=
  match f with
  | StringVar f => Some (SetString f value)
  | BoolVar f => SetBool f <$> ParseBool value
  | KlogVar name _ => match klog_Set name value with None => Some SetKlog | Some _ => None end
  end.

Definition apply_setting (c : config) (st : setting) : config :=
  match st with SetString f v => set_string f v c | SetBool f b => set_bool f b c | SetKlog => c end.

(** The words of a flag: after one or two dashes its name, and its value after an
    [=] or, unless it is boolean, in the next word; a boolean flag by itself is
    true. *)
Inductive spells : list string -> setting -> Prop :=
| spells_equals dash name f v st :
    dash ∈ ["-"; "--"] -> lookup_flag name = Some f -> accepts f v = Some st ->
    spells [dash +:+ name +:+ String "=" v] st
| spells_next dash name f v st :
    dash ∈ ["-"; "--"] -> lookup_flag name = Some f -> IsBoolFlag f = false -> accepts f v = Some st ->
    spells [dash +:+ name; v] st
| spells_alone dash name f st :
    dash ∈ ["-"; "--"] -> lookup_flag name = Some f -> IsBoolFlag f = true -> accepts f "true" = Some st ->
    spells [dash +:+ name] st.

(** Flags up to the end, to the first word that is not one, or to [--]. *)
Inductive command_line : list string -> list setting -> Prop :=
| line_end : command_line [] []
| line_rest s rest : classify s = NotAFlag \/ classify s = Terminator -> command_line (s :: rest) []
| line_flag words st rest sts : spells words st -> command_line rest sts -> command_line (words ++ rest) (st :: sts).

(** The names can be written on the command line. *)
Definition good_name (name : string) : bool :=
  negb (has_byte "=" name) &&
  match name with EmptyString => false | String a _ => negb (Ascii.eqb a "-") && negb (Ascii.eqb a "=") end.

Lemma lookup_flag_good name f : lookup_flag name = Some f -> good_name name = true.
Proof.
  unfold lookup_flag. destruct (List.find _ formal) as [[n g]|] eqn:Hf; [|done]. intros _.
  apply find_some in Hf as [Hin Hn]. cbn in Hn. apply streq_spec in Hn as <-.
  assert (Hall : forallb (fun x => good_name x.1) formal = true) by reflexivity.
  rewrite forallb_forall in Hall. by apply (Hall (n, g)).
Qed.

Lemma flag_of_good a s :
  Ascii.eqb a "-" = false -> Ascii.eqb a "=" = false ->
  flag_of (String a s) = match SplitN2 (String a s) "=" with
    | [n; value] => Flag n (Some value)
    | _ => Flag (String a s) None
    end.
Proof. intros H1 H2. unfold flag_of. by rewrite H1, H2. Qed.

Lemma classify_dash dash a s : dash ∈ ["-"; "--"] -> Ascii.eqb a "-" = false ->
  classify (dash +:+ String a s) = flag_of (String a s).
Proof.
  intros Hd Ha. apply elem_of_cons in Hd as [->|Hd%list_elem_of_singleton]; [|subst dash].
  - change ("-" +:+ String a s) with (String "-" (String a s)). unfold classify. by rewrite Ha.
  - done.
Qed.

(** How the words of a flag are read. *)
Lemma classify_flag dash name value f : dash ∈ ["-"; "--"] -> lookup_flag name = Some f ->
  classify (dash +:+ name +:+ match value with Some v => String "=" v | None => EmptyString end) = Flag name value.
Proof.
  intros Hd Hf. pose proof (lookup_flag_good _ _ Hf) as H. unfold good_name in H.
  destruct name as [|a name]; [by rewrite andb_false_r in H|]. reflect_bools.
  rewrite append_cons, classify_dash, flag_of_good, <- append_cons by done.
  destruct value as [v|]; [by rewrite SplitN2_app|]. by rewrite append_nil_r, SplitN2_no_sep.
Qed.

(** And what a word that is a flag is. *)
Lemma classify_inv s name value : classify s = Flag name value ->
  exists dash, dash ∈ ["-"; "--"] /\ s = dash +:+ name +:+ match value with Some v => String "=" v | None => EmptyString end.
Proof.
  assert (Hf : forall s, flag_of s = Flag name value ->
    s = name +:+ match value with Some v => String "=" v | None => EmptyString end).
  { intros [|a r] H; [done|]. unfold flag_of in H. destruct (_ || _); [done|].
    pose proof (SplitN2_inv (String a r) "=") as Hs.
    destruct (SplitN2 (String a r) "=") as [|x [|y [|z l]]]; simplify_eq; try (by rewrite append_nil_r). by destruct Hs. }
  intros H. destruct s as [|a s]; [done|].
  destruct s as [|b s]; [done|]. unfold classify in H. destruct (Ascii.eqb a "-") eqn:Ha; [|done].
  apply Ascii.eqb_eq in Ha as ->. destruct (Ascii.eqb b "-") eqn:Hb.
  - apply Ascii.eqb_eq in Hb as ->. destruct s as [|d s]; [done|].
    exists "--". split; [set_solver|]. by rewrite <- (Hf (String d s)).
  - exists "-". split; [set_solver|]. by rewrite <- (Hf (String b s)).
Qed.

Lemma Set_value_accepts f v c : match accepts f v with
  | Some st => Set_value f v c = (apply_setting c st, None)
  | None => (Set_value f v c).2 <> None
  end.
Proof.
  destruct f as [f|f|name b]; simpl; [done|by destruct (ParseBool v)|]. by destruct (klog_Set name v).
Qed.

Lemma Set_value_ok f v st c : accepts f v = Some st -> Set_value f v c = (apply_setting c st, None).
Proof. intros H. pose proof (Set_value_accepts f v c) as Hs. by rewrite H in Hs. Qed.

Lemma Set_value_inv f v c c' : Set_value f v c = (c', None) -> exists st, accepts f v = Some st /\ c' = apply_setting c st.
Proof.
  intros H. pose proof (Set_value_accepts f v c) as Hs. destruct (accepts f v) as [st|].
  - rewrite H in Hs. injection Hs as ->. eauto.
  - by rewrite H in Hs.
Qed.

(** One flag is read. *)
Lemma Parse_flag words st rest c : spells words st -> Parse (words ++ rest) c = Parse rest (apply_setting c st).
Proof.
  intros [dash name f v st' Hd Hf Ha|dash name f v st' Hd Hf Hb Ha|dash name f st' Hd Hf Hb Ha]; cbn [app Parse].
  - rewrite (classify_flag dash name (Some v) f Hd Hf), Hf. change (default "true" (Some v)) with v.
    by destruct (IsBoolFlag f); rewrite (Set_value_ok _ _ _ c Ha).
  - pose proof (classify_flag dash name None f Hd Hf) as Hc. rewrite append_nil_r in Hc.
    by rewrite Hc, Hf, Hb, (Set_value_ok _ _ _ c Ha).
  - pose proof (classify_flag dash name None f Hd Hf) as Hc. rewrite append_nil_r in Hc.
    rewrite Hc, Hf, Hb. change (default "true" None) with "true". by rewrite (Set_value_ok _ _ _ c Ha).
Qed.

Lemma Parse_complete args sts c : command_line args sts -> Parse args c = (foldl apply_setting c sts, None).
Proof.
  intros H. revert c. induction H as [|s rest Hs|words st rest sts Hw _ IH]; intros c.
  - done.
  - simpl. by destruct Hs as [->| ->].
  - rewrite (Parse_flag _ _ _ _ Hw). apply IH.
Qed.

Lemma Parse_sound args c c' :
  Parse args c = (c', None) -> exists sts, command_line args sts /\ c' = foldl apply_setting c sts.
Proof.
  remember (length args) as n eqn:Hn. assert (Hle : (length args <= n)%nat) by lia. clear Hn.
  revert args c Hle. induction n as [|n IH]; intros [|s args] c Hle H; simpl in Hle; try lia.
  1,2: exists []; split; [constructor|]; by injection H as ->.
  simpl in H. destruct (classify s) as [| | |name value] eqn:Hs; try done.
  1,2: exists []; split; [constructor; auto|]; by injection H as ->.
  destruct (lookup_flag name) as [f|] eqn:Hf; [|by destruct (_ || _)].
  destruct (classify_inv _ _ _ Hs) as (dash & Hd & ->).
  assert (Hone : forall v words rest c0, (length rest <= n)%nat ->
    (forall st, accepts f v = Some st -> spells words st) ->
    Set_value f v c = (c0, None) -> Parse rest c0 = (c', None) ->
    exists sts, command_line (words ++ rest) sts /\ c' = foldl apply_setting c sts).
  { intros v words rest c0 Hlen Hsp Hv Hp. destruct (Set_value_inv _ _ _ _ Hv) as (st & Hst & ->).
    destruct (IH rest _ Hlen Hp) as (sts & Hl & ->). exists (st :: sts). split; [|done]. constructor; [by apply Hsp|done]. }
  destruct (IsBoolFlag f) eqn:Hb.
  - destruct (Set_value f _ c) as [c0 [e|]] eqn:Hv; [done|]. destruct value as [v|].
    + apply (Hone v [_] args c0); [lia| |done|done]. intros st. by apply spells_equals.
    + apply (Hone "true" [_] args c0); [lia| |done|done]. intros st Hst. rewrite append_nil_r. by apply (spells_alone dash name f).
  - destruct value as [v|].
    + destruct (Set_value f v c) as [c0 [e|]] eqn:Hv; [done|].
      apply (Hone v [_] args c0); [lia| |done|done]. intros st. by apply spells_equals.
    + destruct args as [|v args]; [done|]. destruct (Set_value f v c) as [c0 [e|]] eqn:Hv; [done|].
      simpl in Hle. apply (Hone v [_; v] args c0); [lia| |done|done]. intros st Hst. rewrite append_nil_r.
      by apply (spells_next dash name f).
Qed.
End Parse.

(** ** Properties *)

(** C26: [parseConfig] accepts exactly the command lines made of flags (one or two
    dashes, the value after an equals sign or in the next word, boolean flags by
    themselves or with a value that [ParseBool] reads), up to the first word that
    is not a flag or to [--]; the configuration is the default one with the
    settings applied in order, and with the policy of the environment.  So the
    last of several settings of a flag counts, and everything after a word that is
    not a flag (the [false] of [--run-node-service false], for one) is ignored.
    Any other command line is an error. *)
Theorem parseConfig_reads_line {L : ClientLib} klog_Set getenv args
    (c : @config L) :
  (parseConfig klog_Set getenv args = (Some c, None) <->
   exists sts, command_line klog_Set args sts /\
     c = set_enforcement (getenv "INFRA_STORAGE_CLASS_ENFORCEMENT") (foldl apply_setting defaultConfig sts)) /\
  ((forall sts, ~ command_line klog_Set args sts) <->
   exists e, @parseConfig L klog_Set getenv args = (None, Some e)).
Proof.
  unfold parseConfig. split.
  - split.
    + destruct (Parse klog_Set args defaultConfig) as [cfg [e|]] eqn:Hp; [done|]. intros [= <-].
      apply Parse_sound in Hp as (sts & Hl & ->). eauto.
    + intros (sts & Hl & ->). by rewrite (Parse_complete _ _ _ _ Hl).
  - destruct (Parse klog_Set args defaultConfig) as [cfg [e|]] eqn:Hp.
    + split; [by eauto|]. intros _ sts Hl. by rewrite (Parse_complete _ _ _ _ Hl) in Hp.
    + apply Parse_sound in Hp as (sts & Hl & ->). split; [intros Hn; by destruct (Hn sts)|by intros (e & [=])].
Qed.

Lemma foldl_settings_client {L : ClientLib} sts (c : @config L) :
  cfg_virtClient (foldl apply_setting c sts) = cfg_virtClient c.
Proof. revert c. induction sts as [|[] sts IH]; intros c; simpl; [done|by rewrite IH..]. Qed.

(** C27: how [main] goes on.  It exits with 1, before it makes any call, exactly on a
    command line that is refused.  When it runs the driver, the command line was
    accepted, the version is set, the endpoint is the one of the command line, and
    the driver is configured as the command line and the environment say. *)
Theorem main_runs_what_was_asked {L : ClientLib} {W}
    (h : handler (@configE L) W) w klog_Set yaml_Unmarshal version getenv args :
  let r := exec h (main klog_Set yaml_Unmarshal version getenv args) w [] in
  ((exists code, run_out r = Val (Exit code)) <-> forall sts, ~ command_line klog_Set args sts) /\
  match run_out r with
  | Val (Exit code) => code = 1 /\ run_trace r = []
  | Val (RunDriver d ep) => exists sts c',
      let c := set_enforcement (getenv "INFRA_STORAGE_CLASS_ENFORCEMENT") (foldl apply_setting defaultConfig sts) in
      command_line klog_Set args sts /\ version <> EmptyString /\ ep = endpoint c /\
      configured yaml_Unmarshal c (run_trace r) (inl d, c')
  | _ => True
  end.
Proof.
  cbv zeta. unfold main. destruct (parseConfig klog_Set getenv args) as [cfg err] eqn:Hp.
  unfold parseConfig in Hp. destruct (Parse klog_Set args defaultConfig) as [cfg0 [e|]] eqn:Hl; simplify_eq; cbn [is_nil negb].
  { cbn. split; [|done]. split; [|by eauto]. intros _ sts Hs. by rewrite (Parse_complete _ _ _ _ Hs) in Hl. }
  apply Parse_sound in Hl as (sts & Hs & ->).
  set (c := set_enforcement _ _). assert (Hv : cfg_virtClient c = None) by apply foldl_settings_client.
  match goal with |- context [exec h ?p w []] => set (q := p) end.
  assert (H : wp any q [] (fun t o => match o with
    | Val (Exit _) => False
    | Val (RunDriver d ep) => version <> EmptyString /\ exists c', ep = endpoint c /\ configured yaml_Unmarshal c t (inl d, c')
    | _ => True end)).
  { subst q. unfold prechecks. destruct (is_empty version) eqn:Ev; cbn [is_nil negb]; reflect_bools; [done|].
    cbn [deref bind]. apply wp_bind. eapply wp_mono; [|by apply wp_initializeDriver].
    intros t [[[d|e] c']|m]; cbn; try done. intros [Hc Hsame]. split; [done|]. exists c'. split; [apply Hsame|done]. }
  apply (wp_exec_any h q w []) in H. destruct (run_out (exec h q w [])) as [[code|why|d ep]|m].
  - done.
  - split; [|done]. split; [by intros [? ?]|]. intros Hn. by destruct (Hn sts).
  - destruct H as (Hver & c' & -> & Hc). split.
    + split; [by intros [? ?]|]. intros Hn. by destruct (Hn sts).
    + exists sts, c'. done.
  - split; [|done]. split; [by intros [? ?]|]. intros Hn. by destruct (Hn sts).
Qed.
