(* ===== verification/Deployments.v ===== *)
(** * The command lines of the manifests

    The arguments that the manifests give the driver's container, read by the
    command line of Flags.v: the deployed controllers run the controller service and
    the deployed daemon set the node service, each with what the manifest says.  The
    controller of the tenant cluster that bindata.go embeds is older than the two
    services and does not start. *)

From S2P Require Import Prelude GoStrings Json AssetData DeployData Manifests Errors Effects Util ClientAPI.
From S2P Require Import Controller Node RestConfig Driver Flags.

Local Open Scope string_scope.
Local Open Scope list_scope.

(** What the kubelet makes of an argument: [$(NAME)] at its end becomes the value
    of the variable; an argument without a dollar sign stays as it is. *)
Class Expansion (env : string -> string) (expand : string -> string) : Prop := {
  expand_plain s : has_byte "$" s = false -> expand s = s;
  expand_variable s name : has_byte "$" s = false -> has_byte ")" name = false ->
    expand (s +:+ "$(" +:+ name +:+ ")") = s +:+ env name }.

Section Deployments.
Context {L : ClientLib} {env expand : string -> string} {expansion : Expansion env expand}.
Variable klog_Set : string -> string -> option error.

(** The command line of the driver in a manifest. *)
Definition command (text : string) : list string := map expand (args_of "csi-driver" text).

(** A flag of a manifest: a literal value, or a variable. *)
Inductive argument_of := Literal (name value : string) | Variable_ (name variable : string).

Definition written (a : argument_of) : string :=
  match a with
  | Literal name value => "--" +:+ name +:+ String "=" value
  | Variable_ name variable => ("--" +:+ name +:+ "=") +:+ "$(" +:+ variable +:+ ")"
  end.

Definition value_of (a : argument_of) : string * string :=
  match a with Literal name value => (name, value) | Variable_ name variable => (name, env variable) end.

Definition setting_of (x : string * string) : option setting := 
  match lookup_flag x.1 with Some f => accepts klog_Set f x.2 | None => None end.

Definition clean (a : argument_of) : bool :=
  match a with
  | Literal name value => negb (has_byte "$" (written a))
  | Variable_ name variable => negb (has_byte "$" name) && negb (has_byte ")" variable)
  end.

Lemma expand_written a : clean a = true ->
  expand (written a) = "--" +:+ (value_of a).1 +:+ String "=" (value_of a).2.
Proof using expansion.
  destruct a as [name value|name variable]; cbn [clean value_of fst snd]; intros H; reflect_bools.
  - by apply expand_plain.
  - unfold written. rewrite expand_variable; [|by rewrite !has_byte_app; simpl; rewrite H|done].
    by rewrite !append_assoc.
Qed.

Lemma command_line_of args sts :
  Forall (fun a => clean a = true) args -> Forall2 (fun a st => setting_of (value_of a) = Some st) args sts ->
  command_line klog_Set (map expand (map written args)) sts.
Proof using expansion.
  intros Hc H. revert Hc. induction H as [|a st args sts Hst _ IH]; intros Hc; [constructor|].
  inversion Hc as [|? ? Ha Hc']; subst. cbn [map]. rewrite expand_written by done.
  unfold setting_of in Hst. destruct (lookup_flag _) as [f|] eqn:Hf; [|done].
  apply (line_flag klog_Set [_] st); [|by apply IH]. eapply (spells_equals klog_Set "--"); [set_solver|done|done].
Qed.

(** *** The arguments in the manifests *)

Definition v5 : argument_of := Literal "v" "5".

Definition infra_controller : list argument_of :=
  [Variable_ "endpoint" "CSI_ENDPOINT"; Variable_ "infra-cluster-namespace" "INFRACLUSTER_NAMESPACE";
   Variable_ "infra-cluster-labels" "INFRACLUSTER_LABELS";
   Literal "tenant-cluster-kubeconfig" "/var/run/secrets/tenantcluster/value";
   Literal "run-node-service" "false"; Literal "run-controller-service" "true"; v5].

Definition tenant_controller_flags : list argument_of :=
  [Variable_ "endpoint" "CSI_ENDPOINT"; Variable_ "infra-cluster-namespace" "INFRACLUSTER_NAMESPACE";
   Literal "infra-cluster-kubeconfig" "/var/run/secrets/infracluster/kubeconfig";
   Variable_ "infra-cluster-labels" "INFRACLUSTER_LABELS"].

Definition tenant_controller : list argument_of :=
  tenant_controller_flags ++ [Literal "run-node-service" "false"; Literal "run-controller-service" "true"; v5].

Definition node_plugin : list argument_of :=
  [Literal "endpoint" "unix:/csi/csi.sock"; Variable_ "node-name" "KUBE_NODE_NAME";
   Literal "run-node-service" "true"; Literal "run-controller-service" "false"; v5].

Lemma manifest_arguments :
  args_of "csi-driver" deployed_controller_infra = map written infra_controller /\
  args_of "csi-driver" _deployControllerInfraBaseDeployYaml = map written infra_controller /\
  args_of "csi-driver" deployed_controller_tenant = map written tenant_controller /\
  args_of "csi-driver" _deployControllerTenantBaseDeployYaml = map written (tenant_controller_flags ++ [v5]) /\
  args_of "csi-driver" deployed_tenant = map written node_plugin /\
  args_of "csi-driver" _deployTenantBaseDeployYaml = map written node_plugin.
Proof. by vm_compute. Qed.

Hypothesis verbosity : klog_Set "v" "5" = None.

(** The settings of the arguments, when they are all accepted. *)
Fixpoint settings (args : list argument_of) : option (list setting) :=
  match args with
  | [] => Some []
  | a :: args => match setting_of (value_of a), settings args with Some st, Some sts => Some (st :: sts) | _, _ => None end
  end.

Lemma settings_Forall2 args sts :
  settings args = Some sts -> Forall2 (fun a st => setting_of (value_of a) = Some st) args sts.
Proof.
  revert sts. induction args as [|a args IH]; intros sts H; simpl in H; [by simplify_eq|].
  destruct (setting_of (value_of a)) as [st|] eqn:Hst; [|done]. destruct (settings args) as [l|]; [|done].
  simplify_eq. constructor; [done|by apply IH].
Qed.

Lemma parse_command getenv args sts :
  forallb clean args = true -> settings args = Some sts ->
  parseConfig klog_Set getenv (map expand (map written args)) =
    (Some (set_enforcement (getenv "INFRA_STORAGE_CLASS_ENFORCEMENT") (foldl apply_setting defaultConfig sts)), None).
Proof using expansion.
  intros Hc Hs. unfold parseConfig. rewrite (Parse_complete klog_Set _ sts); [done|].
  apply command_line_of; [|by apply settings_Forall2]. by apply forallb_Forall_true.
Qed.

Ltac settings_of := vm_compute; rewrite ?verbosity; reflexivity.

(** The configurations that the manifests ask for. *)
Definition infra_controller_config (enforcement : string) : config :=
  mkConfig (env "CSI_ENDPOINT") "" (env "INFRACLUSTER_NAMESPACE") "" (env "INFRACLUSTER_LABELS") "pvc" enforcement
    "/var/run/secrets/tenantcluster/value" false true None None None None None None.

Definition tenant_controller_config (nodes : bool) (enforcement : string) : config :=
  mkConfig (env "CSI_ENDPOINT") "" (env "INFRACLUSTER_NAMESPACE") "/var/run/secrets/infracluster/kubeconfig"
    (env "INFRACLUSTER_LABELS") "pvc" enforcement "" nodes true None None None None None None.

Definition node_config (enforcement : string) : config :=
  mkConfig "unix:/csi/csi.sock" (env "KUBE_NODE_NAME") "" "" "" "pvc" enforcement "" true false
    None None None None None None.

Lemma parse_infra_controller getenv :
  parseConfig klog_Set getenv (map expand (map written infra_controller)) =
    (Some (infra_controller_config (getenv "INFRA_STORAGE_CLASS_ENFORCEMENT")), None).
Proof using All. erewrite parse_command; [|reflexivity|settings_of]. reflexivity. Qed.

Lemma parse_tenant_controller getenv :
  parseConfig klog_Set getenv (map expand (map written tenant_controller)) =
    (Some (tenant_controller_config false (getenv "INFRA_STORAGE_CLASS_ENFORCEMENT")), None).
Proof using All. erewrite parse_command; [|reflexivity|settings_of]. reflexivity. Qed.

Lemma parse_old_tenant_controller getenv :
  parseConfig klog_Set getenv (map expand (map written (tenant_controller_flags ++ [v5]))) =
    (Some (tenant_controller_config true (getenv "INFRA_STORAGE_CLASS_ENFORCEMENT")), None).
Proof using All. erewrite parse_command; [|reflexivity|settings_of]. reflexivity. Qed.

Lemma parse_node_plugin getenv :
  parseConfig klog_Set getenv (map expand (map written node_plugin)) =
    (Some (node_config (getenv "INFRA_STORAGE_CLASS_ENFORCEMENT")), None).
Proof using All. erewrite parse_command; [|reflexivity|settings_of]. reflexivity. Qed.
End Deployments.
Arguments infra_controller_config {L} env enforcement.
Arguments tenant_controller_config {L} env nodes enforcement.
Arguments node_config {L} env enforcement.
Arguments command : clear implicits.

(** ** Properties *)

(** C28: the command lines of the manifests start the services that they are meant
    to.  Whatever the variables of the container and what klog accepts beyond
    [--v=5]: the arguments of the controller in the infra cluster, of the
    controller in the tenant cluster and of the node plugin are read without error
    to exactly the configuration the manifest spells out, with the controller
    service only or the node service only.  The controller of the tenant cluster
    that bindata.go embeds asks for both services and gives no node name, so main
    never gets as far as running the driver with it. *)
Theorem manifests_start_their_services {L : ClientLib} env expand `{!Expansion env expand} klog_Set getenv :
  klog_Set "v" "5" = None ->
  let parse text := parseConfig klog_Set getenv (command expand text) in
  let enforcement := getenv "INFRA_STORAGE_CLASS_ENFORCEMENT" in
  parse deployed_controller_infra = (Some (infra_controller_config env enforcement), None) /\
  parse _deployControllerInfraBaseDeployYaml = (Some (infra_controller_config env enforcement), None) /\
  parse deployed_controller_tenant = (Some (tenant_controller_config env false enforcement), None) /\
  parse deployed_tenant = (Some (node_config env enforcement), None) /\
  parse _deployTenantBaseDeployYaml = (Some (node_config env enforcement), None) /\
  forall W (h : handler (@configE L) W) w yaml_Unmarshal version d endpoint,
    run_out (exec h (main klog_Set yaml_Unmarshal version getenv (command expand _deployControllerTenantBaseDeployYaml)) w [])
      <> Val (RunDriver d endpoint).
Proof.
  intros Hv parse enforcement. unfold parse, command. destruct manifest_arguments as (-> & -> & -> & H4 & -> & ->).
  rewrite parse_infra_controller, parse_tenant_controller, parse_node_plugin by done. split_and!; try done.
  intros W h w yaml_Unmarshal version d ep. rewrite H4. unfold main. rewrite parse_old_tenant_controller by done.
  cbn [is_nil negb]. destruct (prechecks version); [done|]. cbn [is_nil negb deref bind].
  match goal with |- run_out (exec h ?p w []) <> _ => set (q := p) end.
  assert (Hq : wp any q [] (fun _ o => match o with Val (RunDriver _ _) => False | _ => True end)).
  { subst q. apply wp_bind. eapply wp_mono; [|by apply wp_initializeDriver].
    intros t [[[d'|e] c']|m]; cbn; try done. by intros [(_ & (tenant & kn & id & Hn & _) & _) _]. }
  apply (wp_exec_any h q w []) in Hq. intros Hr. by rewrite Hr in Hq.
Qed.

(** *** One expansion *)

Definition demo_expand (env : string -> string) (s : string) : string :=
  match SplitN2 s "$" with [p; r] => p +:+ env (drop_last (string_drop 1 r)) | _ => s end.

Lemma drop_last_app s c : drop_last (s +:+ String c "") = s.
Proof.
  unfold drop_last. rewrite length_append, Nat.add_sub. induction s as [|a s IH]; [done|].
  rewrite append_cons. cbn [String.length String.substring]. by rewrite IH.
Qed.

#[local] Instance demo_expansion env : Expansion env (demo_expand env).
Proof.
  unfold demo_expand. split.
  - intros s Hs. by rewrite SplitN2_no_sep.
  - intros s name Hs _. change ("$(" +:+ name +:+ ")") with (String "$" (String "(" (name +:+ ")"))).
    rewrite SplitN2_app by done. cbn [string_drop]. by rewrite drop_last_app.
Qed.

Definition demo_env (name : string) : string := if name =s? "CSI_ENDPOINT" then "unix:///csi.sock" else "x".

Lemma manifests_start_their_services_witness :
  @parseConfig demo_lib (fun _ _ => None) (fun _ => "") (command (demo_expand demo_env) deployed_controller_tenant) =
    (Some (mkConfig "unix:///csi.sock" "" "x" "/var/run/secrets/infracluster/kubeconfig" "x" "pvc" "" "" false true
      None None None None None None), None).
Proof.
  destruct (@manifests_start_their_services demo_lib demo_env (demo_expand demo_env) _ (fun _ _ => None) (fun _ => "") eq_refl)
    as (_ & _ & H & _). exact H.
Defined.
