(* ===== verification/Server.v ===== *)
(** * The gRPC server and the identity service

    pkg/service/server.go, pkg/service/identity.go and [Run] of
    pkg/service/driver.go.  Parsing the endpoint, the file system, the listener,
    the gRPC server and the wait group are operations; [klog.Fatal] ends the
    process.  [Run] starts the server in a goroutine and waits for it: the two
    goroutines are run by Goroutines.v. *)

From S2P Require Import Prelude GoStrings Errors Effects Goroutines Csi ClientAPI.
From S2P Require Import Controller Node RestConfig Driver.

Local Open Scope string_scope.
Local Open Scope list_scope.
Local Open Scope Z_scope.

Inductive service := IdentityServer | ControllerSvc | NodeServer.

(** What the code reads of a [url.URL]. *)
Record URL := mkURL { u_Scheme : string; u_Host : string; u_Path : string }.

Module Server.
Inductive call :=
| ParseURL (endpoint : string)
| RemoveFile (path : string)
| StatDir (path : string)                        (* os.Stat(filepath.Dir(path)) *)
| Listen (network address : string)
| SetServer                                      (* s.server = server, a new gRPC server *)
| GetServer                                      (* s.server: is it set? *)
| Register (s : service)
| Serve
| GracefulStop | StopNow                         (* of the gRPC server *)
| WgAdd (delta : nat) | WgDone | WgWait          (* of s.wg *)
| Go                                             (* go s.serve(...) *)
| Begin                                          (* the start of that goroutine *)
| Klog                                           (* a log line *)
| ServerVersion.                                 (* Discovery().ServerVersion() *)

Definition answer (c : call) : Type :=
  match c with
  | ParseURL _ => result (option URL)
  | RemoveFile _ | StatDir _ | Listen _ _ | Serve | ServerVersion => option error
  | GetServer => bool
  | SetServer | Register _ | GracefulStop | StopNow | WgAdd _ | WgDone | WgWait | Go | Begin | Klog => unit
  end.
End Server.

Definition serverE : signature := Signature Server.call Server.answer.
Definition server (c : Server.call) : prog serverE (Server.answer c) := call (E := serverE) c.

(** [klog.Fatal]: the process ends. *)
Inductive exit := Fatal (why : string) | Returned.

(** A Go interface value: [None] is the nil interface; [Some false] holds a nil
    pointer, [Some true] a service.  A nil pointer in an interface is not the nil
    interface. *)
Abbreviation interface := (option bool).

Definition is_unix (u : URL) : bool := u_Scheme u =s? "unix".

(** [if ids != nil { csi.Register...Server(server, ids) }] *)
Definition register (s : service) (i : interface) : prog serverE unit :=
  match i with Some _ => server (Server.Register s) | None => Ret tt end.

(** What follows the choice of the address. *)
Definition listen_and_serve (scheme addr : string) (ids cs ns : interface) : prog serverE exit :=
  err ← server (Server.Listen scheme addr);
  if negb (is_nil err) then Ret (Fatal "Failed to listen: %v") else
  _ ← server Server.SetServer;
  _ ← register IdentityServer ids;
  _ ← register ControllerSvc cs;
  _ ← register NodeServer ns;
  err ← server Server.Serve;
  if negb (is_nil err) then Ret (Fatal "Failed to serve: %v") else Ret Returned.

Definition serve (endpoint : string) (ids cs ns : interface) : prog serverE exit :=
  '(u, err) ← server (Server.ParseURL endpoint);
  if negb (is_nil err) then Ret (Fatal "parse") else
  u ← deref "u" u;
  if is_unix u then
    err ← server (Server.RemoveFile (u_Path u));
    if match err with Some e => negb (os_IsNotExist e) | None => false end
    then Ret (Fatal "Failed to remove %s, error: %s") else
    err ← server (Server.StatDir (u_Path u));
    match err with
    | Some e =>
        if os_IsNotExist e
        then Ret (Fatal "Expected Kubelet plugin watcher to create parent dir %s but did not find such a dir")
        else Ret (Fatal "Failed to stat %s, error: %s")
    | None => listen_and_serve (u_Scheme u) (u_Path u) ids cs ns
    end
  else if u_Scheme u =s? "tcp" then listen_and_serve (u_Scheme u) (u_Host u) ids cs ns
  else Ret (Fatal "%v endpoint scheme not supported").

(** ** The life of the server *)

Definition Start : prog serverE unit := _ ← server (Server.WgAdd 1); server Server.Go.

Definition Wait : prog serverE unit := server Server.WgWait.

(** [s.server.GracefulStop()] and [s.server.Stop()]: methods of a pointer that is
    nil until [serve] has set it, and that they dereference. *)
Definition Stop : prog serverE unit :=
  set ← server Server.GetServer;
  if set then server Server.GracefulStop else Panic "s.server".

Definition ForceStop : prog serverE unit :=
  set ← server Server.GetServer;
  if set then server Server.StopNow else Panic "s.server".

(** The interceptor of every RPC: [req] and [handler] are its own. *)
Definition logGRPC {Req Resp} (req : Req) (handler : Req -> prog serverE (result Resp)) : prog serverE (result Resp) :=
  _ ← server Server.Klog;
  '(resp, err) ← handler req;
  _ ← server Server.Klog;
  Ret (resp, err).

(** [driver.IdentityService] as an interface: a pointer, possibly nil. *)
Definition as_interface {A} (p : option A) : interface := Some (negb (is_nil p)).

Section Run.
Context {L : ClientLib}.
Variable d : @KubevirtCSIDriver L.

(** The server that [Run] starts. *)
Definition run_serve (endpoint : string) : prog serverE exit :=
  serve endpoint (as_interface (drv_Identity d)) (as_interface (drv_Controller d)) (as_interface (drv_Node d)).

Definition Run : prog serverE exit := _ ← Start; _ ← Wait; Ret Returned.

(** The goroutines of [Run]: the caller's, and the one that the caller starts. *)
Definition goroutines (endpoint : string) : list (prog serverE exit) :=
  [Run; _ ← server Server.Begin; run_serve endpoint].
End Run.

(** ** The identity service *)

Definition GetPluginInfo : string * string := (VendorName, VendorVersion).

Definition GetPluginCapabilities : list PluginCapability := [CONTROLLER_SERVICE; ONLINE_EXPANSION; OFFLINE_EXPANSION].

Record ProbeResponse := mkProbeResponse { Ready : option bool }.

Definition connectivityProbe_Probe : prog serverE (option error) := server Server.ServerVersion.

Definition Probe : prog serverE (result (option ProbeResponse)) :=
  err ← connectivityProbe_Probe;
  if negb (is_nil err) then Ret (None, err) else Ret (Some (mkProbeResponse (Some true)), None).

(** ** What the server does *)

(** The tests of [serve] against nil never fail on what [Run] passes: a driver
    that serves has registered all three services, the ones that were not
    configured too. *)
Lemma run_registers_all {L : ClientLib} {W} (h : handler serverE W) w endpoint
    (d : @KubevirtCSIDriver L) s :
  run_out (exec h (run_serve d endpoint) w []) = Val Returned ->
  Ev (E := serverE) (Server.Register s) tt ∈ run_trace (exec h (run_serve d endpoint) w []).
Proof.
  assert (Hl : forall scheme addr t, wp any (listen_and_serve scheme addr (as_interface (drv_Identity d))
     (as_interface (drv_Controller d)) (as_interface (drv_Node d))) t
     (fun t o => o = Val Returned -> Ev (E := serverE) (Server.Register s) tt ∈ t)).
  { intros scheme addr t. unfold listen_and_serve, register, as_interface, server. psimpl.
    split; [done|]. intros [e|] _; psimpl; [done|].
    do 4 (split; [done|]; intros [] _; psimpl). split; [done|]. intros [e|] _; psimpl; [done|].
    intros _. destruct s; set_solver. }
  intros Hr. pose proof (wp_exec_any h (run_serve d endpoint) w []
    (fun t o => o = Val Returned -> Ev (E := serverE) (Server.Register s) tt ∈ t)) as H. apply H; [|done].
  unfold run_serve, serve, server. psimpl. split; [done|]. intros [u [e|]] _; psimpl; [done|].
  destruct u as [u|]; psimpl; [|done]. destruct (is_unix u).
  - psimpl. split; [done|]. intros err _. destruct (match err with Some _ => _ | None => _ end); psimpl; [done|].
    split; [done|]. intros [e|] _; psimpl; [by destruct (os_IsNotExist e)|apply Hl].
  - destruct (u_Scheme u =s? "tcp"); [apply Hl|done].
Qed.

(** ** The goroutines *)

(** The wait group's counter, whether the goroutine was started, and [s.server]. *)
Record life := mkLife { wg : nat; started : bool; has_server : bool }.

(** The server object as an environment: [Wait] blocks until the counter is zero;
    parsing, files, listener and gRPC server may answer anything. *)
Definition life_step (i : nat) : environment serverE life := fun (o : Server.call) s =>
  match o return Server.answer o -> life -> Prop with
  | Server.WgAdd n => fun _ s' => s' = mkLife (wg s + n) (started s) (has_server s)
  | Server.WgDone => fun _ s' => s' = mkLife (wg s - 1) (started s) (has_server s)
  | Server.WgWait => fun _ s' => wg s = 0%nat /\ s' = s
  | Server.Go => fun _ s' => s' = mkLife (wg s) true (has_server s)
  | Server.Begin => fun _ s' => started s = true /\ s' = s
  | Server.SetServer => fun _ s' => s' = mkLife (wg s) (started s) true
  | Server.GetServer => fun b s' => b = has_server s /\ s' = s
  | _ => fun _ s' => s' = s
  end.

Definition no_done (o : op serverE) : Prop := o <> Server.WgDone.

Lemma serve_no_done endpoint ids cs ns : only no_done (serve endpoint ids cs ns).
Proof.
  assert (Hl : forall scheme addr, only no_done (listen_and_serve scheme addr ids cs ns)).
  { intros scheme addr. unfold listen_and_serve. split; [done|]. intros [e|]; [done|]. split; [done|]. intros []. cbn [bind].
    assert (Hr : forall s i, only no_done (register s i)) by (intros s [b|]; [by split|done]).
    apply only_bind; [apply Hr|]. intros []. apply only_bind; [apply Hr|]. intros [].
    apply only_bind; [apply Hr|]. intros []. cbn [bind server call]. split; [done|]. by intros [e|]. }
  unfold serve. split; [done|]. intros [u [e|]]; [done|]. simpl. apply only_bind; [by destruct u|]. intros u'.
  destruct (is_unix u'); [|by destruct (_ =s? _)]. split; [done|]. intros err. simpl.
  destruct (match err with Some _ => _ | None => _ end); [done|]. split; [done|]. intros [e|]; simpl; [by destruct (os_IsNotExist e)|apply Hl].
Qed.

(** Where the caller of [Run] is, and the counter. *)
Inductive running (s : life) (p : prog serverE exit) : Prop :=
| at_start : p = Run -> running s p
| at_go : p = (_ ← server Server.Go; _ ← Wait; Ret Returned) -> (1 <= wg s)%nat -> running s p
| at_wait : p = (_ ← Wait; Ret Returned) -> (1 <= wg s)%nat -> running s p.

Lemma running_step s p i : running s p -> steps_to (life_step i) s p (fun p' s' => running s' p').
Proof.
  intros [->| -> H| -> H]; intros r s' Hs; simpl in *; subst.
  - destruct r. apply at_go; [done|]. simpl. lia.
  - destruct r. by apply at_wait.
  - destruct Hs as [H0 ->]. lia.
Qed.

(** Nobody calls [wg.Done()], and the caller of [Run] is running. *)
Definition waiting (st : life * list (prog serverE exit)) : Prop :=
  Forall (only no_done) st.2 /\ exists p, st.2 !! 0%nat = Some p /\ running st.1 p.

Lemma waiting_start {L : ClientLib} (d : @KubevirtCSIDriver L) endpoint others :
  (forall p, p ∈ others -> only no_done p) -> waiting (mkLife 0 false false, goroutines d endpoint ++ others).
Proof.
  intros Ho. split; [|exists Run; split; [done|by apply at_start]].
  apply Forall_app. split; [|by apply Forall_forall]. repeat constructor; try done. intros []. apply serve_no_done.
Qed.

(** Only [WgDone] lowers the counter. *)
Lemma life_step_wg i (o : op serverE) s a s' : no_done o -> life_step i o s a s' -> (wg s <= wg s')%nat.
Proof. intros Ho Hs. destruct o; simpl in *; destruct_and?; subst; simpl; try lia; done. Qed.

Lemma running_mono s s' p : (wg s <= wg s')%nat -> running s p -> running s' p.
Proof. intros H [->| -> ?| -> ?]; [by apply at_start|apply at_go|apply at_wait]; auto; lia. Qed.

Lemma waiting_step st st' : waiting st -> step life_step st st' -> waiting st'.
Proof.
  destruct st as [s ths], st' as [s' ths']. intros [Hall (p & Hp & Hrun)] Hs.
  destruct (step_inv _ _ _ _ Hs) as (i & o & k & a & Hi & He & Hths). simpl in *. subst ths'.
  pose proof (Forall_lookup_1 _ _ _ _ Hall Hi) as [Hno Hk]. split; [by apply Forall_insert|].
  destruct (decide (i = 0%nat)) as [->|Hne].
  - rewrite Hi in Hp. injection Hp as <-. exists (k a). split; [|by apply (running_step s _ 0%nat Hrun a)].
    cbn [snd]. apply list_lookup_insert_eq. by eapply lookup_lt_Some.
  - exists p. split; [cbn [snd]; by rewrite list_lookup_insert_ne|]. eapply running_mono; [|exact Hrun]. by eapply life_step_wg.
Qed.

(** ** A concrete run *)

(** A server that parses one endpoint, listens, and stops without error. *)
Definition life_op (i : nat) (o : Server.call) (s : life) : option (Server.answer o * life) :=
  match o return option (Server.answer o * life) with
  | Server.ParseURL _ => Some ((Some (mkURL "unix" "" "/csi/csi.sock"), None), s)
  | Server.RemoveFile _ => Some (None, s)
  | Server.StatDir _ => Some (None, s)
  | Server.Listen _ _ => Some (None, s)
  | Server.Serve => Some (None, s)
  | Server.ServerVersion => Some (None, s)
  | Server.WgAdd n => Some (tt, mkLife (wg s + n) (started s) (has_server s))
  | Server.WgDone => Some (tt, mkLife (wg s - 1) (started s) (has_server s))
  | Server.WgWait => if decide (wg s = 0%nat) then Some (tt, s) else None
  | Server.Go => Some (tt, mkLife (wg s) true (has_server s))
  | Server.Begin => if started s then Some (tt, s) else None
  | Server.SetServer => Some (tt, mkLife (wg s) (started s) true)
  | Server.GetServer => Some (has_server s, s)
  | Server.Register _ | Server.GracefulStop | Server.StopNow | Server.Klog => Some (tt, s)
  end.

Lemma life_op_sound i (o : op serverE) s a s' : life_op i o s = Some (a, s') -> life_step i o s a s'.
Proof.
  destruct o; simpl; intros H; repeat case_match; try done; by injection H as <- <-.
Qed.

Definition demo_driver : @KubevirtCSIDriver demo_lib := NewKubevirtCSIDriver.

(** The server is stopped by a third goroutine once it serves; the process then
    hangs: no goroutine is left that can move. *)
Definition stopper : prog serverE exit := _ ← Stop; Ret Returned.

Definition demo_life : option (life * list (prog serverE exit)) :=
  run_schedule (life_op : nat -> forall o : op serverE, life -> option (resp o * life)) [0; 0; 1; 1; 1; 1; 1; 1; 1; 1; 1; 2; 2; 1]%nat
    (mkLife 0 false false, goroutines demo_driver "unix:/csi/csi.sock" ++ [stopper]).

Lemma demo_life_hangs : demo_life = Some (mkLife 1 true true, [_ ← Wait; Ret Returned; Ret Returned; Ret Returned]) /\
  forall st, ~ step life_step (mkLife 1 true true, [_ ← Wait; Ret Returned; Ret Returned; Ret Returned]) st.
Proof.
  split; [reflexivity|]. intros st Hs. destruct (step_inv _ _ _ _ Hs) as (i & o & k & a & Hi & He & _).
  destruct i as [|[|[|i]]]; try done.
  assert (H : steps_to (life_step 0) (mkLife 1 true true) (_ ← Wait; Ret Returned : prog serverE exit) (fun _ _ => False)).
  { intros r s' [Hz _]. done. }
  change (Some (_ ← Wait; Ret Returned : prog serverE exit) = Some (Vis o k)) in Hi. apply (inj Some) in Hi.
  rewrite Hi in H. exact (H a _ He).
Qed.

(** ** Properties *)

(** C29: [Run] never returns, and the process never gets to [os.Exit(0)]: whatever
    the endpoint, the files, the listener and the gRPC server answer, whatever
    other goroutines do with the server object short of a [wg.Done()] that the
    package does not make, and however they interleave, the goroutine that called
    [Run] does not end. *)
Theorem run_never_returns {L : ClientLib}
    (d : @KubevirtCSIDriver L) endpoint others s ths :
  (forall p, p ∈ others -> only no_done p) ->
  rtc (step life_step) (mkLife 0 false false, goroutines d endpoint ++ others) (s, ths) ->
  exists p, ths !! 0%nat = Some p /\ forall out, p <> Ret out.
Proof.
  intros Ho Hs. destruct (steps_invariant life_step waiting _ _ (waiting_start d endpoint others Ho) waiting_step Hs)
    as (_ & p & Hp & Hrun).
  exists p. split; [done|]. by destruct Hrun as [->| -> _| -> _].
Qed.

Lemma run_never_returns_witness : exists p : prog serverE exit,
  [_ ← Wait; Ret Returned; Ret Returned; Ret Returned] !! 0%nat = Some p /\ forall out, p <> Ret out.
Proof.
  apply (run_never_returns demo_driver "unix:/csi/csi.sock" [stopper] (mkLife 1 true true)).
  - intros p ->%list_elem_of_singleton. split; [done|]. by intros [].
  - apply (run_schedule_steps life_step (life_op : nat -> forall o : op serverE, life -> option (resp o * life)) [0; 0; 1; 1; 1; 1; 1; 1; 1; 1; 1; 2; 2; 1]%nat);
      [exact life_op_sound|apply demo_life_hangs].
Defined.
